(* ===== verification/_CoqProject ===== *)
-Q . S2P
Prelude.v
GoError.v
HidFraming.v
Transport.v
HidCommands.v
HidChannel.v
HidTransport.v
BleFraming.v
BleTransport.v
Token2.v
Iso7816.v
Protocol.v
Pin.v
Preflight.v
Cose.v
Crypto.v
Messages.v
Client.v
Management.v
PinSession.v
Sequences.v
Device.v
LargeBlobStore.v
Prf.v
Extensions.v
PreviewSign.v
Credentials.v
DeviceCache.v
Relational.v
ClientRel.v
DeviceRel.v
CredentialsRel.v
Application.v
Stack.v
Runs.v
Examples.v
Passkeys.v
PrfSession.v
LegacyBlobs.v
Select.v
Signature.v
Attestation.v
Registration.v
Arkg.v
SignExample.v
SignSession.v
Diagnostic.v
Schemas.v
Options.v
Redaction.v
Names.v
Tools.v
Tcp.v
Backend.v
HidProxy.v
TestHid.v
