(* ===== verification/Prelude.v ===== *)
(** * A verification library for the Go CTAP client library

    The repository (module github.com/telesma-app/ctap) talks to FIDO2
    authenticators: it frames CTAP messages for USB HID, BLE, NFC and the
    Token2 readers, encodes commands, runs the PIN/UV auth protocols, and
    checks every request against what the authenticator says it supports.
    This development models it bottom up, in the files _CoqProject lists,
    and proves what each layer promises to the one above.

    ** Conventions

    A Go call is a function to [GoError.result] - a value, an error, a panic,
    or [Blocked], the call not having returned - or, when it has effects, a
    function in the monad [GoError.M] over a world: the state of the
    connection with its remaining history (the reports, notifications or
    answers that will arrive, the outcomes of the context checks to come) and
    the record of what was sent. State survives the error paths. Errors are
    the inductive [GoError.error], with [errors.Is], [errors.As] and
    [errors.Join] over it. Bytes and machine integers are [Z] with their
    wrap-around written out ([u8] to [u64]); slices that may be nil are
    options; maps are [gmap]. Texts of formatted errors are kept where they
    are constant or print numbers, and abbreviated elsewhere. Code outside
    src/ (the CBOR codec, ciphers, Unicode normalisation, drivers) is a
    parameter: a class with its laws ([Crypto.Primitives], [Messages.Codec])
    or a section variable, and every law has an instance.

    ** The parts

    - Prelude, GoError: lengths, integers, chunks, options; errors, results
      and the state monad (src/transport/transport.go, src/fips140).
    - HidFraming, HidCommands, HidChannel, HidTransport: src/transport/ctaphid
      from the 64-byte report to the transport. HidFraming has the packets of
      encoding.go, decoding.go and raw.go; HidCommands the exchanges of
      commands.go; HidChannel the reader goroutine of channel_device.go as a
      step relation between a reader, a calling Read and Close, one step for
      each locked region; HidTransport the busy retries, cancellation and
      closing of transport.go.
    - BleFraming, BleTransport: src/transport/ctapble, the fragments and the
      GATT connection.
    - Token2, Iso7816: the APDU transports.
    - Transport, Protocol: status codes, versions, options, permissions, the
      getInfo response and the authenticator-data parser
      (src/transport/status.go, src/protocol).
    - Pin, Preflight: the PIN rules (src/internal/pin,
      src/authenticator/validation.go) and every check of
      src/authenticator/preflight.go.
    - Cose, Crypto: COSE keys and FIPS policy (src/cose/key.go,
      src/internal/fips140policy) and src/crypto: both PIN/UV auth protocols
      over HMAC, HKDF and CBC written out, large blobs, the encrypted getInfo
      members.
    - Signature, Attestation, Arkg: credential keys and signatures
      (src/cose/signature.go), attestation objects and statements
      (src/attestation), the derivation of ARKG-P256 keys (src/arkg/p256.go).
    - Messages, Client, Management: the structures of src/protocol and every
      command of src/client/commands.go; a returned sequence is a function of
      the caller's yield.
    - Device: src/authenticator/authenticator.go, the methods of [Device]
      over the client, with the cached getInfo response.
    - Prf, Extensions, PreviewSign, Credentials: the webauthn inputs and
      outputs of a credential (src/webauthn) with their checks (prf.go,
      extension_validation.go, large_blob.go and preview_sign.go of
      src/authenticator), and [Device.MakeCredential] and
      [Device.GetAssertion], which run a credential through them.
    - Select: src/authenticator/select.go, the opening of the transports as a
      function and the race of the selections as a step relation.
    - PinSession, LargeBlobStore, PrfSession: what an authenticator does with
      the ClientPIN, large-blob and hmac-secret commands, written from CTAP
      2.1 and 2.3 as transports over the authenticator's state; the client is
      proved against them.
    - Sequences, DeviceCache, LegacyBlobs, Registration: the traffic of the
      client's enumerations, the coherence of the cache, the large blobs of
      credentials over the shared array, and what a created credential has.
    - Relational, ClientRel, DeviceRel, CredentialsRel: the interface of the
      relations between calls in two worlds that the monad's operations keep,
      and that every command of the client and the device is related to
      itself over related transports.
    - Application, Stack: programs over the methods of [Device] with
      variables, error handling and range loops; the contract of a transport
      ([Stack.Link]) with the four transports as its instances; the
      authenticator, called directly, as the specification.
    - Runs: the small program logic in which a program is run, step by step,
      against an authenticator that a specification gives.
    - Examples, Passkeys: the programs of src/examples that list passkeys, and
      authenticatorCredentialManagement as CTAP 2.3 specifies it.
    - SignExample, SignSession: the program of src/examples/previewsign, which
      creates a credential with a signing key, derives a key from it and has a
      message signed under it, and an authenticator with such keys.
    - Tools: the programs of src/examples that show authenticators.
    - Diagnostic, Schemas, Redaction: src/client/diagnostic.go and
      exchange_diagnostic.go - rendering along the struct tags, the schemas of
      every exchange - and what an event keeps from its sink.
    - Options: src/options, and the constructors that take options.
    - Tcp, Backend, HidProxy: src/backend, the report stream over TCP, and how
      each backend lists, opens and hands over devices, the Windows proxy
      with its goroutine of events included.
    - Names: the String and Name methods, with the tables stringer generates.
    - TestHid: src/internal/testhid, the scripted authenticator of the tests.

    ** What the theorems show

    - Framing (HidFraming, BleFraming): encoding and decoding are inverse for
      every size the format can carry, what the decoder accepts is what an
      encoder wrote, and the size limits are exact.
    - Exchanges (HidCommands, HidTransport, BleTransport, Token2, Iso7816):
      a command returns the answer to it, past other channels' traffic,
      keepalives and busy errors; a context that ends sends one CANCEL, or
      the cancelling poll, and drains the answer, over CTAPHID when it ends
      between answers (inside one the drain falls short, and the theorem says
      what is left); a device that fails, in the drain too, is closed and
      reported invalidated, and no other is.
    - Concurrency (HidChannel, Select): reports come out in order, no wake-up
      is lost, Close closes the device once and ends the reader and the
      caller; the race of the selections ends, and closes every device but
      the one it returns.
    - Decisions (Pin, Preflight, Prf): each check passes exactly in the cases
      its specification lists; the two credential preflights agree with the
      authenticator's own algorithm; PRF inputs are evaluated exactly when one
      choice, WebAuthn's for each credential, fits all that may answer.
    - Data and cryptography (Protocol, Cose, Crypto, Signature, Attestation,
      Arkg): authenticator data parses exactly when it is laid out so; key
      agreement, encryption and large blobs round-trip; a credential key
      verifies under the algorithms of its type and curve only; an attestation
      is valid exactly when its signature is; both sides of ARKG derive one
      key pair.
    - End to end (Management, PinSession, Sequences, LargeBlobStore,
      DeviceCache, PrfSession, LegacyBlobs, Registration): the parameter of
      each authenticated request is the one the authenticator computes; the
      PIN commands reach their goal; an enumeration yields what was announced;
      an array written is read back, and so are the blobs of credentials in
      it; the cached getInfo response is never stale, whichever methods were
      called; PRF results are the authenticator's; a created credential meets
      the request, output by output.
    - The whole stack (Stack, Passkeys): any program over the device API runs
      over CTAPHID, BLE, Token2 and ISO 7816 as it does when it calls the
      authenticator; the listing of the examples prints every passkey.
    - The previewSign example (SignSession): with an authenticator that follows
      the specification the program ends with the signature verified, over
      every connection; with any other it never reports a signature that is
      not one.
    - Around the protocol (Redaction, Tcp, Backend, HidProxy, TestHid): what
      is marked redact does not reach the diagnostics; TCP carries messages
      whole; every device a backend opens is closed or handed over, and they
      are opened by path or name in the order listed; a second
      decoder, of the test device, agrees with the encoder; the transports
      example closes every device it is given (Tools).

    ** Bounds and fuel

    The read loops recurse on the history of the connection and end with it
    in [Blocked]. The fuel of [HidCommands.receive_loop], of the retry loops
    and of the APDU loops is a length of that history, and lemmas show that
    more gives the same result. [Device.read_fragments] takes its fuel as an
    argument, because an authenticator may answer for ever; the round trip
    holds for every fuel above the number of fragments. The steps the caller
    of [Select] has left are a number that each of its steps lowers.
    Rendering takes the length of the item, which nesting lowers
    ([Redaction.render_returns]); the reads and writes of Tcp take one more
    than the events left and the length of the data; the parser of TestHid
    takes the length of its input ([TestHid.ParseRequests_settles]).

    ** What is not modelled

    - Of src/examples, what a process is given and leaves: flags, environment
      and log are arguments and outcomes. The device is the one the program
      opened, and namedpipe is run from its ping on: a ping needs CTAPHID,
      and the programs run over every transport.
    - Real time: delays and timeouts are events of the history. A mutex that
      serialises commands makes each one step.
    - Other modules: CBOR, ciphers and curves, Unicode tables, drivers, APDU
      chaining and the messages of the Windows proxy are parameters. *)
From Stdlib Require Export ZArith Lia.
From stdpp Require Export base tactics list strings gmap pretty.

#[export] Set Default Goal Selector "!".
#[global] Open Scope Z_scope.

(** ** Case analysis *)

(** [case_all H] destructs every match and conditional of hypothesis [H],
    discharging the branches its equation refutes. *)
Ltac case_all H :=
  repeat (lazymatch type of H with
          | context [match ?x with _ => _ end] =>
              let E := fresh "E" in destruct x eqn:E
          end; try discriminate H; simplify_eq/=).

(** [case_goal] does the same for the goal. *)
Ltac case_goal :=
  repeat (lazymatch goal with
          | |- context [match ?x with _ => _ end] =>
              let E := fresh "E" in destruct x eqn:E
          end; simplify_eq/=; try done).

(** Boolean tests of the source turned into propositions. *)
Ltac to_prop :=
  repeat match goal with
  | H : (_ && _)%bool = true |- _ => apply andb_true_iff in H; destruct H
  | H : (_ && _)%bool = false |- _ => apply andb_false_iff in H
  | H : (_ || _)%bool = true |- _ => apply orb_true_iff in H
  | H : (_ || _)%bool = false |- _ => apply orb_false_iff in H; destruct H
  | H : negb _ = true |- _ => apply negb_true_iff in H
  | H : negb _ = false |- _ => apply negb_false_iff in H
  | H : (_ <? _) = true |- _ => apply Z.ltb_lt in H
  | H : (_ <? _) = false |- _ => apply Z.ltb_ge in H
  | H : (_ <=? _) = true |- _ => apply Z.leb_le in H
  | H : (_ <=? _) = false |- _ => apply Z.leb_gt in H
  | H : (_ =? _) = true |- _ => apply Z.eqb_eq in H
  | H : (_ =? _) = false |- _ => apply Z.eqb_neq in H
  | H : bool_decide _ = true |- _ => apply bool_decide_eq_true in H
  | H : bool_decide _ = false |- _ => apply bool_decide_eq_false in H
  end.

(** ** Lengths

    [len] is Go's [len]: lengths are compared as integers, so that the
    constants of the source (7609, 0xffff, ...) stay binary numbers. *)
Definition len {A} (l : list A) : Z := Z.of_nat (length l).

Create Rewrite HintDb len_db.

Section len.
Context {A : Type}.
Implicit Types l : list A.

Lemma len_nil : len (@nil A) = 0.
Proof. done. Qed.

Lemma len_cons x l : len (x :: l) = 1 + len l.
Proof. unfold len. simpl. lia. Qed.

Lemma len_app l1 l2 : len (l1 ++ l2) = len l1 + len l2.
Proof. unfold len. rewrite length_app. lia. Qed.

Lemma len_take n l : len (take n l) = Z.min (Z.of_nat n) (len l).
Proof. unfold len. rewrite length_take. lia. Qed.

Lemma len_drop n l : len (drop n l) = Z.max 0 (len l - Z.of_nat n).
Proof. unfold len. rewrite length_drop. lia. Qed.

Lemma len_replicate n (x : A) : len (replicate n x) = Z.of_nat n.
Proof. unfold len. by rewrite length_replicate. Qed.

Lemma len_reverse l : len (reverse l) = len l.
Proof. unfold len. by rewrite length_reverse. Qed.

Lemma len_nonneg l : 0 <= len l.
Proof. unfold len. lia. Qed.

Lemma len_0 l : len l = 0 -> l = [].
Proof. unfold len. destruct l; simpl; [done | lia]. Qed.

Lemma len_pos l : l <> [] -> 0 < len l.
Proof. unfold len. destruct l; simpl; [done | lia]. Qed.
End len.

Lemma len_fmap {A B} (f : A -> B) (l : list A) : len (f <$> l) = len l.
Proof. unfold len. by rewrite length_fmap. Qed.

#[export] Hint Rewrite @len_nil @len_cons @len_app @len_take @len_drop
  @len_replicate @len_reverse @len_fmap : len_db.

(** [len_lia] normalises lengths, adds their non-negativity and calls [lia]. *)
Ltac len_nonneg_all :=
  repeat match goal with
  | |- context [len ?l] =>
      lazymatch goal with
      | _ : 0 <= len l |- _ => fail
      | _ => pose proof (len_nonneg l)
      end
  | _ : context [len ?l] |- _ =>
      lazymatch goal with
      | _ : 0 <= len l |- _ => fail
      | _ => pose proof (len_nonneg l)
      end
  end.
Ltac len_lia := autorewrite with len_db in *; len_nonneg_all; lia.

(** ** Machine integers and byte order *)

(** The conversions [byte(x)], [uint16(x)], [uint32(x)] and the wrap-around
    of 64-bit [uint] arithmetic. *)
Definition u8 (z : Z) : Z := z mod 2 ^ 8.
Definition u16 (z : Z) : Z := z mod 2 ^ 16.
Definition u32 (z : Z) : Z := z mod 2 ^ 32.
Definition u64 (z : Z) : Z := z mod 2 ^ 64.

Definition is_byte (z : Z) : Prop := 0 <= z < 256.

#[export] Instance is_byte_dec z : Decision (is_byte z).
Proof. unfold is_byte. apply _. Defined.

(** [binary.BigEndian.PutUint16] and [Uint16]. *)
Definition put_be16 (v : Z) : list Z := [u8 (Z.shiftr v 8); u8 v].
Definition get_be16 (b0 b1 : Z) : Z := Z.lor (Z.shiftl b0 8) b1.

(** The little-endian encodings of [binary.LittleEndian], [n] bytes wide. *)
Fixpoint put_le (n : nat) (v : Z) : list Z :=
  match n with
  | O => []
  | S n' => u8 v :: put_le n' (Z.shiftr v 8)
  end.

(** Bit tests: a mask of one bit. *)
Definition has_bit (v mask : Z) : bool := negb (Z.land v mask =? 0).

Lemma u8_range z : 0 <= u8 z < 256.
Proof. unfold u8. apply Z.mod_pos_bound. lia. Qed.

Lemma u16_range z : 0 <= u16 z < 65536.
Proof. unfold u16. apply Z.mod_pos_bound. lia. Qed.

Lemma u64_range z : 0 <= u64 z < 2 ^ 64.
Proof. unfold u64. apply Z.mod_pos_bound. lia. Qed.

Lemma u8_id z : is_byte z -> u8 z = z.
Proof. intros. unfold u8. apply Z.mod_small. exact H. Qed.

Lemma u16_id z : 0 <= z < 65536 -> u16 z = z.
Proof. intros. unfold u16. by apply Z.mod_small. Qed.

Lemma u64_id z : 0 <= z < 2 ^ 64 -> u64 z = z.
Proof. intros. unfold u64. by apply Z.mod_small. Qed.

(** Disjoint bit ranges: [lor] of a multiple of [2 ^ n] and a number below
    [2 ^ n] is their sum. *)
Lemma land_shiftl_low a b n :
  0 <= n -> 0 <= b < 2 ^ n -> Z.land (Z.shiftl a n) b = 0.
Proof.
  intros Hn Hb. apply Z.bits_inj'. intros k Hk.
  rewrite Z.land_spec, Z.bits_0. destruct (Z.ltb_spec k n).
  - by rewrite Z.shiftl_spec_low by done.
  - rewrite <- (Z.mod_small b (2 ^ n)) by done.
    by rewrite Z.mod_pow2_bits_high, andb_false_r by lia.
Qed.

Lemma lor_shiftl_add a b n :
  0 <= n -> 0 <= b < 2 ^ n -> Z.lor (Z.shiftl a n) b = a * 2 ^ n + b.
Proof.
  intros Hn Hb. rewrite <- Z.shiftl_mul_pow2 by done.
  rewrite <- Z.lxor_lor, Z.add_nocarry_lxor by by apply land_shiftl_low.
  done.
Qed.

Lemma get_be16_add b0 b1 : is_byte b1 -> get_be16 b0 b1 = b0 * 256 + b1.
Proof. intros. unfold get_be16. rewrite lor_shiftl_add; [done | lia | done]. Qed.

(** [Uint16] reads back what [PutUint16] wrote. *)
Lemma get_put_be16 v :
  get_be16 (u8 (Z.shiftr v 8)) (u8 v) = u16 v.
Proof.
  rewrite get_be16_add by apply u8_range. unfold u8, u16.
  rewrite Z.shiftr_div_pow2 by lia.
  change (2 ^ 16) with (2 ^ 8 * 2 ^ 8). rewrite Z.rem_mul_r by lia. lia.
Qed.

Lemma get_be16_range b0 b1 :
  is_byte b0 -> is_byte b1 -> 0 <= get_be16 b0 b1 < 65536.
Proof. unfold is_byte. intros. rewrite get_be16_add by done. lia. Qed.

(** ** Lists *)

(** [slices.Chunk(l, n)] for [n >= 1]: consecutive pieces of [n] elements,
    the last one possibly shorter. The first argument bounds the number of
    pieces; [length l] pieces always suffice. *)
Fixpoint chunk_aux {A} (k n : nat) (l : list A) : list (list A) :=
  match k, l with
  | _, [] => []
  | O, _ => []
  | S k', _ => take n l :: chunk_aux k' n (drop n l)
  end.
Definition chunk {A} (n : nat) (l : list A) : list (list A) :=
  chunk_aux (length l) n l.
#[global] Arguments chunk : simpl never.

Section chunk.
Context {A : Type} (n : nat) (Hn : (0 < n)%nat).
Implicit Types l : list A.

Lemma chunk_aux_enough k k' l :
  (length l <= k)%nat -> (length l <= k')%nat ->
  chunk_aux k n l = chunk_aux k' n l.
Proof using Hn.
  revert k' l. induction k as [|k IH]; intros [|k'] [|x l] H1 H2;
    simpl in H1, H2; try done; try lia.
  cbn [chunk_aux]. f_equal. apply IH; rewrite length_drop; simpl; lia.
Qed.

Lemma chunk_nil : chunk n (@nil A) = [].
Proof using. done. Qed.

(** The loop's equation: one piece, then the rest. *)
Lemma chunk_step l :
  l <> [] -> chunk n l = take n l :: chunk n (drop n l).
Proof using Hn.
  intros Hl. unfold chunk. destruct l as [|x l]; [done|].
  cbn [chunk_aux length]. f_equal.
  apply chunk_aux_enough; rewrite length_drop; simpl; lia.
Qed.

(** Induction along the pieces. *)
Lemma chunk_ind (P : list A -> Prop) :
  P [] -> (forall l, l <> [] -> P (drop n l) -> P l) -> forall l, P l.
Proof using Hn.
  intros H0 HS l. remember (length l) as m eqn:Hm.
  revert l Hm. induction (lt_wf m) as [m _ IH]. intros l ->.
  destruct l as [|x l]; [done|]. apply HS; [done|].
  eapply IH; [|done]. rewrite length_drop. simpl. lia.
Qed.

Lemma concat_chunk l : concat (chunk n l) = l.
Proof using Hn.
  induction l as [|l Hl IH] using chunk_ind; [done|].
  rewrite chunk_step by done. cbn. rewrite IH. apply take_drop.
Qed.

Lemma chunk_bounds l :
  Forall (fun c => c <> [] /\ (length c <= n)%nat) (chunk n l).
Proof using Hn.
  induction l as [|l Hl IH] using chunk_ind; [constructor|].
  rewrite chunk_step by done. constructor; [|done].
  split.
  - intros Ht. apply (f_equal length) in Ht. rewrite length_take in Ht.
    destruct l; simpl in *; [done|lia].
  - rewrite length_take. lia.
Qed.

(** The number of pieces is the length divided by [n], rounded up. *)
Lemma len_chunk l :
  len (chunk n l) = (len l + Z.of_nat n - 1) / Z.of_nat n.
Proof using Hn.
  induction l as [|l Hl IH] using chunk_ind.
  - rewrite chunk_nil. symmetry. rewrite !(@len_nil A). apply Z.div_small. lia.
  - rewrite chunk_step, len_cons, IH, len_drop by done.
    apply len_pos in Hl.
    destruct (Z.le_gt_cases (Z.of_nat n) (len l)).
    + rewrite Z.max_r by lia. rewrite Z.add_comm.
      rewrite <- (Z.div_add _ 1 (Z.of_nat n)) by lia. f_equal; lia.
    + rewrite Z.max_l by lia.
      rewrite (Z.div_small (0 + Z.of_nat n - 1)) by lia.
      replace (len l + Z.of_nat n - 1)
        with (len l - 1 + 1 * Z.of_nat n) by lia.
      rewrite Z.div_add by lia. rewrite Z.div_small by lia. lia.
Qed.

(** Full pieces followed by a last one are the pieces of their
    concatenation. *)
Lemma chunk_full_app (cs : list (list A)) (c : list A) :
  Forall (fun c' => length c' = n) cs -> c <> [] -> (length c <= n)%nat ->
  chunk n (concat cs ++ c) = cs ++ [c].
Proof using Hn.
  intros Hcs Hc Hlen. induction Hcs as [|c' cs Hc' Hcs IH]; cbn.
  - rewrite chunk_step by done. rewrite take_ge, drop_ge by lia. done.
  - rewrite chunk_step.
    + rewrite <- (assoc_L (++)), <- Hc', take_app_length, drop_app_length, Hc'.
      by rewrite IH.
    + destruct c'; simpl in *; [lia|done].
Qed.
End chunk.

(** [slices.Contains] on comparable elements. *)
Definition contains {A} `{EqDecision A} (l : list A) (x : A) : bool :=
  bool_decide (x ∈ l).

Lemma contains_true {A} `{EqDecision A} (l : list A) x :
  contains l x = true <-> x ∈ l.
Proof. unfold contains. apply bool_decide_eq_true. Qed.

Lemma filter_all {A} (P : A -> Prop) `{forall x, Decision (P x)} (l : list A) :
  Forall P l -> filter P l = l.
Proof. induction 1 as [|x l Hx _ IH]; [done|]. by rewrite filter_cons_True, IH. Qed.

(** A Go map read without the comma-ok form: the zero value when absent. *)
Definition flag (m : gmap string bool) (k : string) : bool :=
  default false (m !! k).

Lemma flag_true m k : flag m k = true <-> m !! k = Some true.
Proof. unfold flag. destruct (m !! k) as [[]|]; naive_solver. Qed.

(** The padding [make([]byte, n)]. *)
Definition zeros (n : nat) : list Z := replicate n 0.

(** A byte slice that may be [nil]: [None] is [nil], [Some []] is a
    present empty slice. *)
Abbreviation slice := (option (list Z)).
Definition bytes_of (s : slice) : list Z := default [] s.

(** A Go string as its bytes. *)
Definition bytes_of_string (s : string) : list Z :=
  (fun a => Z.of_N (Ascii.N_of_ascii a)) <$> String.list_ascii_of_string s.
