(* ===== verification/GoError.v ===== *)
(** * Go errors and effects

    Error values with the tests [errors.Is] and [errors.AsType], the
    outcomes of a Go call, and the state-passing monad the stateful
    components are written in. *)
From S2P Require Import Prelude.

(** ** Error values *)

(** [transport.IOOperation]. *)
Inductive IOOperation := IORead | IOWrite | IOTransmit | IOClose.

#[export] Instance IOOperation_eq_dec : EqDecision IOOperation.
Proof. solve_decision. Defined.

(** The errors the library builds. A sentinel is a package-level
    [errors.New] value, identified by its text; [EText] is an error made on
    the spot, which no other error is; [EForeign] is an error value produced
    by code outside the repository (a device, the CBOR codec). *)
Inductive error :=
  | ESentinel (text : string)
  | EText (text : string)
  | EForeign (id : Z)
  | EMessage (e : error) (msg : string)      (* ErrorWithMessage, fmt.Errorf with %w *)
  | EJoin (e1 e2 : error)                    (* errors.Join, two wrapped errors *)
  | ECTAP (command status : Z)               (* *transport.CTAPError *)
  | EIO (op : IOOperation) (e : error)       (* *transport.IOError *)
  | EInvalidated (e : error)                 (* *transport.DeviceInvalidatedError *)
  | EHIDResponse (code : Z)                  (* *ctaphid.ErrorResponse *)
  | EBLEResponse (code : Z)                  (* *ctapble.ErrorResponse *)
  | EAPDU (sw1 sw2 : Z)                      (* *token2.APDUError *)
  | EPolicy (operation : string).            (* *fips140.PolicyError *)

#[export] Instance error_eq_dec : EqDecision error.
Proof. solve_decision. Defined.

Definition context_Canceled : error := ESentinel "context canceled".
Definition context_DeadlineExceeded : error := ESentinel "context deadline exceeded".
Definition io_EOF : error := ESentinel "EOF".
Definition io_ErrUnexpectedEOF : error := ESentinel "unexpected EOF".
Definition io_ErrClosedPipe : error := ESentinel "io: read/write on closed pipe".
Definition io_ErrShortWrite : error := ESentinel "short write".
Definition fips140_ErrNotAllowed : error :=
  ESentinel "fips140: operation is not allowed in FIPS 140-3 mode".

(** [newErrorMessage]. *)
Definition newErrorMessage (e : error) (msg : string) : error := EMessage e msg.

(** The chain [errors.Unwrap] walks, outermost first, in the depth-first
    order [errors.Is] and [errors.AsType] visit it. *)
Fixpoint error_chain (e : error) : list error :=
  e :: match e with
       | EMessage e' _ => error_chain e'
       | EIO _ e' => error_chain e'
       | EInvalidated e' => error_chain e'
       | EJoin e1 e2 => error_chain e1 ++ error_chain e2
       | EPolicy _ => [fips140_ErrNotAllowed]
       | _ => []
       end.

(** [errors.Is] for the comparable values the source compares with. *)
Definition errors_Is (e target : error) : bool :=
  bool_decide (target ∈ error_chain e).

(** [errors.AsType[T]]: the first error of the chain a selector accepts. *)
Fixpoint first_some {A B} (f : A -> option B) (l : list A) : option B :=
  match l with
  | [] => None
  | x :: l' => match f x with Some b => Some b | None => first_some f l' end
  end.
Definition errors_As {B} (sel : error -> option B) (e : error) : option B :=
  first_some sel (error_chain e).

Definition as_CTAPError (e : error) : option (Z * Z) :=
  match e with ECTAP c s => Some (c, s) | _ => None end.
Definition as_IOError (e : error) : option (IOOperation * error) :=
  match e with EIO op e' => Some (op, e') | _ => None end.
Definition as_Invalidated (e : error) : option error :=
  match e with EInvalidated e' => Some e' | _ => None end.
Definition as_HIDResponse (e : error) : option Z :=
  match e with EHIDResponse c => Some c | _ => None end.
Definition as_BLEResponse (e : error) : option Z :=
  match e with EBLEResponse c => Some c | _ => None end.

(** [errors.Join] discards nil errors and is nil when nothing remains. *)
Definition errors_Join (e1 e2 : option error) : option error :=
  match e1, e2 with
  | Some a, Some b => Some (EJoin a b)
  | Some a, None => Some a
  | None, r => r
  end.

Lemma errors_Is_refl e : errors_Is e e = true.
Proof. apply bool_decide_eq_true. destruct e; simpl; left. Qed.

Lemma errors_Is_invalidated e t :
  errors_Is e t = true -> errors_Is (EInvalidated e) t = true.
Proof. unfold errors_Is. rewrite !bool_decide_eq_true. simpl. by right. Qed.

(** ** Outcomes *)

(** A call returns a value, returns an error, panics, or has not returned:
    [Blocked] is the outcome of waiting for an event that the modelled
    history of the connection does not hold. *)
Inductive result (A : Type) : Type :=
  | Ok (a : A)
  | Err (e : error)
  | Panic
  | Blocked.
Arguments Ok {A} a.
Arguments Err {A} e.
Arguments Panic {A}.
Arguments Blocked {A}.

#[export] Instance result_ret : MRet result := fun A a => Ok a.
#[export] Instance result_bind : MBind result := fun A B f r =>
  match r with
  | Ok a => f a
  | Err e => Err e
  | Panic => Panic
  | Blocked => Blocked
  end.

#[export] Instance result_fmap : FMap result := fun A B f r =>
  match r with
  | Ok a => Ok (f a)
  | Err e => Err e
  | Panic => Panic
  | Blocked => Blocked
  end.

(** ** State *)

(** A stateful Go call over the world [W]: the connection, the caches and
    the recorded traffic survive the error paths. *)
Definition M (W A : Type) : Type := W -> result A * W.

#[export] Instance M_ret {W} : MRet (M W) := fun A a w => (Ok a, w).
#[export] Instance M_bind {W} : MBind (M W) := fun A B f m w =>
  match m w with
  | (Ok a, w') => f a w'
  | (Err e, w') => (Err e, w')
  | (Panic, w') => (Panic, w')
  | (Blocked, w') => (Blocked, w')
  end.

Section M.
Context {W : Type}.

Definition lift {A} (r : result A) : M W A := fun w => (r, w).
Definition fail {A} (e : error) : M W A := lift (Err e).
Definition panic {A} : M W A := lift Panic.
Definition blocked {A} : M W A := lift Blocked.
Definition get : M W W := fun w => (Ok w, w).
Definition modify (f : W -> W) : M W unit := fun w => (Ok tt, f w).

(** The explicit [if err != nil] of a caller that looks at the error:
    values and errors both reach the continuation. *)
Definition try_ {A} (m : M W A) : M W (A + error) := fun w =>
  match m w with
  | (Ok a, w') => (Ok (inl a), w')
  | (Err e, w') => (Ok (inr e), w')
  | (Panic, w') => (Panic, w')
  | (Blocked, w') => (Blocked, w')
  end.

(** [_ = f()]: the error is dropped. *)
Definition ignore {A} (m : M W A) : M W unit :=
  try_ m ≫= fun _ => mret tt.

Lemma M_bind_assoc {A B C} (m : M W A) (f : A -> M W B) (g : B -> M W C) w :
  ((m ≫= f) ≫= g) w = (m ≫= (fun x => f x ≫= g)) w.
Proof. unfold mbind, M_bind. by destruct (m w) as [[] ?]. Qed.

Lemma M_bind_Ok {A B} (m : M W A) (f : A -> M W B) w a w' :
  m w = (Ok a, w') -> (m ≫= f) w = f a w'.
Proof. unfold mbind, M_bind. by intros ->. Qed.

Lemma M_bind_Err {A B} (m : M W A) (f : A -> M W B) w e w' :
  m w = (Err e, w') -> (m ≫= f) w = (Err e, w').
Proof. unfold mbind, M_bind. by intros ->. Qed.

Lemma lift_bind {A B} (r : result A) (f : A -> M W B) a w :
  r = Ok a -> (lift r ≫= f) w = f a w.
Proof. by intros ->. Qed.

Lemma try_Ok {A} (m : M W A) w a w' : m w = (Ok a, w') -> try_ m w = (Ok (inl a), w').
Proof. unfold try_. by intros ->. Qed.

Lemma try_Err {A} (m : M W A) w e w' : m w = (Err e, w') -> try_ m w = (Ok (inr e), w').
Proof. unfold try_. by intros ->. Qed.

Lemma M_bind_inv {A B} (m : M W A) (f : A -> M W B) w b w' :
  (m ≫= f) w = (Ok b, w') ->
  exists a w1, m w = (Ok a, w1) /\ f a w1 = (Ok b, w').
Proof.
  unfold mbind, M_bind. destruct (m w) as [[] w1]; naive_solver.
Qed.
(** A recovered call: every outcome but waiting is a value of the caller. *)
Definition attempt {A} (m : M W A) : M W (result A) := fun w =>
  match m w with
  | (Blocked, w') => (Blocked, w')
  | (r, w') => (Ok r, w')
  end.

(** *** Calls that do the same

    Two calls are equivalent when they do the same in every world; the
    operations of the monad respect it. *)
#[export] Instance M_equiv {A} : Equiv (M W A) := fun m m' => forall w, m w = m' w.

#[export] Instance M_equivalence {A} : Equivalence (≡@{M W A}).
Proof.
  split.
  - by intros m w.
  - intros m m' Hm w. symmetry. apply Hm.
  - intros m1 m2 m3 H12 H23 w. by rewrite (H12 w).
Qed.

#[export] Instance mbind_proper {A B} :
  Proper (pointwise_relation A (≡) ==> (≡) ==> (≡@{M W B})) mbind.
Proof.
  intros f f' Hf m m' Hm w. unfold mbind, M_bind. rewrite (Hm w).
  destruct (m' w) as [[] w']; [apply Hf|done..].
Qed.

#[export] Instance try_proper {A} : Proper ((≡) ==> (≡)) (@try_ A).
Proof. intros m m' Hm w. unfold try_. by rewrite (Hm w). Qed.

#[export] Instance attempt_proper {A} : Proper ((≡) ==> (≡)) (@attempt A).
Proof. intros m m' Hm w. unfold attempt. by rewrite (Hm w). Qed.

Lemma mret_mbind {A B} (a : A) (f : A -> M W B) : mret a ≫= f ≡ f a.
Proof. done. Qed.

Lemma mbind_mret {A} (m : M W A) : m ≫= mret ≡ m.
Proof. intros w. unfold mbind, M_bind. by destruct (m w) as [[] ?]. Qed.

Lemma mbind_assoc {A B C} (m : M W A) (f : A -> M W B) (g : B -> M W C) :
  (m ≫= f) ≫= g ≡ m ≫= (fun x => f x ≫= g).
Proof. intros w. apply M_bind_assoc. Qed.

(** A call is an attempt whose outcome is its own; looking at an error is
    looking at the outcome. *)
Lemma attempt_lift {A} (m : M W A) : attempt m ≫= lift ≡ m.
Proof. intros w. unfold attempt, mbind, M_bind. by destruct (m w) as [[] ?]. Qed.

Lemma try_attempt {A} (m : M W A) :
  try_ m ≡ attempt m ≫= fun r => lift
    match r with Ok a => Ok (inl a) | Err e => Ok (inr e) | Panic => Panic | Blocked => Blocked end.
Proof. intros w. unfold try_, attempt, mbind, M_bind. by destruct (m w) as [[] ?]. Qed.

Lemma try_bind {A B} (m : M W A) (f : A -> M W B) :
  try_ (m ≫= f) ≡ r ← try_ m; match r with inl a => try_ (f a) | inr e => mret (inr e) end.
Proof. intros w. unfold try_, mbind, M_bind. by destruct (m w) as [[] ?]. Qed.
End M.

Arguments lift {W A} r _ /.
Arguments fail {W A} e _ /.
Arguments panic {W A} _ /.
Arguments blocked {W A} _ /.

(** Successful runs, step by step. *)
Ltac m_inv H :=
  lazymatch type of H with
  | (_ ≫= _) _ = (Ok _, _) =>
      let a := fresh "a" in let w := fresh "w" in
      let H1 := fresh "H" in
      apply M_bind_inv in H as (a & w & H1 & H)
  end.
