(* ===== verification/HidFraming.v ===== *)
(** * CTAPHID message framing (src/transport/ctaphid)

    The packets of [types.go], the encoder of [encoding.go], the decoder of
    [decoding.go] and the accessors of [raw.go], over a HID connection given
    by the history of what its reads and writes return. *)
From S2P Require Import Prelude GoError.

(** ** Data ([types.go], [consts.go], [errors.go]) *)

Definition hidPacketSize : Z := 64.
Definition hidReportPacketSize : Z := hidPacketSize + 1.
Definition initPacketHeaderSize : Z := 7.
Definition continuationPacketHeaderSize : Z := 5.
Definition initPacketDataSize : Z := hidPacketSize - initPacketHeaderSize.
Definition continuationPacketDataSize : Z := hidPacketSize - continuationPacketHeaderSize.

Record ChannelID := CID { cid0 : Z; cid1 : Z; cid2 : Z; cid3 : Z }.

#[export] Instance ChannelID_eq_dec : EqDecision ChannelID.
Proof. solve_decision. Defined.

Definition cid_bytes (c : ChannelID) : list Z := [cid0 c; cid1 c; cid2 c; cid3 c].

(** [copy(cid[:], raw)] into a zero array. *)
Definition cid_of (raw : list Z) : ChannelID :=
  CID (nth 0 raw 0) (nth 1 raw 0) (nth 2 raw 0) (nth 3 raw 0).

Definition BROADCAST_CID : ChannelID := CID 0xff 0xff 0xff 0xff.

Record packet := Packet {
  p_cid : ChannelID;
  p_command : Z;
  p_sequence : Z;
  p_length : Z;
  p_data : list Z;
  p_continuation : bool }.

#[export] Instance packet_eq_dec : EqDecision packet.
Proof. solve_decision. Defined.

Abbreviation Message := (list packet).

Definition CTAPHID_MSG : Z := 0x03.
Definition CTAPHID_CBOR : Z := 0x10.
Definition CTAPHID_INIT : Z := 0x06.
Definition CTAPHID_PING : Z := 0x01.
Definition CTAPHID_CANCEL : Z := 0x11.
Definition CTAPHID_ERROR : Z := 0x3f.
Definition CTAPHID_KEEPALIVE : Z := 0x3b.
Definition CTAPHID_WINK : Z := 0x08.
Definition CTAPHID_LOCK : Z := 0x04.
Definition CTAPHID_VENDOR_FIRST : Z := 0x40.
Definition CTAPHID_VENDOR_LAST : Z := 0x7f.
Definition CAPABILITY_WINK : Z := 0x01.
Definition CAPABILITY_LOCK : Z := 0x02.
Definition CAPABILITY_CBOR : Z := 0x04.
Definition CAPABILITY_NMSG : Z := 0x08.
Definition ERR_CHANNEL_BUSY : Z := 0x06.
Definition INIT_PACKET_BIT : Z := 0x80.

Definition ErrMessageTooLarge : error := ESentinel "ctaphid: message payload too large".
Definition ErrInvalidRequestMessage : error := ESentinel "ctaphid: invalid request message".
Definition ErrUnexpectedCommand : error := ESentinel "ctaphid: unexpected command".
Definition ErrInvalidResponseMessage : error := ESentinel "ctaphid: invalid response message".

(** ** The connection

    [rx] holds what the next [io.ReadFull] of one 64-byte report returns,
    [wr] what the next device writes return (nothing listed means success),
    [ctxs] what the next looks at the caller's context report (nothing
    listed means not done), and [tx] the reports the device took, oldest
    first; [closed] counts the calls of the device's [Close]. *)
Inductive read_event :=
  | Report (raw : list Z)
  | ReadError (e : error).

Record hid := Hid {
  rx : list read_event;
  wr : list (option error);
  tx : list (list Z);
  ctxs : list (option error);
  closed : nat }.

Definition set_rx (ev : list read_event) (w : hid) : hid :=
  Hid ev (wr w) (tx w) (ctxs w) (closed w).
Definition set_ctxs (c : list (option error)) (w : hid) : hid :=
  Hid (rx w) (wr w) (tx w) c (closed w).

(** One [w.Write] of a whole report. *)
Definition device_Write (report : list Z) : M hid unit := fun w =>
  match wr w with
  | Some e :: wr' => (Err e, Hid (rx w) wr' (tx w) (ctxs w) (closed w))
  | None :: wr' => (Ok tt, Hid (rx w) wr' (tx w ++ [report]) (ctxs w) (closed w))
  | [] => (Ok tt, Hid (rx w) [] (tx w ++ [report]) (ctxs w) (closed w))
  end.

(** ** Encoding ([encoding.go]) *)

(** The continuation packets of a message; [sequence++] is a byte. *)
Fixpoint continuation_packets (cid : ChannelID) (sequence : Z)
    (chunks : list (list Z)) : Message :=
  match chunks with
  | [] => []
  | chunk :: rest =>
      Packet cid 0 sequence 0 chunk true
        :: continuation_packets cid (u8 (sequence + 1)) rest
  end.

Definition NewMessage (cid : ChannelID) (cmd : Z) (data : list Z) : result Message :=
  if 7609 <? len data then Err ErrMessageTooLarge
  else
    let msg := [Packet cid cmd 0 (u16 (len data))
                  (take (Z.to_nat (Z.min (len data) initPacketDataSize)) data) false] in
    if initPacketDataSize <? len data then
      Ok (msg ++ continuation_packets cid 0
            (chunk (Z.to_nat continuationPacketDataSize)
                   (drop (Z.to_nat initPacketDataSize) data)))
    else Ok msg.

(** The method [WriteTo] of packet: the bytes put on the writer. *)
Definition packet_WriteTo (p : packet) : list Z :=
  let header :=
    cid_bytes (p_cid p) ++
    (if p_continuation p then [p_sequence p]
     else Z.lor (p_command p) INIT_PACKET_BIT :: put_be16 (p_length p)) in
  let written := header ++ p_data p in
  let paddingLen := hidPacketSize - len written in
  if 0 <? paddingLen then written ++ zeros (Z.to_nat paddingLen) else written.

(** [Message.WriteTo]: one write of report ID and packet per packet; the
    total is the number of bytes written. *)
Fixpoint WriteTo (m : Message) : M hid Z :=
  match m with
  | [] => mret 0
  | p :: rest =>
      device_Write (0x00 :: packet_WriteTo p) ≫= fun _ =>
      WriteTo rest ≫= fun total =>
      mret (1 + len (packet_WriteTo p) + total)
  end.

(** [Message.OutputReports] ([raw.go]). *)
Definition OutputReports (m : Message) : list (list Z) :=
  (fun p => 0 :: packet_WriteTo p) <$> m.

(** ** Decoding ([decoding.go]) *)

Record read_state := ReadState {
  total : Z;                    (* -1 before the initialisation packet *)
  expectedCID : ChannelID;
  expectedSequence : Z;
  received : Message;
  bytesRead : Z }.

Definition read_start : read_state :=
  ReadState (-1) (CID 0 0 0 0) 0 [] 0.

(** The body of the loop of [ReadFrom] on one report. *)
Definition read_packet (st : read_state) (raw : list Z) : result read_state :=
  let cid := cid_of (take 4 raw) in
  let cmdOrSeq := nth 4 raw 0 in
  if has_bit cmdOrSeq INIT_PACKET_BIT then
    if 0 <=? total st then Err ErrInvalidResponseMessage
    else
      let length := get_be16 (nth 5 raw 0) (nth 6 raw 0) in
      let dataCnt := Z.min length initPacketDataSize in
      let p := Packet cid (Z.land cmdOrSeq 0x7f) 0 length
                 (take (Z.to_nat dataCnt) (drop (Z.to_nat initPacketHeaderSize) raw))
                 false in
      Ok (ReadState (length - dataCnt) cid 0 (received st ++ [p])
            (bytesRead st + hidPacketSize))
  else
    if total st <? 0 then Err ErrInvalidResponseMessage
    else if negb (bool_decide (cid = expectedCID st))
            || negb (cmdOrSeq =? expectedSequence st)
    then Err ErrInvalidResponseMessage
    else
      let dataCnt := Z.min (total st) continuationPacketDataSize in
      let p := Packet cid 0 cmdOrSeq 0
                 (take (Z.to_nat dataCnt)
                       (drop (Z.to_nat continuationPacketHeaderSize) raw))
                 true in
      Ok (ReadState (total st - dataCnt) (expectedCID st)
            (u8 (expectedSequence st + 1)) (received st ++ [p])
            (bytesRead st + hidPacketSize)).

(** [for total != 0 { io.ReadFull ... }]. *)
Fixpoint ReadFrom_loop (st : read_state) (events : list read_event)
    : result read_state * list read_event :=
  if total st =? 0 then (Ok st, events)
  else match events with
       | [] => (Blocked, [])
       | ReadError e :: rest => (Err e, rest)
       | Report raw :: rest =>
           match read_packet st raw with
           | Ok st' => ReadFrom_loop st' rest
           | Err e => (Err e, rest)
           | Panic => (Panic, rest)
           | Blocked => (Blocked, rest)
           end
       end.

Definition ReadFrom : M hid (Message * Z) := fun w =>
  match ReadFrom_loop read_start (rx w) with
  | (r, rest) => ((fun st => (received st, bytesRead st)) <$> r, set_rx rest w)
  end.

(** ** Accessors ([raw.go]): [m[0]] panics on an empty message *)

Definition Message_CID (m : Message) : result ChannelID :=
  match m with p :: _ => Ok (p_cid p) | [] => Panic end.
Definition Message_Command (m : Message) : result Z :=
  match m with p :: _ => Ok (p_command p) | [] => Panic end.
Definition DeclaredLength (m : Message) : result Z :=
  match m with p :: _ => Ok (p_length p) | [] => Panic end.
Definition payload_bytes (m : Message) : list Z := concat (p_data <$> m).
Definition Payload (m : Message) : result (list Z) :=
  match m with _ :: _ => Ok (payload_bytes m) | [] => Panic end.

(** Arithmetic with the packet sizes. *)
Ltac hid_consts :=
  unfold hidReportPacketSize, initPacketDataSize, continuationPacketDataSize,
    hidPacketSize, initPacketHeaderSize, continuationPacketHeaderSize in *.
Ltac hid_lia := hid_consts; len_lia.

(** ** Packets on the wire *)

(** What a packet must satisfy to fill exactly one report. *)
Definition packet_fits (p : packet) : Prop :=
  len (p_data p) <= (if p_continuation p then continuationPacketDataSize
                     else initPacketDataSize).

Lemma len_packet_WriteTo p :
  packet_fits p -> len (packet_WriteTo p) = hidPacketSize.
Proof.
  unfold packet_fits, packet_WriteTo, zeros. hid_consts.
  intros Hfit. destruct (p_continuation p); cbn [app cid_bytes put_be16] in *;
    case_match; to_prop; len_lia.
Qed.

Lemma cid_of_bytes cid rest : cid_of (take 4 (cid_bytes cid ++ rest)) = cid.
Proof. by destruct cid. Qed.

(** The last bytes of a report are the data followed by padding. *)
Lemma packet_WriteTo_prefix p :
  exists pad, packet_WriteTo p =
    cid_bytes (p_cid p) ++
    (if p_continuation p then [p_sequence p]
     else Z.lor (p_command p) INIT_PACKET_BIT :: put_be16 (p_length p))
    ++ p_data p ++ pad.
Proof.
  unfold packet_WriteTo. case_match.
  - eexists. by rewrite <- !(assoc_L (++)).
  - exists []. by rewrite <- !(assoc_L (++)), app_nil_r.
Qed.

Lemma take_len_app {A} (l k : list A) : take (Z.to_nat (len l)) (l ++ k) = l.
Proof. unfold len. rewrite Nat2Z.id. apply take_app_length. Qed.

Lemma has_bit_init_command cmd :
  0 <= cmd < 128 -> has_bit (Z.lor cmd INIT_PACKET_BIT) INIT_PACKET_BIT = true.
Proof.
  intros. unfold has_bit. apply negb_true_iff, Z.eqb_neq. intros H0.
  apply (f_equal (fun z => Z.testbit z 7)) in H0. unfold INIT_PACKET_BIT in H0.
  rewrite Z.land_spec, Z.lor_spec, Z.bits_0 in H0. cbn in H0.
  by rewrite orb_true_r in H0.
Qed.

Lemma command_of_init cmd :
  0 <= cmd < 128 -> Z.land (Z.lor cmd INIT_PACKET_BIT) 0x7f = cmd.
Proof.
  intros. unfold INIT_PACKET_BIT. rewrite Z.land_lor_distr_l.
  change (Z.land 0x80 0x7f) with 0. rewrite Z.lor_0_r.
  change 0x7f with (Z.ones 7). rewrite Z.land_ones by lia.
  by apply Z.mod_small.
Qed.

Lemma has_bit_sequence s : 0 <= s < 128 -> has_bit s INIT_PACKET_BIT = false.
Proof.
  intros. unfold has_bit, INIT_PACKET_BIT. apply negb_false_iff, Z.eqb_eq.
  change 0x80 with (Z.shiftl 1 7). rewrite Z.land_comm.
  apply land_shiftl_low; lia.
Qed.

Lemma not_has_bit_sequence s :
  is_byte s -> has_bit s INIT_PACKET_BIT = false -> s < 128.
Proof.
  unfold is_byte, has_bit, INIT_PACKET_BIT. intros Hs H.
  apply negb_false_iff, Z.eqb_eq in H.
  destruct (Z.lt_ge_cases s 128) as [?|Hge]; [done|]. exfalso.
  apply (f_equal (fun z => Z.testbit z 7)) in H.
  rewrite Z.land_spec, Z.bits_0 in H. change (Z.testbit 0x80 7) with true in H.
  rewrite andb_true_r, Z.testbit_eqb in H by lia. change (2 ^ 7) with 128 in H.
  replace (s / 128) with 1 in H by (apply Z.div_unique with (s - 128); lia).
  discriminate H.
Qed.

(** ** The decoder on the encoder's packets *)

Lemma take_min_len {A} (l k : list A) n :
  len l <= n -> take (Z.to_nat (Z.min (len l) n)) (l ++ k) = l.
Proof. intros. rewrite Z.min_l by done. apply take_len_app. Qed.

Lemma read_init_packet st cid cmd n data :
  0 <= cmd < 128 -> total st < 0 -> 0 <= n < 65536 ->
  len data = Z.min n initPacketDataSize ->
  let p := Packet cid cmd 0 n data false in
  read_packet st (packet_WriteTo p) =
    Ok (ReadState (n - len data) cid 0 (received st ++ [p])
          (bytesRead st + hidPacketSize)).
Proof.
  intros Hcmd Htot Hn Hlen p.
  destruct (packet_WriteTo_prefix p) as [pad ->].
  unfold read_packet. cbn [p p_cid p_command p_length p_data p_continuation].
  rewrite cid_of_bytes. cbn -[Z.lor Z.land take drop].
  rewrite has_bit_init_command, get_put_be16, command_of_init by done.
  unfold u16. rewrite (Z.mod_small n) by lia.
  destruct (Z.leb_spec 0 (total st)); [lia|].
  rewrite <- Hlen. change (Z.to_nat initPacketHeaderSize) with 7%nat. cbn [skipn].
  by rewrite drop_0, take_len_app.
Qed.

Lemma read_continuation_packet st seq data :
  0 <= seq < 128 -> expectedSequence st = seq -> 0 <= total st ->
  len data = Z.min (total st) continuationPacketDataSize ->
  let p := Packet (expectedCID st) 0 seq 0 data true in
  read_packet st (packet_WriteTo p) =
    Ok (ReadState (total st - len data) (expectedCID st) (u8 (seq + 1))
          (received st ++ [p]) (bytesRead st + hidPacketSize)).
Proof.
  intros Hseq Hexp Htot Hlen p.
  destruct (packet_WriteTo_prefix p) as [pad ->].
  unfold read_packet. cbn [p p_cid p_sequence p_data p_continuation].
  rewrite cid_of_bytes. cbn -[Z.lor Z.land take drop].
  rewrite has_bit_sequence by done.
  destruct (Z.ltb_spec (total st) 0); [lia|].
  rewrite bool_decide_true, Hexp, Z.eqb_refl by done. cbn [negb orb].
  rewrite <- Hlen. change (Z.to_nat continuationPacketHeaderSize) with 5%nat. cbn [skipn].
  by rewrite drop_0, take_len_app.
Qed.

Abbreviation cont_chunks := (chunk (Z.to_nat continuationPacketDataSize)).

Lemma continuation_size_pos : (0 < Z.to_nat continuationPacketDataSize)%nat.
Proof. vm_compute. lia. Qed.
#[local] Hint Resolve continuation_size_pos : core.

Definition wire (m : Message) : list read_event :=
  (fun p => Report (packet_WriteTo p)) <$> m.

(** Reading the continuation packets of the bytes [d] that remain. *)
Lemma ReadFrom_continuations d : forall st rest,
  total st = len d -> 0 <= expectedSequence st ->
  expectedSequence st + len (cont_chunks d) <= 128 ->
  let m := continuation_packets (expectedCID st) (expectedSequence st) (cont_chunks d) in
  exists st',
    ReadFrom_loop st (wire m ++ rest) = (Ok st', rest) /\
    received st' = received st ++ m /\
    bytesRead st' = bytesRead st + hidPacketSize * len m.
Proof.
  induction d as [|d Hd IH] using (chunk_ind _ continuation_size_pos);
    intros st rest Htot Hseq Hroom.
  - exists st. rewrite chunk_nil. simpl. destruct rest; cbn [ReadFrom_loop];
      rewrite Htot; rewrite app_nil_r; split_and!; (done || len_lia).
  - rewrite chunk_step in Hroom |- * by done.
    pose proof (len_pos d Hd). rewrite len_cons in Hroom. len_nonneg_all.
    cbn [continuation_packets wire fmap list_fmap app ReadFrom_loop].
    destruct (Z.eqb_spec (total st) 0); [lia|].
    set (c := take _ d).
    assert (Hc : len c = Z.min (total st) continuationPacketDataSize).
    { unfold c. rewrite len_take, Htot. change (Z.of_nat (Z.to_nat continuationPacketDataSize)) with continuationPacketDataSize. lia. }
    rewrite read_continuation_packet by (done || lia).
    edestruct (IH (ReadState (total st - len c) (expectedCID st)
                (u8 (expectedSequence st + 1))
                (received st ++ [Packet (expectedCID st) 0 (expectedSequence st) 0 c true])
                (bytesRead st + hidPacketSize)) rest) as (st' & Hst' & Hr & Hb);
      cbn [total expectedSequence expectedCID received bytesRead] in *.
    + unfold c. rewrite len_take, len_drop. lia.
    + apply u8_range.
    + rewrite u8_id by (unfold is_byte; lia). lia.
    + exists st'. split_and!; [exact Hst'| |].
      * rewrite Hr. by rewrite <- (assoc_L (++)).
      * rewrite Hb, len_cons. lia.
Qed.

(** Reading a whole message off the wire. *)
Lemma ReadFrom_wire cid cmd data m w rest :
  0 <= cmd < 128 -> NewMessage cid cmd data = Ok m -> rx w = wire m ++ rest ->
  ReadFrom w = (Ok (m, hidPacketSize * len m), set_rx rest w).
Proof.
  intros Hcmd HN Hrx. unfold NewMessage in HN.
  destruct (Z.ltb_spec 7609 (len data)) as [|Hmax]; [done|].
  pose proof (len_nonneg data) as H0.
  set (d0 := take _ data) in HN.
  assert (Hd0 : len d0 = Z.min (len data) initPacketDataSize).
  { unfold d0. rewrite len_take. hid_lia. }
  unfold u16 in HN. rewrite Z.mod_small in HN by lia.
  set (p0 := Packet cid cmd 0 (len data) d0 false) in HN.
  assert (H1 : read_packet read_start (packet_WriteTo p0) =
               Ok (ReadState (len data - len d0) cid 0 [p0] hidPacketSize)).
  { unfold p0. rewrite read_init_packet; (done || simpl; lia). }
  unfold ReadFrom. rewrite Hrx.
  destruct (Z.ltb_spec initPacketDataSize (len data)) as [Hlong|Hshort];
    simplify_eq; unfold wire; cbn [app fmap list_fmap ReadFrom_loop];
    change (total read_start =? 0) with false; cbv beta iota;
    rewrite H1.
  - edestruct (ReadFrom_continuations (drop (Z.to_nat initPacketDataSize) data)
                 (ReadState (len data - len d0) cid 0 [p0] hidPacketSize) rest)
      as (st & Hst & Hr & Hb); cbn [total expectedSequence expectedCID received bytesRead].
    + rewrite len_drop, Hd0. hid_lia.
    + done.
    + rewrite len_chunk by apply continuation_size_pos. rewrite len_drop.
      change (Z.of_nat (Z.to_nat initPacketDataSize)) with 57.
      change (Z.of_nat (Z.to_nat continuationPacketDataSize)) with 59.
      assert ((Z.max 0 (len data - 57) + 59 - 1) / 59 < 129); [|lia].
      apply Z.div_lt_upper_bound; lia.
    + unfold wire in Hst. cbn [expectedCID expectedSequence received bytesRead] in *.
      rewrite Hst. cbn [fmap result_fmap received bytesRead].
      by rewrite Hr, Hb, len_cons, Z.mul_add_distr_l.
  - rewrite Hd0, Z.min_l by done. rewrite Z.sub_diag.
    destruct rest; cbn; done.
Qed.

(** ** What the decoder accepts *)

Lemma continuation_packets_snoc cid cs c : forall s,
  is_byte s ->
  continuation_packets cid s (cs ++ [c]) =
  continuation_packets cid s cs ++ [Packet cid 0 (u8 (s + len cs)) 0 c true].
Proof.
  induction cs as [|c' cs IH]; intros s Hs; cbn.
  - change (len []) with 0. by rewrite Z.add_0_r, (u8_id s).
  - rewrite IH by apply u8_range. do 4 f_equal.
    rewrite len_cons. unfold u8. rewrite Zplus_mod_idemp_l. f_equal. lia.
Qed.

Lemma payload_continuation_packets cid cs : forall s,
  payload_bytes (continuation_packets cid s cs) = concat cs.
Proof.
  unfold payload_bytes.
  induction cs as [|c cs IH]; intros s; cbn; [done|]. by rewrite IH.
Qed.

Lemma payload_NewMessage cid cmd data m :
  NewMessage cid cmd data = Ok m -> payload_bytes m = data.
Proof.
  unfold NewMessage, payload_bytes. intros HN.
  destruct (Z.ltb_spec 7609 (len data)); [done|].
  destruct (Z.ltb_spec initPacketDataSize (len data)) as [Hl|Hl]; simplify_eq/=.
  - fold (payload_bytes (continuation_packets cid 0
      (cont_chunks (drop (Z.to_nat initPacketDataSize) data)))).
    rewrite payload_continuation_packets, concat_chunk by apply continuation_size_pos.
    rewrite Z.min_r by lia. apply take_drop.
  - rewrite app_nil_r, Z.min_l by done. unfold len. by rewrite Nat2Z.id, take_ge.
Qed.

(** A report [io.ReadFull] filled. *)
Definition report_ok (ev : read_event) : Prop :=
  match ev with
  | Report raw => len raw = hidPacketSize /\ Forall is_byte raw
  | ReadError _ => True
  end.

Lemma len_continuation_packets cid cs : forall s,
  len (continuation_packets cid s cs) = len cs.
Proof.
  induction cs as [|c cs IH]; intros s; cbn; [done|]. by rewrite !len_cons, IH.
Qed.

(** The decoder has accepted an initialisation packet and full
    continuation packets with the chunks [cs]. *)
Definition decoding (st : read_state) : Prop :=
  exists cmd L d0 cs,
    0 <= cmd < 128 /\ 0 <= L < 65536 /\
    len d0 = Z.min L initPacketDataSize /\
    received st = Packet (expectedCID st) cmd 0 L d0 false
                    :: continuation_packets (expectedCID st) 0 cs /\
    0 <= total st /\ len d0 + len (concat cs) + total st = L /\
    len cs <= 128 /\ expectedSequence st = len cs /\
    cs = cont_chunks (concat cs) /\
    (0 < total st -> Forall (fun c => length c = Z.to_nat continuationPacketDataSize) cs) /\
    (0 < len (concat cs) -> initPacketDataSize < L).

Lemma land_7f_range z : 0 <= Z.land z 0x7f < 128.
Proof. change 0x7f with (Z.ones 7). rewrite Z.land_ones by lia. by apply Z.mod_pos_bound. Qed.

Lemma report_byte raw k :
  Forall is_byte raw -> is_byte (nth k raw 0).
Proof.
  intros Hall. destruct (Nat.lt_ge_cases k (length raw)) as [Hlt|Hge].
  - rewrite Forall_forall in Hall. apply Hall, list_elem_of_In, nth_In, Hlt.
  - rewrite nth_overflow by done. unfold is_byte. lia.
Qed.

Lemma len_slice {A} (raw : list A) n k :
  len raw = hidPacketSize -> 0 <= n -> n + Z.of_nat k <= hidPacketSize ->
  len (take (Z.to_nat n) (drop k raw)) = n.
Proof. intros. rewrite len_take, len_drop. lia. Qed.

(** The first report accepted is an initialisation packet. *)
Lemma decoding_start raw st' :
  report_ok (Report raw) -> read_packet read_start raw = Ok st' -> decoding st'.
Proof.
  intros [Hlen Hbytes] Hread. unfold read_packet in Hread.
  change (0 <=? total read_start) with false in Hread.
  change (total read_start <? 0) with true in Hread.
  destruct (has_bit _ _); [|done]. injection Hread as <-.
  set (L := get_be16 (nth 5 raw 0) (nth 6 raw 0)).
  assert (HL : 0 <= L < 65536) by (apply get_be16_range; by apply report_byte).
  assert (Hd : len (take (Z.to_nat (Z.min L initPacketDataSize))
                 (drop (Z.to_nat initPacketHeaderSize) raw)) = Z.min L initPacketDataSize).
  { apply len_slice; [done| hid_lia..]. }
  exists (Z.land (nth 4 raw 0) 0x7f), L, (take (Z.to_nat (Z.min L initPacketDataSize))
                 (drop (Z.to_nat initPacketHeaderSize) raw)), [].
  rewrite Hd. cbn. pose proof (land_7f_range (nth 4 raw 0)).
  split_and!; try done; try lia.
  - change (len []) with 0. lia.
Qed.

(** Every further report extends the message by one continuation packet. *)
Lemma decoding_step st raw st' :
  decoding st -> total st <> 0 -> report_ok (Report raw) ->
  read_packet st raw = Ok st' -> decoding st'.
Proof.
  intros (cmd & L & d0 & cs & Hcmd & HL & Hd0 & Hr & Htot & Hsum & Hcs & Hseq & Hchunk & Hfull & Hlong)
    Hne [Hlen Hbytes] Hread.
  unfold read_packet in Hread.
  destruct (has_bit (nth 4 raw 0) INIT_PACKET_BIT) eqn:Hbit.
  { destruct (Z.leb_spec 0 (total st)); [done|lia]. }
  destruct (Z.ltb_spec (total st) 0); [lia|].
  destruct (negb _ || negb _)%bool eqn:Hchk; [done|]. to_prop.
  injection Hread as <-.
  set (k := Z.min (total st) continuationPacketDataSize) in *.
  set (c := take (Z.to_nat k) _).
  assert (Hc : len c = k).
  { apply len_slice; [done| unfold k; hid_lia..]. }
  assert (Hs : nth 4 raw 0 < 128) by (eapply not_has_bit_sequence; [by apply report_byte|done]).
  specialize (Hfull ltac:(lia)).
  assert (Hck : (length c <= Z.to_nat continuationPacketDataSize)%nat).
  { unfold len in Hc. unfold k in Hc. lia. }
  assert (Hk : 0 < k) by (unfold k; hid_lia).
  exists cmd, L, d0, (cs ++ [c]). cbn [received expectedCID total expectedSequence].
  rewrite concat_app, !len_app. cbn [concat]. rewrite app_nil_r, Hc.
  change (len [c]) with 1.
  split_and!; try done; try lia.
  - rewrite Hr, continuation_packets_snoc by (unfold is_byte; lia).
    cbn [app]. do 2 f_equal. rewrite u8_id by (unfold is_byte; len_lia). do 2 f_equal; lia || congruence.
  - rewrite u8_id by (unfold is_byte; len_lia). lia.
  - rewrite chunk_full_app; try done.
    intros Hn. rewrite Hn in Hc. change (len []) with 0 in Hc. lia.
  - intros Hmore. apply Forall_app. split; [done|]. constructor; [|done].
    unfold len in Hc. unfold k in *. lia.
Qed.

Lemma ReadFrom_loop_decoding events : forall st st' rest,
  decoding st -> Forall report_ok events ->
  ReadFrom_loop st events = (Ok st', rest) ->
  decoding st' /\ total st' = 0.
Proof.
  induction events as [|[raw|e] events IH]; intros st st' rest Hst Hok Hrun;
    cbn [ReadFrom_loop] in Hrun; destruct (Z.eqb_spec (total st) 0); simplify_eq; try done.
  apply Forall_cons in Hok as [Hraw Hok].
  destruct (read_packet st raw) as [st1| | |] eqn:Hread; try done.
  eapply IH; [|done..]. by eapply decoding_step.
Qed.

(** A complete decoding state holds a message the encoder builds. *)
Lemma decoding_complete st :
  decoding st -> total st = 0 ->
  exists cmd, 0 <= cmd < 128 /\
    NewMessage (expectedCID st) cmd (payload_bytes (received st)) = Ok (received st) /\
    DeclaredLength (received st) = Ok (len (payload_bytes (received st))).
Proof.
  intros (cmd & L & d0 & cs & Hcmd & HL & Hd0 & Hr & Htot & Hsum & Hcs & Hseq & Hchunk & Hfull & Hlong) H0.
  exists cmd. split; [done|].
  assert (Hp : payload_bytes (received st) = d0 ++ concat cs).
  { rewrite Hr. unfold payload_bytes. cbn. f_equal. apply payload_continuation_packets. }
  assert (HLen : len (d0 ++ concat cs) = L) by len_lia.
  rewrite Hp. split; [|rewrite Hr; cbn; by rewrite HLen].
  unfold NewMessage. rewrite HLen.
  assert (Hmax : L <= 7609).
  { pose proof (f_equal len Hchunk) as Hn.
    rewrite len_chunk in Hn by apply continuation_size_pos.
    change (Z.of_nat (Z.to_nat continuationPacketDataSize)) with 59 in Hn.
    unfold initPacketDataSize, hidPacketSize, initPacketHeaderSize in *.
    assert (len (concat cs) <= 128 * 59); [|lia].
    assert ((len (concat cs) + 59 - 1) / 59 <= 128) as Hdiv by lia.
    pose proof (Z.mul_succ_div_gt (len (concat cs) + 59 - 1) 59). lia. }
  destruct (Z.ltb_spec 7609 L); [lia|]. unfold u16. rewrite Z.mod_small by lia.
  rewrite <- Hd0, take_len_app.
  destruct (Z.ltb_spec initPacketDataSize L).
  - replace (drop _ (d0 ++ concat cs)) with (concat cs).
    + by rewrite <- Hchunk, Hr.
    + symmetry. replace (Z.to_nat initPacketDataSize) with (length d0);
        [by rewrite drop_app_length|]. unfold len in Hd0. lia.
  - assert (len (concat cs) = 0) as Hz.
    { len_nonneg_all. destruct (Z.lt_ge_cases 0 (len (concat cs))); [|lia].
      specialize (Hlong ltac:(done)). lia. }
    apply len_0 in Hz. rewrite Hz in Hchunk. rewrite chunk_nil in Hchunk. by rewrite Hr, Hchunk.
Qed.

(** ** Writing messages *)

Lemma packet_fits_continuation cid n l : forall s,
  Forall packet_fits (continuation_packets cid s (chunk (S n) l)) <->
  Forall (fun c => len c <= continuationPacketDataSize) (chunk (S n) l).
Proof.
  generalize (chunk (S n) l). intros cs. induction cs as [|c cs IH]; intros s; simpl; [done|].
  rewrite !Forall_cons, IH. done.
Qed.

Lemma NewMessage_fits cid cmd data m :
  NewMessage cid cmd data = Ok m -> Forall packet_fits m.
Proof.
  unfold NewMessage. intros HN.
  destruct (Z.ltb_spec 7609 (len data)) as [|_]; [done|].
  set (d0 := take _ data) in HN.
  assert (Hd0 : packet_fits (Packet cid cmd 0 (u16 (len data)) d0 false)).
  { unfold packet_fits, d0. cbn. len_nonneg_all. hid_lia. }
  destruct (initPacketDataSize <? len data); simplify_eq/=; constructor; try done.
  apply (packet_fits_continuation _ 58 _ 0). eapply Forall_impl; [apply chunk_bounds; lia|].
  intros c [_ Hc]. unfold len. hid_lia.
Qed.

(** [OutputReports] fills every 65-byte report. *)
Lemma OutputReports_sizes m :
  Forall packet_fits m ->
  Forall (fun r => len r = hidReportPacketSize /\ head r = Some 0) (OutputReports m).
Proof.
  intros Hm. unfold OutputReports. apply Forall_fmap. eapply Forall_impl; [exact Hm|].
  intros p Hp. cbn. rewrite len_cons, len_packet_WriteTo by done. done.
Qed.

(** The reports of a message as CTAP lays them out: the first has the
    command, the length and payload bytes 0 to 56, the next ones a sequence
    number from zero and the payload 59 bytes at a time, zeros at the end. *)
Definition padded (n : nat) (l : list Z) : list Z := l ++ zeros (n - length l).

Definition report_of (cid : ChannelID) (cmd : Z) (data : list Z) (i : nat) : list Z :=
  [0] ++ cid_bytes cid ++
  match i with
  | O => [Z.lor cmd 0x80; len data / 256; len data mod 256] ++ padded 57 (take 57 data)
  | S j => [Z.of_nat j] ++ padded 59 (take 59 (drop (57 + 59 * j) data))
  end.

Lemma packet_padded n (header l : list Z) : len header + Z.of_nat n = 64 -> (length l <= n)%nat ->
  (let written := header ++ l in
   if 0 <? hidPacketSize - len written
   then written ++ zeros (Z.to_nat (hidPacketSize - len written)) else written) = header ++ padded n l.
Proof.
  intros Hh Hl. cbv zeta. unfold padded. rewrite len_app. unfold len in *.
  destruct (Z.ltb_spec 0 (hidPacketSize - (Z.of_nat (length header) + Z.of_nat (length l)))) as [H|H].
  - rewrite <- (assoc_L (++)). do 3 f_equal. hid_lia.
  - replace (n - length l)%nat with 0%nat by hid_lia. cbn. by rewrite app_nil_r.
Qed.

Lemma continuation_reports cid cmd data k : forall j rest,
  rest = drop (57 + 59 * j) data -> (j + length (chunk 59 rest) <= 255)%nat -> length (chunk 59 rest) = k ->
  OutputReports (continuation_packets cid (Z.of_nat j) (chunk 59 rest)) = report_of cid cmd data <$> seq (S j) k.
Proof.
  induction k as [|k IH]; intros j rest -> Hj Hk.
  { by apply length_zero_iff_nil in Hk as ->. }
  destruct (decide (drop (57 + 59 * j) data = [])) as [E|Hne]; [by rewrite E in Hk|].
  rewrite chunk_step in * by (done || lia). cbn [length] in *.
  cbn [continuation_packets OutputReports fmap list_fmap seq]. f_equal.
  - unfold packet_WriteTo. cbn [p_cid p_continuation p_sequence p_data].
    rewrite (packet_padded 59); [|done|rewrite length_take; lia].
    unfold report_of. by rewrite <- (assoc_L (++)).
  - rewrite drop_drop in *. replace (57 + 59 * j + 59)%nat with (57 + 59 * S j)%nat in * by lia.
    replace (u8 (Z.of_nat j + 1)) with (Z.of_nat (S j)); [apply IH; [done|lia|lia]|].
    rewrite u8_id by (unfold is_byte; lia). lia.
Qed.

(** A message has at most 129 packets: the sequence numbers stay below the
    bit of initialisation packets. *)
Lemma NewMessage_length cid cmd data m : NewMessage cid cmd data = Ok m -> (length m <= 129)%nat.
Proof.
  unfold NewMessage. destruct (Z.ltb_spec 7609 (len data)) as [|Hmax]; [done|].
  destruct (Z.ltb_spec initPacketDataSize (len data)); intros [= <-]; [|cbn; lia].
  assert (Hn : len (continuation_packets cid 0
    (chunk (Z.to_nat continuationPacketDataSize) (drop (Z.to_nat initPacketDataSize) data))) <= 128).
  { rewrite len_continuation_packets, len_chunk, len_drop by apply continuation_size_pos.
    apply Z.lt_succ_r, Z.div_lt_upper_bound; hid_lia. }
  unfold len in Hn. cbn [app length]. lia.
Qed.

Lemma NewMessage_reports cid cmd data m : NewMessage cid cmd data = Ok m ->
  OutputReports m = report_of cid cmd data <$> seq 0 (length m).
Proof.
  unfold NewMessage. destruct (Z.ltb_spec 7609 (len data)) as [|Hmax]; [done|].
  change (Z.to_nat continuationPacketDataSize) with 59%nat. change (Z.to_nat initPacketDataSize) with 57%nat.
  assert (Hfirst : 0 :: packet_WriteTo (Packet cid cmd 0 (u16 (len data))
    (take (Z.to_nat (Z.min (len data) initPacketDataSize)) data) false) = report_of cid cmd data 0).
  { unfold packet_WriteTo. cbn [p_cid p_continuation p_command p_length p_data].
    replace (take (Z.to_nat (Z.min (len data) initPacketDataSize)) data) with (take 57 data).
    2: { unfold len. destruct (Z.le_ge_cases (Z.of_nat (length data)) 57).
         - rewrite !take_ge by hid_lia. done.
         - f_equal. hid_lia. }
    rewrite (packet_padded 57); [|done|rewrite length_take; lia].
    unfold report_of. rewrite <- (assoc_L (++)). cbn. rewrite u16_id by (pose proof (len_nonneg data); lia).
    rewrite Z.shiftr_div_pow2 by lia. do 6 f_equal.
    rewrite u8_id; [done|]. pose proof (len_nonneg data). split; [by apply Z.div_pos|].
    apply Z.div_lt_upper_bound; lia. }
  destruct (Z.ltb_spec initPacketDataSize (len data)) as [Hlong|Hshort]; intros [= <-].
  - cbn [app OutputReports fmap list_fmap length seq]. f_equal; [done|].
    assert (Hc : len (continuation_packets cid 0 (chunk 59 (drop 57 data))) = len (chunk 59 (drop 57 data)))
      by apply len_continuation_packets.
    assert (Hn : len (chunk 59 (drop 57 data)) <= 128).
    { rewrite len_chunk, len_drop by lia. apply Z.lt_succ_r, Z.div_lt_upper_bound; hid_lia. }
    unfold len in Hc, Hn. apply Nat2Z.inj in Hc. rewrite Hc.
    apply (continuation_reports cid cmd data _ 0); [done|lia|done].
  - cbn. by rewrite Hfirst.
Qed.

(** Writes that all succeed. *)
Definition writes_ok (n : nat) (w : hid) : Prop :=
  Forall (fun r => r = None) (take n (wr w)).

(** What [WriteTo] does to the world when [n] writes succeed. *)
Definition after_writes (reports : list (list Z)) (w : hid) : hid :=
  Hid (rx w) (drop (length reports) (wr w)) (tx w ++ reports) (ctxs w) (closed w).

Lemma WriteTo_ok m : forall w,
  Forall packet_fits m -> writes_ok (length m) w ->
  WriteTo m w = (Ok (hidReportPacketSize * len m), after_writes (OutputReports m) w).
Proof.
  induction m as [|p m IH]; intros w Hm Hw.
  - destruct w; cbn. unfold after_writes; cbn. by rewrite app_nil_r.
  - apply Forall_cons in Hm as [Hp Hm]. unfold writes_ok in Hw.
    destruct w as [rx0 wr0 tx0 ctx0 cl0].
    destruct wr0 as [|[e|] wr1]; cbn [wr take] in Hw; cbn [WriteTo];
      unfold mbind, M_bind, device_Write; cbn [wr rx tx ctxs closed].
    + rewrite IH by (done || by unfold writes_ok; cbn; rewrite take_nil).
      rewrite len_packet_WriteTo by done. unfold mret, M_ret. f_equal.
      * f_equal. rewrite len_cons. hid_lia.
      * unfold after_writes. cbn. rewrite <- (assoc_L (++)). by rewrite drop_nil.
    + apply Forall_cons in Hw as [? _]. done.
    + apply Forall_cons in Hw as [_ Hw]. rewrite IH by done.
      rewrite len_packet_WriteTo by done. unfold mret, M_ret. f_equal.
      * f_equal. rewrite len_cons. hid_lia.
      * unfold after_writes. cbn. by rewrite <- (assoc_L (++)).
Qed.

(** A failing write stops the message. *)
Lemma WriteTo_error m : forall w k e,
  Forall packet_fits m -> (k < length m)%nat -> writes_ok k w ->
  wr w !! k = Some (Some e) ->
  exists w', WriteTo m w = (Err e, w') /\
    tx w' = tx w ++ take k (OutputReports m) /\ rx w' = rx w.
Proof.
  induction m as [|p m IH]; intros w k e Hm Hk Hw He; [simpl in Hk; lia|].
  apply Forall_cons in Hm as [Hp Hm]. unfold writes_ok in Hw.
  destruct w as [rx0 wr0 tx0 ctx0 cl0]. cbn [wr] in *.
  destruct k as [|k]; (destruct wr0 as [|r wr1]; [done|]); simpl in He; simplify_eq;
    cbn [WriteTo]; unfold mbind, M_bind, device_Write; cbn [wr rx tx ctxs closed].
  - eexists. split_and!; [done| by rewrite app_nil_r |done].
  - cbn [take] in Hw. apply Forall_cons in Hw as [-> Hw].
    destruct (IH (Hid rx0 wr1 (tx0 ++ [0x00 :: packet_WriteTo p]) ctx0 cl0) k e)
      as (w' & -> & Htx & Hrx); [done|simpl in Hk; lia|done|done|].
    eexists. split_and!; [done| |done]. rewrite Htx. cbn. by rewrite <- (assoc_L (++)).
Qed.

Lemma NewMessage_total cid cmd data :
  len data <= 7609 -> exists m, NewMessage cid cmd data = Ok m.
Proof.
  intros. unfold NewMessage. destruct (Z.ltb_spec 7609 (len data)); [lia|].
  case_match; eauto.
Qed.

(** ** Properties *)

(** C27. Encoding a payload and decoding its packets off the wire gives the
    message back, packet for packet, with the payload that was sent; the
    decoder stops exactly at the end of the message. *)
Theorem framing_roundtrip cid cmd data m w rest :
  0 <= cmd < 128 -> NewMessage cid cmd data = Ok m -> rx w = wire m ++ rest ->
  ReadFrom w = (Ok (m, hidPacketSize * len m), set_rx rest w) /\ Payload m = Ok data.
Proof.
  intros Hcmd HN Hrx. split; [by eapply ReadFrom_wire|].
  pose proof (payload_NewMessage _ _ _ _ HN) as Hp.
  destruct m; [|by rewrite <- Hp].
  unfold NewMessage in HN. case_all HN.
Qed.

(** Whatever reports arrive, a message the decoder accepts is one the
    encoder builds from its own payload: one channel, consecutive sequence
    numbers from zero, full packets, declared length equal to the payload's
    and at most 7609. *)
Theorem framing_canonical w m n w' :
  Forall report_ok (rx w) -> ReadFrom w = (Ok (m, n), w') ->
  exists cid cmd,
    0 <= cmd < 128 /\ NewMessage cid cmd (payload_bytes m) = Ok m /\
    DeclaredLength m = Ok (len (payload_bytes m)) /\ len (payload_bytes m) <= 7609.
Proof.
  intros Hok Hrun. unfold ReadFrom in Hrun.
  destruct (ReadFrom_loop read_start (rx w)) as [[st| | |] rest] eqn:Hloop; simplify_eq/=.
  destruct (rx w) as [|[raw|e] events]; simpl in Hloop; simplify_eq.
  apply Forall_cons in Hok as [Hraw Hok].
  destruct (read_packet read_start raw) as [st1| | |] eqn:Hread; try done.
  apply decoding_start in Hread; [|done].
  eapply ReadFrom_loop_decoding in Hloop as [Hst H0]; [|done..].
  destruct (decoding_complete _ Hst H0) as (cmd & Hcmd & HN & HL).
  exists (expectedCID st), cmd. do 3 (split; [done|]).
  unfold NewMessage in HN. destruct (Z.ltb_spec 7609 (len (payload_bytes (received st)))); done.
Qed.

(** C39. A payload is refused exactly above 7609 bytes; otherwise [WriteTo]
    hands the device 65-byte reports, exactly those CTAP lays out: after the
    report ID zero and the channel, the first has the command with its top
    bit set, the length and 57 payload bytes, the next ones count from zero
    and have 59 payload bytes each, and zeros fill the last. A write that
    fails stops the message right there with the device's error. *)
Theorem message_written cid cmd data w :
  (7609 < len data <-> NewMessage cid cmd data = Err ErrMessageTooLarge) /\
  (len data <= 7609 -> exists m, NewMessage cid cmd data = Ok m /\
     len m = 1 + (Z.max 0 (len data - 57) + 58) / 59 /\
     Forall (fun r => len r = 65 /\ head r = Some 0) (OutputReports m) /\
     OutputReports m = report_of cid cmd data <$> seq 0 (length m) /\
     (writes_ok (length m) w ->
        WriteTo m w = (Ok (65 * len m), after_writes (OutputReports m) w)) /\
     (forall k e, (k < length m)%nat -> writes_ok k w -> wr w !! k = Some (Some e) ->
        exists w', WriteTo m w = (Err e, w') /\
          tx w' = tx w ++ take k (OutputReports m))).
Proof.
  split.
  { unfold NewMessage. destruct (Z.ltb_spec 7609 (len data)); [done|].
    split; [lia|]. by destruct (initPacketDataSize <? len data). }
  intros Hmax. destruct (NewMessage_total cid cmd data Hmax) as [m HN].
  exists m. pose proof (NewMessage_fits _ _ _ _ HN) as Hfit. split_and!; try done.
  - unfold NewMessage in HN. destruct (Z.ltb_spec 7609 (len data)); [done|].
    destruct (Z.ltb_spec initPacketDataSize (len data)); simplify_eq; rewrite len_cons.
    + f_equal. cbn [app]. rewrite len_continuation_packets, len_chunk, len_drop
        by apply continuation_size_pos. f_equal. hid_lia.
    + rewrite Z.max_l by hid_lia. done.
  - by apply OutputReports_sizes.
  - by apply NewMessage_reports.
  - intros. by rewrite WriteTo_ok.
  - intros k e Hk Hw He. destruct (WriteTo_error m w k e) as (w' & ? & ? & _); eauto.
Qed.

(** *** Concrete messages *)

Definition sample_payload : list Z := zeros 60 ++ [7].

Definition sample_message : Message :=
  Packet (CID 1 2 3 4) CTAPHID_PING 0 61 (zeros 57) false
    :: [Packet (CID 1 2 3 4) 0 0 0 [0; 0; 0; 7] true].

Lemma framing_roundtrip_witness :
  let w := Hid (wire sample_message ++ [ReadError io_EOF]) [] [] [] 0 in
  ReadFrom w = (Ok (sample_message, 128), Hid [ReadError io_EOF] [] [] [] 0) /\
  Payload sample_message = Ok sample_payload.
Proof.
  intros w. apply (framing_roundtrip (CID 1 2 3 4) CTAPHID_PING sample_payload
    sample_message w [ReadError io_EOF]).
  - unfold CTAPHID_PING. lia.
  - reflexivity.
  - reflexivity.
Defined.

Lemma framing_canonical_witness :
  let raw := packet_WriteTo (Packet (CID 1 2 3 4) CTAPHID_WINK 0 1 [9] false) in
  exists cid cmd,
    0 <= cmd < 128 /\ NewMessage cid cmd [9] = Ok [Packet (CID 1 2 3 4) CTAPHID_WINK 0 1 [9] false].
Proof.
  intros raw.
  destruct (framing_canonical (Hid [Report raw] [] [] [] 0)
    [Packet (CID 1 2 3 4) CTAPHID_WINK 0 1 [9] false] 64 (Hid [] [] [] [] 0))
    as (cid & cmd & H1 & H2 & _).
  - repeat constructor; vm_compute; intuition congruence.
  - vm_compute. reflexivity.
  - exists cid, cmd. split; [exact H1 | exact H2].
Defined.
