(* ===== verification/Transport.v ===== *)
(** * The transport boundary (src/transport/transport.go, status.go)

    One CTAP response as every transport returns it, and the status check
    all of them end with. *)
From S2P Require Import Prelude GoError.

Record CBORResponse := MkCBORResponse { StatusCode : Z; Data : list Z }.

#[export] Instance CBORResponse_eq_dec : EqDecision CBORResponse.
Proof. solve_decision. Defined.

Definition CTAP2_OK : Z := 0x00.
Definition CTAP1_ERR_INVALID_COMMAND : Z := 0x01.
Definition CTAP1_ERR_INVALID_PARAMETER : Z := 0x02.
Definition CTAP2_ERR_NO_CREDENTIALS : Z := 0x2E.
Definition CTAP2_ERR_KEEPALIVE_CANCEL : Z := 0x2D.
Definition CTAP2_ERR_PIN_AUTH_INVALID : Z := 0x33.
Definition CTAP2_ERR_INVALID_OPTION : Z := 0x2C.
Definition CTAP2_ERR_NOT_ALLOWED : Z := 0x30.
Definition CTAP1_ERR_CHANNEL_BUSY : Z := 0x06.

Definition ValidateCBORResponse (command : Z) (response : CBORResponse)
    : result CBORResponse :=
  if negb (StatusCode response =? CTAP2_OK)
  then Err (ECTAP command (StatusCode response))
  else Ok response.

(** [StatusCode(data[0])] and [data[1:]], the split of a raw response. *)
Definition response_of (data : list Z) : CBORResponse :=
  MkCBORResponse (nth 0 data 0) (drop 1 data).

Lemma ValidateCBORResponse_ok c r r' :
  ValidateCBORResponse c r = Ok r' -> r' = r /\ StatusCode r = CTAP2_OK.
Proof.
  unfold ValidateCBORResponse. intros H. case_all H. by to_prop.
Qed.
