(* ===== verification/HidCommands.v ===== *)
(** * CTAPHID commands (src/transport/ctaphid/commands.go)

    Every command writes one request message and then reads messages until
    one on its channel ends the exchange. *)
From S2P Require Import Prelude GoError Transport HidFraming.

(** ** Shared steps *)

Definition ensureDataLen (data : list Z) (min : Z) : result unit :=
  if len data <? min then Err ErrInvalidResponseMessage else Ok tt.

Definition responseMatchesCID (msg : Message) (cid : ChannelID) : result bool :=
  match msg with
  | [] => Err ErrInvalidResponseMessage
  | p :: _ => Ok (bool_decide (p_cid p = cid))
  end.

(** [case CTAPHID_ERROR] of every command. *)
Definition error_response {A} (p : packet) : result A :=
  ensureDataLen (p_data p) 1 ≫= fun _ => Err (EHIDResponse (nth 0 (p_data p) 0)).

(** The [for] loop around [ReadFrom]: [handle] is the loop's body on a
    message of the channel, [None] its [continue]. Every iteration takes at
    least one event, so the fuel [S (length (rx w))] is never what stops
    it ([receive_unfold]). *)
Fixpoint receive_loop {A} (fuel : nat) (cid : ChannelID)
    (handle : Message -> result (option A)) : M hid A :=
  match fuel with
  | O => blocked
  | S fuel' =>
      ReadFrom ≫= fun '(msg, _) =>
      lift (responseMatchesCID msg cid) ≫= fun matches =>
      if negb matches then receive_loop fuel' cid handle
      else lift (handle msg) ≫= fun r =>
           match r with
           | None => receive_loop fuel' cid handle
           | Some a => mret a
           end
  end.

Definition receive {A} (cid : ChannelID) (handle : Message -> result (option A))
    : M hid A :=
  fun w => receive_loop (S (length (rx w))) cid handle w.

(** ** CBOR *)

Definition writeCBOR (cid : ChannelID) (data : list Z) : M hid Z :=
  if len data <? 1 then fail ErrInvalidRequestMessage
  else
    lift (NewMessage cid CTAPHID_CBOR data) ≫= fun msg =>
    WriteTo msg ≫= fun _ =>
    mret (nth 0 data 0).

Definition handle_CBOR (command : Z) (msg : Message) : result (option CBORResponse) :=
  match msg with
  | [] => Ok None
  | p :: _ =>
      let finish :=
        let respData := payload_bytes msg in
        ensureDataLen respData 1 ≫= fun _ =>
        Some <$> ValidateCBORResponse command (response_of respData) in
      if p_command p =? CTAPHID_CBOR then ensureDataLen (p_data p) 1 ≫= fun _ => finish
      else if p_command p =? CTAPHID_ERROR then error_response p
      else if p_command p =? CTAPHID_KEEPALIVE then Ok None
      else Err ErrUnexpectedCommand
  end.

Definition readCBORResponse (cid : ChannelID) (command : Z) : M hid CBORResponse :=
  receive cid (handle_CBOR command).

Definition CBOR (cid : ChannelID) (data : list Z) : M hid CBORResponse :=
  writeCBOR cid data ≫= fun command => readCBORResponse cid command.

(** ** INIT *)

Record InitResponse := MkInitResponse {
  Nonce : list Z;
  InitCID : ChannelID;
  CTAPHIDProtocolVersionIdentifier : Z;
  MajorDeviceVersion : Z;
  MinorDeviceVersion : Z;
  BuildDeviceVersion : Z;
  CapabilityFlags : Z }.

#[export] Instance InitResponse_eq_dec : EqDecision InitResponse.
Proof. solve_decision. Defined.

Definition ImplementsWink (r : InitResponse) : bool :=
  has_bit (CapabilityFlags r) CAPABILITY_WINK.
Definition ImplementsLock (r : InitResponse) : bool :=
  has_bit (CapabilityFlags r) CAPABILITY_LOCK.
Definition ImplementsCBOR (r : InitResponse) : bool :=
  has_bit (CapabilityFlags r) CAPABILITY_CBOR.
Definition NotImplementsMSG (r : InitResponse) : bool :=
  has_bit (CapabilityFlags r) CAPABILITY_NMSG.

Definition handle_Init (nonce : list Z) (msg : Message) : result (option InitResponse) :=
  match msg with
  | [] => Ok None
  | p :: _ =>
      let d := p_data p in
      if p_command p =? CTAPHID_INIT then
        ensureDataLen d 17 ≫= fun _ =>
        if negb (bool_decide (take 8 d = nonce)) then Ok None
        else Ok (Some (MkInitResponse (take 8 d) (cid_of (take 4 (drop 8 d)))
                  (nth 12 d 0) (nth 13 d 0) (nth 14 d 0) (nth 15 d 0) (nth 16 d 0)))
      else if p_command p =? CTAPHID_ERROR then error_response p
      else if p_command p =? CTAPHID_KEEPALIVE then Ok None
      else Err ErrUnexpectedCommand
  end.

Definition Init (cid : ChannelID) (nonce : list Z) : M hid InitResponse :=
  if negb (len nonce =? 8) then fail ErrInvalidRequestMessage
  else
    lift (NewMessage cid CTAPHID_INIT nonce) ≫= fun msg =>
    WriteTo msg ≫= fun _ =>
    receive cid (handle_Init nonce).

(** ** PING and vendor commands: the payload of the answering message *)

Definition handle_echo (command : Z) (msg : Message) : result (option (list Z)) :=
  match msg with
  | [] => Ok None
  | p :: _ =>
      if p_command p =? command then Ok (Some (payload_bytes msg))
      else if p_command p =? CTAPHID_ERROR then error_response p
      else if p_command p =? CTAPHID_KEEPALIVE then Ok None
      else Err ErrUnexpectedCommand
  end.

Definition Ping (cid : ChannelID) (data : list Z) : M hid (list Z) :=
  lift (NewMessage cid CTAPHID_PING data) ≫= fun msg =>
  WriteTo msg ≫= fun _ =>
  receive cid (handle_echo CTAPHID_PING).

Definition Vendor (cid : ChannelID) (command : Z) (data : list Z) : M hid (list Z) :=
  if (command <? CTAPHID_VENDOR_FIRST) || (CTAPHID_VENDOR_LAST <? command)
  then fail ErrInvalidRequestMessage
  else
    lift (NewMessage cid command data) ≫= fun msg =>
    WriteTo msg ≫= fun _ =>
    receive cid (handle_echo command).

(** ** CANCEL, WINK and LOCK *)

Definition Cancel (cid : ChannelID) : M hid unit :=
  lift (NewMessage cid CTAPHID_CANCEL []) ≫= fun msg =>
  WriteTo msg ≫= fun _ => mret tt.

Definition handle_ack (command : Z) (msg : Message) : result (option unit) :=
  match msg with
  | [] => Ok None
  | p :: _ =>
      if p_command p =? command then Ok (Some tt)
      else if p_command p =? CTAPHID_ERROR then error_response p
      else if p_command p =? CTAPHID_KEEPALIVE then Ok None
      else Err ErrUnexpectedCommand
  end.

Definition Wink (cid : ChannelID) : M hid unit :=
  lift (NewMessage cid CTAPHID_WINK []) ≫= fun msg =>
  WriteTo msg ≫= fun _ =>
  receive cid (handle_ack CTAPHID_WINK).

Definition Lock (cid : ChannelID) (seconds : Z) : M hid unit :=
  if 10 <? seconds then fail ErrInvalidRequestMessage
  else
    lift (NewMessage cid CTAPHID_LOCK [seconds]) ≫= fun msg =>
    WriteTo msg ≫= fun _ =>
    receive cid (handle_ack CTAPHID_LOCK).

(** ** The receive loop *)

Lemma read_packet_not_Blocked st raw : read_packet st raw <> Blocked.
Proof. unfold read_packet. repeat case_match; done. Qed.

Lemma ReadFrom_loop_consumes events : forall st r rest,
  ReadFrom_loop st events = (r, rest) -> total st <> 0 ->
  (r = Blocked /\ rest = []) \/ (r <> Blocked /\ (length rest < length events)%nat).
Proof.
  induction events as [|[raw|e] events IH]; intros st r rest H Hst;
    cbn [ReadFrom_loop] in H; destruct (Z.eqb_spec (total st) 0); try done; simplify_eq.
  - by left.
  - pose proof (read_packet_not_Blocked st raw).
    destruct (read_packet st raw) as [st'| | |]; simplify_eq/=; try (right; split; [done|lia]).
    destruct (Z.eq_dec (total st') 0) as [Hz|Hz].
    + right. destruct events as [|[]]; cbn [ReadFrom_loop] in H; rewrite Hz in H;
        simplify_eq/=; split; (done || lia).
    + destruct (IH _ _ _ H Hz) as [?|[??]]; [by left|right; split; [done|lia]].
  - right. split; [done|simpl; lia].
Qed.

(** Reading a message touches nothing but the events, and takes at least
    one unless it waits for more. *)
Lemma ReadFrom_rx w r w' :
  ReadFrom w = (r, w') ->
  w' = set_rx (rx w') w /\
  ((r = Blocked /\ rx w' = []) \/ (r <> Blocked /\ (length (rx w') < length (rx w))%nat)).
Proof.
  unfold ReadFrom. destruct (ReadFrom_loop read_start (rx w)) as [r' rest] eqn:H.
  intros ?; simplify_eq/=. split; [by destruct w|].
  apply ReadFrom_loop_consumes in H; [|simpl; lia].
  destruct H as [[-> ->]|[? ?]]; [by left|right; split; [by destruct r'|done]].
Qed.

Section receive.
Context {A : Type} (cid : ChannelID) (handle : Message -> result (option A)).
Implicit Types (w : hid) (m : Message).

Lemma receive_loop_enough f1 : forall f2 w,
  (length (rx w) < f1)%nat -> (length (rx w) < f2)%nat ->
  receive_loop f1 cid handle w = receive_loop f2 cid handle w.
Proof.
  induction f1 as [|f1 IH]; intros [|f2] w H1 H2; try lia.
  cbn [receive_loop]. unfold mbind, M_bind.
  destruct (ReadFrom w) as [[[m n]| | |] w'] eqn:HR; try done.
  apply ReadFrom_rx in HR as [_ [[? _]|[_ Hlt]]]; [done|]. cbn [lift].
  destruct (responseMatchesCID m cid) as [[]| | |]; cbn [negb]; try done.
  - destruct (handle m) as [[a|]| | |]; try done. apply IH; lia.
  - apply IH; lia.
Qed.

(** The loop's equation: its fuel is never what ends it. *)
Lemma receive_unfold w :
  receive cid handle w =
    (ReadFrom ≫= fun '(msg, _) =>
     lift (responseMatchesCID msg cid) ≫= fun matches =>
     if negb matches then receive cid handle
     else lift (handle msg) ≫= fun r =>
          match r with None => receive cid handle | Some a => mret a end) w.
Proof.
  unfold receive at 1. cbn [receive_loop]. unfold mbind, M_bind.
  destruct (ReadFrom w) as [[[m n]| | |] w'] eqn:HR; try done.
  apply ReadFrom_rx in HR as [_ [[? _]|[_ Hlt]]]; [done|]. cbn [lift].
  destruct (responseMatchesCID m cid) as [[]| | |]; cbn [negb]; try done.
  - destruct (handle m) as [[a|]| | |]; try done. apply receive_loop_enough; lia.
  - apply receive_loop_enough; lia.
Qed.

(** A message some sender put on the wire. *)
Definition sent m (cid' : ChannelID) (cmd : Z) (data : list Z) : Prop :=
  0 <= cmd < 128 /\ NewMessage cid' cmd data = Ok m.

(** Messages the loop passes over: those of other channels, and those its
    handler continues on. *)
Definition ignored m : Prop :=
  exists cid' cmd data, sent m cid' cmd data /\ (cid' <> cid \/ handle m = Ok None).

Lemma sent_head m cid' cmd data :
  sent m cid' cmd data ->
  exists p rest, m = p :: rest /\ p_cid p = cid' /\ p_command p = cmd /\
    p_data p = take (Z.to_nat (Z.min (len data) initPacketDataSize)) data /\
    payload_bytes m = data.
Proof.
  intros [_ HN]. pose proof (payload_NewMessage _ _ _ _ HN).
  unfold NewMessage in HN. case_all HN; by eexists _, _.
Qed.

Lemma receive_sent m cid' cmd data w rest :
  sent m cid' cmd data -> rx w = wire m ++ rest ->
  receive cid handle w =
    (if negb (bool_decide (cid' = cid)) then receive cid handle
     else lift (handle m) ≫= fun r =>
          match r with None => receive cid handle | Some a => mret a end)
      (set_rx rest w).
Proof.
  intros Hs Hrx. rewrite receive_unfold.
  erewrite M_bind_Ok by by eapply ReadFrom_wire; [apply Hs..|].
  destruct (sent_head _ _ _ _ Hs) as (p & ps & -> & <- & _). done.
Qed.

Lemma receive_ignored m w rest :
  ignored m -> rx w = wire m ++ rest ->
  receive cid handle w = receive cid handle (set_rx rest w).
Proof.
  intros (cid' & cmd & data & Hs & Hi) Hrx. rewrite (receive_sent _ _ _ _ _ _ Hs Hrx).
  case_bool_decide; cbn [negb]; [|done]. destruct Hi as [|Hi]; [done|].
  unfold mbind, M_bind. cbn [lift]. by rewrite Hi.
Qed.

Lemma receive_noise ms : forall w rest,
  Forall ignored ms -> rx w = concat (wire <$> ms) ++ rest ->
  receive cid handle w = receive cid handle (set_rx rest w).
Proof.
  induction ms as [|m ms IH]; intros w rest Hms Hrx; simpl in Hrx.
  - rewrite <- Hrx. by destruct w.
  - apply Forall_cons in Hms as [Hm Hms]. rewrite <- (assoc_L (++)) in Hrx.
    rewrite (receive_ignored _ _ _ Hm Hrx). by rewrite (IH _ rest).
Qed.

(** Noise, then the message that ends the exchange. *)
Lemma receive_answer ms m cmd data r w rest :
  Forall ignored ms -> sent m cid cmd data -> handle m = Some <$> r ->
  rx w = concat (wire <$> ms) ++ wire m ++ rest ->
  receive cid handle w = (r, set_rx rest w).
Proof.
  intros Hms Hs Hh Hrx. rewrite (receive_noise _ _ _ Hms Hrx).
  rewrite (receive_sent _ _ _ _ (set_rx _ w) rest Hs) by done.
  rewrite bool_decide_true by done. cbn [negb]. unfold mbind, M_bind. cbn [lift].
  rewrite Hh. by destruct r, w.
Qed.

(** What a loop returns, its handler made from one message. *)
Lemma receive_inv w a w' :
  receive cid handle w = (Ok a, w') -> exists m, handle m = Ok (Some a).
Proof.
  unfold receive. generalize (S (length (rx w))). intros f. revert w.
  induction f as [|f IH]; intros w H; [done|].
  cbn [receive_loop] in H. m_inv H. destruct a0 as [m n]. m_inv H.
  destruct a0; cbn [negb] in H; [|eauto]. m_inv H. destruct a0; [|eauto].
  unfold mret, M_ret, lift in *. simplify_eq. eauto.
Qed.
End receive.

(** ** Requests *)

(** A request the encoder builds and the device takes. *)
Definition request_sent (cid : ChannelID) (cmd : Z) (data : list Z) (w : hid)
    (req : Message) : Prop :=
  NewMessage cid cmd data = Ok req /\ writes_ok (length req) w.

Lemma request_then {B} cid cmd data w req (k : M hid B) :
  request_sent cid cmd data w req ->
  (lift (NewMessage cid cmd data) ≫= fun msg => WriteTo msg ≫= fun _ => k) w =
  k (after_writes (OutputReports req) w).
Proof.
  intros [HN Hw]. unfold mbind, M_bind. cbn [lift]. rewrite HN.
  rewrite WriteTo_ok; [done| |done]. by eapply NewMessage_fits.
Qed.

Lemma writeCBOR_sent cid data w req :
  data <> [] -> request_sent cid CTAPHID_CBOR data w req ->
  writeCBOR cid data w = (Ok (nth 0 data 0), after_writes (OutputReports req) w).
Proof.
  intros Hd Hs. unfold writeCBOR. apply len_pos in Hd.
  destruct (Z.ltb_spec (len data) 1); [lia|]. by rewrite (request_then _ _ _ _ _ _ Hs).
Qed.

(** The first packet of a non-empty payload holds its first byte. *)
Lemma sent_cons m cid cmd x data :
  sent m cid cmd (x :: data) ->
  exists p rest l, m = p :: rest /\ p_command p = cmd /\ p_data p = x :: l /\
    payload_bytes m = x :: data.
Proof.
  intros Hs. destruct (sent_head _ _ _ _ Hs) as (p & rest & Hm & _ & Hc & Hd & Hp).
  exists p, rest. rewrite len_cons in Hd. pose proof (len_nonneg data).
  replace (Z.to_nat (Z.min (1 + len data) initPacketDataSize))
    with (S (Z.to_nat (Z.min (1 + len data) initPacketDataSize - 1))) in Hd by hid_lia.
  eexists. by split_and!.
Qed.

Lemma ensureDataLen_cons x l : ensureDataLen (x :: l) 1 = Ok tt.
Proof.
  unfold ensureDataLen. pose proof (len_nonneg l). rewrite len_cons.
  by destruct (Z.ltb_spec (1 + len l) 1); [lia|].
Qed.

Lemma handle_CBOR_answer m cid command status data :
  sent m cid CTAPHID_CBOR (status :: data) ->
  handle_CBOR command m =
    Some <$> ValidateCBORResponse command (MkCBORResponse status data).
Proof.
  intros Hs. destruct (sent_cons _ _ _ _ _ Hs) as (p & rest & l & -> & Hc & Hd & Hp).
  unfold handle_CBOR. by rewrite Hc, Hp, Hd, !ensureDataLen_cons.
Qed.

Lemma handle_CBOR_keepalive m cid command data :
  sent m cid CTAPHID_KEEPALIVE data -> handle_CBOR command m = Ok None.
Proof.
  intros Hs. destruct (sent_head _ _ _ _ Hs) as (p & rest & -> & _ & Hc & _).
  unfold handle_CBOR. by rewrite Hc.
Qed.

Lemma handle_error_answer m cid code data :
  sent m cid CTAPHID_ERROR (code :: data) ->
  exists p ps, m = p :: ps /\ p_command p = CTAPHID_ERROR /\
    forall B, @error_response B p = Err (EHIDResponse code).
Proof.
  intros Hs. destruct (sent_cons _ _ _ _ _ Hs) as (p & rest & l & -> & Hc & Hd & _).
  exists p, rest. split_and!; try done. intros B. unfold error_response.
  by rewrite Hd, ensureDataLen_cons.
Qed.

(** An INIT answer fits the first packet, so its fields are all there. *)
Lemma handle_Init_answer m cid nonce other c version major minor build flags extra :
  len other = 8 ->
  sent m cid CTAPHID_INIT
    (other ++ cid_bytes c ++ [version; major; minor; build; flags] ++ extra) ->
  handle_Init nonce m =
    Ok (if bool_decide (other = nonce)
        then Some (MkInitResponse other c version major minor build flags) else None).
Proof.
  intros Ho Hs. destruct (sent_head _ _ _ _ Hs) as (p & rest & -> & _ & Hc & Hd & _).
  destruct c as [c0 c1 c2 c3]. unfold len in Ho.
  do 8 (destruct other as [|? other]; [cbn in Ho; lia|]).
  destruct other; [|cbn in Ho; lia]. cbn [app cid_bytes cid0 cid1 cid2 cid3] in Hd.
  match type of Hd with _ = take (Z.to_nat ?n) _ =>
    replace (Z.to_nat n) with (17 + Z.to_nat (n - 17))%nat in Hd
      by (rewrite !len_cons; pose proof (len_nonneg extra); hid_consts; lia)
  end. cbn [take Nat.add] in Hd. unfold handle_Init. rewrite Hc, Hd.
  change (CTAPHID_INIT =? CTAPHID_INIT) with true. cbn iota.
  match goal with |- context [flags :: ?l] => generalize l; intros tl end.
  unfold ensureDataLen. rewrite !len_cons. pose proof (len_nonneg tl).
  match goal with |- context [?a <? 17] => destruct (Z.ltb_spec a 17); [lia|] end.
  cbn. by case_bool_decide.
Qed.

Lemma handle_Init_nonce nonce m r :
  handle_Init nonce m = Ok (Some r) -> Nonce r = nonce.
Proof.
  unfold handle_Init. destruct m as [|p m]; [done|].
  destruct (p_command p =? CTAPHID_INIT).
  - unfold ensureDataLen. destruct (len (p_data p) <? 17); [done|]. cbn [mbind result_bind].
    case_bool_decide; cbn [negb]; [|done]. by intros; simplify_eq.
  - unfold error_response, ensureDataLen. destruct (p_command p =? CTAPHID_ERROR), (len (p_data p) <? 1),
      (p_command p =? CTAPHID_KEEPALIVE); done.
Qed.

(** Traffic no command of the channel answers to: messages of other
    channels and the channel's own keep-alives. *)
Definition background (cid : ChannelID) (m : Message) : Prop :=
  exists cid' cmd data, sent m cid' cmd data /\ (cid' <> cid \/ cmd = CTAPHID_KEEPALIVE).

Lemma background_ignored {A} cid (handle : Message -> result (option A)) m :
  (forall p ps, p_command p = CTAPHID_KEEPALIVE -> handle (p :: ps) = Ok None) ->
  background cid m -> ignored cid handle m.
Proof.
  intros Hk (cid' & cmd & data & Hs & H). exists cid', cmd, data. split; [done|].
  destruct H as [H| ->]; [by left|right].
  destruct (sent_head _ _ _ _ Hs) as (p & ps & -> & _ & Hc & _). by apply Hk.
Qed.

Lemma background_CBOR cid command m :
  background cid m -> ignored cid (handle_CBOR command) m.
Proof. apply background_ignored. intros p ps Hc. unfold handle_CBOR. by rewrite Hc. Qed.

Lemma background_Init cid nonce m :
  background cid m -> ignored cid (handle_Init nonce) m.
Proof. apply background_ignored. intros p ps Hc. unfold handle_Init. by rewrite Hc. Qed.

Lemma background_echo cid command m :
  command <> CTAPHID_KEEPALIVE -> background cid m -> ignored cid (handle_echo command) m.
Proof.
  intros Hne. apply background_ignored. intros p ps Hc. unfold handle_echo. rewrite Hc.
  by destruct (Z.eqb_spec CTAPHID_KEEPALIVE command).
Qed.

Lemma background_ack cid command m :
  command <> CTAPHID_KEEPALIVE -> background cid m -> ignored cid (handle_ack command) m.
Proof.
  intros Hne. apply background_ignored. intros p ps Hc. unfold handle_ack. rewrite Hc.
  by destruct (Z.eqb_spec CTAPHID_KEEPALIVE command).
Qed.

(** ** Properties *)

(** A CBOR exchange writes exactly the request's reports, passes over
    keep-alives of its channel and every message of other channels, however
    many arrive, and ends with the first CBOR response of its channel: its
    payload when the status is CTAP2_OK, a CTAPError with the request's
    command byte and the status otherwise. Nothing after the response is
    read. *)
Theorem cbor_exchange cid data req w noise m status rdata rest :
  data <> [] ->
  request_sent cid CTAPHID_CBOR data w req ->
  Forall (background cid) noise ->
  sent m cid CTAPHID_CBOR (status :: rdata) ->
  rx w = concat (wire <$> noise) ++ wire m ++ rest ->
  CBOR cid data w =
    (if status =? CTAP2_OK then Ok (MkCBORResponse CTAP2_OK rdata)
     else Err (ECTAP (nth 0 data 0) status),
     set_rx rest (after_writes (OutputReports req) w)).
Proof.
  intros Hd Hreq Hnoise Hm Hrx. unfold CBOR.
  erewrite M_bind_Ok by by apply writeCBOR_sent. unfold readCBORResponse.
  erewrite receive_answer; [| |done|by eapply handle_CBOR_answer|done];
    [|eapply Forall_impl; [done|apply background_CBOR]].
  f_equal. unfold ValidateCBORResponse. cbn [StatusCode].
  destruct (Z.eqb_spec status CTAP2_OK) as [->|]; done.
Qed.

(** An INIT exchange on the broadcast channel is not taken in by
    answers to other clients: INIT responses whose nonce differs are passed
    over like keep-alives, and the channel allocated is the one in the answer
    that repeats this client's nonce, with every field decoded from its
    place; whatever arrives, an accepted answer carries the nonce. *)
Theorem init_own_nonce cid nonce w :
  (forall r w', Init cid nonce w = (Ok r, w') -> Nonce r = nonce) /\
  (forall req noise m c version major minor build flags extra rest,
     len nonce = 8 -> request_sent cid CTAPHID_INIT nonce w req ->
     Forall (fun n => background cid n \/
       exists other d, sent n cid CTAPHID_INIT (other ++ d) /\
         len other = 8 /\ 9 <= len d /\ other <> nonce) noise ->
     sent m cid CTAPHID_INIT
       (nonce ++ cid_bytes c ++ [version; major; minor; build; flags] ++ extra) ->
     rx w = concat (wire <$> noise) ++ wire m ++ rest ->
     Init cid nonce w =
       (Ok (MkInitResponse nonce c version major minor build flags),
        set_rx rest (after_writes (OutputReports req) w))).
Proof.
  split.
  - intros r w'. unfold Init. destruct (negb (len nonce =? 8)); [done|]. intros H.
    m_inv H. m_inv H. apply receive_inv in H as [m Hm]. by eapply handle_Init_nonce.
  - intros req noise m c version major minor build flags extra rest Hn Hreq Hnoise Hm Hrx.
    unfold Init. rewrite Hn. cbn [negb Z.eqb Pos.eqb]. rewrite (request_then _ _ _ _ _ _ Hreq).
    eapply receive_answer; [|exact Hm| |done].
    + eapply Forall_impl; [exact Hnoise|]. intros n [?|(other & d & Hs & Ho & Hd & Hne)];
        [by apply background_Init|].
      exists cid, CTAPHID_INIT, (other ++ d). split; [done|right].
      destruct d as [|c0 [|c1 [|c2 [|c3 [|v [|ma [|mi [|b [|fl ex]]]]]]]]];
        try (unfold len in Hd; simpl in Hd; lia).
      rewrite (handle_Init_answer _ cid nonce other (CID c0 c1 c2 c3) v ma mi b fl ex) by done.
      by rewrite bool_decide_false.
    + rewrite (handle_Init_answer _ cid nonce nonce c version major minor build flags extra) by done.
      by rewrite bool_decide_true.
Qed.

(** PING returns the payload of the PING that answers, a vendor command
    that of the message with its own command byte, WINK and LOCK the bare
    fact of the answer; commands outside 0x40-0x7f and lock times above ten
    seconds are refused before anything is written. *)
Theorem hid_commands_answered cid cmd data req w noise m answer rest :
  Forall (background cid) noise ->
  sent m cid cmd answer ->
  request_sent cid cmd data w req ->
  rx w = concat (wire <$> noise) ++ wire m ++ rest ->
  let w' := set_rx rest (after_writes (OutputReports req) w) in
  (cmd = CTAPHID_PING -> Ping cid data w = (Ok answer, w')) /\
  (CTAPHID_VENDOR_FIRST <= cmd <= CTAPHID_VENDOR_LAST ->
     Vendor cid cmd data w = (Ok answer, w')) /\
  (~ CTAPHID_VENDOR_FIRST <= cmd <= CTAPHID_VENDOR_LAST ->
     Vendor cid cmd data w = (Err ErrInvalidRequestMessage, w)) /\
  (cmd = CTAPHID_WINK -> data = [] -> Wink cid w = (Ok tt, w')) /\
  (forall seconds, cmd = CTAPHID_LOCK -> data = [seconds] ->
     Lock cid seconds w =
       if 10 <? seconds then (Err ErrInvalidRequestMessage, w) else (Ok tt, w')).
Proof.
  intros Hn Hm Hreq Hrx w'.
  destruct (sent_head _ _ _ _ Hm) as (p & ps & Hps & _ & Hc & _ & Hp).
  assert (He : handle_echo cmd m = Ok (Some answer)).
  { unfold handle_echo. by rewrite Hps, Hc, Z.eqb_refl, <- Hps, Hp. }
  assert (Ha : handle_ack cmd m = Ok (Some tt)).
  { unfold handle_ack. by rewrite Hps, Hc, Z.eqb_refl. }
  assert (Hecho : cmd <> CTAPHID_KEEPALIVE ->
    receive cid (handle_echo cmd) (after_writes (OutputReports req) w) = (Ok answer, w')).
  { intros. eapply (receive_answer _ _ noise _ _ _ (Ok answer)); try done.
    eapply Forall_impl; [done|]. intros. by apply background_echo. }
  assert (Hack : cmd <> CTAPHID_KEEPALIVE ->
    receive cid (handle_ack cmd) (after_writes (OutputReports req) w) = (Ok tt, w')).
  { intros. eapply (receive_answer _ _ noise _ _ _ (Ok tt)); try done.
    eapply Forall_impl; [done|]. intros. by apply background_ack. }
  unfold CTAPHID_VENDOR_FIRST, CTAPHID_VENDOR_LAST in *. split_and!.
  - intros ->. unfold Ping. rewrite (request_then _ _ _ _ _ _ Hreq). by apply Hecho.
  - intros Hv. unfold Vendor, CTAPHID_VENDOR_FIRST, CTAPHID_VENDOR_LAST.
    destruct (Z.ltb_spec cmd 0x40), (Z.ltb_spec 0x7f cmd); try lia.
    cbn [orb]. rewrite (request_then _ _ _ _ _ _ Hreq). apply Hecho. unfold CTAPHID_KEEPALIVE. lia.
  - intros Hv. unfold Vendor, CTAPHID_VENDOR_FIRST, CTAPHID_VENDOR_LAST.
    destruct (Z.ltb_spec cmd 0x40), (Z.ltb_spec 0x7f cmd); try done. lia.
  - intros -> ->. unfold Wink. rewrite (request_then _ _ _ _ _ _ Hreq). by apply Hack.
  - intros seconds -> ->. unfold Lock. destruct (Z.ltb_spec 10 seconds); [done|].
    rewrite (request_then _ _ _ _ _ _ Hreq). by apply Hack.
Qed.

(** C40. An ERROR message on the channel ends every command with its code,
    after any number of keep-alives and messages of other channels. *)
Theorem hid_error_reported cid w noise m code extra rest :
  Forall (background cid) noise ->
  sent m cid CTAPHID_ERROR (code :: extra) ->
  rx w = concat (wire <$> noise) ++ wire m ++ rest ->
  let ends {A} cmd data (run : M hid A) := forall req,
    request_sent cid cmd data w req ->
    run w = (Err (EHIDResponse code), set_rx rest (after_writes (OutputReports req) w)) in
  (forall data, data <> [] -> ends CTAPHID_CBOR data (CBOR cid data)) /\
  (forall nonce, len nonce = 8 -> ends CTAPHID_INIT nonce (Init cid nonce)) /\
  (forall data, ends CTAPHID_PING data (Ping cid data)) /\
  (forall cmd data, CTAPHID_VENDOR_FIRST <= cmd <= CTAPHID_VENDOR_LAST ->
     ends cmd data (Vendor cid cmd data)) /\
  ends CTAPHID_WINK [] (Wink cid) /\
  (forall seconds, seconds <= 10 -> ends CTAPHID_LOCK [seconds] (Lock cid seconds)).
Proof.
  intros Hn Hm Hrx ends.
  destruct (handle_error_answer _ _ _ _ Hm) as (p & ps & Hps & Hc & He).
  assert (Hgen : forall A (handle : Message -> result (option A)) req,
    (forall n, background cid n -> ignored cid handle n) ->
    handle m = Err (EHIDResponse code) ->
    receive cid handle (after_writes (OutputReports req) w) =
      (Err (EHIDResponse code), set_rx rest (after_writes (OutputReports req) w))).
  { intros A handle req Hbg Hh.
    eapply (receive_answer _ _ noise _ _ _ (Err (EHIDResponse code))); try done.
    by eapply Forall_impl. }
  unfold ends; clear ends. split_and!.
  - intros data Hd req Hreq. unfold CBOR, readCBORResponse.
    erewrite M_bind_Ok by by apply writeCBOR_sent. apply Hgen; [apply background_CBOR|].
    unfold handle_CBOR. by rewrite Hps, Hc, He.
  - intros nonce Hl req Hreq. unfold Init. rewrite Hl. cbn [negb Z.eqb Pos.eqb].
    rewrite (request_then _ _ _ _ _ _ Hreq). apply Hgen; [apply background_Init|].
    unfold handle_Init. by rewrite Hps, Hc, He.
  - intros data req Hreq. unfold Ping. rewrite (request_then _ _ _ _ _ _ Hreq).
    apply Hgen; [by intros; apply background_echo|]. unfold handle_echo. by rewrite Hps, Hc, He.
  - unfold CTAPHID_VENDOR_FIRST, CTAPHID_VENDOR_LAST.
    intros cmd data Hv req Hreq. unfold Vendor, CTAPHID_VENDOR_FIRST, CTAPHID_VENDOR_LAST.
    destruct (Z.ltb_spec cmd 0x40), (Z.ltb_spec 0x7f cmd); try lia.
    cbn [orb]. rewrite (request_then _ _ _ _ _ _ Hreq).
    apply Hgen; [by intros; apply background_echo; [unfold CTAPHID_KEEPALIVE; lia|]|].
    unfold handle_echo. rewrite Hps, Hc, He. unfold CTAPHID_ERROR.
    destruct (Z.eqb_spec 0x3f cmd); [lia|done].
  - intros req Hreq. unfold Wink. rewrite (request_then _ _ _ _ _ _ Hreq).
    apply Hgen; [by intros; apply background_ack|]. unfold handle_ack. by rewrite Hps, Hc, He.
  - intros seconds Hs req Hreq. unfold Lock. destruct (Z.ltb_spec 10 seconds); [lia|].
    rewrite (request_then _ _ _ _ _ _ Hreq).
    apply Hgen; [by intros; apply background_ack|]. unfold handle_ack. by rewrite Hps, Hc, He.
Qed.

(** *** Concrete exchanges *)

Definition sample_cid : ChannelID := CID 1 2 3 4.
Definition encoded (cid : ChannelID) (cmd : Z) (data : list Z) : Message :=
  match NewMessage cid cmd data with Ok m => m | _ => [] end.

(** A keep-alive of the channel and a PING of another one. *)
Definition sample_noise : list Message :=
  [encoded sample_cid CTAPHID_KEEPALIVE [1]; encoded (CID 9 9 9 9) CTAPHID_PING (zeros 70)].

Lemma sample_noise_background : Forall (background sample_cid) sample_noise.
Proof.
  repeat constructor.
  - exists sample_cid, CTAPHID_KEEPALIVE, [1]. split; [|by right].
    split; [unfold CTAPHID_KEEPALIVE; lia | reflexivity].
  - exists (CID 9 9 9 9), CTAPHID_PING, (zeros 70). split; [|by left].
    split; [unfold CTAPHID_PING; lia | reflexivity].
Qed.

Definition sample_world (cmd : Z) (answer : list Z) : hid :=
  Hid (concat (wire <$> sample_noise) ++ wire (encoded sample_cid cmd answer) ++ [])
    [] [] [] 0.

Lemma cbor_exchange_witness :
  CBOR sample_cid [4] (sample_world CTAPHID_CBOR [0; 0xa0]) =
    (Ok (MkCBORResponse 0 [0xa0]),
     Hid [] [] (OutputReports (encoded sample_cid CTAPHID_CBOR [4])) [] 0).
Proof.
  apply (cbor_exchange sample_cid [4] (encoded sample_cid CTAPHID_CBOR [4])
    (sample_world CTAPHID_CBOR [0; 0xa0]) sample_noise
    (encoded sample_cid CTAPHID_CBOR [0; 0xa0]) 0 [0xa0] []).
  - discriminate.
  - split; [reflexivity | constructor].
  - exact sample_noise_background.
  - split; [unfold CTAPHID_CBOR; lia | reflexivity].
  - reflexivity.
Defined.

Lemma hid_commands_answered_witness :
  Ping sample_cid [5; 6] (sample_world CTAPHID_PING [5; 6]) =
    (Ok [5; 6], Hid [] [] (OutputReports (encoded sample_cid CTAPHID_PING [5; 6])) [] 0).
Proof.
  destruct (hid_commands_answered sample_cid CTAPHID_PING [5; 6]
    (encoded sample_cid CTAPHID_PING [5; 6]) (sample_world CTAPHID_PING [5; 6])
    sample_noise (encoded sample_cid CTAPHID_PING [5; 6]) [5; 6] []) as (H & _).
  - exact sample_noise_background.
  - split; [unfold CTAPHID_PING; lia | reflexivity].
  - split; [reflexivity | constructor].
  - reflexivity.
  - exact (H eq_refl).
Defined.

Lemma hid_error_reported_witness :
  Wink sample_cid (sample_world CTAPHID_ERROR [ERR_CHANNEL_BUSY]) =
    (Err (EHIDResponse ERR_CHANNEL_BUSY),
     Hid [] [] (OutputReports (encoded sample_cid CTAPHID_WINK [])) [] 0).
Proof.
  destruct (hid_error_reported sample_cid (sample_world CTAPHID_ERROR [ERR_CHANNEL_BUSY])
    sample_noise (encoded sample_cid CTAPHID_ERROR [ERR_CHANNEL_BUSY]) ERR_CHANNEL_BUSY [] [])
    as (_ & _ & _ & _ & H & _).
  - exact sample_noise_background.
  - split; [unfold CTAPHID_ERROR; lia | reflexivity].
  - reflexivity.
  - apply (H (encoded sample_cid CTAPHID_WINK [])). split; [reflexivity | constructor].
Defined.
