(* ===== verification/HidChannel.v ===== *)
(** * The channel reader (src/transport/ctaphid/channel_device.go)

    A background goroutine drains the shared HID endpoint and queues the
    reports of one channel; [Read] takes them from the queue, waiting on a
    one-token channel when it is empty; [Close] stops the goroutine. The
    three goroutines interleave: the step relation has one step per critical
    section, channel operation or device call. *)
From S2P Require Import Prelude GoError HidFraming.

(** ** State *)

(** Where the goroutine of [readReports] is. *)
Inductive reader_pc :=
  | RReading                      (* in io.ReadFull *)
  | RNotify                       (* enqueued a report, before d.notify() *)
  | RFinish (e : error)           (* ReadFull failed, before d.finish's store *)
  | RFinishNotify                 (* stored readErr, before d.notify() *)
  | RExit                         (* before the deferred close(d.stopped) *)
  | RStopped.

(** Where the caller of [Read] is. *)
Inductive caller_pc :=
  | CIdle
  | CNext                         (* before d.nextReport() *)
  | CWait                         (* in select *)
  | CReturn (r : result (list Z)).

(** Where the closer is inside [closeOnce.Do]. *)
Inductive closer_pc :=
  | KIdle
  | KCancelled                    (* after d.cancel *)
  | KClosed                       (* after d.device.Close, at <-d.stopped *)
  | KDone.

Record channel := Channel {
  ch_cid : ChannelID;
  pending : list (list Z);
  readErr : option error;
  wake : bool;                    (* the token of the buffered channel *)
  cause : option error;           (* context.Cause(d.ctx) *)
  closeErr : option error;
  reader : reader_pc;
  caller : caller_pc;
  closer : closer_pc;
  (* history: reports read since the channel ID was last set, reports
     returned since then, calls of the device's Close *)
  arrived : list (list Z);
  delivered : list (list Z);
  closes : nat }.

Definition set_reader (p : reader_pc) (d : channel) : channel :=
  Channel (ch_cid d) (pending d) (readErr d) (wake d) (cause d) (closeErr d)
    p (caller d) (closer d) (arrived d) (delivered d) (closes d).
Definition set_caller (p : caller_pc) (d : channel) : channel :=
  Channel (ch_cid d) (pending d) (readErr d) (wake d) (cause d) (closeErr d)
    (reader d) p (closer d) (arrived d) (delivered d) (closes d).
Definition set_closer (p : closer_pc) (d : channel) : channel :=
  Channel (ch_cid d) (pending d) (readErr d) (wake d) (cause d) (closeErr d)
    (reader d) (caller d) p (arrived d) (delivered d) (closes d).
Definition set_wake (b : bool) (d : channel) : channel :=
  Channel (ch_cid d) (pending d) (readErr d) b (cause d) (closeErr d)
    (reader d) (caller d) (closer d) (arrived d) (delivered d) (closes d).

Definition newChannelDevice (cid : ChannelID) : channel :=
  Channel cid [] None false None None RReading CIdle KIdle [] [] 0.

(** ** Operations *)

(** The copy of a report's first bytes into a channel ID. *)
Definition report_cid (report : list Z) : ChannelID := cid_of (take 4 report).

Definition enqueue (report : list Z) (d : channel) : bool * channel :=
  if negb (bool_decide (report_cid report = ch_cid d)) then (false, d)
  else (true,
    Channel (ch_cid d) (pending d ++ [report]) (readErr d) (wake d) (cause d)
      (closeErr d) (reader d) (caller d) (closer d) (arrived d) (delivered d) (closes d)).

(** The non-blocking send on [d.wake]. *)
Definition notify (d : channel) : channel := set_wake true d.

(** The report and the error [nextReport] returns. *)
Definition nextReport (d : channel) : (option (list Z) * option error) * channel :=
  match pending d with
  | [] => ((None, readErr d), d)
  | report :: rest =>
      ((Some report, None),
       Channel (ch_cid d) rest (readErr d) (wake d) (cause d) (closeErr d)
         (reader d) (caller d) (closer d) (arrived d) (delivered d) (closes d))
  end.

Definition finish_error (d : channel) (e : error) : error :=
  if errors_Is e context_Canceled
     && match cause d with Some c => errors_Is c io_ErrClosedPipe | None => false end
  then EIO IORead io_ErrClosedPipe else e.

(** [d.finish] up to its notification. *)
Definition finish (e : error) (d : channel) : channel :=
  Channel (ch_cid d) (pending d) (Some (finish_error d e)) (wake d) (cause d)
    (closeErr d) (reader d) (caller d) (closer d) (arrived d) (delivered d) (closes d).

(** The first cancellation of a context sets its cause for good. *)
Definition cancel (c : error) (d : channel) : channel :=
  Channel (ch_cid d) (pending d) (readErr d) (wake d)
    (Some (default c (cause d))) (closeErr d) (reader d) (caller d) (closer d)
    (arrived d) (delivered d) (closes d).

Definition setCID (cid : ChannelID) (d : channel) : channel :=
  Channel cid [] (readErr d) (wake d) (cause d) (closeErr d) (reader d) (caller d)
    (closer d) [] [] (closes d).

Definition device_Close (r : option error) (d : channel) : channel :=
  Channel (ch_cid d) (pending d) (readErr d) (wake d) (cause d) r (reader d)
    (caller d) (closer d) (arrived d) (delivered d) (S (closes d)).

(** History of the reports. *)
Definition record_arrival (report : list Z) (d : channel) : channel :=
  Channel (ch_cid d) (pending d) (readErr d) (wake d) (cause d) (closeErr d)
    (reader d) (caller d) (closer d) (arrived d ++ [report]) (delivered d) (closes d).
Definition record_delivery (report : list Z) (d : channel) : channel :=
  Channel (ch_cid d) (pending d) (readErr d) (wake d) (cause d) (closeErr d)
    (reader d) (caller d) (closer d) (arrived d) (delivered d ++ [report]) (closes d).

(** ** Goroutine steps *)

(** One iteration of [readReports] on a report. *)
Definition read_report (report : list Z) (d : channel) : channel :=
  let '(queued, d') := enqueue report (record_arrival report d) in
  if queued then set_reader RNotify d' else d'.

(** The head of the loop of [Read]. *)
Definition Read_next (d : channel) : channel :=
  let '((report, err), d') := nextReport d in
  match report, err with
  | Some r, _ => set_caller (CReturn (Ok r)) (record_delivery r d')
  | None, Some e => set_caller (CReturn (Err e)) d'
  | None, None => set_caller CWait d'
  end.

Inductive step : channel -> channel -> Prop :=
  | step_report d report : reader d = RReading -> step d (read_report report d)
  | step_read_error d e : reader d = RReading -> step d (set_reader (RFinish e) d)
  | step_notify d : reader d = RNotify -> step d (set_reader RReading (notify d))
  | step_finish d e :
      reader d = RFinish e -> step d (set_reader RFinishNotify (finish e d))
  | step_finish_notify d :
      reader d = RFinishNotify -> step d (set_reader RExit (notify d))
  | step_exit d : reader d = RExit -> step d (set_reader RStopped d)
  | step_Read d : caller d = CIdle -> step d (set_caller CNext d)
  | step_next d : caller d = CNext -> step d (Read_next d)
  | step_wake d :
      caller d = CWait -> wake d = true -> step d (set_caller CNext (set_wake false d))
  | step_ctx_done d e : caller d = CWait -> step d (set_caller (CReturn (Err e)) d)
  | step_return d r : caller d = CReturn r -> step d (set_caller CIdle d)
  | step_setCID d cid : caller d = CIdle -> step d (setCID cid d)
  | step_stop d : step d (cancel context_Canceled d)
  | step_Close d : closer d = KIdle -> step d (set_closer KCancelled (cancel io_ErrClosedPipe d))
  | step_device_Close d r : closer d = KCancelled -> step d (set_closer KClosed (device_Close r d))
  | step_Close_return d :
      closer d = KClosed -> reader d = RStopped -> step d (set_closer KDone d).

Definition reachable (cid : ChannelID) (d : channel) : Prop :=
  rtc step (newChannelDevice cid) d.

(** ** Invariants *)

(** The reports of the channel, in the order they arrived. *)
Definition of_channel (cid : ChannelID) (reports : list (list Z)) : list (list Z) :=
  filter (fun r => report_cid r = cid) reports.
#[global] Arguments of_channel : simpl never.
#[global] Arguments report_cid : simpl never.

(** The queue holds what arrived for the channel and was not returned. *)
Definition queue_inv (d : channel) : Prop :=
  delivered d ++ pending d = of_channel (ch_cid d) (arrived d).

(** A waiting [Read] with something to return will be woken. *)
Definition wake_inv (d : channel) : Prop :=
  caller d = CWait -> pending d <> [] \/ readErr d <> None ->
  wake d = true \/ reader d = RNotify \/ reader d = RFinishNotify.

(** The read error is there exactly once the reader has left its loop. *)
Definition finish_inv (d : channel) : Prop :=
  match reader d with
  | RReading | RNotify | RFinish _ => readErr d = None
  | RFinishNotify | RExit | RStopped => exists e, readErr d = Some e
  end.

(** The closer cancels first, closes the device once, and is done only when
    the reader has stopped. *)
Definition close_inv (d : channel) : Prop :=
  match closer d with
  | KIdle => closes d = 0%nat
  | KCancelled => closes d = 0%nat /\ cause d <> None
  | KClosed => closes d = 1%nat /\ cause d <> None
  | KDone => closes d = 1%nat /\ cause d <> None /\ reader d = RStopped
  end.

Definition channel_inv (d : channel) : Prop :=
  queue_inv d /\ wake_inv d /\ finish_inv d /\ close_inv d.

Lemma of_channel_snoc cid reports r :
  of_channel cid (reports ++ [r]) =
  of_channel cid reports ++ if bool_decide (report_cid r = cid) then [r] else [].
Proof.
  unfold of_channel. rewrite filter_app. f_equal. rewrite filter_cons, filter_nil.
  by case_decide; case_bool_decide.
Qed.

Ltac channel_solve :=
  unfold channel_inv, queue_inv, wake_inv, finish_inv, close_inv,
    read_report, enqueue, Read_next, nextReport, notify, finish, cancel, setCID,
    device_Close, record_arrival, record_delivery, set_reader, set_caller,
    set_closer, set_wake in *; cbn in *.

Lemma step_queue d d' : step d d' -> queue_inv d -> queue_inv d'.
Proof.
  intros Hs Hq. destruct Hs; channel_solve; try done.
  - case_bool_decide as Hc; cbn; rewrite of_channel_snoc, <- Hq.
    + rewrite bool_decide_true by done. by rewrite (assoc_L (++)).
    + rewrite bool_decide_false by done. by rewrite app_nil_r.
  - destruct (pending d) as [|r rest] eqn:Hp.
    + destruct (readErr d); cbn; by rewrite ?Hp.
    + cbn. by rewrite <- (assoc_L (++)).
Qed.

Lemma step_wake_inv d d' : step d d' -> wake_inv d -> wake_inv d'.
Proof.
  intros Hs Hw. destruct Hs as [d r H|d e H|d H|d e H|d H|d H|d H|d H|d H H'|d e H|d r H|d c H|d|d H|d r H|d H H'];
    channel_solve; try done; try (by auto); try (intros Hc Hd; congruence).
  - case_bool_decide; cbn; [by auto|done].
  - intros Hc Hd. destruct (Hw Hc Hd) as [|[]]; [by auto|congruence..].
  - intros Hc Hd. destruct (Hw Hc Hd) as [|[]]; [by auto|congruence..].
  - destruct (pending d) eqn:Hp, (readErr d) eqn:He; cbn; rewrite ?Hp, ?He; try done.
    by intros _ [[] | []].
Qed.

Lemma step_finish_inv d d' : step d d' -> finish_inv d -> finish_inv d'.
Proof.
  intros Hs Hf. destruct Hs as [d r H|d e H|d H|d e H|d H|d H|d H|d H|d H H'|d e H|d r H|d c H|d|d H|d r H|d H H'];
    channel_solve; try rewrite H in Hf; try done; try (by eauto).
  - case_bool_decide; cbn; by rewrite ?H.
  - by destruct (pending d), (readErr d).
Qed.

Lemma step_close_inv d d' : step d d' -> close_inv d -> close_inv d'.
Proof.
  intros Hs Hk. destruct Hs as [d r H|d e H|d H|d e H|d H|d H|d H|d H|d H H'|d e H|d r H|d c H|d|d H|d r H|d H H'];
    channel_solve; try done.
  - case_bool_decide; cbn; destruct (closer d); destruct_and?; try done; congruence.
  - destruct (closer d); destruct_and?; try done; congruence.
  - destruct (closer d); destruct_and?; try done; congruence.
  - destruct (closer d); destruct_and?; try done; congruence.
  - destruct (closer d); destruct_and?; try done; congruence.
  - destruct (closer d); destruct_and?; try done; congruence.
  - by destruct (pending d), (readErr d).
  - destruct (closer d); destruct_and?; split_and?; try done.
  - by rewrite H in Hk.
  - rewrite H in Hk. by destruct Hk as [-> ?].
  - rewrite H in Hk. by destruct Hk.
Qed.

Lemma reachable_inv cid d : reachable cid d -> channel_inv d.
Proof.
  unfold reachable. intros Hr.
  assert (Hinit : channel_inv (newChannelDevice cid)).
  { channel_solve. by repeat split. }
  induction Hr as [|d1 d2 d3 Hs _ IH]; [done|]. apply IH.
  destruct Hinit as (? & ? & ? & ?). split_and!;
    eauto using step_queue, step_wake_inv, step_finish_inv, step_close_inv.
Qed.

(** Steps that need nothing from the device, the context or another
    caller: the wake-ups and the caller's own progress. *)
Inductive progress : channel -> channel -> Prop :=
  | progress_notify d : reader d = RNotify -> progress d (set_reader RReading (notify d))
  | progress_finish_notify d :
      reader d = RFinishNotify -> progress d (set_reader RExit (notify d))
  | progress_wake d :
      caller d = CWait -> wake d = true -> progress d (set_caller CNext (set_wake false d))
  | progress_next d : caller d = CNext -> progress d (Read_next d).

Lemma progress_step d d' : progress d d' -> step d d'.
Proof. destruct 1; by econstructor. Qed.

(** A woken caller runs [nextReport] again. *)
Lemma woken d :
  channel_inv d -> caller d = CWait -> pending d <> [] \/ readErr d <> None ->
  exists d1, rtc progress d d1 /\ caller d1 = CNext /\ pending d1 = pending d /\
    readErr d1 = readErr d /\ delivered d1 = delivered d.
Proof.
  intros (_ & Hw & _) Hc Hd.
  assert (Hgo : forall d0, caller d0 = CWait -> wake d0 = true ->
    progress d0 (set_caller CNext (set_wake false d0))) by (intros; by constructor).
  destruct (Hw Hc Hd) as [H|[H|H]].
  - eexists. split; [by apply rtc_once, Hgo|]. done.
  - eexists. split; [eapply rtc_l; [by apply progress_notify|by apply rtc_once, Hgo]|]. done.
  - eexists. split; [eapply rtc_l; [by apply progress_finish_notify|by apply rtc_once, Hgo]|].
    done.
Qed.

(** What can no longer change once [Close] has returned. *)
Definition closed_view (d : channel) : closer_pc * reader_pc * option error * option error * nat :=
  (closer d, reader d, readErr d, closeErr d, closes d).

Lemma closed_step d d' :
  step d d' -> closer d = KDone -> reader d = RStopped -> closed_view d' = closed_view d.
Proof.
  unfold closed_view. intros Hs Hk Hr.
  destruct Hs as [d r H|d e H|d H|d e H|d H|d H|d H|d H|d H H'|d e H|d r H|d c H|d|d H|d r H|d H H'];
    channel_solve; try congruence.
  by destruct (pending d), (readErr d).
Qed.

(** ** Properties *)

(** C28. Under every interleaving of the reader, a caller and [Close], the
    reports [Read] has returned, followed by those queued, are exactly the
    reports of the channel in the order the endpoint delivered them: none is
    lost, duplicated, reordered or taken from another channel. *)
Theorem channel_fifo cid d :
  reachable cid d -> delivered d ++ pending d = of_channel (ch_cid d) (arrived d).
Proof. intros H. by apply reachable_inv in H as (H & _). Qed.

(** C30. No wake-up is lost: whenever a waiting [Read] has a report queued,
    or the reader has stored its error, the wake-ups already under way lead,
    without any help from the device or the context, to [Read] returning
    that first report, or that error once the queue is empty. *)
Theorem channel_no_lost_wakeup cid d :
  reachable cid d -> caller d = CWait ->
  (forall r rest, pending d = r :: rest -> exists d',
     rtc progress d d' /\ caller d' = CReturn (Ok r) /\
     pending d' = rest /\ delivered d' = delivered d ++ [r]) /\
  (forall e, pending d = [] -> readErr d = Some e -> exists d',
     rtc progress d d' /\ caller d' = CReturn (Err e)).
Proof.
  intros Hr Hc. apply reachable_inv in Hr. split.
  - intros r rest Hp. destruct (woken d) as (d1 & Hd1 & Hc1 & Hp1 & He1 & Hdel); try done.
    { left. by rewrite Hp. }
    exists (Read_next d1). split; [eapply rtc_r; [done|by constructor]|].
    unfold Read_next, nextReport. rewrite Hp1, Hp. cbn. by rewrite Hdel.
  - intros e Hp He. destruct (woken d) as (d1 & Hd1 & Hc1 & Hp1 & He1 & Hdel); try done.
    { right. by rewrite He. }
    exists (Read_next d1). split; [eapply rtc_r; [done|by constructor]|].
    unfold Read_next, nextReport. by rewrite Hp1, Hp, He1, He.
Qed.


(** *** A concrete history: a foreign report, one of the channel's, a waiting
    caller, then [Close]. *)

Definition sample_report : list Z := [1; 2; 3; 4] ++ zeros 60.
Definition sample_waiting : channel :=
  Channel (CID 1 2 3 4) [sample_report] None false None None RNotify CWait KIdle
    [zeros 64; sample_report] [] 0.

Lemma sample_waiting_reachable : reachable (CID 1 2 3 4) sample_waiting.
Proof.
  eapply rtc_l; [by apply step_Read|]. eapply rtc_l; [by apply step_next|].
  eapply rtc_l; [by apply (step_report _ (zeros 64))|].
  eapply rtc_l; [by apply (step_report _ sample_report)|]. apply rtc_refl.
Qed.

Lemma channel_fifo_witness :
  reachable (CID 1 2 3 4) sample_waiting /\
  delivered sample_waiting ++ pending sample_waiting =
    of_channel (CID 1 2 3 4) [zeros 64; sample_report].
Proof.
  split; [exact sample_waiting_reachable|].
  apply (channel_fifo (CID 1 2 3 4) sample_waiting). exact sample_waiting_reachable.
Defined.

Lemma channel_no_lost_wakeup_witness :
  exists d', rtc progress sample_waiting d' /\ caller d' = CReturn (Ok sample_report).
Proof.
  destruct (channel_no_lost_wakeup (CID 1 2 3 4) sample_waiting) as [H _].
  - exact sample_waiting_reachable.
  - reflexivity.
  - destruct (H sample_report [] eq_refl) as (d' & H1 & H2 & _).
    exists d'. split; [exact H1 | exact H2].
Defined.

Definition sample_closed : channel :=
  Channel (CID 1 2 3 4) [] (Some (EIO IORead io_ErrClosedPipe)) true
    (Some io_ErrClosedPipe) None RStopped CIdle KDone [] [] 1.

Lemma sample_closed_reachable : reachable (CID 1 2 3 4) sample_closed.
Proof.
  eapply rtc_l; [by apply step_Close|].
  eapply rtc_l; [by apply (step_device_Close _ None)|].
  eapply rtc_l; [by apply (step_read_error _ context_Canceled)|].
  eapply rtc_l; [by apply step_finish|]. eapply rtc_l; [by apply step_finish_notify|].
  eapply rtc_l; [by apply step_exit|]. eapply rtc_l; [by apply step_Close_return|].
  apply rtc_refl.
Qed.

