(* ===== verification/HidTransport.v ===== *)
(** * The CTAPHID transport (src/transport/ctaphid/transport.go)

    The channel as a CTAP transport: busy retries, cancellation with
    draining, and the closing of a device whose I/O failed. [hid] stands for
    the transport's channel device: its reads and writes are those of
    channel_device.go, marked as I/O errors by [ioDevice] (errors.go). *)
From S2P Require Import Prelude GoError Transport HidFraming HidCommands.

(** ** Contexts and errors *)

(** The caller's context, whose [Err] the history of the world gives, and a
    context that [context.WithoutCancel] has detached from it. *)
Inductive context := Caller | Uncancelable.

Definition ctx_Err (ctx : context) : M hid (option error) := fun w =>
  match ctx, ctxs w with
  | Uncancelable, _ => (Ok None, w)
  | Caller, [] => (Ok None, w)
  | Caller, c :: rest => (Ok c, set_ctxs rest w)
  end.

(** [if err := ctx.Err(); err != nil { return err }]. *)
Definition check_ctx (ctx : context) : M hid unit :=
  ctx_Err ctx ≫= fun err => match err with Some e => fail e | None => mret tt end.

(** [ioDevice.Read], [Write] and [Close]: the device's error, marked. *)
Definition ioDevice_error (op : IOOperation) (e : error) : error := EIO op e.

Definition isDeviceIOError (e : error) : bool :=
  match errors_As as_IOError e with
  | Some (IORead, _) | Some (IOWrite, _) => true
  | _ => false
  end.

Definition is_invalidated (e : error) : bool :=
  match errors_As as_Invalidated e with Some _ => true | None => false end.

Definition is_busy (e : error) : bool :=
  match errors_As as_HIDResponse e with
  | Some code => code =? ERR_CHANNEL_BUSY
  | None => false
  end.

Definition device_close : M hid unit := fun w =>
  (Ok tt, Hid (rx w) (wr w) (tx w) (ctxs w) (S (closed w))).

Definition closeOnIOError {A} (e : error) : M hid A :=
  if negb (isDeviceIOError e) then fail e
  else device_close ≫= fun _ => fail (EInvalidated e).

(** [return response, t.closeOnIOError(err)]. *)
Definition closing {A} (m : M hid A) : M hid A :=
  try_ m ≫= fun r => match r with inl a => mret a | inr e => closeOnIOError e end.

Lemma closing_Ok {A} (m : M hid A) w a w' : m w = (Ok a, w') -> closing m w = (Ok a, w').
Proof. intros H. unfold closing. by rewrite (M_bind_Ok _ _ _ _ _ (try_Ok _ _ _ _ H)). Qed.

Lemma closing_Err {A} (m : M hid A) w e w' :
  m w = (Err e, w') -> isDeviceIOError e = false -> closing m w = (Err e, w').
Proof.
  intros H Hio. unfold closing. rewrite (M_bind_Ok _ _ _ _ _ (try_Err _ _ _ _ H)).
  unfold closeOnIOError. by rewrite Hio.
Qed.

(** ** Retries *)

(** The wait of 100 ms ends with the timer or with the context. *)
Fixpoint retry_loop {A} (fuel : nat) (operation : M hid A) : M hid A :=
  match fuel with
  | O => blocked
  | S fuel' =>
      try_ operation ≫= fun r =>
      match r with
      | inl a => mret a
      | inr e =>
          if negb (is_busy e) then fail e
          else check_ctx Caller ≫= fun _ => retry_loop fuel' operation
      end
  end.

Definition retryChannelBusy {A} (operation : M hid A) : M hid A :=
  fun w => retry_loop (S (length (rx w))) operation w.

Lemma retry_not_busy {A} (m : M hid A) w e w' :
  m w = (Err e, w') -> is_busy e = false -> retryChannelBusy m w = (Err e, w').
Proof.
  intros H Hb. unfold retryChannelBusy. cbn [retry_loop].
  rewrite (M_bind_Ok _ _ _ _ _ (try_Err _ _ _ _ H)). by rewrite Hb.
Qed.

(** ** Exchanges *)

Definition t_writeCBOR (cid : ChannelID) (data : list Z) : M hid Z :=
  check_ctx Caller ≫= fun _ => writeCBOR cid data.

Definition t_Cancel (ctx : context) (cid : ChannelID) : M hid unit :=
  check_ctx ctx ≫= fun _ => closing (Cancel cid).

Definition cancelAndDrainCBOR (cid : ChannelID) (command : Z) (originalErr : error)
    : M hid CBORResponse :=
  try_ (t_Cancel Uncancelable cid) ≫= fun cancel =>
  match cancel with
  | inr cancelErr =>
      if is_invalidated cancelErr then fail (EInvalidated originalErr)
      else fail originalErr
  | inl _ =>
      try_ (closing (readCBORResponse cid command)) ≫= fun drain =>
      match drain with
      | inr drainErr =>
          if is_invalidated drainErr then fail (EInvalidated originalErr)
          else fail originalErr
      | inl _ => fail originalErr
      end
  end.

Definition exchangeCBOR (cid : ChannelID) (data : list Z) : M hid CBORResponse :=
  t_writeCBOR cid data ≫= fun command =>
  try_ (readCBORResponse cid command) ≫= fun r =>
  ctx_Err Caller ≫= fun ctxErr =>
  match r, ctxErr with
  | inr e, Some c =>
      if errors_Is e c then cancelAndDrainCBOR cid command e else fail e
  | inr e, None => fail e
  | inl response, _ => mret response
  end.

(** ** The transport's methods *)

Record Transport := MkTransport { t_device : hid; t_cid : ChannelID; activeCBOR : bool }.

(** Running a device computation inside a method. *)
Definition on_device {A} (f : ChannelID -> M hid A) : M Transport A := fun t =>
  match f (t_cid t) (t_device t) with
  | (r, h) => (r, MkTransport h (t_cid t) (activeCBOR t))
  end.

(** The exchange is marked active until it returns: a call that is still
    waiting leaves the mark for [Close] to see. *)
Definition t_CBOR (data : list Z) : M Transport CBORResponse := fun t =>
  match check_ctx Caller (t_device t) with
  | (Ok _, h) =>
      match closing (retryChannelBusy (exchangeCBOR (t_cid t) data)) h with
      | (Blocked, h') => (Blocked, MkTransport h' (t_cid t) true)
      | (r, h') => (r, MkTransport h' (t_cid t) false)
      end
  | (Err e, h) => (Err e, MkTransport h (t_cid t) (activeCBOR t))
  | (Panic, h) => (Panic, MkTransport h (t_cid t) (activeCBOR t))
  | (Blocked, h) => (Blocked, MkTransport h (t_cid t) (activeCBOR t))
  end.

Definition t_Ping (data : list Z) : M Transport (list Z) :=
  on_device (fun cid => check_ctx Caller ≫= fun _ =>
    closing (retryChannelBusy (Ping cid data))).

Definition t_Wink : M Transport unit :=
  on_device (fun cid => check_ctx Caller ≫= fun _ =>
    closing (retryChannelBusy (Wink cid))).

Definition t_Lock (seconds : Z) : M Transport unit :=
  on_device (fun cid => check_ctx Caller ≫= fun _ =>
    closing (retryChannelBusy (Lock cid seconds))).

Definition t_Vendor (command : Z) (data : list Z) : M Transport (list Z) :=
  on_device (fun cid => check_ctx Caller ≫= fun _ =>
    closing (retryChannelBusy (Vendor cid command data))).

(** [Close]: [Cancel] under a fresh 250 ms context, its error dropped. *)
Definition t_Close : M Transport unit := fun t =>
  ((if activeCBOR t then on_device (fun cid => ignore (t_Cancel Caller cid))
    else mret tt) ≫= fun _ => on_device (fun _ => device_close)) t.

(** [Open] after its nil check and the random nonce: the channel device
    starts on the broadcast channel and is moved to the allocated one. *)
Definition Open (nonce : list Z) : M hid Transport := fun w =>
  match retryChannelBusy (Init BROADCAST_CID nonce) w with
  | (Ok response, w') => (Ok (MkTransport w' (InitCID response) false), w')
  | (Err e, w') => (Err e, w')
  | (Panic, w') => (Panic, w')
  | (Blocked, w') => (Blocked, w')
  end.

(** ** Histories the channel device can produce *)

Definition context_error (e : error) : Prop :=
  e = context_Canceled \/ e = context_DeadlineExceeded.

(** An error of the device itself is marked by [ioDevice]; anything it wraps
    was made below the transport. *)
Definition device_error (e : error) : Prop :=
  context_error e \/
  exists op e0, (op = IORead \/ op = IOWrite) /\ e = EIO op e0 /\
    is_invalidated e0 = false /\ is_busy e0 = false.

Definition event_ok (ev : read_event) : Prop :=
  match ev with Report _ => True | ReadError e => device_error e end.

Definition history_ok (w : hid) : Prop :=
  Forall event_ok (rx w) /\
  Forall (fun r => forall e, r = Some e -> device_error e) (wr w) /\
  Forall (fun c => forall e, c = Some e -> context_error e) (ctxs w).

Lemma device_error_plain e :
  device_error e -> is_invalidated e = false /\ is_busy e = false.
Proof.
  intros [[->| ->]|(op & e0 & _ & -> & H1 & H2)]; [done..|].
  by split.
Qed.

(** ** The failures of the device

    The reads and writes of the history that fail in the device itself; a
    call met one when fewer are left. *)
Definition read_fails (ev : read_event) : bool :=
  match ev with ReadError e => isDeviceIOError e | Report _ => false end.
Definition write_fails (r : option error) : bool :=
  match r with Some e => isDeviceIOError e | None => false end.
Definition failures (w : hid) : nat :=
  length (List.filter read_fails (rx w)) + length (List.filter write_fails (wr w)).

(** An error that says the device failed, closed or not yet. *)
Definition trouble (e : error) : bool := isDeviceIOError e || is_invalidated e.

(** Such an error is returned exactly when the device failed; a call that is
    still waiting has returned nothing yet. *)
Definition failure_reported {A} (r : result A) (before after : nat) : Prop :=
  (after <= before)%nat /\
  match r with
  | Ok _ => after = before
  | Err e => (after < before)%nat <-> trouble e = true
  | Panic | Blocked => True
  end.

(** ** Device computations that leave closing to the transport

    [quiet m]: under any history, [m] never closes the device, reports no
    invalidation, returns an I/O error exactly when the device failed,
    reports CHANNEL_BUSY only as the bare ERROR message, and consumes an
    event whenever it does. *)
Definition modest (e : error) : Prop :=
  is_invalidated e = false /\ (is_busy e = true -> e = EHIDResponse ERR_CHANNEL_BUSY).

Lemma modest_plain e : is_invalidated e = false -> is_busy e = false -> modest e.
Proof. intros. split; [done|congruence]. Qed.

Definition quiet {A} (m : M hid A) : Prop := forall w r w',
  history_ok w -> m w = (r, w') ->
  history_ok w' /\ closed w' = closed w /\ (length (rx w') <= length (rx w))%nat /\
  failure_reported r (failures w) (failures w') /\
  forall e, r = Err e -> modest e /\
    (is_busy e = true -> (length (rx w') < length (rx w))%nat).

Lemma reported_same {A} (r : result A) n :
  (forall e, r = Err e -> trouble e = false) -> failure_reported r n n.
Proof.
  intros Hr. split; [lia|]. destruct r as [|e| |]; try done. rewrite (Hr _ eq_refl). split; [lia|done].
Qed.

(** A step that returned without trouble met no failure. *)
Lemma reported_Ok {A} (a : A) n n' : failure_reported (Ok a) n n' -> n' = n.
Proof. by intros [_ H]. Qed.

Lemma reported_none {A} e n n' : failure_reported (@Err A e) n n' -> trouble e = false -> n' = n.
Proof. intros [Hle Hlt] Ht. destruct (decide (n' < n)%nat) as [H|H]; [|lia]. apply Hlt in H. congruence. Qed.

Lemma quiet_ret {A} (a : A) : quiet (mret a).
Proof. intros w r w' Hw [= <- <-]. by split_and!. Qed.

Lemma quiet_lift {A} (r : result A) :
  (forall e, r = Err e -> trouble e = false /\ is_busy e = false) -> quiet (lift r).
Proof.
  intros Hr w r' w' Hw [= <- <-]. split_and!; try done.
  { apply reported_same. intros e He. by apply Hr. }
  intros e He. destruct (Hr e He) as [[_ ?]%orb_false_iff Hb].
  split; [by apply modest_plain|by rewrite Hb].
Qed.

Lemma quiet_bind {A B} (m : M hid A) (f : A -> M hid B) :
  quiet m -> (forall a, quiet (f a)) -> quiet (m ≫= f).
Proof.
  intros Hm Hf w r w' Hw H. unfold mbind, M_bind in H.
  destruct (m w) as [[a|e| |] w1] eqn:H1; simplify_eq;
    destruct (Hm _ _ _ Hw H1) as (Hok & Hc & Hlen & Hrep & Herr); try by split_and!.
  - destruct (Hf a _ _ _ Hok H) as (Hok' & Hc' & Hlen' & Hrep' & Herr').
    apply reported_Ok in Hrep. rewrite Hrep in Hrep'.
    split_and!; [done|congruence|lia|done|]. intros e He. destruct (Herr' e He) as [? Hb].
    split; [done|]. intros Hbz. specialize (Hb Hbz). lia.
  - split_and!; try done. intros e' [= ->]. by apply Herr.
Qed.

Lemma ReadFrom_loop_errors events : forall st r rest,
  Forall event_ok events -> ReadFrom_loop st events = (r, rest) ->
  failure_reported r (length (List.filter read_fails events)) (length (List.filter read_fails rest)) /\
  forall e, r = Err e -> is_invalidated e = false /\ is_busy e = false.
Proof.
  induction events as [|[raw|e0] events IH]; intros st r rest Hev H;
    cbn [ReadFrom_loop] in H; destruct (Z.eqb_spec (total st) 0); simplify_eq;
    try (split; [by apply reported_same|done]).
  - apply Forall_cons in Hev as [_ Hev]. cbn [List.filter read_fails].
    destruct (read_packet st raw) as [st'| e' | |] eqn:Hr; simplify_eq; [by eauto| |by split; [apply reported_same|]..].
    assert (He : e' = ErrInvalidResponseMessage) by (unfold read_packet in Hr; by repeat case_match; simplify_eq).
    subst e'. split; [|by intros ? [= <-]]. apply reported_same. by intros ? [= <-].
  - apply Forall_cons in Hev as [He _]. apply device_error_plain in He as [Hi Hb].
    split; [|by intros ? [= <-]]. unfold failure_reported, trouble. rewrite Hi, orb_false_r.
    cbn [List.filter read_fails]. destruct (isDeviceIOError e0); cbn; split; (lia || split; (lia || done)).
Qed.

Lemma ReadFrom_loop_suffix events : forall st r rest,
  ReadFrom_loop st events = (r, rest) -> rest `suffix_of` events.
Proof.
  induction events as [|[raw|e0] events IH]; intros st r rest H;
    cbn [ReadFrom_loop] in H; case_match; simplify_eq; try done.
  - case_match; simplify_eq; try (by apply suffix_cons_r); apply suffix_cons_r; eauto.
  - by apply suffix_cons_r.
Qed.

Lemma quiet_ReadFrom : quiet ReadFrom.
Proof.
  intros w r w' (Hrx & Hwr & Hctx) H. unfold ReadFrom in H.
  destruct (ReadFrom_loop read_start (rx w)) as [r0 rest] eqn:H0. simplify_eq.
  pose proof (ReadFrom_loop_suffix _ _ _ _ H0) as Hsuf.
  destruct (ReadFrom_loop_errors _ _ _ _ Hrx H0) as [[Hle Hlt] Herr]. split_and!; cbn; try done.
  - destruct Hsuf as [k Hk]. split; [|done]. rewrite Hk in Hrx. by apply Forall_app in Hrx as [_ ?].
  - apply suffix_length in Hsuf. lia.
  - unfold failure_reported, failures. cbn. split; [lia|].
    destruct r0; cbn in *; [lia|rewrite <- Hlt; lia|done..].
  - intros e He. destruct r0; simplify_eq/=. destruct (Herr _ eq_refl) as [? Hb].
    split; [by apply modest_plain|by rewrite Hb].
Qed.

Lemma quiet_device_Write report : quiet (device_Write report).
Proof.
  intros w r w' (Hrx & Hwr & Hctx) H. unfold device_Write in H.
  assert (Hok : history_ok w').
  { destruct (wr w) as [|[e|] wr']; simplify_eq; (split; [done|]); (split; [|done]); cbn;
      [by constructor|by apply Forall_cons in Hwr as [_ ?]..]. }
  assert (Hrep : failure_reported r (failures w) (failures w')).
  { unfold failures. destruct (wr w) as [|[e|] wr'] eqn:Hw; simplify_eq; cbn [rx wr List.filter write_fails];
      [by apply reported_same| |by apply reported_same].
    apply Forall_cons in Hwr as [He _]. destruct (device_error_plain e (He e eq_refl)) as [Hi _].
    unfold failure_reported, trouble. rewrite Hi, orb_false_r.
    destruct (isDeviceIOError e); cbn [length]; split; (lia || split; (lia || done)). }
  assert (Hsame : closed w' = closed w /\ rx w' = rx w)
    by (destruct (wr w) as [|[e|] wr']; by simplify_eq).
  destruct Hsame as [Hc ->]. split_and!; try done. intros e ->.
  destruct (wr w) as [|[e'|] wr']; simplify_eq. apply Forall_cons in Hwr as [He _].
  destruct (device_error_plain e (He e eq_refl)) as [Hi Hb]. split; [by apply modest_plain|by rewrite Hb].
Qed.

Lemma quiet_WriteTo m : quiet (WriteTo m).
Proof.
  induction m as [|p m IH]; cbn [WriteTo]; [apply quiet_ret|].
  repeat (apply quiet_bind; intros); auto using quiet_device_Write, quiet_ret.
Qed.

Lemma quiet_request {A} cid cmd data (k : M hid A) :
  quiet k ->
  quiet (lift (NewMessage cid cmd data) ≫= fun msg => WriteTo msg ≫= fun _ => k).
Proof.
  intros Hk. apply quiet_bind; [apply quiet_lift|intros m; by apply quiet_bind; [apply quiet_WriteTo|]].
  unfold NewMessage. intros e. repeat case_match; by intros; simplify_eq.
Qed.

(** The handlers report codes of the messages they read, nothing of the
    device. *)
Definition harmless (e : error) : Prop := modest e /\ trouble e = false.
Definition handler_ok {A} (handle : Message -> result (option A)) : Prop :=
  forall m e, handle m = Err e -> harmless e.

Lemma harmless_plain e : trouble e = false -> is_busy e = false -> harmless e.
Proof. intros Ht Hb. split; [|done]. apply orb_false_iff in Ht as [_ Hi]. by apply modest_plain. Qed.

(** What a call does after a read that took an event. *)
Definition quiet_after {A} (w : hid) (r : result A) (w' : hid) : Prop :=
  history_ok w' /\ closed w' = closed w /\ (length (rx w') < length (rx w))%nat /\
  failure_reported r (failures w) (failures w') /\ forall e, r = Err e -> modest e.

Lemma quiet_after_read {A} w w1 (r : result A) w' :
  quiet_after w (Ok tt) w1 -> (forall e, r = Err e -> harmless e) -> w' = w1 -> quiet_after w r w'.
Proof.
  intros (Hok & Hc & Hlt & Hrep%reported_Ok & _) Hr ->. split_and!; try done.
  - rewrite Hrep. apply reported_same. intros e He. by apply Hr.
  - intros e He. by apply Hr.
Qed.

Lemma quiet_after_loop {A} w w1 (r : result A) w' :
  quiet_after w (Ok tt) w1 ->
  (history_ok w' /\ closed w' = closed w1 /\ (length (rx w') <= length (rx w1))%nat /\
   failure_reported r (failures w1) (failures w') /\ forall e, r = Err e -> modest e) ->
  quiet_after w r w'.
Proof.
  intros (Hok & Hc & Hlt & Hrep%reported_Ok & _) (? & ? & ? & Hrep' & ?).
  rewrite Hrep in Hrep'. split_and!; [done|congruence|lia|done|done].
Qed.

Lemma quiet_blocked {A} : quiet (@blocked hid A).
Proof. by apply quiet_lift. Qed.

Lemma quiet_receive {A} cid (handle : Message -> result (option A)) :
  handler_ok handle -> quiet (receive cid handle).
Proof.
  intros Hh w r w' Hw H. unfold receive in H. revert H.
  generalize (S (length (rx w))). intros f. revert w Hw.
  induction f as [|f IH]; intros w Hw H; [by eapply quiet_blocked|].
  cbn [receive_loop] in H. unfold mbind, M_bind in H.
  destruct (ReadFrom w) as [[[m n]|e| |] w1] eqn:HR; simplify_eq;
    destruct (quiet_ReadFrom _ _ _ Hw HR) as (Hok & Hc & Hlen & Hrep & Herr);
    try (split_and!; try done; intros e' He'; simplify_eq; by apply Herr).
  apply ReadFrom_rx in HR as [_ [[? _]|[_ Hlt]]]; [done|].
  assert (H1 : quiet_after w (Ok tt) w1) by (by split_and!).
  cut (quiet_after w r w'); [intros (? & ? & ? & ? & ?); split_and!; try done; [lia|]; intros; split; [by eauto|lia]|].
  assert (Hloop : receive_loop f cid handle w1 = (r, w') -> quiet_after w r w').
  { intros H2. apply (quiet_after_loop w w1); [done|].
    destruct (IH w1 Hok H2) as (? & ? & ? & ? & He2). split_and!; try done. intros e He. by apply He2. }
  cbn [lift] in H. destruct (responseMatchesCID m cid) as [[]|e| |] eqn:Hm; cbn [negb] in H.
  - destruct (handle m) as [[a|]|e| |] eqn:Hhm; [|by apply Hloop|..]; unfold mret, M_ret, lift in H;
      simplify_eq; (eapply quiet_after_read; [exact H1| |done]); intros e' [= <-]. by eapply Hh.
  - by apply Hloop.
  - simplify_eq. eapply quiet_after_read; [exact H1| |done]. intros e' [= <-].
    unfold responseMatchesCID in Hm. destruct m; [injection Hm as <-; by apply harmless_plain|done].
  - by destruct m.
  - by destruct m.
Qed.

Lemma error_response_plain {A} p e : @error_response A p = Err e -> harmless e.
Proof.
  unfold error_response, ensureDataLen. destruct (_ <? 1); intros [= <-]; [by apply harmless_plain|].
  split; [|done]. split; [done|]. unfold is_busy, errors_As. cbn. intros H%Z.eqb_eq. by rewrite H.
Qed.

Lemma handler_ok_CBOR command : handler_ok (handle_CBOR command).
Proof.
  intros [|p m] e; [done|]. unfold handle_CBOR, ensureDataLen, ValidateCBORResponse.
  repeat case_match; cbn; try (by intros [= <-]; apply harmless_plain); try done; apply error_response_plain.
Qed.

Lemma handler_ok_Init nonce : handler_ok (handle_Init nonce).
Proof.
  intros [|p m] e; [done|]. unfold handle_Init, ensureDataLen.
  repeat case_match; cbn; try (by intros [= <-]; apply harmless_plain); try done; apply error_response_plain.
Qed.

Lemma handler_ok_echo command : handler_ok (handle_echo command).
Proof.
  intros [|p m] e; [done|]. unfold handle_echo.
  repeat case_match; try (by intros [= <-]; apply harmless_plain); try done; apply error_response_plain.
Qed.

Lemma handler_ok_ack command : handler_ok (handle_ack command).
Proof.
  intros [|p m] e; [done|]. unfold handle_ack.
  repeat case_match; try (by intros [= <-]; apply harmless_plain); try done; apply error_response_plain.
Qed.

Lemma quiet_fail {A} e :
  trouble e = false -> is_busy e = false -> quiet (@fail hid A e).
Proof. intros. apply quiet_lift. by intros ? [= <-]. Qed.

Lemma quiet_check_ctx ctx : quiet (check_ctx ctx).
Proof.
  intros w r w' Hw H. unfold check_ctx, mbind, M_bind, ctx_Err in H.
  pose proof Hw as (Hrx & Hwr & Hctx).
  destruct ctx; [|by eapply quiet_ret].
  destruct (ctxs w) as [|c cs]; [by eapply quiet_ret|].
  apply Forall_cons in Hctx as [He Hctx].
  assert (Hok : history_ok (set_ctxs cs w)) by done.
  destruct c as [e|]; [|by eapply (quiet_ret tt (set_ctxs cs w))].
  refine (quiet_lift (Err e) _ (set_ctxs cs w) r w' Hok H).
  intros e' [= <-]. by destruct (He e eq_refl) as [->| ->].
Qed.

Create HintDb quiet.
#[export] Hint Resolve quiet_ret quiet_WriteTo quiet_check_ctx quiet_receive
  handler_ok_CBOR handler_ok_Init handler_ok_echo handler_ok_ack : quiet.

Lemma quiet_readCBORResponse cid command : quiet (readCBORResponse cid command).
Proof. unfold readCBORResponse. auto with quiet. Qed.

Lemma quiet_writeCBOR cid data : quiet (writeCBOR cid data).
Proof.
  unfold writeCBOR. case_match; [by apply quiet_fail|]. apply quiet_request. auto with quiet.
Qed.

Lemma quiet_Init cid nonce : quiet (Init cid nonce).
Proof.
  unfold Init. case_match; [by apply quiet_fail|]. apply quiet_request. auto with quiet.
Qed.

Lemma quiet_Ping cid data : quiet (Ping cid data).
Proof. apply quiet_request. auto with quiet. Qed.

Lemma quiet_Vendor cid command data : quiet (Vendor cid command data).
Proof.
  unfold Vendor. case_match; [by apply quiet_fail|]. apply quiet_request. auto with quiet.
Qed.

Lemma quiet_Wink cid : quiet (Wink cid).
Proof. apply quiet_request. auto with quiet. Qed.

Lemma quiet_Lock cid seconds : quiet (Lock cid seconds).
Proof.
  unfold Lock. case_match; [by apply quiet_fail|]. apply quiet_request. auto with quiet.
Qed.

Lemma quiet_Cancel cid : quiet (Cancel cid).
Proof. apply quiet_request. auto with quiet. Qed.

(** ** Accounting for the closing of the device

    An error that invalidates the device is reported exactly when the device
    was closed, and one that says it failed exactly when it did. *)
Definition outcome_ok {A} (r : result A) (before after : nat) : Prop :=
  match r with
  | Err e => if is_invalidated e then (before < after)%nat else after = before
  | _ => after = before
  end.

Definition busy_consumes {A} (m : M hid A) : Prop := forall w r w',
  history_ok w -> m w = (r, w') ->
  history_ok w' /\ (length (rx w') <= length (rx w))%nat /\
  outcome_ok r (closed w) (closed w') /\ failure_reported r (failures w) (failures w') /\
  forall e, r = Err e -> is_busy e = true ->
    trouble e = false /\ closed w' = closed w /\ (length (rx w') < length (rx w))%nat.

Lemma quiet_busy_consumes {A} (m : M hid A) : quiet m -> busy_consumes m.
Proof.
  intros Hm w r w' Hw H. destruct (Hm _ _ _ Hw H) as (? & Hc & ? & ? & He).
  split_and!; try done.
  - destruct r; cbn; try done. by destruct (He e eq_refl) as [[-> _] _].
  - intros e -> Hb. destruct (He e eq_refl) as [[_ Hm'] Hlt]. split_and!; [by rewrite (Hm' Hb)|done|by apply Hlt].
Qed.

(** The fuel of the retry loop is never what ends it. *)
Lemma retry_loop_enough {A} (m : M hid A) f1 : forall f2 w,
  busy_consumes m -> history_ok w ->
  (length (rx w) < f1)%nat -> (length (rx w) < f2)%nat ->
  retry_loop f1 m w = retry_loop f2 m w.
Proof.
  induction f1 as [|f1 IH]; intros [|f2] w Hm Hw H1 H2; try lia.
  cbn [retry_loop]. unfold mbind, M_bind, try_.
  destruct (m w) as [[a|e| |] w1] eqn:Hrun; try done.
  destruct (is_busy e) eqn:Hb; cbn [negb]; [|done].
  destruct (Hm _ _ _ Hw Hrun) as (Hok & _ & _ & _ & He).
  destruct (He e eq_refl Hb) as (_ & _ & Hlt).
  destruct (check_ctx Caller w1) as [[[]|?| |] w2] eqn:Hctx; try done.
  destruct (quiet_check_ctx _ _ _ _ Hok Hctx) as (? & _ & ? & _).
  apply IH; try done; lia.
Qed.

Lemma retryChannelBusy_unfold {A} (m : M hid A) w :
  busy_consumes m -> history_ok w ->
  retryChannelBusy m w =
    (try_ m ≫= fun r =>
     match r with
     | inl a => mret a
     | inr e => if negb (is_busy e) then fail e
                else check_ctx Caller ≫= fun _ => retryChannelBusy m
     end) w.
Proof.
  intros Hm Hw. unfold retryChannelBusy at 1. cbn [retry_loop]. unfold mbind, M_bind, try_.
  destruct (m w) as [[a|e| |] w1] eqn:Hrun; try done.
  destruct (is_busy e) eqn:Hb; cbn [negb]; [|done].
  destruct (Hm _ _ _ Hw Hrun) as (Hok & _ & _ & _ & He).
  destruct (He e eq_refl Hb) as (_ & _ & Hlt).
  destruct (check_ctx Caller w1) as [[[]|?| |] w2] eqn:Hctx; try done.
  destruct (quiet_check_ctx _ _ _ _ Hok Hctx) as (? & _ & ? & _).
  apply retry_loop_enough; try done; lia.
Qed.

(** [closing] closes on I/O errors, and marks them: afterwards the device was
    closed exactly when it failed. *)
Definition settled {A} (r : result A) (w w' : hid) : Prop :=
  outcome_ok r (closed w) (closed w') /\ failure_reported r (failures w) (failures w') /\
  forall e, r = Err e -> isDeviceIOError e = true -> is_invalidated e = true.

Lemma closing_settles {A} (m : M hid A) w r w' r0 w1 :
  m w = (r0, w1) -> outcome_ok r0 (closed w) (closed w1) -> failure_reported r0 (failures w) (failures w1) ->
  closing m w = (r, w') ->
  settled r w w' /\ rx w' = rx w1 /\ wr w' = wr w1 /\ ctxs w' = ctxs w1.
Proof.
  intros H1 Hout Hrep H. unfold closing, try_, mbind, M_bind in H. rewrite H1 in H.
  destruct r0 as [a|e| |]; unfold mret, M_ret in H; simplify_eq; try by split_and!.
  unfold closeOnIOError, device_close, mbind, M_bind in H.
  destruct (isDeviceIOError e) eqn:Hio; cbn in H; simplify_eq; cbn.
  - split; [|done]. unfold settled. cbn in *. split_and!.
    + destruct (is_invalidated e); lia.
    + unfold failure_reported, trouble in *. rewrite Hio in Hrep. cbn in Hrep.
      by rewrite orb_true_r.
    + by intros ? [= <-].
  - split; [|done]. unfold settled. split_and!; try done. intros e' [= <-]. congruence.
Qed.

Lemma closing_accounts {A} (m : M hid A) w r w' :
  busy_consumes m -> history_ok w -> closing m w = (r, w') ->
  history_ok w' /\ (length (rx w') <= length (rx w))%nat /\ settled r w w'.
Proof.
  intros Hm Hw H. destruct (m w) as [r0 w1] eqn:H1.
  destruct (Hm _ _ _ Hw H1) as (Hok & Hlen & Hout & Hrep & _).
  destruct (closing_settles m w r w' r0 w1 H1 Hout Hrep H) as (Hs & Hrx & Hwr & Hcx).
  unfold history_ok. rewrite Hrx, Hwr, Hcx. by split_and!; try apply Hok.
Qed.

(** Two steps, the first of which met no failure. *)
Lemma reported_after {A} (r : result A) n n1 n' : n1 = n -> failure_reported r n1 n' -> failure_reported r n n'.
Proof. by intros ->. Qed.

Lemma retry_busy_consumes {A} (m : M hid A) :
  busy_consumes m ->
  (forall w r w', history_ok w -> retryChannelBusy m w = (r, w') ->
     history_ok w' /\ (length (rx w') <= length (rx w))%nat /\
     outcome_ok r (closed w) (closed w') /\ failure_reported r (failures w) (failures w') /\
     forall e, r = Err e -> is_busy e = false).
Proof.
  intros Hm w. remember (length (rx w)) as n eqn:Hn. revert w Hn.
  induction (lt_wf n) as [n _ IH]. intros w -> r w' Hw H.
  rewrite retryChannelBusy_unfold in H by done. unfold try_, mbind, M_bind in H.
  destruct (m w) as [r0 w1] eqn:H1. destruct (Hm _ _ _ Hw H1) as (Hok & Hlen & Hout & Hrep & Hbusy).
  destruct r0 as [a|e| |]; unfold mret, M_ret in H; simplify_eq; try by split_and!.
  destruct (is_busy e) eqn:Hb; cbn in H.
  - destruct (Hbusy e eq_refl Hb) as (Ht & Hc & Hlt).
    assert (Hf : failures w1 = failures w) by (by apply (reported_none _ _ _ Hrep)).
    destruct (check_ctx Caller w1) as [r2 w2] eqn:H2.
    destruct (quiet_check_ctx _ _ _ _ Hok H2) as (Hok2 & Hc2 & Hlen2 & Hrep2 & He2).
    destruct r2 as [[]|e2| |]; simplify_eq.
    + destruct (IH (length (rx w2)) ltac:(lia) w2 eq_refl r w') as (? & ? & ? & ? & ?); try done.
      apply reported_Ok in Hrep2.
      split_and!; try done; [lia|by rewrite <- Hc, <- Hc2|by rewrite <- Hf, <- Hrep2].
    + destruct (He2 e2 eq_refl) as [[Hi Hb2] _]. split_and!; try done; [lia| |by rewrite <- Hf|].
      * cbn. rewrite Hi. congruence.
      * intros e3 [= <-]. destruct (is_busy e2) eqn:Hbz; [|done].
        unfold check_ctx, ctx_Err, mbind, M_bind in H2. rewrite (Hb2 eq_refl) in H2.
        destruct Hok as (_ & _ & Hctx). destruct (ctxs w1) as [|[c|] cs]; [done| |done].
        apply Forall_cons in Hctx as [Hctx _]. cbn in H2. simplify_eq.
        destruct (Hctx _ eq_refl); done.
    + split_and!; try done; [lia|cbn; congruence|by rewrite <- Hf].
    + split_and!; try done; [lia|cbn; congruence|by rewrite <- Hf].
  - simplify_eq. split_and!; try done. by intros e' [= <-].
Qed.

Lemma quiet_t_writeCBOR cid data : quiet (t_writeCBOR cid data).
Proof. apply quiet_bind; [apply quiet_check_ctx|]. intros. apply quiet_writeCBOR. Qed.

Lemma busy_no_ctx e c :
  modest e -> is_busy e = true -> context_error c -> errors_Is e c = false.
Proof. intros [_ He] Hb [->| ->]; by rewrite (He Hb). Qed.

Lemma settled_Ok {A} (a : A) w w' : settled (Ok a) w w' -> closed w' = closed w /\ failures w' = failures w.
Proof. by intros (? & ?%reported_Ok & _). Qed.

(** The error [e1] of the CANCEL or of the draining decides how the error [e]
    of the request is returned. *)
Lemma drained_accounts {A B} e e1 n w w1 (r : result B) w' :
  is_invalidated e = false -> is_busy e = false -> failure_reported (@Err B e) n (failures w) ->
  settled (@Err A e1) w w1 ->
  (if is_invalidated e1 then (@Err B (EInvalidated e), w1) else (Err e, w1)) = (r, w') ->
  w' = w1 /\ outcome_ok r (closed w) (closed w') /\ failure_reported r n (failures w') /\
  (forall e', r = Err e' -> is_busy e' = false).
Proof.
  intros Hi Hb [Hle Hlt] (Hout & [Hle1 Hlt1] & Hio) H. cbn in Hout. specialize (Hio e1 eq_refl).
  assert (Ht : trouble e1 = is_invalidated e1).
  { unfold trouble. destruct (isDeviceIOError e1); [by rewrite Hio|done]. }
  rewrite Ht in Hlt1. destruct (is_invalidated e1); simplify_eq.
  - split_and!; try done; [|by intros ? [= <-]]. split; [lia|].
    assert (failures w' < failures w)%nat by by apply Hlt1. split; [|lia]. intros _.
    unfold trouble. by rewrite orb_true_r.
  - assert (Hf : failures w' = failures w).
    { destruct (decide (failures w' < failures w)%nat) as [Hx|Hx]; [by apply Hlt1 in Hx|lia]. }
    rewrite Hf. split_and!; try done; [cbn; by rewrite Hi|by intros ? [= <-]].
Qed.

(** The draining keeps the account of the cancelled request's error, [e]:
    the device has failed by then exactly when [e] says so. *)
Lemma cancelAndDrain_accounts cid command e w0 w r w' :
  is_invalidated e = false -> is_busy e = false -> history_ok w ->
  failure_reported (@Err CBORResponse e) w0 (failures w) ->
  cancelAndDrainCBOR cid command e w = (r, w') ->
  history_ok w' /\ (length (rx w') <= length (rx w))%nat /\
  outcome_ok r (closed w) (closed w') /\ failure_reported r w0 (failures w') /\
  (forall e', r = Err e' -> is_busy e' = false).
Proof.
  intros Hi Hb Hw H0 H. unfold cancelAndDrainCBOR, try_, mbind, M_bind in H.
  change (t_Cancel Uncancelable cid) with (closing (Cancel cid)) in H.
  destruct (closing (Cancel cid) w) as [r1 w1] eqn:H1.
  destruct (closing_accounts _ _ _ _ (quiet_busy_consumes _ (quiet_Cancel cid)) Hw H1)
    as (Hok & Hlen & Hs).
  destruct r1 as [[]|e1| |]; simplify_eq.
  - apply settled_Ok in Hs as [Hc1 Hf1].
    destruct (closing (readCBORResponse cid command) w1) as [r2 w2] eqn:H2.
    destruct (closing_accounts _ _ _ _
      (quiet_busy_consumes _ (quiet_readCBORResponse cid command)) Hok H2) as (Hok2 & Hlen2 & Hs2).
    rewrite <- Hc1. rewrite <- Hf1 in H0.
    destruct r2 as [resp|e2| |]; simplify_eq.
    + apply settled_Ok in Hs2 as [Hc2 Hf2]. injection H as <- <-. rewrite Hf2, Hc2. split_and!; try done; [lia|cbn; by rewrite Hi|].
      by intros ? [= <-].
    + destruct (drained_accounts e e2 w0 w1 w2 r w' Hi Hb H0 Hs2) as (-> & ? & ? & ?); [by destruct (is_invalidated e2)|].
      split_and!; try done. lia.
    + destruct Hs2 as (? & [? _] & _). destruct H0 as [? _]. split_and!; try done; [lia|split; [lia|done]].
    + destruct Hs2 as (? & [? _] & _). destruct H0 as [? _]. split_and!; try done; [lia|split; [lia|done]].
  - by destruct (drained_accounts e e1 w0 w w1 r w' Hi Hb H0 Hs) as (-> & ? & ? & ?); [by destruct (is_invalidated e1)|].
  - destruct Hs as (? & [? _] & _). destruct H0 as [? _]. split_and!; try done. split; [lia|done].
  - destruct Hs as (? & [? _] & _). destruct H0 as [? _]. split_and!; try done. split; [lia|done].
Qed.

Lemma ctx_Err_quiet w ctxErr w' : history_ok w -> ctx_Err Caller w = (ctxErr, w') ->
  exists c, ctxErr = Ok c /\ history_ok w' /\ closed w' = closed w /\ rx w' = rx w /\ failures w' = failures w /\
    forall e, c = Some e -> context_error e.
Proof.
  intros (Hr & Hwr & Hcx) H. unfold ctx_Err in H. destruct (ctxs w) as [|c cs] eqn:Hc; simplify_eq.
  - eexists. split; [done|]. split_and!; try done. split_and!; try done. by rewrite Hc.
  - apply Forall_cons in Hcx as [? ?]. eexists. by split_and!.
Qed.

Lemma exchangeCBOR_busy_consumes cid data : busy_consumes (exchangeCBOR cid data).
Proof.
  intros w r w' Hw H. unfold exchangeCBOR in H. unfold mbind at 1, M_bind at 1 in H.
  destruct (t_writeCBOR cid data w) as [r1 w1] eqn:H1.
  destruct (quiet_busy_consumes _ (quiet_t_writeCBOR cid data) _ _ _ Hw H1)
    as (Hok & Hlen & Hout & Hrep & Hbusy).
  destruct r1 as [command|e1| |]; simplify_eq;
    [|split_and!; [done..|intros ? [= <-]; by apply Hbusy]|by split_and!..].
  unfold mbind, M_bind, try_ in H. apply reported_Ok in Hrep. cbn in Hout.
  destruct (readCBORResponse cid command w1) as [r2 w2] eqn:H2.
  destruct (quiet_readCBORResponse cid command _ _ _ Hok H2) as (Hok2 & Hc2 & Hlen2 & Hrep2 & Herr2).
  destruct r2 as [resp|e| |]; simplify_eq; rewrite Hrep in Hrep2.
  - apply reported_Ok in Hrep2. destruct (ctx_Err Caller w2) as [? w3] eqn:Hctx.
    destruct (ctx_Err_quiet _ _ _ Hok2 Hctx) as (c & -> & ? & Hc3 & Hrx3 & Hf3 & _).
    injection H as <- <-. cbn. rewrite Hrx3, Hc3, Hf3. split_and!; [done|lia|congruence| |done].
    rewrite Hrep2. by apply reported_same.
  - destruct (ctx_Err Caller w2) as [? w3] eqn:Hctx.
    destruct (ctx_Err_quiet _ _ _ Hok2 Hctx) as (ctxErr & -> & Hok3 & Hc3 & Hrx3 & Hf3 & Hce).
    destruct (Herr2 e eq_refl) as [Hmod Hlt].
    assert (Hkeep : r = Err e -> w' = w3 -> history_ok w' /\
      (length (rx w') <= length (rx w))%nat /\ outcome_ok r (closed w) (closed w') /\
      failure_reported r (failures w) (failures w') /\
      (forall e', r = Err e' -> is_busy e' = true ->
         trouble e' = false /\ closed w' = closed w /\ (length (rx w') < length (rx w))%nat)).
    { intros -> ->. rewrite Hrx3, Hc3, Hc2, Hf3. split_and!; [done|lia| |done|].
      - cbn. by rewrite (proj1 Hmod).
      - intros e' [= <-] Hb. split_and!; [by rewrite (proj2 Hmod Hb)|done|]. specialize (Hlt Hb). lia. }
    destruct ctxErr as [c|]; [|cbn in H; apply Hkeep; congruence].
    destruct (errors_Is e c) eqn:His; [|cbn in H; apply Hkeep; congruence].
    destruct (is_busy e) eqn:Hb.
    { by rewrite (busy_no_ctx e c) in His by auto. }
    rewrite <- Hf3 in Hrep2.
    destruct (cancelAndDrain_accounts _ _ _ _ _ _ _ (proj1 Hmod) Hb Hok3 Hrep2 H) as (? & Hl & Ho & ? & Hnb).
    split_and!; [done|rewrite Hrx3 in Hl; lia|by rewrite Hc3, Hc2, Hout in Ho|done|].
    intros e' He' Hb'. by rewrite (Hnb e' He') in Hb'.
  - cbn in *. split_and!; [done|lia|congruence|done|done].
  - cbn in *. split_and!; [done|lia|congruence|done|done].
Qed.

(** ** Runs whose context is never done *)

(** A connection that takes every write, under a context that stays live. *)
Definition live (events : list read_event) (sent_reports : list (list Z)) (n : nat) : hid :=
  Hid events [] sent_reports [] n.

Lemma live_history_ok events reports n :
  Forall event_ok events -> history_ok (live events reports n).
Proof. by repeat split. Qed.

Lemma event_ok_wire m : Forall event_ok (wire m).
Proof. unfold wire. apply Forall_fmap. by apply Forall_true. Qed.

Lemma event_ok_messages ms : Forall event_ok (concat (wire <$> ms)).
Proof.
  induction ms as [|m ms IH]; [constructor|]. apply Forall_app. split; [apply event_ok_wire|done].
Qed.

(** One exchange: the request goes out, and the first message that is not
    background decides. *)
Lemma exchange_live cid data req noise m cmd answer r rest reports n :
  data <> [] -> NewMessage cid CTAPHID_CBOR data = Ok req ->
  Forall (background cid) noise -> sent m cid cmd answer ->
  handle_CBOR (nth 0 data 0) m = Some <$> r ->
  exchangeCBOR cid data (live (concat (wire <$> noise) ++ wire m ++ rest) reports n) =
    (r, live rest (reports ++ OutputReports req) n).
Proof.
  intros Hd Hreq Hnoise Hm Hh. set (w := live _ _ _).
  assert (Hsent : request_sent cid CTAPHID_CBOR data w req).
  { split; [done|]. unfold writes_ok. cbn. by rewrite take_nil. }
  unfold exchangeCBOR. erewrite M_bind_Ok; [|by apply writeCBOR_sent].
  unfold readCBORResponse, try_, mbind, M_bind.
  erewrite (receive_answer cid _ noise m cmd answer r); [| |done|done|done].
  - unfold after_writes, live. cbn. rewrite drop_nil. by destruct r.
  - eapply Forall_impl; [done|apply background_CBOR].
Qed.

(** ** Properties *)

(** What a method owes its caller about the device, once it has returned: if
    a read or write of it failed in the course of the call, however the call
    went on, the device is closed and the error says so, and otherwise
    neither. *)
Definition device_accounted {A} (run : M Transport A) : Prop := forall t r t',
  history_ok (t_device t) -> run t = (r, t') ->
  let failed := (failures (t_device t') < failures (t_device t))%nat in
  history_ok (t_device t') /\ (failures (t_device t') <= failures (t_device t))%nat /\
  match r with
  | Ok _ => ~ failed /\ closed (t_device t') = closed (t_device t)
  | Err e =>
      is_busy e = false /\
      if is_invalidated e then failed /\ (closed (t_device t) < closed (t_device t'))%nat
      else ~ failed /\ closed (t_device t') = closed (t_device t) /\ isDeviceIOError e = false
  | Panic | Blocked => True
  end.

Definition accounted {A} (r : result A) (w w' : hid) : Prop :=
  history_ok w' /\ (failures w' <= failures w)%nat /\
  match r with
  | Ok _ => ~ (failures w' < failures w)%nat /\ closed w' = closed w
  | Err e =>
      is_busy e = false /\
      if is_invalidated e then (failures w' < failures w)%nat /\ (closed w < closed w')%nat
      else ~ (failures w' < failures w)%nat /\ closed w' = closed w /\ isDeviceIOError e = false
  | Panic | Blocked => True
  end.

Lemma settled_accounted {A} (r : result A) w w' :
  history_ok w' -> settled r w w' -> (forall e, r = Err e -> is_busy e = false) -> accounted r w w'.
Proof.
  intros Hok (Hout & [Hle Hrep] & Hio) Hb. split; [done|]. split; [done|].
  destruct r as [a|e| |]; [split; [lia|done]| |done..]. split; [by apply Hb|].
  specialize (Hio e eq_refl). cbn in Hout. unfold trouble in Hrep.
  destruct (is_invalidated e); [split; [apply Hrep; apply orb_true_r|done]|].
  destruct (isDeviceIOError e); [by specialize (Hio eq_refl)|]. split_and!; [|done|done].
  intros H. by apply Hrep in H.
Qed.

Lemma method_accounted {A} (m : M hid A) w r w' :
  busy_consumes m -> history_ok w ->
  (check_ctx Caller ≫= fun _ => closing (retryChannelBusy m)) w = (r, w') -> accounted r w w'.
Proof.
  intros Hm Hw H. unfold mbind, M_bind in H.
  destruct (check_ctx Caller w) as [r1 w1] eqn:H1.
  destruct (quiet_check_ctx _ _ _ _ Hw H1) as (Hok & Hc & _ & Hrep & He).
  destruct r1 as [[]|e| |]; simplify_eq; [| |by split_and!; try apply Hrep..].
  - apply reported_Ok in Hrep. destruct (retryChannelBusy m w1) as [r2 w2] eqn:H2.
    destruct (retry_busy_consumes m Hm _ _ _ Hok H2) as (Hok2 & _ & Hout & Hrep2 & Hnb).
    destruct (closing_settles _ w1 r w' r2 w2 H2 Hout Hrep2 H) as (Hs & Hrx & Hwr & Hcx).
    unfold settled in Hs. rewrite Hc, Hrep in Hs. apply settled_accounted; [|done|].
    + unfold history_ok. by rewrite Hrx, Hwr, Hcx.
    + intros e ->. unfold closing, try_, mbind, M_bind in H. rewrite H2 in H.
      destruct r2 as [a|e2| |]; simplify_eq. specialize (Hnb e2 eq_refl).
      unfold closeOnIOError, device_close, mbind, M_bind in H.
      destruct (isDeviceIOError e2); cbn in H; by simplify_eq.
  - destruct (He e eq_refl) as [[Hi Hb] _].
    assert (context_error e) as Hce.
    { unfold check_ctx, ctx_Err, mbind, M_bind in H1. destruct Hw as (_ & _ & Hctx).
      destruct (ctxs w) as [|[c|] cs]; [done| |done]. apply Forall_cons in Hctx as [Hctx _].
      cbn in H1. simplify_eq. by apply Hctx. }
    assert (Hplain : is_busy e = false /\ isDeviceIOError e = false) by by destruct Hce as [->| ->].
    apply settled_accounted; [done| |intros ? [= <-]; apply Hplain]. unfold settled. split_and!; [cbn; by rewrite Hi|done|].
    intros ? [= <-]. by rewrite (proj2 Hplain).
Qed.

Lemma on_device_accounted {A} (f : ChannelID -> M hid A) :
  (forall cid, busy_consumes (f cid)) ->
  device_accounted (on_device (fun cid => check_ctx Caller ≫= fun _ =>
    closing (retryChannelBusy (f cid)))).
Proof.
  intros Hf t r t' Hw H. unfold on_device in H.
  destruct ((check_ctx Caller ≫= _) (t_device t)) as [r0 h] eqn:H0.
  simplify_eq. exact (method_accounted _ _ _ _ (Hf _) Hw H0).
Qed.

(** C25. Device errors and the closing of the device agree on every method
    that returns: if any read or write of the device failed during the call -
    also the write of a CANCEL, or a read while a cancelled request is
    drained - the device has been closed and a DeviceInvalidatedError comes
    back; if none did, the device is open as before and the error is of
    another kind. No method reports CHANNEL_BUSY, which is retried until the
    context ends. *)
Theorem hid_device_accounted data cmd seconds :
  device_accounted (t_CBOR data) /\ device_accounted (t_Ping data) /\
  device_accounted t_Wink /\ device_accounted (t_Lock seconds) /\
  device_accounted (t_Vendor cmd data).
Proof.
  split_and!;
    try (apply on_device_accounted; intros; apply quiet_busy_consumes;
         auto using quiet_Ping, quiet_Wink, quiet_Lock, quiet_Vendor).
  intros t r t' Hw H. unfold t_CBOR in H.
  pose proof (method_accounted (exchangeCBOR (t_cid t) data) (t_device t)) as Hacc.
  unfold mbind, M_bind in Hacc.
  destruct (check_ctx Caller (t_device t)) as [[[]|e| |] h]; simplify_eq;
    [|exact (Hacc _ _ (exchangeCBOR_busy_consumes _ _) Hw eq_refl)..].
  destruct (closing (retryChannelBusy (exchangeCBOR (t_cid t) data)) h) as [r0 h'].
  specialize (Hacc r0 h' (exchangeCBOR_busy_consumes _ _) Hw eq_refl).
  by destruct r0; simplify_eq.
Qed.

(** The traffic of one refused attempt: background, then CHANNEL_BUSY. *)
Definition refused (cid : ChannelID) (attempt : list Message * Message) : Prop :=
  Forall (background cid) attempt.1 /\
  sent attempt.2 cid CTAPHID_ERROR [ERR_CHANNEL_BUSY].

Definition attempt_wire (attempt : list Message * Message) : list read_event :=
  concat (wire <$> attempt.1) ++ wire attempt.2.

Lemma event_ok_attempts attempts : Forall event_ok (concat (attempt_wire <$> attempts)).
Proof.
  induction attempts as [|a l IH]; [constructor|]. cbn. unfold attempt_wire.
  rewrite !Forall_app. auto using event_ok_wire, event_ok_messages.
Qed.

(** One refused attempt writes the request and comes round again. *)
Lemma retry_refused cid data req attempt events reports n :
  data <> [] -> NewMessage cid CTAPHID_CBOR data = Ok req ->
  refused cid attempt -> Forall event_ok events ->
  retryChannelBusy (exchangeCBOR cid data) (live (attempt_wire attempt ++ events) reports n) =
  retryChannelBusy (exchangeCBOR cid data) (live events (reports ++ OutputReports req) n).
Proof.
  intros Hd Hreq [Hbg Hbusy] Hev.
  rewrite retryChannelBusy_unfold; [|apply exchangeCBOR_busy_consumes|].
  2:{ apply live_history_ok. unfold attempt_wire. rewrite !Forall_app.
      auto using event_ok_wire, event_ok_messages. }
  unfold attempt_wire. rewrite <- (assoc_L (++)). unfold try_, mbind at 1, M_bind at 1.
  erewrite (exchange_live cid data req _ _ CTAPHID_ERROR [ERR_CHANNEL_BUSY]
    (Err (EHIDResponse ERR_CHANNEL_BUSY))); [done|done..|].
  destruct (handle_error_answer _ _ _ _ Hbusy) as (p & ps & Hps & Hc & He).
  unfold handle_CBOR. by rewrite Hps, Hc, He.
Qed.

(** An attempt that is answered ends the loop. *)
Lemma retry_answered cid data req noise m status rdata rest reports n :
  data <> [] -> NewMessage cid CTAPHID_CBOR data = Ok req ->
  Forall (background cid) noise -> sent m cid CTAPHID_CBOR (status :: rdata) ->
  Forall event_ok rest ->
  retryChannelBusy (exchangeCBOR cid data)
    (live (concat (wire <$> noise) ++ wire m ++ rest) reports n) =
  (ValidateCBORResponse (nth 0 data 0) (MkCBORResponse status rdata),
   live rest (reports ++ OutputReports req) n).
Proof.
  intros Hd Hreq Hnoise Hm Hrest.
  rewrite retryChannelBusy_unfold; [|apply exchangeCBOR_busy_consumes|].
  2:{ apply live_history_ok. rewrite !Forall_app. auto using event_ok_wire, event_ok_messages. }
  unfold try_, mbind at 1, M_bind at 1.
  erewrite exchange_live; [|done..|by eapply handle_CBOR_answer].
  unfold ValidateCBORResponse. by destruct (negb _).
Qed.

(** While the channel is busy the same request is written again, after
    each refusal, until an answer ends the exchange: [k] refusals cost [k+1]
    copies of the request on the wire, and the answer is returned as the
    first attempt would have returned it. *)
Theorem hid_busy_retried cid data req attempts noise m status rdata rest reports n active :
  data <> [] -> NewMessage cid CTAPHID_CBOR data = Ok req ->
  Forall (refused cid) attempts -> Forall (background cid) noise ->
  sent m cid CTAPHID_CBOR (status :: rdata) -> Forall event_ok rest ->
  t_CBOR data (MkTransport
      (live (concat (attempt_wire <$> attempts) ++ concat (wire <$> noise) ++ wire m ++ rest)
         reports n) cid active) =
    (if status =? CTAP2_OK then Ok (MkCBORResponse CTAP2_OK rdata)
     else Err (ECTAP (nth 0 data 0) status),
     MkTransport
       (live rest
          (reports ++ concat (replicate (S (length attempts)) (OutputReports req))) n)
       cid false).
Proof.
  intros Hd Hreq Hatt Hnoise Hm Hrest.
  assert (Hrun : retryChannelBusy (exchangeCBOR cid data)
      (live (concat (attempt_wire <$> attempts) ++ concat (wire <$> noise) ++ wire m ++ rest)
         reports n) =
    (ValidateCBORResponse (nth 0 data 0) (MkCBORResponse status rdata),
     live rest (reports ++ concat (replicate (S (length attempts)) (OutputReports req))) n)).
  { revert reports. induction Hatt as [|attempt attempts Ha Hatt IH]; intros reports.
    - cbn [fmap list_fmap concat app].
      rewrite (retry_answered cid data req noise m status rdata rest reports n) by done.
      cbn. by rewrite app_nil_r.
    - cbn [fmap list_fmap concat]. rewrite <- (assoc_L (++)).
      rewrite (retry_refused cid data req) by (done || (rewrite !Forall_app;
        auto using event_ok_wire, event_ok_messages, event_ok_attempts)).
      rewrite IH. cbn [length replicate concat]. by rewrite <- (assoc_L (++)). }
  unfold t_CBOR. cbn [t_device t_cid].
  change (check_ctx Caller (live ?e ?rep n)) with (@Ok unit tt, live e rep n).
  unfold closing, try_, mbind, M_bind. rewrite Hrun. unfold ValidateCBORResponse.
  cbn [StatusCode]. by destruct (Z.eqb_spec status CTAP2_OK) as [->|].
Qed.

(** ** Cancellation *)

(** Background, then a read that ends with the context's error. *)
Lemma receive_interrupted {A} cid (handle : Message -> result (option A)) bg c rest w :
  Forall (ignored cid handle) bg ->
  rx w = concat (wire <$> bg) ++ ReadError c :: rest ->
  receive cid handle w = (Err c, set_rx rest w).
Proof.
  intros Hbg Hrx. rewrite (receive_noise _ _ _ _ _ Hbg Hrx), receive_unfold.
  unfold mbind, M_bind, ReadFrom. cbn. by destruct w.
Qed.

(** A read that ends with the context's error inside a message drops the
    reports it had. *)
Lemma ReadFrom_loop_cut events : forall st st' k e rest,
  ReadFrom_loop st events = (Ok st', []) -> (k < length events)%nat ->
  ReadFrom_loop st (take k events ++ ReadError e :: rest) = (Err e, rest).
Proof.
  induction events as [|ev events IH]; intros st st' k e rest H Hk; cbn in Hk; [lia|].
  cbn [ReadFrom_loop] in H. destruct (Z.eqb_spec (total st) 0) as [|Ht]; [done|].
  destruct ev as [raw|e']; [|done]. destruct (read_packet st raw) as [st1|e'| |] eqn:Hp; [|done..].
  apply Z.eqb_neq in Ht. destruct k as [|k]; cbn [take app ReadFrom_loop]; rewrite Ht; [done|].
  rewrite Hp. apply (IH st1 st'); [done|lia].
Qed.

Lemma receive_cut {A} cid (handle : Message -> result (option A)) bg m cid' cmd data k c rest w :
  Forall (ignored cid handle) bg -> sent m cid' cmd data -> (k < length m)%nat ->
  rx w = concat (wire <$> bg) ++ take k (wire m) ++ ReadError c :: rest ->
  receive cid handle w = (Err c, set_rx rest w).
Proof.
  intros Hbg [Hcmd HN] Hk Hrx. rewrite (receive_noise _ _ _ _ _ Hbg Hrx), receive_unfold.
  unfold mbind, M_bind, ReadFrom at 1. cbn [rx set_rx].
  pose proof (ReadFrom_wire cid' cmd data m (set_rx (wire m) w) [] Hcmd HN) as Hw.
  rewrite app_nil_r in Hw. specialize (Hw eq_refl). unfold ReadFrom in Hw. cbn [rx set_rx] in Hw.
  destruct (ReadFrom_loop read_start (wire m)) as [[st'| | |] left] eqn:HR; try done.
  injection Hw as _ _ ->. rewrite (ReadFrom_loop_cut _ _ st'); [by destruct w|done|].
  unfold wire. by rewrite length_fmap.
Qed.

(** A continuation report alone is no message. *)
Lemma receive_continuation {A} cid (handle : Message -> result (option A)) m cid' cmd data k rest w :
  sent m cid' cmd data -> (0 < k < length m)%nat -> rx w = drop k (wire m) ++ rest ->
  receive cid handle w = (Err ErrInvalidResponseMessage, set_rx (drop (S k) (wire m) ++ rest) w).
Proof.
  intros [_ HN] Hk Hrx. destruct (lookup_lt_is_Some_2 m k) as [p Hp]; [lia|].
  assert (Hw : wire m !! k = Some (Report (packet_WriteTo p))).
  { unfold wire. by rewrite !list_lookup_fmap, Hp. }
  rewrite (drop_S _ _ _ Hw) in Hrx. rewrite receive_unfold. unfold mbind, M_bind, ReadFrom. rewrite Hrx.
  assert (Hr : read_packet read_start (packet_WriteTo p) = Err ErrInvalidResponseMessage).
  { pose proof (NewMessage_reports _ _ _ _ HN) as Hrep.
    apply (f_equal (fun l => l !! k)) in Hrep. unfold OutputReports in Hrep.
    rewrite !list_lookup_fmap, Hp, lookup_seq_lt in Hrep by lia. cbn in Hrep.
    injection Hrep as Hrep. destruct k as [|j]; [lia|].
    unfold read_packet. rewrite Hrep. cbn [cid_bytes app nth]. rewrite has_bit_sequence; [done|].
    pose proof (NewMessage_length _ _ _ _ HN). lia. }
  cbn [app ReadFrom_loop]. change (total read_start =? 0) with false. cbn match. by rewrite Hr.
Qed.

(** Any message of the channel but a keep-alive completes a request. *)
Lemma handle_CBOR_terminal m cid cmd answer command :
  sent m cid cmd answer -> cmd <> CTAPHID_KEEPALIVE ->
  exists r, handle_CBOR command m = Some <$> r /\
    match r with Ok _ => True | Err e => isDeviceIOError e = false | _ => False end.
Proof.
  intros Hs Hne. destruct (sent_head _ _ _ _ Hs) as (p & ps & -> & _ & Hc & _).
  unfold handle_CBOR. rewrite Hc.
  destruct (cmd =? CTAPHID_CBOR); [|destruct (cmd =? CTAPHID_ERROR)].
  - unfold ensureDataLen, ValidateCBORResponse.
    repeat case_match; cbn; first [by eexists (Ok _)|by eexists (Err _)].
  - unfold error_response, ensureDataLen. case_match; by eexists (Err _).
  - destruct (Z.eqb_spec cmd CTAPHID_KEEPALIVE); [done|]. by eexists (Err _).
Qed.

Definition cancel_report (cid : ChannelID) : list Z :=
  0 :: packet_WriteTo (Packet cid CTAPHID_CANCEL 0 0 [] false).

Lemma Cancel_writes cid w :
  writes_ok 1 w ->
  Cancel cid w = (Ok tt, after_writes [cancel_report cid] w).
Proof.
  intros Hw. unfold Cancel.
  by rewrite (request_then _ _ _ _ [Packet cid CTAPHID_CANCEL 0 0 [] false]).
Qed.

(** What the draining reads does not matter to the caller, so long as the
    device does not fail. *)
Definition drained {A} (r : result A) : Prop :=
  match r with Ok _ => True | Err e => trouble e = false | _ => False end.

Lemma drain_to cid command c r events rest reports cs n :
  (forall w, rx w = events -> readCBORResponse cid command w = (r, set_rx rest w)) -> drained r ->
  cancelAndDrainCBOR cid command c (Hid events [] reports cs n) =
    (Err c, Hid rest [] (reports ++ [cancel_report cid]) cs n).
Proof.
  intros Hread Hr. unfold cancelAndDrainCBOR.
  change (t_Cancel Uncancelable cid) with (closing (Cancel cid)).
  erewrite M_bind_Ok; [|by apply try_Ok, closing_Ok, Cancel_writes; constructor].
  unfold after_writes; cbn [rx wr tx ctxs closed drop length].
  specialize (Hread (Hid events [] (reports ++ [cancel_report cid]) cs n) eq_refl).
  destruct r as [a|e| |]; try done.
  - by rewrite (M_bind_Ok _ _ _ _ _ (try_Ok _ _ _ _ (closing_Ok _ _ _ _ Hread))).
  - apply orb_false_iff in Hr as [Hio Hi].
    rewrite (M_bind_Ok _ _ _ _ _ (try_Err _ _ _ _ (closing_Err _ _ _ _ Hread Hio))). by rewrite Hi.
Qed.

(** The whole cancelled request. *)
Lemma CBOR_cancelled cid data req c r events after rest reports cs n active :
  data <> [] -> NewMessage cid CTAPHID_CBOR data = Ok req -> context_error c ->
  (forall w, rx w = events -> readCBORResponse cid (nth 0 data 0) w = (Err c, set_rx after w)) ->
  (forall w, rx w = after -> readCBORResponse cid (nth 0 data 0) w = (r, set_rx rest w)) -> drained r ->
  t_CBOR data (MkTransport (Hid events [] reports ([None; None; Some c] ++ cs) n) cid active) =
    (Err c, MkTransport
      (Hid rest [] (reports ++ OutputReports req ++ [cancel_report cid]) cs n) cid false).
Proof.
  intros Hd Hreq Hc Hread Hdrain Hr. unfold t_CBOR. cbn [t_device t_cid].
  change (check_ctx Caller (Hid ?a ?b ?d ([None; None; Some c] ++ cs) n)) with
    (@Ok unit tt, Hid a b d (None :: Some c :: cs) n).
  assert (Hplain : is_busy c = false /\ isDeviceIOError c = false) by by destruct Hc as [->| ->].
  cbn beta iota. erewrite closing_Err; [done| |apply Hplain].
  apply retry_not_busy; [|apply Hplain]. set (w := Hid _ _ _ _ _).
  assert (Hw : t_writeCBOR cid data w =
    (Ok (nth 0 data 0), after_writes (OutputReports req) (set_ctxs (Some c :: cs) w))).
  { change (t_writeCBOR cid data w) with (writeCBOR cid data (set_ctxs (Some c :: cs) w)).
    apply writeCBOR_sent; [done|]. split; [done|]. unfold writes_ok. cbn. by rewrite take_nil. }
  unfold exchangeCBOR. rewrite (M_bind_Ok _ _ _ _ _ Hw).
  erewrite M_bind_Ok; [|apply try_Err; by apply Hread].
  unfold after_writes, set_rx, set_ctxs, w; cbn [rx wr tx ctxs closed].
  rewrite drop_nil. erewrite M_bind_Ok by done. cbn beta iota. rewrite errors_Is_refl.
  unfold set_ctxs; cbn [rx wr tx ctxs closed].
  erewrite drain_to by done. by rewrite <- (assoc_L (++)).
Qed.

(** A request that finds the rest of a message fails on it. *)
Lemma CBOR_refused cid data req m cmd answer k rest reports n :
  data <> [] -> NewMessage cid CTAPHID_CBOR data = Ok req -> sent m cid cmd answer -> (0 < k < length m)%nat ->
  t_CBOR data (MkTransport (live (drop k (wire m) ++ rest) reports n) cid false) =
    (Err ErrInvalidResponseMessage, MkTransport
      (live (drop (S k) (wire m) ++ rest) (reports ++ OutputReports req) n) cid false).
Proof.
  intros Hd Hreq Hm Hk. unfold t_CBOR. cbn [t_device t_cid]. set (w := live _ _ _).
  change (check_ctx Caller w) with (@Ok unit tt, w). cbn beta iota.
  assert (Hx : exchangeCBOR cid data w = (Err ErrInvalidResponseMessage,
      live (drop (S k) (wire m) ++ rest) (reports ++ OutputReports req) n)).
  { unfold exchangeCBOR. erewrite M_bind_Ok.
    2: { apply writeCBOR_sent; [done|]. split; [done|]. unfold writes_ok. cbn. by rewrite take_nil. }
    unfold readCBORResponse, try_, mbind, M_bind.
    erewrite (receive_continuation cid _ m cid cmd answer k rest); [|done..].
    unfold after_writes, live. cbn. by rewrite drop_nil. }
  by rewrite (closing_Err _ _ _ _ (retry_not_busy _ _ _ _ Hx eq_refl) eq_refl).
Qed.

Lemma Close_active cid events reports n :
  t_Close (MkTransport (Hid events [] reports [None] n) cid true) =
    (Ok tt, MkTransport (Hid events [] (reports ++ [cancel_report cid]) [] (S n)) cid true).
Proof.
  assert (H : t_Cancel Caller cid (Hid events [] reports [None] n) =
    (Ok tt, Hid events [] (reports ++ [cancel_report cid]) [] n)).
  { unfold t_Cancel. change (check_ctx Caller (Hid events [] reports [None] n))
      with (@Ok unit tt, Hid events [] reports [] n).
    erewrite M_bind_Ok by done. by apply closing_Ok, Cancel_writes; constructor. }
  unfold t_Close, on_device, ignore, mbind, M_bind. cbn [activeCBOR t_cid t_device].
  by rewrite (try_Ok _ _ _ _ H).
Qed.

(** C36. A context that ends while the answer is awaited, between two
    messages, sends one CTAPHID_CANCEL on the channel and then reads on,
    ignoring the context, through keep-alives and other channels' messages up
    to and including the message that completes the request: the caller gets
    the context's error, the device stays open and the channel is clean for
    the next request. If the context ends inside the answer the same is sent
    and returned, but the draining stops at the next report, which is no
    message by itself: the reports after it stay on the channel, and the next
    request fails on them with ErrInvalidResponseMessage. [Close] on a call
    that is still waiting sends the same CANCEL before it closes the device. *)
Theorem hid_cancel_drains cid data req bg c noise m cmd answer rest reports cs n active :
  data <> [] -> NewMessage cid CTAPHID_CBOR data = Ok req ->
  context_error c ->
  Forall (background cid) bg -> Forall (background cid) noise ->
  sent m cid cmd answer -> cmd <> CTAPHID_KEEPALIVE ->
  let run events := t_CBOR data (MkTransport (Hid events [] reports ([None; None; Some c] ++ cs) n) cid active) in
  let cancelled left := (Err c, MkTransport
      (Hid left [] (reports ++ OutputReports req ++ [cancel_report cid]) cs n) cid false) in
  run (concat (wire <$> bg) ++ ReadError c :: concat (wire <$> noise) ++ wire m ++ rest) = cancelled rest /\
  (forall k, (0 < k < length m)%nat ->
     run (concat (wire <$> bg) ++ take k (wire m) ++ ReadError c :: drop k (wire m) ++ rest) =
       cancelled (drop (S k) (wire m) ++ rest) /\
     ((S k < length m)%nat -> forall reports', t_CBOR data
         (MkTransport (live (drop (S k) (wire m) ++ rest) reports' n) cid false) =
       (Err ErrInvalidResponseMessage, MkTransport
         (live (drop (S (S k)) (wire m) ++ rest) (reports' ++ OutputReports req) n) cid false))) /\
  (forall events,
     t_Close (MkTransport (Hid events [] reports [None] n) cid true) =
       (Ok tt, MkTransport (Hid events [] (reports ++ [cancel_report cid]) [] (S n)) cid true)).
Proof.
  intros Hd Hreq Hc Hbg Hnoise Hm Hne run cancelled.
  pose proof (fun l H => Forall_impl _ _ l H (background_CBOR cid (nth 0 data 0))) as Hig.
  split; [|split; [|intros events; by apply Close_active]].
  - destruct (handle_CBOR_terminal m cid cmd answer (nth 0 data 0) Hm Hne) as (r & Hr & Hio).
    apply (CBOR_cancelled _ _ _ _ r _ (concat (wire <$> noise) ++ wire m ++ rest)); try done.
    + intros w Hw. by apply (receive_interrupted cid _ bg); [apply Hig|].
    + intros w Hw. by eapply receive_answer; [apply Hig|..].
    + destruct r as [|e| |]; try done. by destruct (handler_ok_CBOR (nth 0 data 0) m e Hr).
  - intros k Hk. split.
    + apply (CBOR_cancelled _ _ _ _ (Err ErrInvalidResponseMessage) _ (drop k (wire m) ++ rest)); try done.
      * intros w Hw. apply (receive_cut cid _ bg m cid cmd answer k); [by apply Hig|done|lia|exact Hw].
      * intros w Hw. by eapply receive_continuation.
    + intros Hk' reports'. eapply CBOR_refused; [done..|lia].
Qed.

(** *** Concrete runs *)

Definition sample_request : Message := encoded sample_cid CTAPHID_CBOR [4].
Definition sample_busy : list Message * Message :=
  (sample_noise, encoded sample_cid CTAPHID_ERROR [ERR_CHANNEL_BUSY]).

Lemma hid_busy_retried_witness :
  t_CBOR [4] (MkTransport
    (live (attempt_wire sample_busy ++ wire (encoded sample_cid CTAPHID_CBOR [0; 1])) [] 0)
    sample_cid false) =
  (Ok (MkCBORResponse 0 [1]),
   MkTransport (live [] (OutputReports sample_request ++ OutputReports sample_request) 0)
     sample_cid false).
Proof.
  apply (hid_busy_retried sample_cid [4] sample_request [sample_busy] []
    (encoded sample_cid CTAPHID_CBOR [0; 1]) 0 [1] [] [] 0 false).
  - discriminate.
  - reflexivity.
  - constructor; [split; [exact sample_noise_background|]|constructor].
    split; [unfold CTAPHID_ERROR; lia|reflexivity].
  - constructor.
  - split; [unfold CTAPHID_CBOR; lia|reflexivity].
  - constructor.
Defined.

(** The context ends before the answer, and after the first of the three
    reports of a longer one. *)
Definition sample_long : Message := encoded sample_cid CTAPHID_CBOR (0x2d :: zeros 130).

Lemma hid_cancel_drains_witness :
  let cancelled left := (Err context_Canceled : result CBORResponse,
    MkTransport (Hid left [] (OutputReports sample_request ++ [cancel_report sample_cid]) [] 0)
      sample_cid false) in
  t_CBOR [4] (MkTransport
    (Hid (ReadError context_Canceled :: wire (encoded sample_cid CTAPHID_CBOR [0x2d]))
       [] [] [None; None; Some context_Canceled] 0) sample_cid false) = cancelled [] /\
  t_CBOR [4] (MkTransport
    (Hid (take 1 (wire sample_long) ++ ReadError context_Canceled :: drop 1 (wire sample_long))
       [] [] [None; None; Some context_Canceled] 0) sample_cid false) = cancelled (drop 2 (wire sample_long)).
Proof.
  split.
  - destruct (hid_cancel_drains sample_cid [4] sample_request [] context_Canceled []
      (encoded sample_cid CTAPHID_CBOR [0x2d]) CTAPHID_CBOR [0x2d] [] [] [] 0 false) as [H _];
      [discriminate|reflexivity|left; reflexivity|constructor|constructor| |discriminate|exact H].
    split; [unfold CTAPHID_CBOR; lia|reflexivity].
  - destruct (hid_cancel_drains sample_cid [4] sample_request [] context_Canceled []
      sample_long CTAPHID_CBOR (0x2d :: zeros 130) [] [] [] 0 false) as (_ & H & _);
      [discriminate|reflexivity|left; reflexivity|constructor|constructor| |discriminate|].
    + split; [unfold CTAPHID_CBOR; lia|reflexivity].
    + destruct (H 1%nat) as [H1 _]; [vm_compute; lia|]. exact H1.
Defined.
