(* ===== verification/BleFraming.v ===== *)
(** * CTAP BLE fragmentation (src/transport/ctapble/framing.go)

    The encoder of frames into fragments and the assembler of response
    frames. *)
From S2P Require Import Prelude GoError.

(** ** Constants ([consts.go], [errors.go], [framing.go]) *)

Definition PING : Z := 0x81.
Definition KEEPALIVE : Z := 0x82.
Definition MSG : Z := 0x83.
Definition CANCEL : Z := 0xbe.
Definition ERROR : Z := 0xbf.
Definition ERR_BUSY : Z := 0x06.
Definition keepaliveDataLength : Z := 1.

Definition initializationFragmentHeaderLength : Z := 3.
Definition continuationFragmentHeaderLength : Z := 1.
Definition maximumFrameDataLength : Z := 0xffff.
Definition initializationFragmentBit : Z := 0x80.
Definition maximumSequence : Z := 0x7f.

Definition ErrDataTooLarge : error := ESentinel "ctapble: frame data too large".
Definition ErrInvalidFrame : error := ESentinel "ctapble: invalid frame".
Definition ErrUnexpectedStatus : error := ESentinel "ctapble: unexpected response status".

(** [errors.Join(ErrInvalidFrame, errors.New(text))]. *)
Definition invalid_frame (text : string) : error := EJoin ErrInvalidFrame (EText text).

(** ** Encoding *)

(** The loop over the rest of the data: one fragment per piece, the sequence
    number wrapping within seven bits. *)
Fixpoint continuation_fragments (sequence : Z) (pieces : list (list Z)) : list (list Z) :=
  match pieces with
  | [] => []
  | piece :: rest =>
      (sequence :: piece)
        :: continuation_fragments (Z.land (u8 (sequence + 1)) maximumSequence) rest
  end.

(** A control point shorter than the header makes the slice expressions
    panic. *)
Definition fragmentFrame (commandOrStatus : Z) (data : list Z) (maxLen : Z)
    : result (list (list Z)) :=
  if maximumFrameDataLength <? len data then Err ErrDataTooLarge
  else if maxLen <? initializationFragmentHeaderLength then Panic
  else
    let initializationDataLength :=
      Z.to_nat (Z.min (len data) (maxLen - initializationFragmentHeaderLength)) in
    Ok ((commandOrStatus :: put_be16 (u16 (len data)) ++ take initializationDataLength data)
          :: continuation_fragments 0
               (chunk (Z.to_nat (maxLen - continuationFragmentHeaderLength))
                      (drop initializationDataLength data))).

(** ** The assembler *)

Record responseFrame := ResponseFrame { status : Z; frame_data : list Z }.

#[export] Instance responseFrame_eq_dec : EqDecision responseFrame.
Proof. solve_decision. Defined.

Record assembler := Assembler {
  a_status : Z;
  dataLength : Z;
  a_data : list Z;
  a_sequence : Z;
  assembling : bool }.

Definition assembler_start : assembler := Assembler 0 0 [] 0 false.

Definition completeFrame (a : assembler) : responseFrame * assembler :=
  (ResponseFrame (a_status a) (a_data a),
   Assembler (a_status a) (dataLength a) [] (a_sequence a) (assembling a)).

(** A fragment taken by the assembler: its new state, and the frame it
    completed. *)
Definition initializationFragment (a : assembler) (fragment : list Z)
    : result (option responseFrame * assembler) :=
  if assembling a then Err (invalid_frame "initialization fragment interrupted frame")
  else if len fragment <? initializationFragmentHeaderLength
  then Err (invalid_frame "short initialization fragment")
  else
    let length := get_be16 (nth 1 fragment 0) (nth 2 fragment 0) in
    if length <? len fragment - initializationFragmentHeaderLength
    then Err (invalid_frame "initialization fragment exceeds declared data length")
    else
      let data := drop (Z.to_nat initializationFragmentHeaderLength) fragment in
      let a' := Assembler (nth 0 fragment 0) length data 0 (negb (len data =? length)) in
      if assembling a' then Ok (None, a')
      else let '(frame, a'') := completeFrame a' in Ok (Some frame, a'').

Definition continuationFragment (a : assembler) (fragment : list Z)
    : result (option responseFrame * assembler) :=
  if negb (assembling a)
  then Err (invalid_frame "continuation fragment without initialization fragment")
  else if negb (nth 0 fragment 0 =? a_sequence a) then Err (EMessage ErrInvalidFrame "sequence")
  else if dataLength a <? len (a_data a) + len fragment - continuationFragmentHeaderLength
  then Err (invalid_frame "continuation fragment exceeds declared data length")
  else
    let data := a_data a ++ drop (Z.to_nat continuationFragmentHeaderLength) fragment in
    let sequence := Z.land (u8 (a_sequence a + 1)) maximumSequence in
    let a' := Assembler (a_status a) (dataLength a) data sequence true in
    if negb (len data =? dataLength a) then Ok (None, a')
    else
      let '(frame, a'') :=
        completeFrame (Assembler (a_status a) (dataLength a) data sequence false) in
      Ok (Some frame, a'').

Definition addFragment (a : assembler) (fragment : list Z)
    : result (option responseFrame * assembler) :=
  match fragment with
  | [] => Err (invalid_frame "empty fragment")
  | b :: _ =>
      if has_bit b initializationFragmentBit then initializationFragment a fragment
      else continuationFragment a fragment
  end.

Definition decodeErrorCode (data : list Z) : result Z :=
  if negb (len data =? 1) then Err (invalid_frame "invalid encapsulation error length")
  else Ok (nth 0 data 0).

(** The reader's use of the assembler: fragments until a frame is complete,
    with the fragments that are left. *)
Fixpoint assemble (a : assembler) (fragments : list (list Z))
    : result (option responseFrame * assembler * list (list Z)) :=
  match fragments with
  | [] => Ok (None, a, [])
  | fragment :: rest =>
      addFragment a fragment ≫= fun '(frame, a') =>
      match frame with
      | Some f => Ok (Some f, a', rest)
      | None => assemble a' rest
      end
  end.

(** ** Fragments of a frame *)

Definition is_status (z : Z) : Prop := 0x80 <= z < 0x100.

Lemma has_bit_status z : is_status z -> has_bit z initializationFragmentBit = true.
Proof.
  intros Hz. unfold has_bit, initializationFragmentBit. apply negb_true_iff, Z.eqb_neq.
  intros H. apply (f_equal (fun z => Z.testbit z 7)) in H.
  rewrite Z.land_spec, Z.bits_0 in H. change (Z.testbit 0x80 7) with true in H.
  rewrite andb_true_r, Z.testbit_eqb in H by lia. change (2 ^ 7) with 128 in H.
  unfold is_status in Hz. replace (z / 128) with 1 in H; [done|].
  apply Z.div_unique with (z - 128); lia.
Qed.

Lemma has_bit_low z : 0 <= z < 128 -> has_bit z initializationFragmentBit = false.
Proof.
  intros. unfold has_bit, initializationFragmentBit. apply negb_false_iff, Z.eqb_eq.
  change 0x80 with (Z.shiftl 1 7). rewrite Z.land_comm. apply land_shiftl_low; lia.
Qed.

Lemma sequence_range z : 0 <= Z.land z maximumSequence < 128.
Proof. unfold maximumSequence. change 0x7f with (Z.ones 7). rewrite Z.land_ones by lia.
  apply Z.mod_pos_bound. lia. Qed.

(** The pieces that remain are assembled onto what is there. *)
Lemma assemble_continuations n (Hn : (0 < n)%nat) l : forall st L d s rest,
  l <> [] -> L = len d + len l -> 0 <= s < 128 ->
  exists s', assemble (Assembler st L d s true)
      (continuation_fragments s (chunk n l) ++ rest) =
    Ok (Some (ResponseFrame st (d ++ l)), Assembler st L [] s' false, rest).
Proof.
  induction l as [|l Hl IH] using (chunk_ind _ Hn); [done|].
  intros st L d s rest _ HL Hs. rewrite chunk_step by done.
  cbn [continuation_fragments app assemble]. cbn [addFragment].
  rewrite has_bit_low by done. unfold continuationFragment. cbn [assembling negb nth a_sequence].
  rewrite Z.eqb_refl. cbn [negb dataLength a_data]. rewrite len_cons, len_take.
  change continuationFragmentHeaderLength with 1. len_nonneg_all.
  destruct (Z.ltb_spec L (len d + (1 + Z.min (Z.of_nat n) (len l)) - 1)); [lia|].
  change (Z.to_nat 1) with 1%nat. cbn [drop skipn]. rewrite drop_0, len_app, len_take.
  destruct (Z.eqb_spec (len d + Z.min (Z.of_nat n) (len l)) L) as [He|He]; cbn [negb].
  - rewrite (drop_ge l) by (unfold len in *; lia). rewrite chunk_nil. cbn.
    eexists. rewrite take_ge by (unfold len in *; lia). done.
  - assert (Hd : drop n l <> []).
    { intros Hz. apply (f_equal len) in Hz. rewrite len_drop in Hz. change (len (@nil Z)) with 0 in Hz. lia. }
    cbn [mbind result_bind].
    destruct (IH st L (d ++ take n l)
      (Z.land (u8 (s + 1)) maximumSequence) rest) as [s' Hs'].
    + done.
    + rewrite len_app, len_take, len_drop. lia.
    + apply sequence_range.
    + exists s'. etrans; [exact Hs'|]. by rewrite <- (assoc_L (++)), take_drop.
Qed.

Lemma nth_0_cons {A} (x : A) l d : nth 0 (x :: l) d = x.
Proof. done. Qed.

(** A frame's fragments assemble to the frame. *)
Lemma assemble_fragments a0 st data maxLen frags rest :
  assembling a0 = false ->
  is_status st -> fragmentFrame st data maxLen = Ok frags ->
  exists a, assemble a0 (frags ++ rest) = Ok (Some (ResponseFrame st data), a, rest) /\
    assembling a = false.
Proof.
  intros Ha0 Hst. unfold fragmentFrame, maximumFrameDataLength, initializationFragmentHeaderLength,
    continuationFragmentHeaderLength.
  destruct (Z.ltb_spec 0xffff (len data)) as [|Hlen]; [done|].
  destruct (Z.ltb_spec maxLen 3) as [|Hmax]; [done|]. intros [= <-].
  set (k := Z.to_nat (Z.min (len data) (maxLen - 3))).
  pose proof (len_nonneg data) as Hpos.
  cbn [app assemble]. unfold addFragment. rewrite has_bit_status by done.
  unfold initializationFragment. rewrite Ha0.
  unfold initializationFragmentHeaderLength. change (Z.to_nat 3) with 3%nat.
  cbn [put_be16 app]. rewrite !len_cons, len_take.
  cbn [nth drop skipn]. rewrite get_put_be16, drop_0, !(u16_id (len data)) by lia.
  destruct (Z.ltb_spec (1 + (1 + (1 + Z.min (Z.of_nat k) (len data)))) 3); [lia|].
  destruct (Z.ltb_spec (len data) (1 + (1 + (1 + Z.min (Z.of_nat k) (len data))) - 3)); [lia|].
  cbn [assembling]. rewrite len_take.
  destruct (Z.eqb_spec (Z.min (Z.of_nat k) (len data)) (len data)) as [He|He]; cbn [negb].
  - rewrite (drop_ge data) by (unfold len in *; lia). rewrite chunk_nil. cbn.
    rewrite take_ge by (unfold len in *; lia). by eexists.
  - cbn [mbind result_bind].
    destruct (assemble_continuations (Z.to_nat (maxLen - 1)) ltac:(lia) (drop k data) st
      (len data) (take k data) 0 rest) as [s' Hs'].
    + intros Hz. apply (f_equal len) in Hz. rewrite len_drop in Hz.
      change (len (@nil Z)) with 0 in Hz. lia.
    + rewrite len_take, len_drop. lia.
    + lia.
    + eexists. split; [etrans; [exact Hs'|]|]; by rewrite ?take_drop.
Qed.

Lemma len_continuation_fragments n pieces : forall s,
  Forall (fun p => (length p <= n)%nat) pieces ->
  Forall (fun f => 1 <= len f <= 1 + Z.of_nat n) (continuation_fragments s pieces).
Proof.
  induction pieces as [|p pieces IH]; intros s Hp; cbn [continuation_fragments]; [constructor|].
  apply Forall_cons in Hp as [Hp Hps]. constructor; [|by apply IH].
  rewrite len_cons. unfold len. lia.
Qed.

(** What an assembler in the middle of a frame accepts. *)
Lemma assemble_continuing frags : forall st L d s f a rest,
  0 <= s < 128 ->
  assemble (Assembler st L d s true) frags = Ok (Some f, a, rest) ->
  exists pieces, frags = continuation_fragments s pieces ++ rest /\
    f = ResponseFrame st (d ++ concat pieces) /\ len (d ++ concat pieces) = L /\
    assembling a = false.
Proof.
  induction frags as [|frag frags IH]; intros st L d s f a rest Hs H; [done|].
  cbn [assemble] in H. destruct frag as [|b frag]; [done|]. cbn [addFragment] in H.
  destruct (has_bit b initializationFragmentBit); [done|].
  unfold continuationFragment in H. cbn [assembling negb nth a_sequence] in H.
  destruct (Z.eqb_spec b s) as [->|]; cbn [negb] in H; [|done].
  cbn [dataLength a_data a_status] in H.
  destruct (L <? _); [done|].
  change (Z.to_nat continuationFragmentHeaderLength) with 1%nat in H.
  cbn [drop skipn] in H. rewrite drop_0 in H.
  destruct (Z.eqb_spec (len (d ++ frag)) L) as [He|He]; cbn [negb] in H.
  - cbn in H. simplify_eq. exists [frag]. cbn. rewrite app_nil_r. by split_and!.
  - cbn [mbind result_bind] in H.
    apply IH in H as (pieces & -> & -> & HL & Ha); [|apply sequence_range].
    exists (frag :: pieces). cbn. rewrite (assoc_L (++)). by split_and!.
Qed.

(** ** Properties *)

(** C37. A frame of at most 65535 bytes is cut, for every control-point length
    of at least three, into non-empty fragments no longer than that length,
    and the response assembler puts exactly the frame together from them,
    taking none of the notifications that follow; a longer frame is
    refused. Sequence numbers wrap after 0x7f. *)
Theorem ble_framing_roundtrip st data maxLen rest :
  is_status st -> initializationFragmentHeaderLength <= maxLen ->
  (maximumFrameDataLength < len data -> fragmentFrame st data maxLen = Err ErrDataTooLarge) /\
  (len data <= maximumFrameDataLength -> exists frags a,
     fragmentFrame st data maxLen = Ok frags /\
     Forall (fun f => 1 <= len f <= maxLen) frags /\
     assemble assembler_start (frags ++ rest) = Ok (Some (ResponseFrame st data), a, rest) /\
     assembling a = false).
Proof.
  intros Hst Hmax. unfold fragmentFrame at 1. split.
  { intros H. by destruct (Z.ltb_spec maximumFrameDataLength (len data)); [|lia]. }
  intros Hlen.
  assert (exists frags, fragmentFrame st data maxLen = Ok frags) as [frags Hf].
  { unfold fragmentFrame. destruct (Z.ltb_spec maximumFrameDataLength (len data)); [lia|].
    destruct (Z.ltb_spec maxLen initializationFragmentHeaderLength); [lia|]. eauto. }
  destruct (assemble_fragments assembler_start st data maxLen frags rest eq_refl Hst Hf) as (a & Ha & Has).
  exists frags, a. split; [done|]. split; [|done].
  unfold fragmentFrame in Hf. unfold initializationFragmentHeaderLength,
    continuationFragmentHeaderLength in *.
  destruct (maximumFrameDataLength <? len data); [done|].
  destruct (Z.ltb_spec maxLen 3); [done|]. simplify_eq. len_nonneg_all. constructor.
  - cbn [put_be16 app]. rewrite !len_cons, len_take. lia.
  - eapply Forall_impl; [apply (len_continuation_fragments (Z.to_nat (maxLen - 1)))|].
    + eapply Forall_impl; [apply chunk_bounds; lia|]. by intros ? [_ ?].
    + cbn. lia.
Qed.

(** Whatever notifications arrive, a frame the assembler delivers is one
    initialization fragment followed by continuation fragments numbered from
    zero in order, its data is exactly what they carry, and its length is
    the length the first one declares. *)
Theorem ble_assembler_sound frags f a rest :
  Forall (Forall is_byte) frags ->
  assemble assembler_start frags = Ok (Some f, a, rest) ->
  exists hi lo d0 pieces,
    frags = (status f :: hi :: lo :: d0) :: continuation_fragments 0 pieces ++ rest /\
    has_bit (status f) initializationFragmentBit = true /\
    frame_data f = d0 ++ concat pieces /\
    len (frame_data f) = get_be16 hi lo /\ len (frame_data f) <= maximumFrameDataLength /\
    assembling a = false.
Proof.
  intros Hbytes H. destruct frags as [|frag frags]; [done|].
  cbn [assemble] in H. destruct frag as [|b frag]; [done|]. cbn [addFragment] in H.
  destruct (has_bit b initializationFragmentBit) eqn:Hb; [|done].
  unfold initializationFragment in H. cbn [assembling assembler_start] in H.
  unfold initializationFragmentHeaderLength in H.
  destruct frag as [|hi [|lo d0]]; [done|done|].
  destruct (_ <? 3); [done|]. destruct (_ <? len _ - 3); [done|].
  change (Z.to_nat 3) with 3%nat in H. cbn [nth drop skipn] in H. rewrite drop_0 in H.
  apply Forall_cons in Hbytes as [Hfrag _].
  apply Forall_cons in Hfrag as [_ Hfrag]. apply Forall_cons in Hfrag as [Hhi Hfrag].
  apply Forall_cons in Hfrag as [Hlo _].
  pose proof (get_be16_range hi lo Hhi Hlo) as Hrange. unfold maximumFrameDataLength.
  cbn [assembling] in H. destruct (Z.eqb_spec (len d0) (get_be16 hi lo)) as [He|He]; cbn [negb] in H.
  - cbn in H. simplify_eq. exists hi, lo, d0, []. cbn. rewrite app_nil_r. split_and!; try done; lia.
  - cbn [mbind result_bind] in H.
    apply assemble_continuing in H as (pieces & -> & -> & HL & Ha); [|lia].
    exists hi, lo, d0, pieces. cbn [status frame_data]. split_and!; try done; lia.
Qed.

(** *** A concrete frame *)

Lemma ble_framing_roundtrip_witness :
  exists frags a,
    fragmentFrame MSG (zeros 40) 20 = Ok frags /\ length frags = 3%nat /\
    assemble assembler_start (frags ++ [[KEEPALIVE; 0; 1; 1]]) =
      Ok (Some (ResponseFrame MSG (zeros 40)), a, [[KEEPALIVE; 0; 1; 1]]).
Proof.
  destruct (ble_framing_roundtrip MSG (zeros 40) 20 [[KEEPALIVE; 0; 1; 1]]) as [_ H].
  - unfold is_status, MSG. lia.
  - unfold initializationFragmentHeaderLength. lia.
  - destruct H as (frags & a & Hf & _ & Ha & _); [vm_compute; discriminate|].
    exists frags, a. split; [exact Hf|]. split; [|exact Ha].
    vm_compute in Hf. injection Hf as <-. reflexivity.
Defined.

Lemma ble_assembler_sound_witness :
  exists hi lo d0 pieces,
    [[MSG; 0; 3; 1]; [0; 2; 3]; [0x82]] =
      (MSG :: hi :: lo :: d0) :: continuation_fragments 0 pieces ++ [[0x82]] /\
    [1; 2; 3] = d0 ++ concat pieces.
Proof.
  destruct (ble_assembler_sound [[MSG; 0; 3; 1]; [0; 2; 3]; [0x82]]
    (ResponseFrame MSG [1; 2; 3]) (Assembler MSG 3 [] 1 false) [[0x82]])
    as (hi & lo & d0 & pieces & H1 & _ & H2 & _).
  - repeat constructor; vm_compute; discriminate.
  - reflexivity.
  - exists hi, lo, d0, pieces. split; [exact H1 | exact H2].
Defined.
