(* ===== verification/BleTransport.v ===== *)
(** * The CTAP BLE transport (src/transport/ctapble/transport.go)

    Opening, exchanges with busy retries and cancellation, and closing. *)
From S2P Require Import Prelude GoError Transport BleFraming.

(** ** Opening: GATT discovery and negotiation *)

Definition fido2RevisionBit : Z := 0x20.
Definition fidoControlPointLengthSize : Z := 2.
Definition minFIDOControlPointLength : Z := 20.
Definition maxFIDOControlPointLength : Z := 512.

Definition ErrFIDOServiceNotFound : error :=
  ESentinel "ctapble: primary FIDO service not found".
Definition ErrFIDOCharacteristicNotFound : error :=
  ESentinel "ctapble: required FIDO characteristic not found".
Definition ErrInvalidCharacteristicProperties : error :=
  ESentinel "ctapble: invalid characteristic properties".
Definition ErrFIDO2Unsupported : error := ESentinel "ctapble: FIDO2 BLE revision is unsupported".
Definition ErrInvalidFIDOControlPointLength : error :=
  ESentinel "ctapble: invalid fidoControlPointLength".

Definition ioError (operation : IOOperation) (e : error) : error := EIO operation e.

(** UUIDs as byte strings; the property masks of the BLE library are
    parameters of [Open]. *)
Definition fidoServiceUUID16 : Z := 0xfffd.
Definition fido_uuid (n : Z) : list Z :=
  [0xf1; 0xd0; 0xff; n; 0xde; 0xaa; 0xec; 0xee; 0xb4; 0x2f; 0xc9; 0xba; 0x7e; 0xd6; 0x23; 0xbb].

Record service := Service {
  service_primary : bool;
  service_uuid : list Z;
  (* what DiscoverCharacteristics returns: UUIDs and properties *)
  service_characteristics : result (list (list Z * Z)) }.

(** What a peripheral answers to the operations of [Open]; its writes are
    recorded by [Open] itself. *)
Record gatt := Gatt {
  gatt_services : result (list service);
  gatt_revision : result (list Z);
  gatt_select : option error;
  gatt_length : result (list Z);
  gatt_subscribe : option error }.

(** A Go map filled from a list: the last entry of a key wins. *)
Definition by_uuid (characteristics : list (list Z * Z)) (uuid : list Z) : option Z :=
  snd <$> last (filter (fun c => c.1 = uuid) characteristics).

Definition requireCharacteristic (characteristics : list (list Z * Z)) (uuid : list Z)
    (properties : Z) : result unit :=
  match by_uuid characteristics uuid with
  | None => Err (EMessage ErrFIDOCharacteristicNotFound "uuid")
  | Some p =>
      if negb (Z.land p properties =? properties)
      then Err (EMessage ErrInvalidCharacteristicProperties "uuid")
      else Ok tt
  end.

Definition io_result {A} (operation : IOOperation) (r : result A) : result A :=
  match r with Err e => Err (ioError operation e) | _ => r end.

Section Open.
Context (fidoServiceUUID : list Z).
Context (PropertyWrite PropertyNotify PropertyRead : Z).

(** The control-point length [Open] negotiates. *)
Definition Open (g : gatt) : result Z :=
  io_result IORead (gatt_services g) ≫= fun services =>
  match find (fun s => service_primary s && bool_decide (service_uuid s = fidoServiceUUID))
          services with
  | None => Err ErrFIDOServiceNotFound
  | Some fidoService =>
      io_result IORead (service_characteristics fidoService) ≫= fun characteristics =>
      requireCharacteristic characteristics (fido_uuid 0xf1) PropertyWrite ≫= fun _ =>
      requireCharacteristic characteristics (fido_uuid 0xf2) PropertyNotify ≫= fun _ =>
      requireCharacteristic characteristics (fido_uuid 0xf3) PropertyRead ≫= fun _ =>
      requireCharacteristic characteristics (fido_uuid 0xf4)
        (Z.lor PropertyRead PropertyWrite) ≫= fun _ =>
      io_result IORead (gatt_revision g) ≫= fun revision =>
      if (len revision =? 0) || negb (has_bit (nth 0 revision 0) fido2RevisionBit)
      then Err ErrFIDO2Unsupported
      else match gatt_select g with
      | Some e => Err (ioError IOWrite e)
      | None =>
          io_result IORead (gatt_length g) ≫= fun value =>
          if negb (len value =? fidoControlPointLengthSize)
          then Err ErrInvalidFIDOControlPointLength
          else
            let length := get_be16 (nth 0 value 0) (nth 1 value 0) in
            if (length <? minFIDOControlPointLength) || (maxFIDOControlPointLength <? length)
            then Err ErrInvalidFIDOControlPointLength
            else match gatt_subscribe g with
            | Some e => Err (ioError IORead e)
            | None => Ok length
            end
      end
  end.
End Open.

(** A connection opens only with a control point every request fits. *)
Lemma Open_length U Wr No Rd g n :
  Open U Wr No Rd g = Ok n -> minFIDOControlPointLength <= n <= maxFIDOControlPointLength.
Proof.
  unfold Open. destruct (io_result IORead (gatt_services g)) as [services| | |]; try done. cbn.
  destruct (find _ services) as [s|]; [|done].
  destruct (io_result IORead (service_characteristics s)) as [cs| | |]; try done. cbn.
  repeat (destruct (requireCharacteristic cs _ _) as [[]| | |]; try done; cbn).
  destruct (io_result IORead (gatt_revision g)) as [rev| | |]; try done. cbn.
  destruct (_ || _); [done|]. destruct (gatt_select g); [done|].
  destruct (io_result IORead (gatt_length g)) as [v| | |]; try done. cbn.
  destruct (negb _); [done|]. destruct (_ || _) eqn:E; [done|].
  destruct (gatt_subscribe g); [done|]. intros [= <-]. to_prop. lia.
Qed.

(** ** The connection

    [notifications]: what the exchange waits for, in the order it happens:
    a value of the status characteristic, the end of the notification
    channel (with the error its [Close] then returns) or of the connection,
    or the end of the context in force. [looks]: what the next looks at a
    context meet (its error, or nothing listed: still live), whether in
    [ctx.Err()], at the write gate, or in the wait between retries. *)
Inductive ble_event :=
  | Notification (value : list Z)
  | ListenClosed (e : option error)
  | ContextDone (e : error).

Inductive handle := Peripheral | Notifications.

Record ble := Ble {
  notifications : list ble_event;
  looks : list (option error);
  writes : list (option error);
  tx : list (list Z);
  fidoControlPointLength : Z;
  activeMSG : bool;
  closed : bool;                     (* closeOnce has run *)
  closeErr : option error;
  teardown : list handle;            (* the Close calls made, in order *)
  peripheral_close : option error;   (* what those calls return *)
  notifications_close : option error }.

Definition set_notifications (ev : list ble_event) (w : ble) : ble :=
  Ble ev (looks w) (writes w) (tx w) (fidoControlPointLength w) (activeMSG w)
    (closed w) (closeErr w) (teardown w) (peripheral_close w) (notifications_close w).
Definition set_looks (l : list (option error)) (w : ble) : ble :=
  Ble (notifications w) l (writes w) (tx w) (fidoControlPointLength w) (activeMSG w)
    (closed w) (closeErr w) (teardown w) (peripheral_close w) (notifications_close w).
Definition set_active (b : bool) (w : ble) : ble :=
  Ble (notifications w) (looks w) (writes w) (tx w) (fidoControlPointLength w) b
    (closed w) (closeErr w) (teardown w) (peripheral_close w) (notifications_close w).

Definition look : M ble (option error) := fun w =>
  match looks w with [] => (Ok None, w) | c :: rest => (Ok c, set_looks rest w) end.

Definition check_ctx : M ble unit :=
  look ≫= fun c => match c with Some e => fail e | None => mret tt end.

(** One write of the control point. *)
Definition control_point_Write (fragment : list Z) : M ble unit := fun w =>
  let next ws t :=
    Ble (notifications w) (looks w) ws t (fidoControlPointLength w) (activeMSG w)
      (closed w) (closeErr w) (teardown w) (peripheral_close w) (notifications_close w) in
  match writes w with
  | Some e :: ws => (Err (ioError IOWrite e), next ws (tx w))
  | None :: ws => (Ok tt, next ws (tx w ++ [fragment]))
  | [] => (Ok tt, next [] (tx w ++ [fragment]))
  end.

Fixpoint write_fragments (fragments : list (list Z)) : M ble unit :=
  match fragments with
  | [] => mret tt
  | fragment :: rest => control_point_Write fragment ≫= fun _ => write_fragments rest
  end.

Definition writeRequest (command : Z) (data : list Z) : M ble unit := fun w =>
  (lift (fragmentFrame command data (fidoControlPointLength w)) ≫= fun fragments =>
   look ≫= fun gate =>
   match gate with
   | Some e => fail (ioError IOWrite e)
   | None => write_fragments fragments
   end) w.

Definition cancel : M ble unit := writeRequest CANCEL [].

(** ** Closing *)

Definition wrapClose (e : option error) : option error := ioError IOClose <$> e.

Definition isDeviceIOError (e : error) : bool :=
  match errors_As as_IOError e with
  | Some (IORead, _) | Some (IOWrite, _) => true
  | _ => false
  end.

Definition set_closed (order : list handle) (e : option error) (w : ble) : ble :=
  Ble (notifications w) (looks w) (writes w) (tx w) (fidoControlPointLength w)
    (activeMSG w) true e (teardown w ++ order) (peripheral_close w) (notifications_close w).

(** The body of [closeOnce.Do]. *)
Definition close_body : M ble unit :=
  (get ≫= fun w => if activeMSG w then try_ cancel else mret (inl tt)) ≫= fun cancelled =>
  modify (fun w =>
    match cancelled with
    | inr _ =>
        set_closed [Peripheral; Notifications]
          (errors_Join (wrapClose (peripheral_close w)) (wrapClose (notifications_close w))) w
    | inl _ =>
        set_closed [Notifications; Peripheral]
          (errors_Join (wrapClose (notifications_close w)) (wrapClose (peripheral_close w))) w
    end).

Definition Close : M ble (option error) :=
  get ≫= fun w =>
  (if closed w then mret tt else close_body) ≫= fun _ =>
  get ≫= fun w' => mret (closeErr w').

Definition closeOnIOError {A} (e : error) : M ble A :=
  if negb (isDeviceIOError e) then fail e
  else Close ≫= fun _ => fail (EInvalidated e).

(** ** Exchanges *)

Inductive read_outcome :=
  | Finished (r : result responseFrame)
  | Interrupted (e : error) (a : assembler).

(** [readResponse], with the point at which the context in force ends: the
    reading goroutine keeps its assembler and is resumed by the drain. *)
Fixpoint readResponse (command : Z) (a : assembler) (events : list ble_event)
    : read_outcome * list ble_event :=
  match events with
  | [] => (Finished Blocked, [])
  | ContextDone e :: rest => (Interrupted e a, rest)
  | ListenClosed e :: rest => (Finished (Err (ioError IORead (default io_EOF e))), rest)
  | Notification fragment :: rest =>
      match addFragment a fragment with
      | Err e => (Finished (Err e), rest)
      | Panic => (Finished Panic, rest)
      | Blocked => (Finished Blocked, rest)
      | Ok (None, a') => readResponse command a' rest
      | Ok (Some response, a') =>
          if status response =? KEEPALIVE then
            if negb (len (frame_data response) =? keepaliveDataLength)
            then (Finished (Err ErrInvalidFrame), rest)
            else readResponse command a' rest
          else if status response =? ERROR then
            (Finished (decodeErrorCode (frame_data response) ≫= fun code =>
                       Err (EBLEResponse code)), rest)
          else if status response =? command then (Finished (Ok response), rest)
          else (Finished (Err (EMessage ErrUnexpectedStatus "status")), rest)
      end
  end.

Definition read_response (command : Z) (a : assembler) : M ble read_outcome := fun w =>
  match readResponse command a (notifications w) with
  | (outcome, rest) => (Ok outcome, set_notifications rest w)
  end.

Definition cancelAndDrain (command : Z) (originalErr : error) (a : assembler)
    : M ble responseFrame :=
  try_ cancel ≫= fun cancelled =>
  match cancelled with
  | inr _ => Close ≫= fun _ => fail (EInvalidated originalErr)
  | inl _ =>
      read_response command a ≫= fun outcome =>
      match outcome with
      | Finished (Err e) =>
          if isDeviceIOError e then Close ≫= fun _ => fail (EInvalidated originalErr)
          else fail originalErr
      | Finished (Ok _) => fail originalErr
      | Finished Panic => panic
      | Finished Blocked => blocked
      | Interrupted _ _ => Close ≫= fun _ => fail (EInvalidated originalErr)
      end
  end.

Definition exchange (command : Z) (data : list Z) : M ble responseFrame :=
  writeRequest command data ≫= fun _ =>
  read_response command assembler_start ≫= fun outcome =>
  match outcome with
  | Finished r => lift r
  | Interrupted e a =>
      if negb (command =? MSG) then Close ≫= fun _ => fail (EInvalidated e)
      else cancelAndDrain command e a
  end.

Definition is_busy (e : error) : bool :=
  match errors_As as_BLEResponse e with Some code => code =? ERR_BUSY | None => false end.

Fixpoint retry_loop {A} (fuel : nat) (operation : M ble A) : M ble A :=
  match fuel with
  | O => blocked
  | S fuel' =>
      try_ operation ≫= fun r =>
      match r with
      | inl a => mret a
      | inr e =>
          if negb (is_busy e) then fail e
          else check_ctx ≫= fun _ => retry_loop fuel' operation
      end
  end.

Definition retryBusy {A} (operation : M ble A) : M ble A :=
  fun w => retry_loop (S (length (notifications w))) operation w.

Definition closing {A} (m : M ble A) : M ble A :=
  try_ m ≫= fun r => match r with inl a => mret a | inr e => closeOnIOError e end.

(** The part of [CBOR] under the active mark, which is cleared on return. *)
Definition active {A} (m : M ble A) : M ble A := fun w =>
  match m (set_active true w) with
  | (Blocked, w') => (Blocked, w')
  | (r, w') => (r, set_active false w')
  end.

Definition CBOR (data : list Z) : M ble CBORResponse :=
  check_ctx ≫= fun _ =>
  if len data =? 0 then fail (EText "ctapble: empty CBOR request")
  else
    active (
      closing (retryBusy (exchange MSG data)) ≫= fun response =>
      if len (frame_data response) =? 0 then fail ErrInvalidFrame
      else lift (ValidateCBORResponse (nth 0 data 0) (response_of (frame_data response)))).

Definition Ping (data : list Z) : M ble (list Z) :=
  check_ctx ≫= fun _ =>
  closing (retryBusy (exchange PING data)) ≫= fun response => mret (frame_data response).

(** ** Reading frames *)

(** What the loop of [readResponse] does with a complete frame. *)
Definition on_frame (command : Z) (response : responseFrame) : option (result responseFrame) :=
  if status response =? KEEPALIVE then
    if negb (len (frame_data response) =? keepaliveDataLength)
    then Some (Err ErrInvalidFrame) else None
  else if status response =? ERROR then
    Some (decodeErrorCode (frame_data response) ≫= fun code => Err (EBLEResponse code))
  else if status response =? command then Some (Ok response)
  else Some (Err (EMessage ErrUnexpectedStatus "status")).

Lemma readResponse_assemble command frags : forall a f a' rest,
  assemble a frags = Ok (Some f, a', []) ->
  readResponse command a ((Notification <$> frags) ++ rest) =
    match on_frame command f with
    | Some r => (Finished r, rest)
    | None => readResponse command a' rest
    end.
Proof.
  induction frags as [|frag frags IH]; intros a f a' rest H; [done|].
  cbn [assemble] in H. cbn [fmap list_fmap app readResponse].
  destruct (addFragment a frag) as [[[f0|] a0]| | |]; cbn in H; simplify_eq; [|by apply IH].
  unfold on_frame. by repeat case_match.
Qed.

(** A frame on the air, however the sender fragments it. *)
Definition on_air (st : Z) (data : list Z) (events : list ble_event) : Prop :=
  is_status st /\
  exists maxLen frags, fragmentFrame st data maxLen = Ok frags /\
    events = Notification <$> frags.

Lemma readResponse_frame command a st data ev rest :
  assembling a = false -> on_air st data ev ->
  exists a', assembling a' = false /\
    readResponse command a (ev ++ rest) =
      match on_frame command (ResponseFrame st data) with
      | Some r => (Finished r, rest)
      | None => readResponse command a' rest
      end.
Proof.
  intros Ha (Hst & maxLen & frags & Hf & ->).
  destruct (assemble_fragments a st data maxLen frags [] Ha Hst Hf) as (a' & H & Ha').
  rewrite app_nil_r in H. exists a'. split; [done|]. by apply readResponse_assemble.
Qed.

(** Keep-alive frames, one status byte each. *)
Definition keepalives (events : list ble_event) : Prop :=
  exists frames, Forall (fun ev => exists b, on_air KEEPALIVE [b] ev) frames /\
    events = concat frames.

Lemma readResponse_keepalives command frames : forall a rest,
  assembling a = false ->
  Forall (fun ev => exists b, on_air KEEPALIVE [b] ev) frames ->
  exists a', assembling a' = false /\
    readResponse command a (concat frames ++ rest) = readResponse command a' rest.
Proof.
  induction frames as [|ev frames IH]; intros a rest Ha Hf; [by exists a|].
  apply Forall_cons in Hf as [[b Hev] Hf]. cbn [concat]. rewrite <- (assoc_L (++)).
  destruct (readResponse_frame command a KEEPALIVE [b] ev (concat frames ++ rest) Ha Hev)
    as (a1 & Ha1 & ->). by apply IH.
Qed.

(** Keep-alives, then the frame that ends the exchange. *)
Lemma readResponse_answer command a ka st data ev rest r :
  assembling a = false -> keepalives ka -> on_air st data ev ->
  on_frame command (ResponseFrame st data) = Some r ->
  readResponse command a (ka ++ ev ++ rest) = (Finished r, rest).
Proof.
  intros Ha (frames & Hf & ->) Hev Hr.
  destruct (readResponse_keepalives command frames a (ev ++ rest) Ha Hf) as (a1 & Ha1 & ->).
  destruct (readResponse_frame command a1 st data ev rest Ha1 Hev) as (a2 & _ & ->).
  by rewrite Hr.
Qed.

(** ** Exchanges on a live connection *)

(** A connection that takes every write under contexts that stay live. *)
Definition live (events : list ble_event) (sent : list (list Z)) (maxLen : Z) (act : bool) : ble :=
  Ble events [] [] sent maxLen act false None [] None None.

Lemma write_fragments_live frags events maxLen act : forall sent,
  write_fragments frags (live events sent maxLen act) =
    (Ok tt, live events (sent ++ frags) maxLen act).
Proof.
  induction frags as [|f frags IH]; intros sent; cbn [write_fragments].
  - by rewrite app_nil_r.
  - assert (Hw : control_point_Write f (live events sent maxLen act) =
      (Ok tt, live events (sent ++ [f]) maxLen act)) by done.
    rewrite (M_bind_Ok _ _ _ _ _ Hw), IH. by rewrite <- (assoc_L (++)).
Qed.

Lemma writeRequest_live command data frags events sent maxLen act :
  fragmentFrame command data maxLen = Ok frags ->
  writeRequest command data (live events sent maxLen act) =
    (Ok tt, live events (sent ++ frags) maxLen act).
Proof.
  intros Hf. unfold writeRequest. cbn [fidoControlPointLength live]. rewrite Hf.
  unfold mbind, M_bind. cbn. apply write_fragments_live.
Qed.

Lemma ble_exchange_live command data frags ka st answer ev rest r sent maxLen act :
  fragmentFrame command data maxLen = Ok frags ->
  keepalives ka -> on_air st answer ev ->
  on_frame command (ResponseFrame st answer) = Some r ->
  exchange command data (live (ka ++ ev ++ rest) sent maxLen act) =
    (r, live rest (sent ++ frags) maxLen act).
Proof.
  intros Hf Hka Hev Hr. unfold exchange.
  rewrite (M_bind_Ok _ _ _ _ _ (writeRequest_live _ _ _ _ _ _ _ Hf)).
  unfold mbind, M_bind, read_response. cbn [notifications live].
  by rewrite (readResponse_answer _ assembler_start _ _ _ _ _ _ eq_refl Hka Hev Hr).
Qed.

(** One refused attempt: keep-alives, then ERR_BUSY. *)
Definition refusal (events : list ble_event) : Prop :=
  exists ka ev, keepalives ka /\ on_air ERROR [ERR_BUSY] ev /\ events = ka ++ ev.

Lemma on_air_nonempty st data ev : on_air st data ev -> (1 <= length ev)%nat.
Proof.
  intros (_ & maxLen & frags & Hf & ->). rewrite length_fmap. unfold fragmentFrame in Hf.
  case_all Hf. cbn. lia.
Qed.

Lemma retry_live command data frags attempts ka st answer ev rest r maxLen act :
  fragmentFrame command data maxLen = Ok frags ->
  Forall refusal attempts -> keepalives ka -> on_air st answer ev ->
  on_frame command (ResponseFrame st answer) = Some r ->
  match r with Err e => is_busy e = false | Ok _ => True | _ => False end ->
  forall fuel sent, (length attempts < fuel)%nat ->
  retry_loop fuel (exchange command data)
    (live (concat attempts ++ ka ++ ev ++ rest) sent maxLen act) =
  (r, live rest (sent ++ concat (replicate (S (length attempts)) frags)) maxLen act).
Proof.
  intros Hf Hatt Hka Hev Hr Hnb. induction Hatt as [|at_ attempts Ha Hatt IH];
    intros [|fuel] sent Hfuel; try (cbn in Hfuel; lia); cbn [retry_loop].
  - pose proof (ble_exchange_live _ _ _ _ _ _ _ rest _ sent maxLen act Hf Hka Hev Hr) as Hx.
    cbn [concat app length replicate]. rewrite app_nil_r. destruct r as [f|e| |]; [| |done|done].
    + by rewrite (M_bind_Ok _ _ _ _ _ (try_Ok _ _ _ _ Hx)).
    + rewrite (M_bind_Ok _ _ _ _ _ (try_Err _ _ _ _ Hx)). by rewrite Hnb.
  - destruct Ha as (ka' & ev' & Hka' & Hev' & ->). cbn [concat]. rewrite <- !(assoc_L (++)).
    erewrite M_bind_Ok; [|by apply try_Err; eapply (ble_exchange_live command data frags ka' ERROR [ERR_BUSY])].
    cbn [frame_data nth]. change (negb (is_busy (EBLEResponse ERR_BUSY))) with false. cbn iota.
    match goal with |- (check_ctx ≫= _) ?w = _ =>
      rewrite (M_bind_Ok check_ctx _ w tt w) by done end.
    rewrite IH by (cbn in Hfuel; lia). cbn [length replicate concat]. by rewrite <- (assoc_L (++)).
Qed.

(** ** The account of closings *)

Definition is_invalidated (e : error) : bool :=
  match errors_As as_Invalidated e with Some _ => true | None => false end.

(** Errors made below the transport. *)
Definition foreign_ok (e : error) : Prop := is_invalidated e = false /\ is_busy e = false.

Definition context_error (e : error) : Prop :=
  e = context_Canceled \/ e = context_DeadlineExceeded.

Definition event_ok (ev : ble_event) : Prop :=
  match ev with
  | Notification _ => True
  | ListenClosed e => forall e', e = Some e' -> foreign_ok e'
  | ContextDone e => context_error e
  end.

Definition history_ok (w : ble) : Prop :=
  Forall event_ok (notifications w) /\
  Forall (fun c => forall e, c = Some e -> context_error e) (looks w) /\
  Forall (fun c => forall e, c = Some e -> foreign_ok e) (writes w) /\
  initializationFragmentHeaderLength <= fidoControlPointLength w.

(** What a step does to a connection that may still be open: its history
    stays well formed, an error says the device was invalidated exactly when
    the connection was closed, and ERR_BUSY costs a notification. *)
Definition accounted {A} (m : M ble A) : Prop := forall w r w',
  history_ok w -> closed w = false -> m w = (r, w') ->
  history_ok w' /\ (length (notifications w') <= length (notifications w))%nat /\
  match r with
  | Err e =>
      closed w' = is_invalidated e /\
      (is_busy e = true -> is_invalidated e = false /\
         (length (notifications w') < length (notifications w))%nat)
  | _ => closed w' = false
  end.

Lemma accounted_ret {A} (a : A) : accounted (mret a).
Proof. intros w r w' Hw Hc [= <- <-]. by split_and!. Qed.

Lemma accounted_lift {A} (r : result A) :
  (forall e, r = Err e -> foreign_ok e) -> accounted (lift r).
Proof.
  intros Hr w r' w' Hw Hc [= <- <-]. split; [done|]. split; [done|].
  destruct r as [a|e| |]; try done. destruct (Hr e eq_refl) as [-> Hb].
  split; [done|]. congruence.
Qed.

Lemma accounted_bind {A B} (m : M ble A) (f : A -> M ble B) :
  accounted m -> (forall a, accounted (f a)) -> accounted (m ≫= f).
Proof.
  intros Hm Hf w r w' Hw Hc H. unfold mbind, M_bind in H.
  destruct (m w) as [[a|e| |] w1] eqn:H1; simplify_eq;
    destruct (Hm _ _ _ Hw Hc H1) as (Hok & Hlen & Hcl);
    [|exact (conj Hok (conj Hlen Hcl))..].
  destruct (Hf a _ _ _ Hok Hcl H) as (Hok' & Hlen' & Hcl').
  split; [done|]. split; [lia|]. destruct r as [b|e| |]; try done.
  destruct Hcl' as [? Hb]. split; [done|]. intros Hbz. destruct (Hb Hbz). split; [done|lia].
Qed.

Lemma foreign_ok_io op e : foreign_ok e -> foreign_ok (ioError op e).
Proof. intros [? ?]. by split. Qed.

Lemma context_foreign e : context_error e -> foreign_ok e.
Proof. by intros [->| ->]. Qed.

Lemma accounted_look {B} (f : option error -> M ble B) :
  accounted (f None) -> (forall e, context_error e -> accounted (f (Some e))) ->
  accounted (look ≫= f).
Proof.
  intros HN HS w r w' Hw Hc H. pose proof Hw as (Hn & Hl & Hws & HL).
  unfold look, mbind, M_bind in H. destruct (looks w) as [|c cs].
  - exact (HN _ _ _ Hw Hc H).
  - apply Forall_cons in Hl as [Hce Hl].
    assert (Hok : history_ok (set_looks cs w)) by by split_and!.
    destruct c as [e|]; [exact (HS e (Hce e eq_refl) _ _ _ Hok Hc H)|exact (HN _ _ _ Hok Hc H)].
Qed.

Lemma accounted_control_point_Write fragment : accounted (control_point_Write fragment).
Proof.
  intros w r w' (Hn & Hl & Hw & HL) Hc H. unfold control_point_Write in H.
  destruct (writes w) as [|[e|] ws] eqn:Hws; simplify_eq; cbn; try apply Forall_cons in Hw as [He Hw].
  - split; [by split_and!|done].
  - destruct (He e eq_refl) as [Hi Hb]. split; [by split_and!|]. split; [done|].
    change (is_invalidated (ioError IOWrite e)) with (is_invalidated e).
    change (is_busy (ioError IOWrite e)) with (is_busy e). rewrite Hi. split; [done|congruence].
  - split; [by split_and!|done].
Qed.

Lemma accounted_writeRequest command data : accounted (writeRequest command data).
Proof.
  intros w r w' Hw Hc. unfold writeRequest. revert w r w' Hw Hc.
  assert (H : forall maxLen, accounted (lift (fragmentFrame command data maxLen) ≫= fun fragments =>
    look ≫= fun gate => match gate with
    | Some e => fail (ioError IOWrite e) | None => write_fragments fragments end)).
  { intros maxLen. apply accounted_bind.
    - apply accounted_lift. unfold fragmentFrame. intros e. repeat case_match; by intros; simplify_eq.
    - intros frags. apply accounted_look.
      + induction frags as [|f frags IH]; cbn [write_fragments]; [apply accounted_ret|].
        apply accounted_bind; [apply accounted_control_point_Write|done].
      + intros e He. apply accounted_lift. intros e' [= <-]. by apply foreign_ok_io, context_foreign. }
  intros w r w' Hw Hc Hrun. by eapply H.
Qed.

Lemma fragmentFrame_empty command maxLen :
  initializationFragmentHeaderLength <= maxLen ->
  fragmentFrame command [] maxLen = Ok [[command; 0; 0]].
Proof.
  intros. unfold fragmentFrame. change (maximumFrameDataLength <? len []) with false. cbn iota.
  destruct (Z.ltb_spec maxLen initializationFragmentHeaderLength); [lia|].
  rewrite take_nil, drop_nil, chunk_nil. done.
Qed.

(** [cancel] returns, and [Close] always closes. *)
Lemma cancel_returns w :
  history_ok w -> exists r w', try_ cancel w = (Ok r, w') /\ closed w' = closed w.
Proof.
  intros (_ & _ & _ & HL). unfold try_, cancel, writeRequest.
  rewrite fragmentFrame_empty by done. unfold mbind, M_bind, look. cbn [lift].
  destruct (looks w) as [|[e|] cs]; cbn [fail lift]; [|by do 2 eexists|];
    cbn [write_fragments]; unfold control_point_Write, mbind, M_bind, mret, M_ret;
    cbn [writes set_looks]; destruct (writes w) as [|[ew|] ws]; by do 2 eexists.
Qed.

Lemma accounted_try_cancel : accounted (try_ cancel).
Proof.
  intros w r w' Hw Hc H. destruct (cancel_returns w Hw) as (c & w1 & Hrun & Hc1).
  rewrite Hrun in H. simplify_eq. unfold try_ in Hrun.
  destruct (cancel w) as [r0 w0] eqn:H0.
  assert (w0 = w') as -> by (destruct r0; by simplify_eq).
  destruct (accounted_writeRequest _ _ _ _ _ Hw Hc H0) as (? & ? & _).
  split; [done|]. split; [done|]. congruence.
Qed.

Lemma Close_closes w :
  history_ok w -> closed w = false ->
  exists e w', Close w = (Ok e, w') /\ closed w' = true /\ history_ok w' /\
    (length (notifications w') <= length (notifications w))%nat.
Proof.
  intros Hw Hc. unfold Close, close_body, mbind, M_bind, get. rewrite Hc.
  destruct (activeMSG w).
  - destruct (cancel_returns w Hw) as (r & w1 & Hrun & Hc1). rewrite Hrun.
    destruct (accounted_try_cancel _ _ _ Hw Hc Hrun) as (Hok & Hlen & _).
    destruct r; cbn; eexists _, _; by split_and!.
  - cbn. eexists _, _. by split_and!.
Qed.

(** Closing and reporting the invalidation. *)
Lemma accounted_invalidate {A} e :
  is_busy e = false -> accounted (Close ≫= fun _ => @fail ble A (EInvalidated e)).
Proof.
  intros Hb w r w' Hw Hc H. destruct (Close_closes w Hw Hc) as (c & w1 & HC & H1 & Hok & Hlen).
  rewrite (M_bind_Ok _ _ _ _ _ HC) in H. cbn in H. simplify_eq.
  split; [done|]. split; [done|]. split; [done|].
  change (is_busy (EInvalidated e)) with (is_busy e). congruence.
Qed.

(** Errors of the framing layer. *)
Lemma addFragment_errors a fragment e : addFragment a fragment = Err e -> foreign_ok e.
Proof.
  unfold addFragment, initializationFragment, continuationFragment.
  repeat case_match; intros; simplify_eq; done.
Qed.

Definition outcome_ok (before after : nat) (o : read_outcome) : Prop :=
  match o with
  | Finished (Err e) => is_invalidated e = false /\ (is_busy e = true -> (after < before)%nat)
  | Interrupted e _ => context_error e
  | _ => True
  end.

Lemma readResponse_accounted command events : forall a o rest,
  Forall event_ok events -> readResponse command a events = (o, rest) ->
  Forall event_ok rest /\ (length rest <= length events)%nat /\
  outcome_ok (length events) (length rest) o.
Proof.
  induction events as [|ev events IH]; intros a o rest Hev H; cbn [readResponse] in H.
  { by simplify_eq. }
  apply Forall_cons in Hev as [He Hev].
  assert (Hrec : forall a', readResponse command a' events = (o, rest) ->
    Forall event_ok rest /\ (length rest <= S (length events))%nat /\
    outcome_ok (S (length events)) (length rest) o).
  { intros a' H'. destruct (IH _ _ _ Hev H') as (? & ? & Ho). split; [done|]. split; [lia|].
    destruct o as [[]|]; cbn in *; try done. destruct Ho as [? Hb]. split; [done|].
    intros Hz. specialize (Hb Hz). lia. }
  assert (Hend : forall o', outcome_ok (S (length events)) (length events) o' ->
    (o', events) = (o, rest) ->
    Forall event_ok rest /\ (length rest <= S (length events))%nat /\
    outcome_ok (S (length events)) (length rest) o).
  { intros o' Ho' [= -> ->]. split_and!; [done|lia|done]. }
  destruct ev as [fragment|e|e]; cbn [length].
  - destruct (addFragment a fragment) as [[[f|] a']|e| |] eqn:Ha; try (by eapply Hend; [|exact H]);
      [|by eapply Hrec|].
    + destruct (status f =? KEEPALIVE); [destruct (negb _); [by eapply Hend; [|exact H]|by eapply Hrec]|].
      destruct (status f =? ERROR); [|destruct (status f =? command); by eapply Hend; [|exact H]].
      eapply Hend; [|exact H]. unfold decodeErrorCode. destruct (negb _); cbn; (split; [done|lia]).
    + eapply Hend; [|exact H]. destruct (addFragment_errors _ _ _ Ha). cbn. split; [done|lia].
  - eapply Hend; [|exact H]. cbn. split; [|lia].
    destruct e as [e|]; [|done]. by destruct (He e eq_refl).
  - by eapply Hend; [|exact H].
Qed.

(** Reading a response: its result is the exchange's, or decides what
    accounted steps follow. *)
Lemma accounted_read {A} command a (f : read_outcome -> M ble A) :
  (forall o, (forall e a', o = Interrupted e a' -> context_error e) ->
     accounted (f o) \/ exists r, f o = lift r /\
       forall e, r = Err e -> o = Finished (Err e)) ->
  accounted (read_response command a ≫= f).
Proof.
  intros Hf w r w' (Hn & Hl & Hw & HL) Hc H. unfold mbind, M_bind, read_response in H.
  destruct (readResponse command a (notifications w)) as [o rest] eqn:Hr.
  destruct (readResponse_accounted _ _ _ _ _ Hn Hr) as (Hrest & Hlen & Ho).
  assert (Hok : history_ok (set_notifications rest w)) by by split_and!.
  destruct (Hf o) as [Ha|(r0 & Hlift & He)].
  - intros e a' ->. done.
  - destruct (Ha _ _ _ Hok Hc H) as (Hok' & Hlen' & Hr'). cbn in Hlen'.
    split; [done|]. split; [lia|]. destruct r as [b|e| |]; try done.
    destruct Hr' as [? Hb]. split; [done|]. intros Hbz. destruct (Hb Hbz) as [? Hlt].
    split; [done|]. cbn in Hlt. lia.
  - rewrite Hlift in H. cbn in H. simplify_eq. split; [done|]. split; [done|].
    destruct r as [b|e| |]; try done. rewrite (He e eq_refl) in Ho. destruct Ho as [Hi Hb].
    rewrite Hi. split; [done|]. intros Hbz. by split; [|apply Hb].
Qed.

Lemma accounted_fail {A} e : foreign_ok e -> accounted (@fail ble A e).
Proof. intros He. apply accounted_lift. by intros e' [= <-]. Qed.

Lemma accounted_cancelAndDrain command e a :
  context_error e -> accounted (cancelAndDrain command e a).
Proof.
  intros He. pose proof (context_foreign e He) as [Hi Hb].
  apply accounted_bind; [apply accounted_try_cancel|].
  intros [[]|e1]; [|by apply accounted_invalidate].
  apply accounted_read. intros o Ho. left.
  destruct o as [[f|e0| |]|e0 a0]; try by apply accounted_fail.
  - destruct (isDeviceIOError e0); [by apply accounted_invalidate|by apply accounted_fail].
  - by apply accounted_lift.
  - by apply accounted_lift.
  - by apply accounted_invalidate.
Qed.

Lemma accounted_exchange command data : accounted (exchange command data).
Proof.
  apply accounted_bind; [apply accounted_writeRequest|]. intros _.
  apply accounted_read. intros o Ho. destruct o as [r|e a].
  - right. exists r. split; [done|]. by intros e ->.
  - left. specialize (Ho e a eq_refl). destruct (context_foreign e Ho).
    destruct (negb _); [by apply accounted_invalidate|by apply accounted_cancelAndDrain].
Qed.

(** ** The retry loop *)

Lemma check_ctx_accounted : accounted check_ctx.
Proof.
  apply accounted_look; [apply accounted_ret|]. intros e He.
  by apply accounted_fail, context_foreign.
Qed.

(** A context that is over ends a call with its error and nothing else. *)
Lemma check_ctx_plain w r w' :
  history_ok w -> check_ctx w = (r, w') -> forall e, r = Err e ->
  closed w' = closed w /\ context_error e.
Proof.
  intros (_ & Hl & _) H e ->. unfold check_ctx, look, mbind, M_bind in H.
  destruct (looks w) as [|[c|] cs]; [done| |done].
  apply Forall_cons in Hl as [Hl _]. cbn in H. simplify_eq. by split; [|apply Hl].
Qed.

Lemma ble_retry_loop_enough {A} (m : M ble A) f1 : forall f2 w,
  accounted m -> history_ok w -> closed w = false ->
  (length (notifications w) < f1)%nat -> (length (notifications w) < f2)%nat ->
  retry_loop f1 m w = retry_loop f2 m w.
Proof.
  induction f1 as [|f1 IH]; intros [|f2] w Hm Hw Hc H1 H2; try lia.
  cbn [retry_loop]. unfold mbind, M_bind, try_.
  destruct (m w) as [[a|e| |] w1] eqn:Hrun; try done.
  destruct (is_busy e) eqn:Hb; cbn [negb]; [|done].
  destruct (Hm _ _ _ Hw Hc Hrun) as (Hok & _ & Hc1 & He).
  destruct (He Hb) as [Hi Hlt]. rewrite Hi in Hc1.
  destruct (check_ctx w1) as [[[]|?| |] w2] eqn:Hctx; try done.
  destruct (check_ctx_accounted _ _ _ Hok Hc1 Hctx) as (? & ? & ?).
  apply IH; try done; lia.
Qed.

(** The loop's equation: its fuel is never what ends it. *)
Lemma retryBusy_unfold {A} (m : M ble A) w :
  accounted m -> history_ok w -> closed w = false ->
  retryBusy m w =
    (try_ m ≫= fun r =>
     match r with
     | inl a => mret a
     | inr e => if negb (is_busy e) then fail e
                else check_ctx ≫= fun _ => retryBusy m
     end) w.
Proof.
  intros Hm Hw Hc. unfold retryBusy at 1. cbn [retry_loop]. unfold mbind, M_bind, try_.
  destruct (m w) as [[a|e| |] w1] eqn:Hrun; try done.
  destruct (is_busy e) eqn:Hb; cbn [negb]; [|done].
  destruct (Hm _ _ _ Hw Hc Hrun) as (Hok & _ & Hc1 & He).
  destruct (He Hb) as [Hi Hlt]. rewrite Hi in Hc1.
  destruct (check_ctx w1) as [[[]|?| |] w2] eqn:Hctx; try done.
  destruct (check_ctx_accounted _ _ _ Hok Hc1 Hctx) as (? & ? & ?).
  apply ble_retry_loop_enough; try done; lia.
Qed.

Lemma retryBusy_accounted {A} (m : M ble A) :
  accounted m ->
  forall w r w', history_ok w -> closed w = false -> retryBusy m w = (r, w') ->
  history_ok w' /\
  match r with
  | Err e => closed w' = is_invalidated e /\ is_busy e = false
  | _ => closed w' = false
  end.
Proof.
  intros Hm w. remember (length (notifications w)) as n eqn:Hn. revert w Hn.
  induction (lt_wf n) as [n _ IH]. intros w -> r w' Hw Hc H.
  rewrite retryBusy_unfold in H by done. unfold try_, mbind, M_bind in H.
  destruct (m w) as [r0 w1] eqn:H1. destruct (Hm _ _ _ Hw Hc H1) as (Hok & Hlen & He).
  destruct r0 as [a|e| |]; unfold mret, M_ret in H; simplify_eq; try done.
  destruct He as [He Hbusy]. destruct (is_busy e) eqn:Hb; cbn in H; [|by simplify_eq].
  destruct (Hbusy eq_refl) as [Hi Hlt]. rewrite Hi in He.
  destruct (check_ctx w1) as [r2 w2] eqn:H2.
  destruct (check_ctx_accounted _ _ _ Hok He H2) as (Hok2 & Hlen2 & He2).
  destruct r2 as [[]|e2| |]; simplify_eq; try done.
  - by eapply (IH (length (notifications w2))); [lia|..].
  - split; [done|]. destruct He2 as [? _]. split; [done|].
    unfold check_ctx, look, mbind, M_bind in H2. destruct Hok as (_ & Hl & _).
    destruct (looks w1) as [|[c|] cs]; [done| |done].
    apply Forall_cons in Hl as [Hl _]. cbn in H2. simplify_eq.
    by apply context_foreign, Hl.
Qed.

Lemma closing_accounted {A} (m : M ble A) w r w' :
  accounted m -> history_ok w -> closed w = false -> closing (retryBusy m) w = (r, w') ->
  match r with
  | Err e => closed w' = is_invalidated e /\ is_busy e = false /\
      (is_invalidated e = false -> isDeviceIOError e = false)
  | _ => closed w' = false
  end.
Proof.
  intros Hm Hw Hc H. unfold closing, try_, mbind, M_bind in H.
  destruct (retryBusy m w) as [r0 w1] eqn:H1.
  destruct (retryBusy_accounted m Hm _ _ _ Hw Hc H1) as [Hok He].
  destruct r0 as [a|e| |]; unfold mret, M_ret in H; simplify_eq; try done.
  destruct He as [He Hb]. unfold closeOnIOError in H.
  destruct (isDeviceIOError e) eqn:Hio; cbn [negb] in H; [|cbn in H; by simplify_eq].
  destruct (closed w1) eqn:Hc1.
  - unfold Close, mbind, M_bind, get in H. rewrite Hc1 in H. cbn in H. simplify_eq. by split_and!.
  - destruct (Close_closes w1 Hok Hc1) as (c & w2 & HC & H2 & _ & _).
    rewrite (M_bind_Ok _ _ _ _ _ HC) in H. cbn in H. simplify_eq. by split_and!.
Qed.

(** ** The failures of the device

    The reads and writes of the history that fail in the device itself; a
    call met one when fewer are left. *)
Definition listen_fails (ev : ble_event) : bool := match ev with ListenClosed _ => true | _ => false end.
Definition write_fails (r : option error) : bool := match r with Some _ => true | None => false end.
Definition failures (w : ble) : nat :=
  length (List.filter listen_fails (notifications w)) + length (List.filter write_fails (writes w)).

(** An error that says the device failed, closed or not yet. *)
Definition trouble (e : error) : bool := isDeviceIOError e || is_invalidated e.

(** Once a call has returned, a failure has not been passed over. *)
Definition failure_reported {A} (r : result A) (before after : nat) : Prop :=
  (after <= before)%nat /\
  match r with
  | Ok _ => after = before
  | Err e => (after < before)%nat -> trouble e = true /\ is_busy e = false
  | Panic | Blocked => True
  end.

Definition reporting {A} (m : M ble A) : Prop := forall w r w',
  history_ok w -> closed w = false -> m w = (r, w') -> failure_reported r (failures w) (failures w').

Lemma ble_reported_same {A} (r : result A) n : failure_reported r n n.
Proof. split; [lia|]. destruct r; [done| |done..]. lia. Qed.

Lemma reporting_lift {A} (r : result A) : reporting (lift r).
Proof. intros w r' w' _ _ [= <- <-]. apply ble_reported_same. Qed.

Lemma reporting_bind {A B} (m : M ble A) (f : A -> M ble B) :
  accounted m -> reporting m -> (forall a, reporting (f a)) -> reporting (m ≫= f).
Proof.
  intros Ha Hm Hf w r w' Hw Hc H. unfold mbind, M_bind in H.
  destruct (m w) as [[a|e| |] w1] eqn:H1; simplify_eq; pose proof (Hm _ _ _ Hw Hc H1) as Hrep; try done.
  destruct (Ha _ _ _ Hw Hc H1) as (Hok & _ & Hcl). destruct Hrep as [_ Heq].
  rewrite <- Heq. by eapply Hf.
Qed.

Lemma reporting_look {B} (f : option error -> M ble B) :
  (forall c, reporting (f c)) -> reporting (look ≫= f).
Proof.
  intros Hf w r w' Hw Hc H. pose proof Hw as (Hn & Hl & Hws & HL).
  unfold look, mbind, M_bind in H. destruct (looks w) as [|c cs]; [by eapply Hf|].
  apply Forall_cons in Hl as [_ Hl].
  refine (Hf c (set_looks cs w) r w' _ Hc H). by split_and!.
Qed.

Lemma reporting_control_point_Write fragment : reporting (control_point_Write fragment).
Proof.
  intros w r w' (_ & _ & Hw & _) _ H. unfold control_point_Write in H. unfold failures.
  destruct (writes w) as [|[e|] ws]; simplify_eq; cbn [notifications writes List.filter write_fails];
    [apply ble_reported_same| |apply ble_reported_same].
  apply Forall_cons in Hw as [He _]. destruct (He e eq_refl) as [_ Hb]. cbn [length]. split; [lia|].
  intros _. by split.
Qed.

Lemma reporting_writeRequest command data : reporting (writeRequest command data).
Proof.
  intros w r w' Hw Hc H. unfold writeRequest in H. revert H.
  destruct (fragmentFrame command data _) as [frags|e| |]; [|intros [= <- <-]; apply ble_reported_same..].
  revert w r w' Hw Hc. change (reporting (look ≫= fun gate =>
    match gate with Some e => fail (ioError IOWrite e) | None => write_fragments frags end)).
  apply reporting_look. intros [e|]; [apply reporting_lift|].
  induction frags as [|f frags IH]; cbn [write_fragments]; [apply (reporting_lift (Ok tt))|].
  apply reporting_bind; [apply accounted_control_point_Write|apply reporting_control_point_Write|done].
Qed.

Lemma reporting_check_ctx : reporting check_ctx.
Proof. apply reporting_look. intros [e|]; [apply (reporting_lift (Err e))|apply (reporting_lift (Ok tt))]. Qed.

(** However its CANCEL goes, closing gives no failure back. *)
Lemma Close_failures w r w' :
  history_ok w -> closed w = false -> Close w = (r, w') -> (failures w' <= failures w)%nat.
Proof.
  intros Hw Hc H. unfold Close, close_body, mbind, M_bind, get in H. rewrite Hc in H.
  destruct (activeMSG w); [|injection H as <- <-; done].
  destruct (cancel_returns w Hw) as (c & w1 & Hrun & _). rewrite Hrun in H.
  unfold try_ in Hrun. destruct (cancel w) as [r0 w0] eqn:H0.
  pose proof (reporting_writeRequest _ _ _ _ _ Hw Hc H0) as [Hle _].
  assert (failures w1 = failures w0) as Heq by (destruct r0; by simplify_eq).
  destruct c; injection H as <- <-; unfold failures in *; cbn in *; lia.
Qed.

(** A step whose outcome is a failure of the device, whatever it meets. *)
Definition loud {A} (m : M ble A) : Prop := forall w r w',
  history_ok w -> closed w = false -> m w = (r, w') ->
  (failures w' <= failures w)%nat /\
  match r with
  | Ok _ => False
  | Err e => trouble e = true /\ is_busy e = false
  | Panic | Blocked => True
  end.

Lemma loud_reporting {A} (m : M ble A) : loud m -> reporting m.
Proof.
  intros Hm w r w' Hw Hc H. destruct (Hm _ _ _ Hw Hc H) as [Hle Hr].
  split; [done|]. by destruct r.
Qed.

Lemma loud_invalidate {A} e :
  is_busy e = false -> loud (Close ≫= fun _ => @fail ble A (EInvalidated e)).
Proof.
  intros Hb w r w' Hw Hc H. destruct (Close_closes w Hw Hc) as (c & w1 & HC & _).
  pose proof (Close_failures _ _ _ Hw Hc HC) as Hle.
  rewrite (M_bind_Ok _ _ _ _ _ HC) in H. cbn in H. simplify_eq. split; [done|].
  split; [|done]. unfold trouble. by rewrite orb_true_r.
Qed.

Lemma loud_lift {A} e : isDeviceIOError e = true -> is_busy e = false -> loud (lift (@Err A e)).
Proof. intros He Hb w r w' _ _ [= <- <-]. split; [lia|]. unfold trouble. by rewrite He. Qed.

Lemma readResponse_failures command events : forall a o rest,
  Forall event_ok events -> readResponse command a events = (o, rest) ->
  let before := length (List.filter listen_fails events) in
  let after := length (List.filter listen_fails rest) in
  (after <= before)%nat /\
  ((after < before)%nat ->
   exists e, o = Finished (Err e) /\ isDeviceIOError e = true /\ is_busy e = false).
Proof.
  induction events as [|ev events IH]; intros a o rest Hev H; cbn [readResponse] in H.
  { simplify_eq. cbn. split; [lia|lia]. }
  apply Forall_cons in Hev as [He Hev]. destruct ev as [fragment|e|e]; cbn [List.filter listen_fails].
  - destruct (addFragment a fragment) as [[[f|] a']|e| |]; simplify_eq;
      try (split; lia); [|by eapply IH].
    repeat case_match; simplify_eq; try (split; lia). by eapply IH.
  - injection H as <- <-. cbn [length]. split; [lia|]. intros _. eexists. split; [done|].
    split; [done|]. destruct e as [e|]; [|done]. by destruct (He e eq_refl).
  - simplify_eq. split; lia.
Qed.

(** What follows a read must be loud about the read's own failure. *)
Lemma reporting_read {A} command a (f : read_outcome -> M ble A) :
  (forall o, (forall e a', o = Interrupted e a' -> context_error e) -> reporting (f o)) ->
  (forall e, isDeviceIOError e = true -> is_busy e = false -> loud (f (Finished (Err e)))) ->
  reporting (read_response command a ≫= f).
Proof.
  intros Hf Hloud w r w' (Hn & Hl & Hw & HL) Hc H. unfold mbind, M_bind, read_response in H.
  destruct (readResponse command a (notifications w)) as [o rest] eqn:Hr.
  destruct (readResponse_failures _ _ _ _ _ Hn Hr) as [Hle Hlt].
  destruct (readResponse_accounted _ _ _ _ _ Hn Hr) as (Hrest & _ & Ho).
  set (w1 := set_notifications rest w) in H.
  assert (Hok : history_ok w1) by by split_and!.
  assert (Hw1 : (failures w1 <= failures w)%nat) by (unfold failures; cbn; lia).
  destruct (decide (failures w1 = failures w)) as [Heq|Hne].
  - rewrite <- Heq. eapply Hf; [|done..]. by intros e a' ->.
  - destruct Hlt as (e & -> & He & Hb); [unfold failures, w1 in *; cbn in *; lia|].
    destruct (Hloud e He Hb w1 r w' Hok Hc H) as [Hle' Hr']. split; [lia|]. by destruct r.
Qed.

Lemma reporting_try_cancel {A} (f : unit + error -> M ble A) :
  reporting (f (inl tt)) -> (forall e, loud (f (inr e))) -> reporting (try_ cancel ≫= f).
Proof.
  intros Hl Hr w r w' Hw Hc H. destruct (cancel_returns w Hw) as (c & w1 & Hrun & Hc1).
  destruct (accounted_try_cancel _ _ _ Hw Hc Hrun) as (Hok & _ & Hcl).
  rewrite (M_bind_Ok _ _ _ _ _ Hrun) in H.
  unfold try_ in Hrun. destruct (cancel w) as [r0 w0] eqn:H0.
  pose proof (reporting_writeRequest _ _ _ _ _ Hw Hc H0) as [Hle Hr0].
  destruct r0 as [[]|e0| |]; simplify_eq.
  - rewrite <- Hr0. by eapply Hl.
  - destruct (Hr e0 w1 r w' Hok Hcl H) as [Hle' Hr']. split; [lia|]. by destruct r.
Qed.

Lemma reporting_cancelAndDrain command e a :
  context_error e -> reporting (cancelAndDrain command e a).
Proof.
  intros He. destruct (context_foreign e He) as [_ Hb]. apply reporting_try_cancel.
  - apply reporting_read.
    + intros [[f|e0| |]|e0 a0] _; try apply reporting_lift; [|by apply loud_reporting, loud_invalidate].
      destruct (isDeviceIOError e0); [by apply loud_reporting, loud_invalidate|apply reporting_lift].
    + intros e0 -> _. by apply loud_invalidate.
  - intros e0. by apply loud_invalidate.
Qed.

Lemma reporting_exchange command data : reporting (exchange command data).
Proof.
  apply reporting_bind; [apply accounted_writeRequest|apply reporting_writeRequest|]. intros _.
  apply reporting_read.
  - intros [r|e a] Ho; [apply reporting_lift|]. specialize (Ho e a eq_refl).
    destruct (context_foreign e Ho). destruct (negb _);
      [by apply loud_reporting, loud_invalidate|by apply reporting_cancelAndDrain].
  - intros e. apply loud_lift.
Qed.

(** Only an ERR_BUSY is tried again, which is no failure of the device. *)
Lemma reporting_retryBusy {A} (m : M ble A) : accounted m -> reporting m -> reporting (retryBusy m).
Proof.
  intros Ha Hm w. remember (length (notifications w)) as n eqn:Hn. revert w Hn.
  induction (lt_wf n) as [n _ IH]. intros w -> r w' Hw Hc H.
  rewrite retryBusy_unfold in H by done. unfold try_, mbind, M_bind in H.
  destruct (m w) as [r0 w1] eqn:H1. destruct (Ha _ _ _ Hw Hc H1) as (Hok & Hlen & He).
  pose proof (Hm _ _ _ Hw Hc H1) as Hrep.
  destruct r0 as [a|e| |]; unfold mret, M_ret in H; simplify_eq; try done.
  destruct He as [He Hbusy]. destruct (is_busy e) eqn:Hb; cbn in H; [|by simplify_eq].
  destruct (Hbusy eq_refl) as [Hi Hlt]. rewrite Hi in He. destruct Hrep as [Hle Hrep].
  assert (Heq : failures w1 = failures w).
  { destruct (decide (failures w1 = failures w)); [done|]. destruct Hrep; [lia|congruence]. }
  rewrite <- Heq. destruct (check_ctx w1) as [r2 w2] eqn:H2.
  destruct (check_ctx_accounted _ _ _ Hok He H2) as (Hok2 & Hlen2 & He2).
  pose proof (reporting_check_ctx _ _ _ Hok He H2) as Hrep2.
  destruct r2 as [[]|e2| |]; simplify_eq; try done.
  destruct Hrep2 as [_ <-]. by eapply (IH (length (notifications w2))); [lia|..].
Qed.

(** Every failure met under [closing] closes the connection and says so. *)
Definition failure_closes {A} (r : result A) (before after : nat) : Prop :=
  match r with
  | Ok _ => after = before
  | Err e => (after < before)%nat -> is_invalidated e = true
  | Panic | Blocked => True
  end.

Lemma closing_failures {A} (m : M ble A) w r w' :
  accounted m -> reporting m -> history_ok w -> closed w = false ->
  closing (retryBusy m) w = (r, w') -> failure_closes r (failures w) (failures w').
Proof.
  intros Ha Hm Hw Hc H. unfold closing, try_, mbind, M_bind in H.
  destruct (retryBusy m w) as [r0 w1] eqn:H1.
  destruct (reporting_retryBusy m Ha Hm _ _ _ Hw Hc H1) as [Hle Hrep].
  destruct (retryBusy_accounted m Ha _ _ _ Hw Hc H1) as [Hok _].
  destruct r0 as [a|e| |]; unfold mret, M_ret in H; simplify_eq; try done.
  unfold closeOnIOError in H. destruct (isDeviceIOError e) eqn:Hio; cbn [negb] in H.
  - destruct (closed w1) eqn:Hc1.
    + unfold Close, mbind, M_bind, get in H. rewrite Hc1 in H. cbn in H. by simplify_eq.
    + destruct (Close_closes w1 Hok Hc1) as (c & w2 & HC & _).
      rewrite (M_bind_Ok _ _ _ _ _ HC) in H. cbn in H. by simplify_eq.
  - cbn in H. simplify_eq. intros Hlt. destruct (Hrep Hlt) as [Ht _].
    unfold trouble in Ht. by rewrite Hio in Ht.
Qed.

(** Looking at the context costs the device nothing. *)
Lemma check_ctx_failures w r w' : check_ctx w = (r, w') -> failures w' = failures w.
Proof.
  unfold check_ctx, look, mbind, M_bind. destruct (looks w) as [|[c|] cs]; intros [= _ <-]; done.
Qed.

Lemma check_ctx_refuses w e w' :
  history_ok w -> closed w = false -> check_ctx w = (Err e, w') ->
  closed w' = is_invalidated e /\ is_busy e = false /\
  ((failures w' < failures w')%nat -> is_invalidated e = true) /\
  (is_invalidated e = false -> isDeviceIOError e = false).
Proof.
  intros Hw Hc H. destruct (check_ctx_plain _ _ _ Hw H e eq_refl) as [-> [->| ->]];
    rewrite Hc; split_and!; try done; lia.
Qed.

Lemma refusals_length attempts :
  Forall refusal attempts -> (length attempts <= length (concat attempts))%nat.
Proof.
  induction 1 as [|x l (ka & ev & _ & Hev & ->) _ IH]; [done|]. cbn.
  rewrite !length_app. apply on_air_nonempty in Hev. lia.
Qed.

(** ** Properties *)

(** A request of a live connection goes out as the fragments of its MSG
    frame, again after every ERR_BUSY, and is answered by the first frame
    that is not a keep-alive, however the authenticator fragments its
    frames: the payload for status CTAP2_OK, a CTAPError otherwise. What
    follows the answer is left for the next command. *)
Theorem ble_exchange data frags attempts ka ev st rdata rest sent maxLen :
  data <> [] -> fragmentFrame MSG data maxLen = Ok frags ->
  Forall refusal attempts -> keepalives ka -> on_air MSG (st :: rdata) ev ->
  CBOR data (live (concat attempts ++ ka ++ ev ++ rest) sent maxLen false) =
    (if st =? CTAP2_OK then Ok (MkCBORResponse CTAP2_OK rdata)
     else Err (ECTAP (nth 0 data 0) st),
     live rest (sent ++ concat (replicate (S (length attempts)) frags)) maxLen false).
Proof.
  intros Hd Hf Hatt Hka Hev. unfold CBOR.
  match goal with |- (check_ctx ≫= _) ?w = _ =>
    rewrite (M_bind_Ok check_ctx _ w tt w) by done end.
  destruct (Z.eqb_spec (len data) 0) as [Hz|_]; [by apply len_0 in Hz|].
  unfold active. set (w := live _ _ _ false).
  assert (Hrun : closing (retryBusy (exchange MSG data)) (set_active true w) =
    (Ok (ResponseFrame MSG (st :: rdata)),
     live rest (sent ++ concat (replicate (S (length attempts)) frags)) maxLen true)).
  { assert (Hr : retryBusy (exchange MSG data) (set_active true w) =
      (Ok (ResponseFrame MSG (st :: rdata)),
       live rest (sent ++ concat (replicate (S (length attempts)) frags)) maxLen true)).
    { apply (retry_live MSG data frags attempts ka MSG (st :: rdata) ev rest (Ok _)); try done.
      cbn [set_active w notifications live]. rewrite !length_app.
      pose proof (refusals_length attempts Hatt). lia. }
    unfold closing. by rewrite (M_bind_Ok _ _ _ _ _ (try_Ok _ _ _ _ Hr)). }
  rewrite (M_bind_Ok _ _ _ _ _ Hrun). cbn [frame_data].
  destruct (Z.eqb_spec (len (st :: rdata)) 0) as [Hz|_]; [by apply len_0 in Hz|].
  unfold ValidateCBORResponse, response_of. cbn [nth drop skipn StatusCode lift].
  rewrite drop_0. by destruct (Z.eqb_spec st CTAP2_OK) as [->|].
Qed.

(** Interrupting the reader loses nothing: its assembler resumes where the
    context ended, even inside a frame. *)
Definition is_notification (ev : ble_event) : Prop :=
  match ev with Notification _ => True | _ => False end.

Lemma readResponse_interrupted command c ev1 : forall a tl o rest,
  Forall is_notification ev1 ->
  readResponse command a (ev1 ++ tl) = (o, rest) -> (length rest < length tl)%nat ->
  exists a1, readResponse command a (ev1 ++ ContextDone c :: tl) = (Interrupted c a1, tl) /\
    readResponse command a1 tl = (o, rest).
Proof.
  induction ev1 as [|ev ev1 IH]; intros a tl o rest Hn H Hlt; [by exists a|].
  apply Forall_cons in Hn as [Hev Hn]. destruct ev as [fragment| |]; [|done..].
  cbn [app readResponse] in H |- *.
  assert (Hstop : forall o', (o', ev1 ++ tl) = (o, rest) -> False).
  { intros o' [= _ <-]. rewrite length_app in Hlt. lia. }
  destruct (addFragment a fragment) as [[[f|] a']|e| |]; try (by exfalso; eapply Hstop);
    [|by apply IH].
  destruct (status f =? KEEPALIVE).
  - destruct (negb _); [by exfalso; eapply Hstop|by apply IH].
  - exfalso. destruct (status f =? ERROR); [by eapply Hstop|].
    destruct (status f =? command); by eapply Hstop.
Qed.

Lemma on_frame_terminal command f r :
  on_frame command f = Some r ->
  match r with Ok _ => True | Err e => isDeviceIOError e = false | _ => False end.
Proof.
  unfold on_frame, decodeErrorCode. repeat case_match; intros; simplify_eq/=; done.
Qed.

Lemma on_air_notifications st data ev : on_air st data ev -> Forall is_notification ev.
Proof. intros (_ & maxLen & frags & _ & ->). apply Forall_fmap. by apply Forall_true. Qed.

Lemma keepalives_notifications ka : keepalives ka -> Forall is_notification ka.
Proof.
  intros (frames & Hf & ->). induction Hf as [|ev frames [b Hev] _ IH]; [constructor|].
  apply Forall_app. split; [by eapply on_air_notifications|done].
Qed.

Lemma ble_exchange_cancelled data frags ka ev ev1 ev2 st answer r c rest sent maxLen act :
  fragmentFrame MSG data maxLen = Ok frags ->
  initializationFragmentHeaderLength <= maxLen ->
  keepalives ka -> on_air st answer ev -> ka ++ ev = ev1 ++ ev2 -> ev2 <> [] ->
  on_frame MSG (ResponseFrame st answer) = Some r ->
  exchange MSG data (live (ev1 ++ ContextDone c :: ev2 ++ rest) sent maxLen act) =
    (Err c, live rest (sent ++ frags ++ [[CANCEL; 0; 0]]) maxLen act).
Proof.
  intros Hf HL Hka Hev Hsplit Hne Hr. unfold exchange.
  rewrite (M_bind_Ok _ _ _ _ _ (writeRequest_live _ _ _ _ _ _ _ Hf)).
  pose proof (readResponse_answer MSG assembler_start ka st answer ev rest r eq_refl Hka Hev Hr) as Hread.
  rewrite (assoc_L (++)), Hsplit, <- (assoc_L (++)) in Hread.
  assert (Hn1 : Forall is_notification ev1).
  { assert (Hall : Forall is_notification (ev1 ++ ev2)); [|by apply Forall_app in Hall as [? _]].
    rewrite <- Hsplit. apply Forall_app. split; [by apply keepalives_notifications|].
    by eapply on_air_notifications. }
  apply (readResponse_interrupted MSG c) in Hread as (a1 & H1 & H2); [|done|].
  2:{ rewrite length_app. destruct ev2; [done|cbn; lia]. }
  unfold mbind at 1, M_bind at 1, read_response. cbn [notifications live].
  rewrite H1. change (negb (MSG =? MSG)) with false. cbn iota.
  change (set_notifications (ev2 ++ rest) (live (ev1 ++ ContextDone c :: ev2 ++ rest) (sent ++ frags) maxLen act))
    with (live (ev2 ++ rest) (sent ++ frags) maxLen act).
  unfold cancelAndDrain. erewrite M_bind_Ok;
    [|apply try_Ok, writeRequest_live, fragmentFrame_empty; done].
  unfold mbind, M_bind, read_response. cbn [notifications live]. rewrite H2.
  apply on_frame_terminal in Hr. rewrite <- (assoc_L (++)).
  destruct r as [f|e| |]; [done| |done..]. by rewrite Hr.
Qed.

(** A context that ends before the answer has arrived in full, even in
    the middle of a frame, sends one CANCEL and drains the notifications up
    to and including the frame that completes the command; the caller gets
    the context's error and the connection is open and clean for the next
    command. *)
Theorem ble_cancel_drains data frags ka ev ev1 ev2 st answer r c rest sent maxLen :
  data <> [] -> fragmentFrame MSG data maxLen = Ok frags ->
  initializationFragmentHeaderLength <= maxLen -> context_error c ->
  keepalives ka -> on_air st answer ev -> ka ++ ev = ev1 ++ ev2 -> ev2 <> [] ->
  on_frame MSG (ResponseFrame st answer) = Some r ->
  CBOR data (live (ev1 ++ ContextDone c :: ev2 ++ rest) sent maxLen false) =
    (Err c, live rest (sent ++ frags ++ [[CANCEL; 0; 0]]) maxLen false).
Proof.
  intros Hd Hf HL Hc Hka Hev Hsplit Hne Hr. unfold CBOR.
  match goal with |- (check_ctx ≫= _) ?w = _ =>
    rewrite (M_bind_Ok check_ctx _ w tt w) by done end.
  destruct (Z.eqb_spec (len data) 0) as [Hz|_]; [by apply len_0 in Hz|].
  assert (Hx := ble_exchange_cancelled data frags ka ev ev1 ev2 st answer r c rest sent maxLen true
    Hf HL Hka Hev Hsplit Hne Hr).
  unfold active, closing. set (w := set_active true _).
  assert (Hretry : retryBusy (exchange MSG data) w =
    (Err c, live rest (sent ++ frags ++ [[CANCEL; 0; 0]]) maxLen true)).
  { unfold retryBusy. cbn [retry_loop]. rewrite (M_bind_Ok _ _ _ _ _ (try_Err _ _ _ _ Hx)).
    by destruct Hc as [->| ->]. }
  unfold mbind, M_bind. rewrite (try_Err _ _ _ _ Hretry). by destruct Hc as [->| ->].
Qed.

(** C26. Errors, failures and closing agree: a command on an open connection
    comes back with a DeviceInvalidatedError exactly when the connection was
    closed; a device that fails while the command runs - a read, the write of
    a fragment, or the CANCEL and the drain after the context has ended -
    closes it, and a command that succeeds met no failure; ERR_BUSY is never
    reported but retried. *)
Theorem ble_device_accounted data w :
  history_ok w -> closed w = false ->
  let accounts {A} (run : M ble A) := forall r w', run w = (r, w') ->
    match r with
    | Err e => closed w' = is_invalidated e /\ is_busy e = false /\
        ((failures w' < failures w)%nat -> is_invalidated e = true) /\
        (is_invalidated e = false -> isDeviceIOError e = false)
    | Ok _ => closed w' = false /\ failures w' = failures w
    | Panic | Blocked => closed w' = false
    end in
  accounts (CBOR data) /\ accounts (Ping data).
Proof.
  intros Hw Hc accounts. unfold accounts. clear accounts. split; intros r w' H.
  - unfold CBOR, mbind at 1, M_bind at 1 in H.
    destruct (check_ctx w) as [r1 w1] eqn:H1.
    destruct (check_ctx_accounted _ _ _ Hw Hc H1) as (Hok & _ & He).
    pose proof (check_ctx_failures _ _ _ H1) as Hsame. rewrite <- Hsame.
    destruct r1 as [[]|e| |]; simplify_eq; [|by apply (check_ctx_refuses w)..|done|done].
    destruct (len data =? 0); [cbn in H; simplify_eq; split_and!; try done; lia|].
    unfold active, mbind, M_bind in H.
    destruct (closing (retryBusy (exchange MSG data)) (set_active true w1)) as [r2 w2] eqn:H2.
    pose proof (closing_failures _ (set_active true w1) _ _ (accounted_exchange _ _)
      (reporting_exchange _ _) Hok He H2) as Hf.
    change (failures (set_active true w1)) with (failures w1) in Hf.
    apply closing_accounted in H2; [|apply accounted_exchange|done|done].
    destruct r2 as [f|e| |]; simplify_eq; try done; [|by destruct H2 as (? & ? & ?)].
    change (failures w2) with (failures (set_active false w2)) in Hf.
    unfold ValidateCBORResponse in H.
    repeat case_match; simplify_eq/=; split_and!; try done; lia.
  - unfold Ping, mbind at 1, M_bind at 1 in H.
    destruct (check_ctx w) as [r1 w1] eqn:H1.
    destruct (check_ctx_accounted _ _ _ Hw Hc H1) as (Hok & _ & He).
    pose proof (check_ctx_failures _ _ _ H1) as Hsame. rewrite <- Hsame.
    destruct r1 as [[]|e| |]; simplify_eq; [|by apply (check_ctx_refuses w)..|done|done].
    unfold mbind, M_bind in H.
    destruct (closing (retryBusy (exchange PING data)) w1) as [r2 w2] eqn:H2.
    pose proof (closing_failures _ _ _ _ (accounted_exchange _ _) (reporting_exchange _ _) Hok He H2) as Hf.
    apply closing_accounted in H2; [|apply accounted_exchange|done|done].
    destruct r2 as [f|e| |]; unfold mret, M_ret in H; simplify_eq; try done.
    by destruct H2 as (? & ? & ?).
Qed.

(** *** Concrete runs *)

Definition sample_answer : list ble_event := [Notification [MSG; 0; 2; 0]; Notification [0; 7]].
Definition sample_keepalive : list ble_event := [Notification [KEEPALIVE; 0; 1; 2]].

Lemma sample_answer_on_air : on_air MSG [0; 7] sample_answer.
Proof.
  split; [unfold is_status, MSG; lia|]. exists 4, [[MSG; 0; 2; 0]; [0; 7]]. by split.
Qed.

Lemma sample_keepalives : keepalives sample_keepalive.
Proof.
  exists [sample_keepalive]. split; [|reflexivity]. constructor; [|constructor].
  exists 2. split; [unfold is_status, KEEPALIVE; lia|]. by exists 20, [[KEEPALIVE; 0; 1; 2]].
Qed.

Lemma ble_exchange_witness :
  CBOR [4] (live (sample_keepalive ++ sample_answer) [] 20 false) =
    (Ok (MkCBORResponse 0 [7]), live [] [[MSG; 0; 1; 4]] 20 false).
Proof.
  apply (ble_exchange [4] [[MSG; 0; 1; 4]] [] sample_keepalive sample_answer 0 [7] [] [] 20).
  - discriminate.
  - reflexivity.
  - constructor.
  - exact sample_keepalives.
  - exact sample_answer_on_air.
Defined.

Lemma ble_cancel_drains_witness :
  CBOR [4] (live (sample_keepalive ++ [Notification [MSG; 0; 2; 0];
    ContextDone context_Canceled; Notification [0; 7]]) [] 20 false) =
    (Err context_Canceled, live [] [[MSG; 0; 1; 4]; [CANCEL; 0; 0]] 20 false).
Proof.
  apply (ble_cancel_drains [4] [[MSG; 0; 1; 4]] sample_keepalive sample_answer
    (sample_keepalive ++ [Notification [MSG; 0; 2; 0]]) [Notification [0; 7]]
    MSG [0; 7] (Ok (ResponseFrame MSG [0; 7])) context_Canceled [] [] 20).
  - discriminate.
  - reflexivity.
  - unfold initializationFragmentHeaderLength. lia.
  - left. reflexivity.
  - exact sample_keepalives.
  - exact sample_answer_on_air.
  - reflexivity.
  - discriminate.
  - reflexivity.
Defined.

Definition sample_failed_cancel : ble :=
  Ble [ContextDone context_Canceled] [] [None; Some (EText "gatt")] [] 20 false false None [] None None.

Lemma ble_device_accounted_witness :
  (exists w', CBOR [4] (live [ListenClosed None] [] 20 false) =
    (Err (EInvalidated (EIO IORead io_EOF)), w') /\ closed w' = true) /\
  (exists w', CBOR [4] sample_failed_cancel = (Err (EInvalidated context_Canceled), w') /\
    (failures w' < failures sample_failed_cancel)%nat /\ closed w' = true).
Proof.
  destruct (ble_device_accounted [4] (live [ListenClosed None] [] 20 false)) as [H _];
    [repeat split; repeat constructor; discriminate|reflexivity|].
  destruct (ble_device_accounted [4] sample_failed_cancel) as [H' _];
    [|reflexivity|].
  - unfold history_ok, sample_failed_cancel; cbn [notifications looks writes fidoControlPointLength].
    repeat (constructor; try discriminate); by injection H0 as <-.
  - split; eexists; (split; [reflexivity|]).
    + exact (proj1 (H _ _ eq_refl)).
    + split; [vm_compute; lia|exact (proj1 (H' _ _ eq_refl))].
Defined.
