(* ===== verification/Token2.v ===== *)
(** * CTAP over Token2's APDU tunnel (src/transport/token2/token2.go) *)
From S2P Require Import Prelude GoError Transport.

(** ** The card

    [answers]: what the next [Transmit] calls of the smart-card connection
    return; [looks]: the context's error at the next looks at it; [apdus]
    the commands transmitted; [card_close] what the card's [Close] returns. *)
Record card := Card {
  answers : list (result (list Z));
  looks : list (option error);
  apdus : list (list Z);
  closed : bool;
  closeErr : option error;
  card_close : option error }.

Definition ErrInvalidResponse : error := ESentinel "token2: invalid APDU response".
Definition ErrCommandTooLarge : error := ESentinel "token2: CTAP command is too large".
Definition appletAID : list Z := [0xf0; 0x00; 0x00; 0x01; 0x4f; 0x74; 0x70; 0x01].
Definition claToken2 : Z := 0x80.
Definition insCTAP : Z := 0xc5.
Definition insGetResponse : Z := 0xc0.
Definition maxCommandSize : Z := 0xffff.

Definition ctx_Err : M card (option error) := fun c =>
  match looks c with
  | [] => (Ok None, c)
  | l :: rest => (Ok l, Card (answers c) rest (apdus c) (closed c) (closeErr c) (card_close c))
  end.

(** [ioCard.Transmit]: the card's error, marked. *)
Definition Transmit (apdu : list Z) : M card (list Z) := fun c =>
  match answers c with
  | [] => (Blocked, c)
  | a :: rest =>
      (match a with Err e => Err (EIO IOTransmit e) | _ => a end,
       Card rest (looks c) (apdus c ++ [apdu]) (closed c) (closeErr c) (card_close c))
  end.

(** [ioCard.Close] under [closeOnce]. *)
Definition Close : M card (option error) := fun c =>
  let e := if closed c then closeErr c else EIO IOClose <$> card_close c in
  (Ok e, Card (answers c) (looks c) (apdus c) true e (card_close c)).

Definition commandAPDU (data : list Z) : list Z :=
  let header := [claToken2; insCTAP; 0x03; 0x00] in
  if len data <=? 0xff then header ++ [u8 (len data)] ++ data
  else header ++ [0x00; u8 (Z.shiftr (len data) 8); u8 (len data)] ++ data.

(** The body and the status word of a response. *)
Definition split_response (response : list Z) : list Z * Z * Z :=
  let n := (length response - 2)%nat in
  (take n response, nth n response 0, nth (S n) response 0).

(** The loop of [exchange]: every turn but the last transmits once, so the
    answers of the card bound it. *)
Fixpoint exchange_loop (fuel : nat) (cla : Z) (data response : list Z) : M card (list Z) :=
  if len response <? 2 then fail ErrInvalidResponse
  else
    let '(body, sw1, sw2) := split_response response in
    let data := data ++ body in
    if sw1 =? 0x90 then
      if negb (sw2 =? 0x00) then fail (EAPDU sw1 sw2) else mret data
    else if sw1 =? 0x61 then
      match fuel with
      | O => blocked
      | S fuel' =>
          Transmit [cla; insGetResponse; 0x00; 0x00; sw2] ≫= fun response' =>
          exchange_loop fuel' cla data response'
      end
    else fail (EAPDU sw1 sw2).

Definition exchange (apdu : list Z) : M card (list Z) :=
  Transmit apdu ≫= fun response =>
  get ≫= fun c =>
  exchange_loop (S (length (answers c))) (nth 0 apdu 0) [] response.

Definition isTransmitError (e : error) : bool :=
  match errors_As as_IOError e with Some (IOTransmit, _) => true | _ => false end.

Definition closeOnIOError {A} (e : error) : M card A :=
  if negb (isTransmitError e) then fail e
  else
    ctx_Err ≫= fun ctxErr =>
    match ctxErr with
    | Some c => if errors_Is e c then fail e
                else Close ≫= fun _ => fail (EInvalidated e)
    | None => Close ≫= fun _ => fail (EInvalidated e)
    end.

(** [New] after its nil check. *)
Definition New : M card unit :=
  let selectAPDU := [0x00; 0xa4; 0x04; 0x00; u8 (len appletAID)] ++ appletAID in
  try_ (exchange selectAPDU) ≫= fun r =>
  match r with
  | inr e => fail (EMessage e "token2: select applet")
  | inl _ => mret tt
  end.

Definition CBOR (data : list Z) : M card CBORResponse :=
  if len data <? 1 then fail (EText "token2: empty CTAP command")
  else if maxCommandSize <? len data then fail ErrCommandTooLarge
  else
    ctx_Err ≫= fun ctxErr =>
    match ctxErr with
    | Some e => fail e
    | None =>
        try_ (exchange (commandAPDU data)) ≫= fun r =>
        match r with
        | inr e => closeOnIOError e
        | inl response =>
            if len response <? 1 then fail ErrInvalidResponse
            else lift (ValidateCBORResponse (nth 0 data 0) (response_of response))
        end
    end.

(** ** Lemmas *)

Lemma split_response_app body sw1 sw2 :
  split_response (body ++ [sw1; sw2]) = (body, sw1, sw2).
Proof.
  unfold split_response. rewrite length_app. cbn [length].
  replace (length body + 2 - 2)%nat with (length body) by lia.
  rewrite take_app_length.
  rewrite !app_nth2 by lia. rewrite Nat.sub_diag.
  by replace (S (length body) - length body)%nat with 1%nat by lia.
Qed.

Lemma len_response (body : list Z) sw1 sw2 : (len (body ++ [sw1; sw2]) <? 2) = false.
Proof.
  apply Z.ltb_ge. rewrite len_app. change (len [sw1; sw2]) with 2.
  pose proof (len_nonneg body). lia.
Qed.

(** Each turn of the loop takes an answer: its fuel never ends it. *)
Lemma exchange_loop_enough cla f1 : forall f2 data response c,
  (length (answers c) < f1)%nat -> (length (answers c) < f2)%nat ->
  exchange_loop f1 cla data response c = exchange_loop f2 cla data response c.
Proof.
  induction f1 as [|f1 IH]; intros [|f2] data response c H1 H2; try lia.
  cbn [exchange_loop]. destruct (_ <? 2); [done|].
  destruct (split_response response) as [[body sw1] sw2].
  destruct (sw1 =? 0x90); [done|]. destruct (sw1 =? 0x61); [|done].
  unfold mbind, M_bind, Transmit. destruct (answers c) as [|[r|e| |] rest]; try done.
  apply IH; cbn in *; lia.
Qed.

(** A response given in pieces: each but the last under 61 xx. *)
Definition pieces (ps : list (list Z * Z)) : list (list Z) :=
  (fun p => p.1 ++ [0x61; p.2]) <$> ps.
Definition get_response (cla : Z) (ps : list (list Z * Z)) : list (list Z) :=
  (fun p => [cla; insGetResponse; 0x00; 0x00; p.2]) <$> ps.

Definition live (ans : list (result (list Z))) (sent : list (list Z)) (cc : option error) : card :=
  Card ans [] sent false None cc.

Lemma exchange_loop_pieces cla ps : forall data lastp sw1 sw2 rest sent cc fuel,
  (length ps <= fuel)%nat -> sw1 <> 0x61 ->
  match pieces ps ++ [lastp ++ [sw1; sw2]] with
  | [] => False
  | first :: others =>
      exchange_loop fuel cla data first (live ((Ok <$> others) ++ rest) sent cc) =
        (if (sw1 =? 0x90) && (sw2 =? 0x00)
         then Ok (data ++ concat ps.*1 ++ lastp) else Err (EAPDU sw1 sw2),
         live rest (sent ++ get_response cla ps) cc)
  end.
Proof.
  induction ps as [|[p n] ps IH]; intros data lastp sw1 sw2 rest sent cc fuel Hf Hsw.
  - cbn [pieces fmap list_fmap app get_response concat].
    destruct fuel; cbn [exchange_loop]; rewrite len_response, split_response_app, app_nil_r;
      (destruct (Z.eqb_spec sw1 0x90); [by destruct (Z.eqb_spec sw2 0)|]);
      destruct (Z.eqb_spec sw1 0x61); done.
  - destruct fuel as [|fuel]; [cbn in Hf; lia|].
    cbn [pieces fmap list_fmap app get_response concat fst snd].
    cbn [exchange_loop]. rewrite len_response, split_response_app.
    change (0x61 =? 0x90) with false. change (0x61 =? 0x61) with true. cbn iota.
    specialize (IH (data ++ p) lastp sw1 sw2 rest
      (sent ++ [[cla; insGetResponse; 0x00; 0x00; n]]) cc fuel ltac:(cbn in Hf; lia) Hsw).
    unfold pieces in *. fold (fmap (M := list) (fun p0 : list Z * Z => p0.1 ++ [0x61; p0.2])) in *.
    destruct ((fun p0 : list Z * Z => p0.1 ++ [97; p0.2]) <$> ps) as [|q qs] eqn:Hq; cbn [app] in *.
    all: unfold mbind, M_bind, Transmit, live; cbn [answers fmap list_fmap app looks apdus closed closeErr card_close].
    all: etrans; [exact IH|]; rewrite <- ?(assoc_L (++)); done.
Qed.

Lemma exchange_pieces apdu ps lastp sw1 sw2 rest sent cc :
  sw1 <> 0x61 ->
  exchange apdu (live ((Ok <$> (pieces ps ++ [lastp ++ [sw1; sw2]])) ++ rest) sent cc) =
    (if (sw1 =? 0x90) && (sw2 =? 0x00) then Ok (concat ps.*1 ++ lastp) else Err (EAPDU sw1 sw2),
     live rest (sent ++ apdu :: get_response (nth 0 apdu 0) ps) cc).
Proof.
  intros Hsw.
  pose proof (fun fuel => exchange_loop_pieces (nth 0 apdu 0) ps [] lastp sw1 sw2 rest
    (sent ++ [apdu]) cc fuel) as H.
  destruct (pieces ps ++ [lastp ++ [sw1; sw2]]) as [|first others] eqn:Hp.
  { by destruct (pieces ps). }
  unfold exchange, Transmit, get, mbind, M_bind, live.
  cbn [answers fmap list_fmap app looks apdus closed closeErr card_close].
  etrans; [apply H; [|done]|by rewrite <- (assoc_L (++))].
  rewrite length_app, length_fmap. apply (f_equal length) in Hp.
  rewrite length_app in Hp. unfold pieces in Hp. rewrite length_fmap in Hp. cbn in Hp. lia.
Qed.

(** The command APDU names its data's length where ISO 7816 puts it. *)
Lemma commandAPDU_Lc data :
  1 <= len data <= maxCommandSize ->
  take 4 (commandAPDU data) = [claToken2; insCTAP; 0x03; 0x00] /\
  (if len data <=? 0xff
   then drop 4 (commandAPDU data) = len data :: data
   else exists hi lo, drop 4 (commandAPDU data) = 0x00 :: hi :: lo :: data /\
          get_be16 hi lo = len data).
Proof.
  unfold commandAPDU, maxCommandSize. intros Hd.
  destruct (Z.leb_spec (len data) 0xff); (split; [done|]).
  - cbn. by rewrite u8_id by (unfold is_byte; lia).
  - eexists _, _. split; [done|]. rewrite get_put_be16, u16_id; lia.
Qed.

(** A transmission error closes the card unless it is the context's. *)
Lemma transmit_failed data e ctxErr rest sent cc :
  let io := EIO IOTransmit e in
  (ctx_Err ≫= fun err =>
   match err with
   | Some e => fail e
   | None =>
       try_ (exchange (commandAPDU data)) ≫= fun r =>
       match r with
       | inr e => closeOnIOError e
       | inl response =>
           if len response <? 1 then fail ErrInvalidResponse
           else lift (ValidateCBORResponse (nth 0 data 0) (response_of response))
       end
   end) (Card (Err e :: rest) [None; ctxErr] sent false None cc) =
  (if match ctxErr with Some c => errors_Is io c | None => false end
   then (Err io, Card rest [] (sent ++ [commandAPDU data]) false None cc)
   else (Err (EInvalidated io),
         Card rest [] (sent ++ [commandAPDU data]) true (EIO IOClose <$> cc) cc)).
Proof.
  intros io. erewrite M_bind_Ok by done.
  assert (Hx : exchange (commandAPDU data) (Card (Err e :: rest) [ctxErr] sent false None cc) =
    (Err io, Card rest [ctxErr] (sent ++ [commandAPDU data]) false None cc)) by done.
  cbn iota. rewrite (M_bind_Ok _ _ _ _ _ (try_Err _ _ _ _ Hx)).
  unfold closeOnIOError. change (isTransmitError io) with true. cbn [negb].
  erewrite M_bind_Ok by done. destruct ctxErr as [c|]; [|done].
  by destruct (errors_Is io c).
Qed.

(** A command answered in pieces. *)
Lemma CBOR_pieces data ps lastp sw1 sw2 rest sent cc :
  1 <= len data <= maxCommandSize -> sw1 <> 0x61 ->
  CBOR data (live ((Ok <$> (pieces ps ++ [lastp ++ [sw1; sw2]])) ++ rest) sent cc) =
    (if (sw1 =? 0x90) && (sw2 =? 0x00) then
       match concat ps.*1 ++ lastp with
       | [] => Err ErrInvalidResponse
       | st :: d => ValidateCBORResponse (nth 0 data 0) (MkCBORResponse st d)
       end
     else Err (EAPDU sw1 sw2),
     live rest (sent ++ commandAPDU data :: get_response claToken2 ps) cc).
Proof.
  intros Hlen Hsw. unfold CBOR.
  destruct (Z.ltb_spec (len data) 1); [lia|]. destruct (Z.ltb_spec maxCommandSize (len data)); [lia|].
  assert (Hcla : nth 0 (commandAPDU data) 0 = claToken2).
  { unfold commandAPDU. by destruct (_ <=? _). }
  pose proof (exchange_pieces (commandAPDU data) ps lastp sw1 sw2 rest sent cc Hsw) as Hx.
  rewrite Hcla in Hx. unfold mbind at 1, M_bind at 1. cbn [ctx_Err live looks].
  fold (live ((Ok <$> (pieces ps ++ [lastp ++ [sw1; sw2]])) ++ rest) sent cc).
  destruct ((sw1 =? 0x90) && (sw2 =? 0x00)).
  - rewrite (M_bind_Ok _ _ _ _ _ (try_Ok _ _ _ _ Hx)).
    destruct (concat ps.*1 ++ lastp) as [|st d]; [done|].
    rewrite len_cons. pose proof (len_nonneg d). destruct (Z.ltb_spec (1 + len d) 1); [lia|].
    by unfold response_of; cbn [nth drop skipn]; rewrite drop_0.
  - by rewrite (M_bind_Ok _ _ _ _ _ (try_Err _ _ _ _ Hx)).
Qed.

(** ** Properties *)

(** A CTAP command goes out in one APDU whose Lc is its length, short up
    to 255 bytes and extended above; the response is the concatenation of
    the pieces the card hands out under status 61xx, each fetched by a GET
    RESPONSE of the class and length the card announced, and any other
    status but 9000 is an APDUError. A transmission that fails closes the
    card and invalidates it, unless it failed because the context ended. *)
Theorem token2_exchange data ps lastp sw1 sw2 rest sent cc :
  1 <= len data <= maxCommandSize -> sw1 <> 0x61 ->
  (take 4 (commandAPDU data) = [claToken2; insCTAP; 0x03; 0x00] /\
   if len data <=? 0xff
   then drop 4 (commandAPDU data) = len data :: data
   else exists hi lo, drop 4 (commandAPDU data) = 0x00 :: hi :: lo :: data /\
          get_be16 hi lo = len data) /\
  CBOR data (live ((Ok <$> (pieces ps ++ [lastp ++ [sw1; sw2]])) ++ rest) sent cc) =
    (if (sw1 =? 0x90) && (sw2 =? 0x00) then
       match concat ps.*1 ++ lastp with
       | [] => Err ErrInvalidResponse
       | st :: d => ValidateCBORResponse (nth 0 data 0) (MkCBORResponse st d)
       end
     else Err (EAPDU sw1 sw2),
     live rest (sent ++ commandAPDU data :: get_response claToken2 ps) cc) /\
  (forall e ctxErr, let io := EIO IOTransmit e in
   CBOR data (Card (Err e :: rest) [None; ctxErr] sent false None cc) =
     let apdus' := sent ++ [commandAPDU data] in
     if match ctxErr with Some c => errors_Is io c | None => false end
     then (Err io, Card rest [] apdus' false None cc)
     else (Err (EInvalidated io), Card rest [] apdus' true (EIO IOClose <$> cc) cc)).
Proof.
  intros Hlen Hsw. split; [by apply commandAPDU_Lc|]. split; [by apply CBOR_pieces|].
  intros e ctxErr. unfold CBOR.
  destruct (Z.ltb_spec (len data) 1); [lia|]. destruct (Z.ltb_spec maxCommandSize (len data)); [lia|].
  apply (transmit_failed data e ctxErr rest sent cc).
Qed.

Lemma token2_exchange_witness :
  CBOR [4] (live [Ok [0; 1; 0x61; 2]; Ok [2; 3; 0x90; 0]] [] None) =
    (Ok (MkCBORResponse 0 [1; 2; 3]),
     live [] [[0x80; 0xc5; 3; 0; 1; 4]; [0x80; 0xc0; 0; 0; 2]] None).
Proof.
  destruct (token2_exchange [4] [([0; 1], 2)] [2; 3] 0x90 0 [] [] None) as (_ & H & _).
  - vm_compute. split; discriminate.
  - discriminate.
  - exact H.
Defined.
