(* ===== verification/Iso7816.v ===== *)
(** * CTAP over the FIDO ISO 7816 applet (src/transport/iso7816/iso7816.go)

    The APDU layer (command chaining, the exchange of one command with its
    61xx continuation, status words) is the library's iso7816 package: its
    functions are parameters, and what its exchanges with the card return is
    part of the history of the card. *)
From S2P Require Import Prelude GoError Transport.

(** ** Commands and responses of the APDU layer *)

Record command := Command { CLA : Z; INS : Z; P1 : Z; CData : list Z; Le : Z }.
Record response := Response { Status : Z; RData : list Z }.

Definition set_P1 (p1 : Z) (c : command) : command :=
  Command (CLA c) (INS c) p1 (CData c) (Le c).

Definition ErrCommandTooLarge : error := ESentinel "iso7816: CTAP command is too large".
Definition ErrUnsupportedVersion : error :=
  ESentinel "iso7816: unsupported FIDO applet version".

Definition fidoAppletAID : list Z := [0xa0; 0x00; 0x00; 0x06; 0x47; 0x2f; 0x00; 0x01].
Definition claISO : Z := 0x00.
Definition claCTAP : Z := 0x80.
Definition insSelect : Z := 0xa4.
Definition insNFCCTAPMsg : Z := 0x10.
Definition insNFCCTAPGetResponse : Z := 0x11.
Definition insNFCCTAPControl : Z := 0x12.
Definition p1SelectByName : Z := 0x04.
Definition p1SupportsGetResponse : Z := 0x80.
Definition p1EndCTAPMsg : Z := 0x01.
Definition p1Cancel : Z := 0x11.
Definition statusResponse : Z := 0x91.
Definition statusResponseFinal : Z := 0x00.
Definition shortCommandFragmentSize : Z := 240.
Definition maxMessageSize : Z := 0xffff.

Definition selectAppletCommand : command :=
  Command claISO insSelect p1SelectByName fidoAppletAID 256.
Definition getResponseCommand : command :=
  Command claCTAP insNFCCTAPGetResponse 0 [] 256.
Definition cancelGetResponseCommand : command :=
  Command claCTAP insNFCCTAPGetResponse p1Cancel [] 256.
Definition endSessionCommand : command :=
  Command claCTAP insNFCCTAPControl p1EndCTAPMsg [] 0.

(** The versions [New] accepts, as the bytes of their names. *)
Definition FIDO_2_0 : list Z := bytes_of_string "FIDO_2_0".
Definition U2F_V2 : list Z := bytes_of_string "U2F_V2".

(** ** The card

    [exchanges]: what the next [Transmit] and [Exchange] of the APDU layer
    return, I/O errors marked by [ioCard]; [looks]: the context's error at
    the next looks; [sent]: the commands given to the layer. *)
Inductive operation := OpTransmit | OpExchange.

Record card := Card {
  exchanges : list (result response);
  looks : list (option error);
  sent : list (operation * command);
  closed : bool;
  closeErr : option error;
  card_close : option error }.

Definition ctx_Err : M card (option error) := fun c =>
  match looks c with
  | [] => (Ok None, c)
  | l :: rest => (Ok l, Card (exchanges c) rest (sent c) (closed c) (closeErr c) (card_close c))
  end.

Definition perform (op : operation) (cmd : command) : M card response := fun c =>
  match exchanges c with
  | [] => (Blocked, c)
  | r :: rest =>
      (r, Card rest (looks c) (sent c ++ [(op, cmd)]) (closed c) (closeErr c) (card_close c))
  end.
Abbreviation Transmit := (perform OpTransmit).
Abbreviation Exchange := (perform OpExchange).

Section Transport.
(** The APDU layer. *)
Context (Chain : command -> Z -> result (list command)).
Context (APDUError : response -> option error).
Context (StatusSuccess : Z) (NewStatusWord : Z -> Z -> Z).
Context (ErrInvalidResponse : error).

Definition set_closed (e : option error) : M card unit := modify (fun c =>
  Card (exchanges c) (looks c) (sent c) true e (card_close c)).

(** [Close], by a caller that holds the transport's lock or by one that
    takes it; the body runs once. *)
Definition Close (locked : bool) : M card (option error) :=
  get ≫= fun c =>
  (if closed c then mret tt
   else if locked then set_closed (EIO IOClose <$> card_close c)
   else
     try_ (Transmit endSessionCommand) ≫= fun r =>
     let endErr :=
       match r with
       | inr e => Some e
       | inl resp => if negb (Status resp =? StatusSuccess) then APDUError resp else None
       end in
     let endErr := (fun e => EMessage e "iso7816: end FIDO applet session") <$> endErr in
     set_closed (errors_Join endErr (EIO IOClose <$> card_close c))) ≫= fun _ =>
  get ≫= fun c' => mret (closeErr c').

(** [New] after its nil check. *)
Definition New : M card unit :=
  try_ (Exchange selectAppletCommand) ≫= fun r =>
  match r with
  | inr e => fail (EMessage e "iso7816: select FIDO applet")
  | inl resp =>
      if negb (Status resp =? StatusSuccess)
      then fail (EMessage (default (EText "nil") (APDUError resp)) "iso7816: select FIDO applet")
      else if bool_decide (RData resp = FIDO_2_0) || bool_decide (RData resp = U2F_V2)
      then mret tt
      else fail (EMessage ErrUnsupportedVersion "version")
  end.

Definition cancelPolling {A} (originalErr : error) : M card A :=
  try_ (Exchange cancelGetResponseCommand) ≫= fun r =>
  let ok :=
    match r with
    | inr _ => false
    | inl resp =>
        negb (negb (Status resp =? StatusSuccess) || negb (len (RData resp) =? 1)
              || negb (nth 0 (RData resp) 0 =? CTAP2_ERR_KEEPALIVE_CANCEL))
    end in
  if ok then fail originalErr
  else Close true ≫= fun _ => fail (EInvalidated originalErr).

(** The fragments before the last: each is acknowledged with no data. *)
Fixpoint transmit_all (commands : list command) : M card unit :=
  match commands with
  | [] => mret tt
  | cmd :: rest =>
      Transmit cmd ≫= fun resp =>
      match APDUError resp with
      | Some e => fail e
      | None =>
          if negb (len (RData resp) =? 0) then fail ErrInvalidResponse
          else transmit_all rest
      end
  end.

(** The polling loop; every turn exchanges once, so the exchanges left
    bound it. *)
Fixpoint poll (fuel : nat) (resp : response) : M card response :=
  if negb (Status resp =? NewStatusWord statusResponse statusResponseFinal) then mret resp
  else if negb (len (RData resp) =? 1) then fail ErrInvalidResponse
  else
    ctx_Err ≫= fun ctxErr =>
    match ctxErr with
    | Some c => cancelPolling c
    | None =>
        match fuel with
        | O => blocked
        | S fuel' =>
            try_ (Exchange getResponseCommand) ≫= fun r =>
            match r with
            | inr e =>
                ctx_Err ≫= fun ctxErr =>
                match ctxErr with
                | Some c => if errors_Is e c then cancelPolling e else fail e
                | None => fail e
                end
            | inl resp' => poll fuel' resp'
            end
        end
    end.

Definition exchangeCTAP (data : list Z) : M card (list Z) :=
  lift (Chain (Command claCTAP insNFCCTAPMsg 0 data 256) shortCommandFragmentSize) ≫= fun commands =>
  match last commands with
  | None => panic
  | Some final =>
      transmit_all (take (length commands - 1) commands) ≫= fun _ =>
      Exchange (set_P1 p1SupportsGetResponse final) ≫= fun resp =>
      get ≫= fun c =>
      poll (S (length (exchanges c))) resp ≫= fun resp' =>
      match APDUError resp' with
      | Some e => fail e
      | None => mret (RData resp')
      end
  end.

Definition isTransmitError (e : error) : bool :=
  match errors_As as_IOError e with Some (IOTransmit, _) => true | _ => false end.

Definition closeOnIOError {A} (e : error) : M card A :=
  if negb (isTransmitError e) then fail e
  else
    ctx_Err ≫= fun ctxErr =>
    match ctxErr with
    | Some c => if errors_Is e c then fail e
                else Close true ≫= fun _ => fail (EInvalidated e)
    | None => Close true ≫= fun _ => fail (EInvalidated e)
    end.

Definition CBOR (data : list Z) : M card CBORResponse :=
  if len data <? 1 then fail (EText "iso7816: empty CTAP command")
  else if maxMessageSize <? len data then fail ErrCommandTooLarge
  else
    ctx_Err ≫= fun ctxErr =>
    match ctxErr with
    | Some e => fail e
    | None =>
        try_ (exchangeCTAP data) ≫= fun r =>
        match r with
        | inr e => closeOnIOError e
        | inl resp =>
            if len resp <? 1 then fail ErrInvalidResponse
            else lift (ValidateCBORResponse (nth 0 data 0) (response_of resp))
        end
    end.

(** ** Lemmas *)

(** What the APDU layer documents: a success status carries no error. *)
Hypothesis APDUError_success : forall r, Status r = StatusSuccess -> APDUError r = None.

Lemma perform_fuel op cmd c r c' :
  perform op cmd c = (r, c') -> r = Blocked \/ (length (exchanges c') < length (exchanges c))%nat.
Proof using. unfold perform. destruct (exchanges c); intros [= <- <-]; [by left|right; cbn; lia]. Qed.

Lemma ctx_Err_exchanges c : exists l c', ctx_Err c = (Ok l, c') /\ exchanges c' = exchanges c.
Proof using. unfold ctx_Err. destruct (looks c); eauto. Qed.

(** The fuel of the polling loop is never what ends it. *)
Lemma poll_enough f1 : forall f2 resp c,
  (length (exchanges c) < f1)%nat -> (length (exchanges c) < f2)%nat ->
  poll f1 resp c = poll f2 resp c.
Proof using.
  induction f1 as [|f1 IH]; intros [|f2] resp c H1 H2; try lia.
  cbn [poll]. destruct (negb _); [done|]. destruct (negb _); [done|].
  destruct (ctx_Err_exchanges c) as (l & c1 & Hc & He).
  rewrite !(M_bind_Ok _ _ _ _ _ Hc). destruct l; [done|].
  unfold mbind, M_bind, try_. destruct (Exchange getResponseCommand c1) as [[r|e| |] c2] eqn:Hp; try done.
  apply perform_fuel in Hp as [?|Hlt]; [done|]. rewrite He in Hlt. apply IH; lia.
Qed.

Definition live (ex : list (result response)) (lk : list (option error))
    (cmds : list (operation * command)) (cc : option error) : card :=
  Card ex lk cmds false None cc.

Definition ack : result response := Ok (Response StatusSuccess []).
Definition pending (b : Z) : result response :=
  Ok (Response (NewStatusWord statusResponse statusResponseFinal) [b]).

Lemma transmit_all_acks cmds : forall ex lk before cc,
  transmit_all cmds (live (replicate (length cmds) ack ++ ex) lk before cc) =
    (Ok tt, live ex lk (before ++ ((fun c => (OpTransmit, c)) <$> cmds)) cc).
Proof using APDUError_success.
  induction cmds as [|c cmds IH]; intros ex lk before cc; cbn [transmit_all].
  - by rewrite app_nil_r.
  - unfold mbind, M_bind, perform, live. cbn. rewrite APDUError_success by done. cbn.
    etrans; [apply IH|]. unfold live. by rewrite <- (assoc_L (++)).
Qed.

(** [bs] pending answers, then [tl]: the loop has polled once for each. *)
Lemma poll_pending bs : forall b resp tl lk before cc fuel,
  (S (length bs) <= fuel)%nat -> pending b = Ok resp ->
  Status tl <> NewStatusWord statusResponse statusResponseFinal ->
  forall ex,
  poll fuel resp (live ((pending <$> bs) ++ Ok tl :: ex) (replicate (S (length bs)) None ++ lk)
    before cc) =
  (Ok tl, live ex lk (before ++ replicate (S (length bs)) (OpExchange, getResponseCommand)) cc).
Proof using.
  induction bs as [|b' bs IH]; intros b resp tl lk before cc fuel Hf Hp Htl ex;
    (destruct fuel as [|fuel]; [lia|]); unfold pending in Hp; injection Hp as <-;
    cbn [poll Status RData]; rewrite Z.eqb_refl; cbn [negb];
    change (len [b] =? 1) with true; cbn [negb].
  - unfold mbind, M_bind, try_, ctx_Err, perform, live. cbn.
    destruct fuel; cbn [poll]; by destruct (Z.eqb_spec (Status tl)
      (NewStatusWord statusResponse statusResponseFinal)).
  - unfold mbind at 1, M_bind at 1. cbn [ctx_Err live looks replicate app].
    unfold mbind, M_bind, try_, perform, live. cbn [exchanges fmap list_fmap app pending looks sent closed closeErr card_close].
    etrans; [apply (IH b'); [cbn in Hf; lia|done|done]|].
    cbn [length replicate]. by rewrite <- (assoc_L (++)).
Qed.

(** A cancellation while polling: only the authenticator's confirmation
    that the command was cancelled keeps the card open. *)
Definition confirmed (r : result response) : bool :=
  match r with
  | Ok resp => (Status resp =? StatusSuccess) && (len (RData resp) =? 1)
               && (nth 0 (RData resp) 0 =? CTAP2_ERR_KEEPALIVE_CANCEL)
  | _ => false
  end.

Lemma cancelPolling_outcome {A} e r ex lk before cc :
  match r with Ok _ | Err _ => True | _ => False end ->
  @cancelPolling A e (live (r :: ex) lk before cc) =
    (if confirmed r then
       (Err e, live ex lk (before ++ [(OpExchange, cancelGetResponseCommand)]) cc)
     else (Err (EInvalidated e),
           Card ex lk (before ++ [(OpExchange, cancelGetResponseCommand)]) true
             (EIO IOClose <$> cc) cc)).
Proof using.
  intros Hr. unfold cancelPolling, mbind, M_bind, try_, perform, live.
  cbn [exchanges looks sent closed closeErr card_close].
  destruct r as [resp|e'| |]; try done. unfold confirmed.
  destruct (Status resp =? StatusSuccess), (len (RData resp) =? 1),
    (nth 0 (RData resp) 0 =? CTAP2_ERR_KEEPALIVE_CANCEL); done.
Qed.

Lemma poll_cancelled bs : forall b resp e r lk before cc fuel ex,
  (S (length bs) <= fuel)%nat -> pending b = Ok resp ->
  match r with Ok _ | Err _ => True | _ => False end ->
  poll fuel resp (live ((pending <$> bs) ++ r :: ex)
      (replicate (length bs) None ++ Some e :: lk) before cc) =
    let cmds := before ++ replicate (length bs) (OpExchange, getResponseCommand)
                  ++ [(OpExchange, cancelGetResponseCommand)] in
    if confirmed r then (Err e, live ex lk cmds cc)
    else (Err (EInvalidated e), Card ex lk cmds true (EIO IOClose <$> cc) cc).
Proof using.
  induction bs as [|b' bs IH]; intros b resp e r lk before cc fuel ex Hf Hp Hr;
    (destruct fuel as [|fuel]; [lia|]); unfold pending in Hp; injection Hp as <-;
    cbn [poll Status RData]; rewrite Z.eqb_refl; cbn [negb];
    change (len [b] =? 1) with true; cbn [negb];
    unfold mbind at 1, M_bind at 1; cbn [ctx_Err live looks replicate app length].
  - by rewrite <- (cancelPolling_outcome e r ex lk before cc Hr).
  - unfold mbind, M_bind, try_, perform, live.
    cbn [exchanges fmap list_fmap app pending looks sent closed closeErr card_close].
    etrans; [apply (IH b'); [cbn in Hf; lia|done|done]|].
    by rewrite <- (assoc_L (++)).
Qed.

(** A poll that fails ends the loop: with the cancelling poll when it failed
    for the context's end. *)
Lemma poll_failed bs : forall b resp e l lk before cc fuel ex,
  (S (length bs) <= fuel)%nat -> pending b = Ok resp ->
  poll fuel resp (live ((pending <$> bs) ++ Err e :: ex)
      (replicate (S (length bs)) None ++ l :: lk) before cc) =
    (match l with
     | Some c => if errors_Is e c then cancelPolling e else fail e
     | None => fail e
     end) (live ex lk (before ++ replicate (S (length bs)) (OpExchange, getResponseCommand)) cc).
Proof using.
  induction bs as [|b' bs IH]; intros b resp e l lk before cc fuel ex Hf Hp;
    (destruct fuel as [|fuel]; [lia|]); unfold pending in Hp; injection Hp as <-;
    cbn [poll Status RData]; rewrite Z.eqb_refl; cbn [negb];
    change (len [b] =? 1) with true; cbn [negb];
    unfold mbind at 1, M_bind at 1; cbn [ctx_Err live looks replicate app length]; [by destruct l|].
  unfold mbind, M_bind, try_, perform, live.
  cbn [exchanges fmap list_fmap app pending looks sent closed closeErr card_close].
  etrans; [apply (IH b'); [cbn in Hf; lia|done]|].
  by rewrite <- (assoc_L (++)).
Qed.

(** Leaving [CBOR] with a failed exchange: a transmit error closes the card
    unless it is the context's. *)
Lemma closeOnIOError_outcome {A} e l ex lk cmds cc :
  @closeOnIOError A e (live ex (l :: lk) cmds cc) =
    if isTransmitError e then
      if match l with Some c => errors_Is e c | None => false end
      then (Err e, live ex lk cmds cc)
      else (Err (EInvalidated e), Card ex lk cmds true (EIO IOClose <$> cc) cc)
    else (Err e, live ex (l :: lk) cmds cc).
Proof using.
  unfold closeOnIOError. destruct (isTransmitError e); [|done]. destruct l as [c|]; [|done].
  unfold mbind at 1, M_bind at 1. cbn [negb ctx_Err live looks].
  by destruct (errors_Is e c).
Qed.

(** The fragments, their acknowledgements, and the first response. *)
Lemma exchangeCTAP_poll data commands final before_last r0 ex lk cmds cc k :
  Chain (Command claCTAP insNFCCTAPMsg 0 data 256) shortCommandFragmentSize = Ok commands ->
  commands = before_last ++ [final] ->
  (length ex < k)%nat ->
  exchangeCTAP data (live (replicate (length before_last) ack ++ Ok r0 :: ex) lk cmds cc) =
    (poll k r0 ≫= fun resp' =>
     match APDUError resp' with Some e => fail e | None => mret (RData resp') end)
    (live ex lk (cmds ++ ((fun c => (OpTransmit, c)) <$> before_last)
       ++ [(OpExchange, set_P1 p1SupportsGetResponse final)]) cc).
Proof using APDUError_success.
  intros HC -> Hk. unfold exchangeCTAP. erewrite M_bind_Ok; [|by cbn; rewrite HC].
  rewrite last_snoc, length_app. cbn [length].
  replace (length before_last + 1 - 1)%nat with (length before_last) by lia.
  rewrite take_app_length. rewrite (M_bind_Ok _ _ _ _ _ (transmit_all_acks _ _ _ _ _)).
  erewrite M_bind_Ok; [|unfold perform, live; cbn [exchanges looks sent closed closeErr card_close];
    reflexivity].
  erewrite M_bind_Ok by done. cbn [exchanges live]. rewrite <- (assoc_L (++)).
  unfold mbind, M_bind. by rewrite (poll_enough (S (length ex)) k) by (cbn; lia).
Qed.

(** A context that has ended when the card answers pending. *)
Lemma exchangeCTAP_cancelled data before_last final b bs c r lk ex cmds cc :
  Chain (Command claCTAP insNFCCTAPMsg 0 data 256) shortCommandFragmentSize = Ok (before_last ++ [final]) ->
  match r with Ok _ | Err _ => True | _ => False end ->
  exchangeCTAP data (live (replicate (length before_last) ack ++ pending b :: (pending <$> bs) ++ r :: ex)
    (replicate (length bs) None ++ Some c :: lk) cmds cc) =
  (let after := ((cmds ++ ((fun c => (OpTransmit, c)) <$> before_last)
       ++ [(OpExchange, set_P1 p1SupportsGetResponse final)])
     ++ replicate (length bs) (OpExchange, getResponseCommand))
     ++ [(OpExchange, cancelGetResponseCommand)] in
   if confirmed r then (Err c, live ex lk after cc)
   else (Err (EInvalidated c), Card ex lk after true (EIO IOClose <$> cc) cc)).
Proof using APDUError_success.
  intros HC Hr. cbn zeta.
  rewrite <- (assoc_L (++) _ (replicate _ _)). unfold pending at 1. erewrite exchangeCTAP_poll; [|done|done|constructor].
  unfold mbind, M_bind. erewrite poll_cancelled; [|rewrite length_app, length_fmap; cbn; lia|done|done].
  by destruct (confirmed r).
Qed.

(** A poll that fails. *)
Lemma exchangeCTAP_failed data before_last final b bs e l lk ex cmds cc :
  Chain (Command claCTAP insNFCCTAPMsg 0 data 256) shortCommandFragmentSize = Ok (before_last ++ [final]) ->
  exchangeCTAP data (live (replicate (length before_last) ack ++ pending b :: (pending <$> bs) ++ Err e :: ex)
    (replicate (S (length bs)) None ++ l :: lk) cmds cc) =
  ((match l with
    | Some c => if errors_Is e c then cancelPolling e else fail e
    | None => fail e
    end) ≫= fun resp' => match APDUError resp' with Some e => fail e | None => mret (RData resp') end)
  (live ex lk ((cmds ++ ((fun c => (OpTransmit, c)) <$> before_last)
       ++ [(OpExchange, set_P1 p1SupportsGetResponse final)])
     ++ replicate (S (length bs)) (OpExchange, getResponseCommand)) cc).
Proof using APDUError_success.
  intros HC. unfold pending at 1. erewrite exchangeCTAP_poll; [|done|done|constructor].
  unfold mbind at 1, M_bind at 1.
  erewrite poll_failed; [|rewrite length_app, length_fmap; cbn; lia|done]. done.
Qed.

(** An exchange on a live card, under a context that stays live. *)
Lemma CBOR_live data e l c cc : 1 <= len data <= maxMessageSize ->
  CBOR data (live e (None :: l) c cc) =
  (try_ (exchangeCTAP data) ≫= fun r => match r with
    | inr e => closeOnIOError e
    | inl resp => if len resp <? 1 then fail ErrInvalidResponse
        else lift (ValidateCBORResponse (nth 0 data 0) (response_of resp))
    end) (live e l c cc).
Proof using.
  intros Hlen. unfold CBOR. destruct (Z.ltb_spec (len data) 1); [lia|].
  by destruct (Z.ltb_spec maxMessageSize (len data)); [lia|].
Qed.

(** A command answered after any number of pending statuses. *)
Lemma CBOR_polled data before_last final bs st rdata lk ex cmds cc :
  NewStatusWord statusResponse statusResponseFinal <> StatusSuccess ->
  Chain (Command claCTAP insNFCCTAPMsg 0 data 256) shortCommandFragmentSize = Ok (before_last ++ [final]) ->
  1 <= len data <= maxMessageSize ->
  CBOR data (live (replicate (length before_last) ack ++ (pending <$> bs)
                     ++ Ok (Response StatusSuccess (st :: rdata)) :: ex)
               (None :: replicate (length bs) None ++ lk) cmds cc) =
  (ValidateCBORResponse (nth 0 data 0) (MkCBORResponse st rdata),
   live ex lk (cmds ++ ((fun c => (OpTransmit, c)) <$> before_last)
     ++ (OpExchange, set_P1 p1SupportsGetResponse final)
     :: replicate (length bs) (OpExchange, getResponseCommand)) cc).
Proof using APDUError_success.
  intros Hpend HC Hlen. rewrite CBOR_live by done.
  assert (Hx : exchangeCTAP data
    (live (replicate (length before_last) ack ++ (pending <$> bs) ++ Ok (Response StatusSuccess (st :: rdata)) :: ex)
       (replicate (length bs) None ++ lk) cmds cc) =
    (Ok (st :: rdata),
     live ex lk (cmds ++ ((fun c => (OpTransmit, c)) <$> before_last)
       ++ (OpExchange, set_P1 p1SupportsGetResponse final)
       :: replicate (length bs) (OpExchange, getResponseCommand)) cc)).
  { destruct bs as [|b bs]; cbn [fmap list_fmap app length replicate].
    - erewrite exchangeCTAP_poll; [|done|done|constructor].
      erewrite M_bind_Ok; [|cbn [poll Status]; rewrite (proj2 (Z.eqb_neq _ _)) by congruence; done].
      cbn [Status RData]. by rewrite APDUError_success.
    - change (pending b) with (@Ok response (Response (NewStatusWord statusResponse statusResponseFinal) [b])).
      erewrite exchangeCTAP_poll; [|done|done|constructor].
      erewrite M_bind_Ok; [|apply (poll_pending bs b _ (Response StatusSuccess (st :: rdata)));
        [rewrite length_app, length_fmap; cbn; lia|done|cbn; congruence]].
      cbn [Status RData]. rewrite APDUError_success by done. rewrite <- !(assoc_L (++)). done. }
  rewrite (M_bind_Ok _ _ _ _ _ (try_Ok _ _ _ _ Hx)).
  rewrite len_cons. pose proof (len_nonneg rdata). destruct (Z.ltb_spec (1 + len rdata) 1); [lia|].
  unfold response_of; cbn [nth drop skipn lift]. by rewrite drop_0.
Qed.
End Transport.

(** ** Properties *)


(** *** A concrete layer: one fragment per command, status words as two bytes *)

Definition sample_Chain (c : command) (_ : Z) : result (list command) := Ok [c].
Definition sample_APDUError (r : response) : option error :=
  if Status r =? 0x9000 then None else Some (EText "apdu").
Definition sample_StatusWord (sw1 sw2 : Z) : Z := Z.lor (Z.shiftl sw1 8) sw2.
Definition sample_message : command := Command claCTAP insNFCCTAPMsg 0 [4] 256.

