(* ===== verification/Protocol.v ===== *)
(** * Protocol data (src/protocol)

    Commands, options, permissions and the authenticatorGetInfo response of
    [consts.go], [permission.go] and [get_info.go], the names of [names.go],
    and the authenticator-data parser of [helpers.go]. CBOR itself is a
    library the source calls: its decoder is a parameter. *)
From S2P Require Import Prelude GoError.

(** ** Versions *)

Definition FIDO_2_0 : string := "FIDO_2_0".
Definition FIDO_2_1_PRE : string := "FIDO_2_1_PRE".
Definition FIDO_2_1 : string := "FIDO_2_1".
Definition FIDO_2_3 : string := "FIDO_2_3".
Definition U2F_V2 : string := "U2F_V2".

Definition PinUvAuthProtocolOne : Z := 1.
Definition PinUvAuthProtocolTwo : Z := 2.

Definition Supports (vv : list string) (ver : string) : bool :=
  existsb (fun v => bool_decide (v = ver)) vv.

(** The loop of [IsPreviewOnly] over its four flags. *)
Definition preview_flags (vv : list string) : bool * bool * bool * bool :=
  foldl (fun '(two, pre, one, three) v =>
    if bool_decide (v = FIDO_2_0) then (true, pre, one, three)
    else if bool_decide (v = FIDO_2_1_PRE) then (two, true, one, three)
    else if bool_decide (v = FIDO_2_1) then (two, pre, true, three)
    else if bool_decide (v = FIDO_2_3) then (two, pre, one, true)
    else (two, pre, one, three)) (false, false, false, false) vv.

Definition IsPreviewOnly (vv : list string) : bool :=
  let '(fidoTwo, fidoTwoOnePre, fidoTwoOne, fidoTwoThree) := preview_flags vv in
  fidoTwo && (negb fidoTwoOne && negb fidoTwoThree && fidoTwoOnePre).

(** ** Options *)

Definition OptionPlatformDevice : string := "plat".
Definition OptionResidentKeys : string := "rk".
Definition OptionClientPIN : string := "clientPin".
Definition OptionUserPresence : string := "up".
Definition OptionUserVerification : string := "uv".
Definition OptionUvToken : string := "uvToken".
Definition OptionPinUvAuthToken : string := "pinUvAuthToken".
Definition OptionNoMcGaPermissionsWithClientPin : string := "noMcGaPermissionsWithClientPin".
Definition OptionLargeBlobs : string := "largeBlobs".
Definition OptionEnterpriseAttestation : string := "ep".
Definition OptionBioEnroll : string := "bioEnroll".
Definition OptionUserVerificationMgmtPreview : string := "userVerificationMgmtPreview".
Definition OptionUvBioEnroll : string := "uvBioEnroll".
Definition OptionAuthenticatorConfig : string := "authnrCfg".
Definition OptionUvAcfg : string := "uvAcfg".
Definition OptionCredentialManagement : string := "credMgmt".
Definition OptionPersistentCredentialManagementReadOnly : string := "perCredMgmtRO".
Definition OptionCredentialManagementPreview : string := "credentialMgmtPreview".
Definition OptionSetMinPINLength : string := "setMinPINLength".
Definition OptionMakeCredentialUvNotRequired : string := "makeCredUvNotRqd".
Definition OptionAlwaysUv : string := "alwaysUv".

(** ** Permissions *)

Definition PermissionNone : Z := 0x00.
Definition PermissionMakeCredential : Z := 0x01.
Definition PermissionGetAssertion : Z := 0x02.
Definition PermissionCredentialManagement : Z := 0x04.
Definition PermissionBioEnrollment : Z := 0x08.
Definition PermissionLargeBlobWrite : Z := 0x10.
Definition PermissionAuthenticatorConfiguration : Z := 0x20.
Definition PermissionPersistentCredentialManagementReadOnly : Z := 0x40.

Definition namedPermissions : list (Z * string) :=
  [(PermissionMakeCredential, "mc"); (PermissionGetAssertion, "ga");
   (PermissionCredentialManagement, "cm"); (PermissionBioEnrollment, "be");
   (PermissionLargeBlobWrite, "lbw"); (PermissionAuthenticatorConfiguration, "acfg");
   (PermissionPersistentCredentialManagementReadOnly, "pcmr")].

Definition namedUserVerifications : list (Z * string) :=
  [(0x00000001, "presence_internal"); (0x00000002, "fingerprint_internal");
   (0x00000004, "passcode_internal"); (0x00000008, "voiceprint_internal");
   (0x00000010, "faceprint_internal"); (0x00000020, "location_internal");
   (0x00000040, "eyeprint_internal"); (0x00000080, "pattern_internal");
   (0x00000100, "handprint_internal"); (0x00000200, "none"); (0x00000400, "all");
   (0x00000800, "passcode_external"); (0x00001000, "pattern_external")].

(** [%x]: lower-case hexadecimal digits, at least [width] of them. *)
Definition hex_digit (d : Z) : string :=
  String (Ascii.ascii_of_N (Z.to_N (if d <? 10 then d + 48 else d + 87))) "".
Fixpoint hex_digits (fuel : nat) (v : Z) : string :=
  match fuel with
  | O => ""
  | S fuel' =>
      (if v <? 16 then "" else hex_digits fuel' (Z.shiftr v 4)) +:+ hex_digit (Z.land v 15)
  end.
Definition hex (width : nat) (v : Z) : string :=
  let digits := hex_digits 16 v in
  String.concat "" (replicate (width - String.length digits) "0"%string) +:+ digits.

Fixpoint strings_Join (parts : list string) (sep : string) : string :=
  match parts with
  | [] => ""
  | [p] => p
  | p :: rest => p +:+ sep +:+ strings_Join rest sep
  end.

(** The common body of [Permission.String] and [UserVerify.String]: the
    names of the set bits in order, then the unnamed bits. *)
Definition bit_names (names : list (Z * string)) (width : nat) (v : Z) : string :=
  let parts := (snd <$> filter (fun n => has_bit v n.1 = true) names) in
  let known := foldl (fun acc n => Z.lor acc n.1) 0 names in
  let unknown := Z.ldiff v known in
  strings_Join
    (if negb (unknown =? 0) then parts ++ ["unknown(0x" +:+ hex width unknown +:+ ")"]
     else parts) ",".

Definition Permission_String (p : Z) : string :=
  if p =? PermissionNone then "none" else bit_names namedPermissions 2 p.
Definition UserVerify_String (uv : Z) : string :=
  if uv =? 0 then "" else bit_names namedUserVerifications 1 uv.

(** ** authenticatorGetInfo *)

Definition DefaultMaxMsgSize : Z := 1024.
Definition DefaultMinPINCodePoints : Z := 4.
Definition DefaultMaxPINCodePoints : Z := 63.

(** Byte-string and pointer members that may be absent are options; the
    unsigned members are 64-bit [uint]s. *)
Record AuthenticatorGetInfoResponse := GetInfoResponse {
  Versions : list string;
  Extensions : list string;
  AAGUID : list Z;
  Options : gmap string bool;
  MaxMsgSize : Z;
  PinUvAuthProtocols : list Z;
  MaxCredentialCountInList : Z;
  MaxCredentialIdLength : Z;
  Transports : list string;
  Algorithms : list (string * Z);
  MaxSerializedLargeBlobArray : Z;
  ForcePINChange : bool;
  MinPINLength : Z;
  FirmwareVersion : option Z;
  MaxCredBlobLength : Z;
  MaxRPIDsForSetMinPINLength : option Z;
  PreferredPlatformUvAttempts : Z;
  UvModality : option Z;
  Certifications : gmap string Z;
  RemainingDiscoverableCredentials : option Z;
  VendorPrototypeConfigCommands : list Z;
  AttestationFormats : list string;
  UvCountSinceLastPinEntry : option Z;
  LongTouchForReset : option bool;
  EncIdentifier : list Z;
  TransportsForReset : list string;
  PinComplexityPolicy : option bool;
  PinComplexityPolicyURL : list Z;
  MaxPINLength : Z;
  EncCredStoreState : list Z;
  AuthenticatorConfigCommands : list Z }.

(** The zero response, with the members the samples set. *)
Definition sample_info (versions : list string) (options : gmap string bool)
    (protocols : list Z) : AuthenticatorGetInfoResponse :=
  GetInfoResponse versions [] [] options 0 protocols 0 0 [] [] 0 false 0 None 0 None 0 None
    ∅ None [] [] None None [] [] None [] 0 [] [].

Definition EffectiveMaxMsgSize (r : AuthenticatorGetInfoResponse) : Z :=
  if negb (MaxMsgSize r =? 0) then MaxMsgSize r else DefaultMaxMsgSize.
Definition EffectiveMinPINLength (r : AuthenticatorGetInfoResponse) : Z :=
  if DefaultMinPINCodePoints <? MinPINLength r then MinPINLength r
  else DefaultMinPINCodePoints.
Definition EffectiveMaxPINLength (r : AuthenticatorGetInfoResponse) : Z :=
  if negb (MaxPINLength r =? 0) then MaxPINLength r else DefaultMaxPINCodePoints.
Definition PinComplexityPolicyURLString (r : AuthenticatorGetInfoResponse) : string :=
  String.string_of_list_ascii ((fun b => Ascii.ascii_of_N (Z.to_N b)) <$> PinComplexityPolicyURL r).
Definition MaxCredBlobLengthValue (r : AuthenticatorGetInfoResponse) : option Z :=
  if MaxCredBlobLength r =? 0 then None else Some (MaxCredBlobLength r).
Definition MaxSerializedLargeBlobArrayValue (r : AuthenticatorGetInfoResponse) : option Z :=
  if MaxSerializedLargeBlobArray r =? 0 then None else Some (MaxSerializedLargeBlobArray r).

(** ** Authenticator data *)

Definition AuthDataFlagUserPresent : Z := 0x01.
Definition AuthDataFlagUserVerified : Z := 0x04.
Definition AuthDataFlagAttestedCredentialDataIncluded : Z := 0x40.
Definition AuthDataFlagExtensionDataIncluded : Z := 0x80.

Definition UserPresent (f : Z) : bool := has_bit f AuthDataFlagUserPresent.
Definition UserVerified (f : Z) : bool := has_bit f AuthDataFlagUserVerified.
Definition AttestedCredentialDataIncluded (f : Z) : bool :=
  has_bit f AuthDataFlagAttestedCredentialDataIncluded.
Definition ExtensionDataIncluded (f : Z) : bool := has_bit f AuthDataFlagExtensionDataIncluded.

Definition get_be32 (b : list Z) : Z :=
  Z.lor (Z.shiftl (nth 0 b 0) 24)
    (Z.lor (Z.shiftl (nth 1 b 0) 16) (Z.lor (Z.shiftl (nth 2 b 0) 8) (nth 3 b 0))).

Section AuthData.
(** The CBOR decoder on the two values the parser reads: the value of a
    well-formed prefix, and the number of bytes it took. For the extension
    map the parser only asks whether it was a map. *)
Context {Key : Type} (decode_key : list Z -> result (Key * Z)).
Context (decode_map : list Z -> result (bool * Z)).

Record AttestedCredentialData := AttestedCredential {
  ac_AAGUID : list Z;
  CredentialID : list Z;
  CredentialPublicKey : Key }.

Record authData := AuthData {
  RPIDHash : list Z;
  Flags : Z;
  SignCount : Z;
  ad_AttestedCredentialData : option AttestedCredentialData;
  ad_Extensions : slice }.

Definition bad (msg : string) {A} : result A := Err (EText msg).

(** The attested credential data at [data], and what follows it. *)
Definition parse_attested (data : list Z)
    : result (AttestedCredentialData * list Z) :=
  if len data <? 16 then bad "auth data is missing attested credential AAGUID"
  else
    let rest := drop 16 data in
    if len rest <? 2 then bad "auth data is missing credential ID length"
    else
      let length := get_be16 (nth 0 rest 0) (nth 1 rest 0) in
      let rest := drop 2 rest in
      if len rest <? length then bad "auth data credential ID is truncated"
      else
        let id := take (Z.to_nat length) rest in
        let rest := drop (Z.to_nat length) rest in
        if len rest =? 0 then bad "auth data is missing credential public key"
        else
          decode_key rest ≫= fun '(key, n) =>
          Ok (AttestedCredential (take 16 data) id key, drop (Z.to_nat n) rest).

Definition parse_extensions (extensions : list Z) : result (list Z) :=
  if len extensions =? 0 then bad "auth data is missing extension data"
  else
    match decode_map extensions with
    | Err e => Err (EMessage e "decode auth data extensions")
    | Panic => Panic
    | Blocked => Blocked
    | Ok (is_map, n) =>
        if negb is_map then bad "auth data extension data must be a CBOR map"
        else if negb (n =? len extensions) then bad "auth data extensions have trailing bytes"
        else Ok extensions
    end.

Definition parseAuthData (data : list Z) : result authData :=
  if len data <? 37 then bad "auth data is too short"
  else
    let flags := nth 32 data 0 in
    let reserved := Z.land flags (Z.lor (Z.shiftl 1 1) (Z.shiftl 1 5)) in
    if negb (reserved =? 0) then bad "auth data uses reserved flag bits"
    else
      let signCount := get_be32 (take 4 (drop 33 data)) in
      let rest := drop 37 data in
      (if AttestedCredentialDataIncluded flags
       then parse_attested rest ≫= fun '(c, rest') => Ok (Some c, rest')
       else Ok (None, rest)) ≫= fun '(attested, rest) =>
      (if ExtensionDataIncluded flags
       then parse_extensions rest ≫= fun e => Ok (Some e, [])
       else Ok (None, rest)) ≫= fun '(extensions, rest) =>
      if negb (len rest =? 0) then bad "auth data has trailing bytes"
      else Ok (AuthData (take 32 data) flags signCount attested extensions).
End AuthData.

(** ** Layout of authenticator data *)

Definition put_be32 (v : Z) : list Z :=
  [u8 (Z.shiftr v 24); u8 (Z.shiftr v 16); u8 (Z.shiftr v 8); u8 v].

Lemma get_be32_add b0 b1 b2 b3 :
  is_byte b0 -> is_byte b1 -> is_byte b2 -> is_byte b3 ->
  get_be32 [b0; b1; b2; b3] = b0 * 2 ^ 24 + b1 * 2 ^ 16 + b2 * 2 ^ 8 + b3.
Proof.
  unfold is_byte. intros. unfold get_be32. cbn [nth].
  rewrite (lor_shiftl_add b2 b3) by lia. rewrite (lor_shiftl_add b1) by lia.
  rewrite (lor_shiftl_add b0) by lia. lia.
Qed.

Lemma u8_shiftr_add a b k : 0 <= k -> 0 <= b < 2 ^ k -> is_byte a ->
  u8 (Z.shiftr (a * 2 ^ k + b) k) = a.
Proof.
  intros Hk Hb Ha. rewrite Z.shiftr_div_pow2, Z.div_add_l by lia.
  rewrite (Z.div_small b) by lia. rewrite Z.add_0_r. by apply u8_id.
Qed.

Lemma u8_add_high a b : is_byte b -> u8 (a * 2 ^ 8 + b) = b.
Proof. intros. unfold u8. rewrite Z.add_comm, Z.mod_add by lia. by apply Z.mod_small. Qed.

Lemma put_get_be16 hi lo : is_byte hi -> is_byte lo -> put_be16 (get_be16 hi lo) = [hi; lo].
Proof.
  intros Hh Hl. rewrite get_be16_add by done. unfold put_be16. unfold is_byte in *.
  change 256 with (2 ^ 8). rewrite u8_shiftr_add, u8_add_high by (unfold is_byte; lia). done.
Qed.

Lemma put_get_be32 b0 b1 b2 b3 :
  is_byte b0 -> is_byte b1 -> is_byte b2 -> is_byte b3 ->
  put_be32 (get_be32 [b0; b1; b2; b3]) = [b0; b1; b2; b3] /\
  0 <= get_be32 [b0; b1; b2; b3] < 2 ^ 32.
Proof.
  intros H0 H1 H2 H3. rewrite get_be32_add by done. unfold is_byte in *.
  split; [|lia]. unfold put_be32. repeat f_equal.
  - replace (b0 * 2 ^ 24 + b1 * 2 ^ 16 + b2 * 2 ^ 8 + b3)
      with (b0 * 2 ^ 24 + (b1 * 2 ^ 16 + b2 * 2 ^ 8 + b3)) by lia.
    apply u8_shiftr_add; unfold is_byte; lia.
  - rewrite Z.shiftr_div_pow2 by lia.
    replace (b0 * 2 ^ 24 + b1 * 2 ^ 16 + b2 * 2 ^ 8 + b3)
      with ((b0 * 2 ^ 8 + b1) * 2 ^ 16 + (b2 * 2 ^ 8 + b3)) by lia.
    rewrite Z.div_add_l, (Z.div_small (b2 * 2 ^ 8 + b3)), Z.add_0_r by lia.
    by apply u8_add_high.
  - rewrite Z.shiftr_div_pow2 by lia.
    replace (b0 * 2 ^ 24 + b1 * 2 ^ 16 + b2 * 2 ^ 8 + b3)
      with ((b0 * 2 ^ 16 + b1 * 2 ^ 8 + b2) * 2 ^ 8 + b3) by lia.
    rewrite Z.div_add_l, (Z.div_small b3), Z.add_0_r by lia.
    replace (b0 * 2 ^ 16 + b1 * 2 ^ 8 + b2) with ((b0 * 2 ^ 8 + b1) * 2 ^ 8 + b2) by lia.
    by apply u8_add_high.
  - replace (b0 * 2 ^ 24 + b1 * 2 ^ 16 + b2 * 2 ^ 8 + b3)
      with ((b0 * 2 ^ 16 + b1 * 2 ^ 8 + b2) * 2 ^ 8 + b3) by lia.
    by apply u8_add_high.
Qed.

Lemma get_put_be32 v : 0 <= v < 2 ^ 32 -> get_be32 (put_be32 v) = v.
Proof.
  intros Hv. unfold put_be32. rewrite get_be32_add by apply u8_range. unfold u8.
  rewrite !Z.shiftr_div_pow2 by lia.
  replace (v / 2 ^ 24) with (v / 2 ^ 8 / 2 ^ 8 / 2 ^ 8) by (rewrite !Z.div_div by lia; done).
  replace (v / 2 ^ 16) with (v / 2 ^ 8 / 2 ^ 8) by (rewrite Z.div_div by lia; done).
  change (2 ^ 24) with 16777216. change (2 ^ 16) with 65536.
  change (2 ^ 32) with 4294967296 in Hv. change (2 ^ 8) with 256.
  Z.div_mod_to_equations. lia.
Qed.

Lemma has_len {A} (n : nat) (l : list A) :
  Z.of_nat n <= len l -> exists a b, l = a ++ b /\ length a = n /\ take n l = a /\ drop n l = b.
Proof.
  intros H. exists (take n l), (drop n l). rewrite take_drop. split_and!; try done.
  rewrite length_take. unfold len in H. lia.
Qed.

Section Layout.
Context {Key : Type} (decode_key : list Z -> result (Key * Z)).
Context (decode_map : list Z -> result (bool * Z)).

(** The bytes of the attested credential data, the key's encoding given. *)
Definition attested_layout (c : @AttestedCredentialData Key) (key_bytes : list Z) : list Z :=
  ac_AAGUID c ++ put_be16 (len (CredentialID c)) ++ CredentialID c ++ key_bytes.

Definition layout (d : @authData Key) (key_bytes : list Z) : list Z :=
  RPIDHash d ++ [Flags d] ++ put_be32 (SignCount d) ++
  match ad_AttestedCredentialData d with
  | Some c => attested_layout c key_bytes
  | None => []
  end ++ bytes_of (ad_Extensions d).

(** What the members of parsed authenticator data satisfy. *)
Definition attested_ok (flags : Z) (attested : option (@AttestedCredentialData Key))
    (key_bytes rest : list Z) : Prop :=
  match attested with
  | Some c =>
      AttestedCredentialDataIncluded flags = true /\
      len (ac_AAGUID c) = 16 /\ len (CredentialID c) < 65536 /\
      key_bytes ++ rest <> [] /\
      decode_key (key_bytes ++ rest) = Ok (CredentialPublicKey c, len key_bytes)
  | None => AttestedCredentialDataIncluded flags = false
  end.

Definition extensions_ok (flags : Z) (extensions : slice) : Prop :=
  match extensions with
  | Some e => ExtensionDataIncluded flags = true /\ e <> [] /\
      decode_map e = Ok (true, len e)
  | None => ExtensionDataIncluded flags = false
  end.

Definition well_formed (d : @authData Key) (key_bytes : list Z) : Prop :=
  len (RPIDHash d) = 32 /\ 0 <= SignCount d < 2 ^ 32 /\
  Z.land (Flags d) 0x22 = 0 /\
  attested_ok (Flags d) (ad_AttestedCredentialData d) key_bytes (bytes_of (ad_Extensions d)) /\
  extensions_ok (Flags d) (ad_Extensions d).

(** A decoder reports how much of its input it took. *)
Hypothesis decode_key_prefix : forall b k n, decode_key b = Ok (k, n) -> 0 <= n <= len b.

Lemma parse_attested_inv data c rest :
  Forall is_byte data -> parse_attested decode_key data = Ok (c, rest) ->
  exists key_bytes, data = attested_layout c key_bytes ++ rest /\
    len (ac_AAGUID c) = 16 /\ len (CredentialID c) < 65536 /\ key_bytes ++ rest <> [] /\
    decode_key (key_bytes ++ rest) = Ok (CredentialPublicKey c, len key_bytes).
Proof using decode_key_prefix.
  intros Hb H. unfold parse_attested, bad in H.
  destruct (Z.ltb_spec (len data) 16) as [|H16]; [done|].
  destruct (has_len 16 data H16) as (aaguid & r1 & -> & Ha & Ht & Hd). rewrite Ht, Hd in H.
  destruct (Z.ltb_spec (len r1) 2) as [|H2]; [done|].
  destruct (has_len 2 r1 H2) as (lenb & r2 & -> & Hl & _ & Hd2). rewrite Hd2 in H.
  destruct lenb as [|hi [|lo [|]]]; try done. cbn [app nth] in H.
  apply Forall_app in Hb as [_ Hb]. apply Forall_app in Hb as [Hlb _].
  apply Forall_cons in Hlb as [Hhi Hlb]. apply Forall_cons in Hlb as [Hlo _].
  pose proof (get_be16_range hi lo Hhi Hlo) as Hr.
  destruct (Z.ltb_spec (len r2) (get_be16 hi lo)) as [|Hid]; [done|].
  destruct (has_len (Z.to_nat (get_be16 hi lo)) r2) as (id & r3 & -> & Hil & Ht3 & Hd3); [lia|].
  rewrite Ht3, Hd3 in H.
  destruct (Z.eqb_spec (len r3) 0) as [|Hne]; [done|].
  destruct (decode_key r3) as [[k n]| | |] eqn:Hk; try done. cbn in H. simplify_eq.
  pose proof (decode_key_prefix _ _ _ Hk) as Hn.
  assert (Hidlen : len id = get_be16 hi lo) by (unfold len; lia).
  exists (take (Z.to_nat n) r3). unfold attested_layout. cbn [ac_AAGUID CredentialID].
  rewrite Hidlen, put_get_be16, take_drop by done.
  assert (Hlen : len (take (Z.to_nat n) r3) = n) by (rewrite len_take; lia). rewrite Hlen.
  split_and!; try done; try lia.
  - rewrite <- !(assoc_L (++)), take_drop. done.
  - unfold len. lia.
  - intros ->. by apply Hne.
Qed.

Lemma parse_attested_layout c key_bytes rest :
  len (ac_AAGUID c) = 16 -> len (CredentialID c) < 65536 -> key_bytes ++ rest <> [] ->
  decode_key (key_bytes ++ rest) = Ok (CredentialPublicKey c, len key_bytes) ->
  parse_attested decode_key (attested_layout c key_bytes ++ rest) = Ok (c, rest).
Proof using.
  intros Ha Hid Hne Hk. destruct c as [aaguid id key]. unfold attested_layout. cbn in *.
  rewrite <- app_assoc. cbn [app]. rewrite <- app_assoc. unfold parse_attested.
  assert (Hal : length aaguid = 16%nat) by (unfold len in Ha; lia).
  pose proof (len_nonneg id) as H0.
  rewrite (proj2 (Z.ltb_ge _ 16)) by
    (rewrite len_app, Ha; match goal with |- context [len ?l] => pose proof (len_nonneg l) end; lia).
  rewrite <- Hal, take_app_length, drop_app_length. cbn [put_be16 app].
  rewrite (proj2 (Z.ltb_ge _ 2)) by
    (rewrite !len_cons; match goal with |- context [len ?l] => pose proof (len_nonneg l) end; lia).
  cbn [nth drop skipn]. rewrite drop_0, get_put_be16, u16_id by lia.
  rewrite (proj2 (Z.ltb_ge _ (len id))) by
    (rewrite len_app; pose proof (len_nonneg (key_bytes ++ rest)); lia).
  replace (Z.to_nat (len id)) with (length id) by (unfold len; lia).
  rewrite take_app_length, drop_app_length.
  destruct (Z.eqb_spec (len (key_bytes ++ rest)) 0) as [Hz|_]; [by apply len_0 in Hz|].
  rewrite Hk. cbn. replace (Z.to_nat (len key_bytes)) with (length key_bytes) by (unfold len; lia).
  by rewrite drop_app_length.
Qed.

Lemma parse_extensions_ok e :
  parse_extensions decode_map e = Ok e <-> e <> [] /\ decode_map e = Ok (true, len e).
Proof using.
  unfold parse_extensions, bad. split.
  - destruct (Z.eqb_spec (len e) 0) as [|Hne]; [done|].
    destruct (decode_map e) as [[[] n]| | |]; try done. cbn [negb].
    destruct (Z.eqb_spec n (len e)) as [->|]; [|done]. intros _. split; [|done].
    intros ->. by apply Hne.
  - intros [Hne ->]. destruct (Z.eqb_spec (len e) 0) as [Hz|]; [by apply len_0 in Hz|].
    cbn [negb]. by rewrite Z.eqb_refl.
Qed.

Lemma parse_extensions_id e e' : parse_extensions decode_map e = Ok e' -> e' = e.
Proof using.
  unfold parse_extensions, bad. destruct (_ =? 0); [done|].
  destruct (decode_map e) as [[[] n]| | |]; try done. cbn [negb].
  by destruct (negb _); intros [= <-].
Qed.

(** The extensions and the end of the data. *)
Lemma parse_tail_inv hash flags cnt d :
  len hash = 32 -> 0 <= cnt < 2 ^ 32 -> Z.land flags 0x22 = 0 ->
  forall attested rest key_bytes,
  attested_ok flags attested key_bytes rest ->
  ((if ExtensionDataIncluded flags
    then parse_extensions decode_map rest ≫= fun e => Ok (Some e, [])
    else Ok (None, rest)) ≫= fun '(extensions, rest) =>
   if negb (len rest =? 0) then bad "auth data has trailing bytes"
   else Ok (AuthData hash flags cnt attested extensions)) = Ok d ->
  well_formed d key_bytes /\
  layout d key_bytes = hash ++ [flags] ++ put_be32 cnt ++
    match attested with Some c => attested_layout c key_bytes | None => [] end ++ rest.
Proof using.
  intros Hh Hc Hr attested rest kb Ha Hd. unfold well_formed, layout.
  destruct (ExtensionDataIncluded flags) eqn:He.
  - destruct (parse_extensions decode_map rest) as [e| | |] eqn:Hp; try done.
    pose proof (parse_extensions_id _ _ Hp) as ->.
    apply parse_extensions_ok in Hp as [Hne Hp].
    change (Ok (AuthData hash flags cnt attested (Some rest)) = Ok d) in Hd.
    injection Hd as <-. repeat split; try done; apply Hc.
  - cbn [mbind result_bind] in Hd. destruct (Z.eqb_spec (len rest) 0) as [Hz|]; [|done].
    apply len_0 in Hz. subst rest. injection Hd as <-. repeat split; try done; apply Hc.
Qed.

Lemma parse_auth_data_inv data d :
  Forall is_byte data -> parseAuthData decode_key decode_map data = Ok d ->
  exists key_bytes, well_formed d key_bytes /\ data = layout d key_bytes.
Proof using decode_key_prefix.
  intros Hb H. unfold parseAuthData in H.
  destruct (Z.ltb_spec (len data) 37) as [|H37]; [done|].
  destruct (has_len 32 data) as (hash & r1 & -> & Hh & Ht & _); [lia|].
  rewrite app_nth2 in H by lia. rewrite Hh, Nat.sub_diag in H.
  destruct r1 as [|flags r1]; [rewrite app_nil_r in H37; unfold len in H37; lia|].
  destruct (has_len 4 r1) as (cnt & r2 & -> & Hc & Htc & _).
  { rewrite len_app, len_cons in H37. unfold len in *. lia. }
  destruct cnt as [|c0 [|c1 [|c2 [|c3 [|]]]]]; try done.
  apply Forall_app in Hb as [_ Hb]. apply Forall_cons in Hb as [_ Hb].
  apply Forall_app in Hb as [Hcb Hb2].
  repeat match goal with Hx : Forall is_byte (_ :: _) |- _ => apply Forall_cons in Hx as [? ?] end.
  destruct (put_get_be32 c0 c1 c2 c3) as [Hput Hrange]; try done.
  replace (drop 33 (hash ++ flags :: [c0; c1; c2; c3] ++ r2)) with ([c0; c1; c2; c3] ++ r2) in H
    by (rewrite drop_app_ge by lia; by rewrite Hh).
  replace (drop 37 (hash ++ flags :: [c0; c1; c2; c3] ++ r2)) with r2 in H
    by (rewrite drop_app_ge by lia; by rewrite Hh).
  rewrite Ht in H. cbn [nth take app] in H.
  replace (Z.lor (Z.shiftl 1 1) (Z.shiftl 1 5)) with 0x22 in H by done.
  destruct (Z.eqb_spec (Z.land flags 0x22) 0) as [Hres|]; [|done]. cbn [negb] in H.
  assert (Hlen32 : len hash = 32) by (unfold len; lia).
  rewrite <- Hput. pose proof (parse_tail_inv hash flags _ d Hlen32 Hrange Hres) as Hext.
  destruct (AttestedCredentialDataIncluded flags) eqn:Ha.
  - destruct (parse_attested decode_key r2) as [[c rest]| | |] eqn:Hp; try done.
    destruct (parse_attested_inv _ _ _ Hb2 Hp) as (kb & -> & H16 & Hid & Hne & Hk).
    destruct (Hext (Some c) rest kb) as [Hw Hl]; [by split_and!|exact H|].
    exists kb. split; [done|]. by rewrite Hl.
  - destruct (Hext None r2 []) as [Hw Hl]; [exact Ha|exact H|]. exists []. split; [done|].
    by rewrite Hl.
Qed.

Lemma parse_auth_data_layout d key_bytes :
  well_formed d key_bytes -> parseAuthData decode_key decode_map (layout d key_bytes) = Ok d.
Proof using.
  intros (Hh & Hcnt & Hres & Ha & He). destruct d as [hash flags cnt attested ext].
  unfold layout in *. cbn [RPIDHash Flags SignCount ad_AttestedCredentialData ad_Extensions] in *.
  set (body := match attested with Some c => _ | None => _ end ++ bytes_of ext).
  unfold parseAuthData. assert (Hl : length hash = 32%nat) by (unfold len in Hh; lia).
  rewrite (proj2 (Z.ltb_ge _ 37)) by
    (rewrite len_app, Hh; cbn [put_be32 app]; rewrite !len_cons; pose proof (len_nonneg body); lia).
  rewrite app_nth2 by lia. rewrite Hl, Nat.sub_diag. cbn [app nth].
  replace (take 32 (hash ++ flags :: put_be32 cnt ++ body)) with hash
    by (rewrite <- Hl; by rewrite take_app_length).
  replace (drop 33 (hash ++ flags :: put_be32 cnt ++ body)) with (put_be32 cnt ++ body)
    by (rewrite drop_app_ge by lia; by rewrite Hl).
  replace (drop 37 (hash ++ flags :: put_be32 cnt ++ body)) with body
    by (rewrite drop_app_ge by lia; by rewrite Hl).
  replace (take 4 (put_be32 cnt ++ body)) with (put_be32 cnt) by done.
  rewrite get_put_be32 by done.
  replace (Z.lor (Z.shiftl 1 1) (Z.shiftl 1 5)) with 0x22 by done. rewrite Hres. cbn [Z.eqb negb].
  unfold body. destruct attested as [c|]; unfold attested_ok in Ha.
  - destruct Ha as (-> & H16 & Hid & Hne & Hk).
    rewrite parse_attested_layout by done. cbn [mbind result_bind].
    destruct ext as [e|]; unfold extensions_ok in He.
    + destruct He as (-> & Hne' & Hm). change (bytes_of (Some e)) with e.
      by rewrite (proj2 (parse_extensions_ok e)).
    + by rewrite He.
  - rewrite Ha. cbn [mbind result_bind app].
    destruct ext as [e|]; unfold extensions_ok in He.
    + destruct He as (-> & Hne' & Hm). change (bytes_of (Some e)) with e.
      by rewrite (proj2 (parse_extensions_ok e)).
    + by rewrite He.
Qed.

(** C33. Authenticator data parses exactly when it is the layout of the
    result: 32 bytes of RP ID hash, flags with the reserved bits clear, the
    big-endian signature counter, the attested credential data and the
    extension map each present exactly when its flag is set, and not one
    byte more; every layout parses back to its members. *)
Theorem parse_auth_data_exact data d :
  Forall is_byte data ->
  parseAuthData decode_key decode_map data = Ok d <->
  exists key_bytes, well_formed d key_bytes /\ data = layout d key_bytes.
Proof using decode_key_prefix.
  intros Hb. split; [by apply parse_auth_data_inv|].
  intros (kb & Hw & ->). by apply parse_auth_data_layout.
Qed.
End Layout.

(** *** A decoder of one-byte keys and of the empty map *)

Definition sample_decode_key (b : list Z) : result (Z * Z) :=
  match b with x :: _ => Ok (x, 1) | [] => Err io_EOF end.
Definition sample_decode_map (b : list Z) : result (bool * Z) :=
  match b with 0xa0 :: _ => Ok (true, 1) | [] => Err io_EOF | _ => Ok (false, 1) end.

Definition sample_auth_data : list Z :=
  zeros 32 ++ [0xc1; 0; 0; 1; 2] ++ zeros 16 ++ [0; 2; 8; 9] ++ [7] ++ [0xa0].

Lemma parse_auth_data_exact_witness :
  exists key_bytes,
    sample_auth_data = layout (AuthData (zeros 32) 0xc1 258
      (Some (AttestedCredential (zeros 16) [8; 9] 7)) (Some [0xa0])) key_bytes.
Proof.
  assert (Hlaw : forall b k n, sample_decode_key b = Ok (k, n) -> 0 <= n <= len b).
  { intros [|x b] k n H; [discriminate|]. injection H as <- <-. rewrite len_cons.
    pose proof (len_nonneg b). lia. }
  destruct (parse_auth_data_exact sample_decode_key sample_decode_map Hlaw sample_auth_data
    (AuthData (zeros 32) 0xc1 258 (Some (AttestedCredential (zeros 16) [8; 9] 7)) (Some [0xa0])))
    as [H _].
  - repeat constructor; vm_compute; intuition congruence.
  - destruct H as (kb & _ & Hl); [reflexivity|]. exists kb. exact Hl.
Defined.

