(* ===== verification/Pin.v ===== *)
(** * PIN rules (src/internal/pin/validation.go, src/authenticator/validation.go)

    The length rules of PINs and of PIN/UV auth tokens, the FIPS 140-3
    policy of the PIN/UV auth protocols, and the checks an authenticator
    object makes before it sends a PIN or a PIN policy. Unicode
    normalisation is the library golang.org/x/text: a parameter. The FIPS
    mode of the process is an argument. *)
From S2P Require Import Prelude GoError Transport Protocol.

(** ** The errors of package authenticator *)

Definition ErrPingPongMismatch : error := ESentinel "device: ping/pong mismatch".
Definition ErrPinUvAuthTokenRequired : error := ESentinel "device: pinUvAuthToken required".
Definition ErrBuiltInUVRequired : error := ESentinel "device: built-in user verification required".
Definition ErrNotSupported : error := ESentinel "device: not supported".
Definition SyntaxError : error := ESentinel "device: syntax error".
Definition ErrBadType : error := ESentinel "device: bad type".
Definition ErrInvalidSaltSize : error := ESentinel "device: invalid salt size".
Definition ErrPinNotSet : error := ESentinel "device: pin not set".
Definition ErrPinAlreadySet : error := ESentinel "device: pin already set".
Definition ErrPinChangeRequired : error := ESentinel "device: pin change required".
Definition ErrUvNotConfigured : error := ESentinel "device: UV not configured".
Definition ErrLargeBlobsIntegrityCheck : error :=
  ESentinel "device: large blobs integrity check failed".
Definition ErrLargeBlobsTooBig : error :=
  ESentinel "device: size of serialized large blobs is too big that token".
Definition ErrSpecViolation : error := ESentinel "device: spec violation".

(** ** UTF-8 *)

Definition between (lo hi b : Z) : bool := (lo <=? b) && (b <=? hi).

(** The size of the encoding a byte starts and the range its second byte
    must be in; a byte that starts none is a rune of its own. *)
Definition rune_start (b : Z) : option (nat * Z * Z) :=
  if between 0xc2 0xdf b then Some (2%nat, 0x80, 0xbf)
  else if b =? 0xe0 then Some (3%nat, 0xa0, 0xbf)
  else if b =? 0xed then Some (3%nat, 0x80, 0x9f)
  else if between 0xe1 0xef b then Some (3%nat, 0x80, 0xbf)
  else if b =? 0xf0 then Some (4%nat, 0x90, 0xbf)
  else if between 0xf1 0xf3 b then Some (4%nat, 0x80, 0xbf)
  else if b =? 0xf4 then Some (4%nat, 0x80, 0x8f)
  else None.

(** The bytes the first rune of a non-empty string takes: its encoding when
    it is complete and valid, one byte otherwise. *)
Definition rune_size (s : list Z) : nat :=
  match s with
  | [] => 0
  | b :: rest =>
      match rune_start b with
      | None => 1
      | Some (n, lo, hi) =>
          match take (n - 1) rest with
          | b1 :: more =>
              if bool_decide (length (b1 :: more) = n - 1)%nat && between lo hi b1
                 && forallb (between 0x80 0xbf) more
              then n else 1
          | [] => 1
          end
      end
  end.

(** [utf8.RuneCountInString]. *)
Fixpoint rune_count_aux (fuel : nat) (s : list Z) : Z :=
  match fuel, s with
  | S fuel', _ :: _ => 1 + rune_count_aux fuel' (drop (rune_size s) s)
  | _, _ => 0
  end.
Definition RuneCountInString (s : list Z) : Z := rune_count_aux (length s) s.

Lemma rune_size_bounds b s : (1 <= rune_size (b :: s) <= 4)%nat.
Proof.
  unfold rune_size, rune_start. repeat case_match; simplify_eq; lia.
Qed.

Lemma rune_count_aux_le fuel s : 0 <= rune_count_aux fuel s <= len s.
Proof.
  revert s. induction fuel as [|fuel IH]; intros [|b s]; cbn [rune_count_aux];
    [pose proof (len_nonneg (@nil Z)); lia | pose proof (len_nonneg (b :: s)); lia |
     pose proof (len_nonneg (@nil Z)); lia |].
  pose proof (rune_size_bounds b s) as Hb.
  specialize (IH (drop (rune_size (b :: s)) (b :: s))). rewrite len_drop, len_cons in IH.
  pose proof (len_nonneg s). rewrite len_cons. lia.
Qed.

Lemma rune_count_le s : 0 <= RuneCountInString s <= len s.
Proof. apply rune_count_aux_le. Qed.

(** The fuel suffices: counting is a fold over the runes. *)
Lemma rune_count_aux_enough fuel fuel' s :
  (length s <= fuel)%nat -> (length s <= fuel')%nat ->
  rune_count_aux fuel s = rune_count_aux fuel' s.
Proof.
  revert fuel' s. induction fuel as [|fuel IH]; intros [|fuel'] [|b s] H1 H2;
    cbn [length] in *; try lia; try done.
  cbn [rune_count_aux]. f_equal. pose proof (rune_size_bounds b s).
  apply IH; rewrite length_drop; cbn [length]; lia.
Qed.

Lemma rune_count_step b s :
  RuneCountInString (b :: s) = 1 + RuneCountInString (drop (rune_size (b :: s)) (b :: s)).
Proof.
  unfold RuneCountInString. cbn [length rune_count_aux]. f_equal.
  pose proof (rune_size_bounds b s).
  apply rune_count_aux_enough; rewrite length_drop; cbn [length]; lia.
Qed.

(** ** PINs *)

Definition maxUTF8Bytes : Z := 63.

Section Normalization.
(** [norm.NFC.String] on the bytes of a string. *)
Context (NFC : list Z -> list Z).

Definition NormalizeAndValidate (value : list Z) (minCodePoints : Z) : result (list Z) :=
  let minCodePoints :=
    if minCodePoints <? DefaultMinPINCodePoints then DefaultMinPINCodePoints
    else minCodePoints in
  let value := NFC value in
  if RuneCountInString value <? minCodePoints then
    Err (EText ("pin must contain at least " +:+ pretty minCodePoints +:+ " Unicode code points"))
  else if maxUTF8Bytes <? len value then
    Err (EText ("pin must be at most " +:+ pretty maxUTF8Bytes +:+ " UTF-8 bytes"))
  else
    match last value with
    | None => Panic
    | Some b =>
        if b =? 0 then Err (EText "pin must not end in a 0x00 byte") else Ok value
    end.

Definition normalizeAndValidateCurrentPIN (value : list Z) : result (list Z) :=
  NormalizeAndValidate value DefaultMinPINCodePoints.

Definition normalizeAndValidateNewPIN (info : AuthenticatorGetInfoResponse)
    (value : list Z) : result (list Z) :=
  let minPINLength := EffectiveMinPINLength info in
  let maxPINLength := EffectiveMaxPINLength info in
  if maxPINLength <? minPINLength then
    Err (newErrorMessage ErrSpecViolation
           ("maximum PIN length " +:+ pretty maxPINLength +:+
            " is less than minimum PIN length " +:+ pretty minPINLength))
  else
    NormalizeAndValidate value minPINLength ≫= fun value =>
    if maxPINLength <? RuneCountInString value then
      Err (EText ("pin must contain at most " +:+ pretty maxPINLength +:+ " Unicode code points"))
    else Ok value.
End Normalization.

(** ** FIPS 140-3 policy and token lengths *)

Section Policy.
(** [crypto/fips140.Enabled()]. *)
Context (fips_enabled : bool).

Definition ValidateFIPS140UvAuthProtocol (pinUvAuthProtocol : Z) : option error :=
  if negb fips_enabled || (pinUvAuthProtocol =? PinUvAuthProtocolTwo) then None
  else Some (EPolicy ("PIN/UV auth protocol " +:+ pretty pinUvAuthProtocol)).

Definition ValidateUvAuthToken (pinUvAuthProtocol : Z) (pinUvAuthToken : list Z)
    : option error :=
  match ValidateFIPS140UvAuthProtocol pinUvAuthProtocol with
  | Some e => Some e
  | None =>
      if pinUvAuthProtocol =? PinUvAuthProtocolOne then
        if (len pinUvAuthToken =? 0) || negb (len pinUvAuthToken mod 16 =? 0) then
          Some (EText "pinUvAuthToken must be a positive multiple of 16 bytes for PIN/UV auth protocol 1")
        else None
      else if pinUvAuthProtocol =? PinUvAuthProtocolTwo then
        if negb (len pinUvAuthToken =? 32) then
          Some (EText "pinUvAuthToken must be 32 bytes for PIN/UV auth protocol 2")
        else None
      else Some (EText ("unsupported PIN/UV auth protocol " +:+ pretty pinUvAuthProtocol))
  end.
End Policy.

(** [PolicyError.Error], and the texts of the errors above. *)
Definition PolicyError_Error (operation : string) : string :=
  if bool_decide (operation = "") then "fips140: operation is not allowed in FIPS 140-3 mode"
  else "fips140: " +:+ operation +:+ " is not allowed in FIPS 140-3 mode".
Definition token_error_text (e : error) : string :=
  match e with
  | EText text => text
  | EPolicy operation => PolicyError_Error operation
  | _ => ""
  end.

(** ** PIN policy requests *)

Record SetMinPINLengthParams := SetMinPINLengthConfigSubCommandParams {
  NewMinPINLength : option Z;
  MinPINLengthRPIDs : list string;
  ForceChangePIN : bool;
  PINComplexityPolicy : bool }.

Definition ExtensionIdentifierMinPinLength : string := "minPinLength".
Definition ExtensionIdentifierPinComplexityPolicy : string := "pinComplexityPolicy".

(** The first error of a list of checks made in order. *)
Definition first_error (checks : list (option error)) : option error :=
  first_some (fun e => e) checks.

Definition check (b : bool) (e : error) : option error := if b then Some e else None.

Definition validateSetMinPINLength (info : AuthenticatorGetInfoResponse)
    (params : SetMinPINLengthParams) : option error :=
  first_error [
    match NewMinPINLength params with
    | None => None
    | Some n => first_error [
        check (n <? EffectiveMinPINLength info)
          (newErrorMessage SyntaxError "new minimum PIN length cannot decrease the current minimum");
        check (EffectiveMaxPINLength info <? n)
          (newErrorMessage SyntaxError "new minimum PIN length exceeds the maximum PIN length")]
    end;
    if negb (len (MinPINLengthRPIDs params) =? 0) then first_error [
      match MaxRPIDsForSetMinPINLength info with
      | None => None
      | Some m => check (m <? len (MinPINLengthRPIDs params))
          (newErrorMessage SyntaxError "too many RP IDs for setMinPINLength")
      end;
      check (negb (contains (Extensions info) ExtensionIdentifierMinPinLength) &&
             negb (contains (Extensions info) ExtensionIdentifierPinComplexityPolicy))
        (newErrorMessage ErrNotSupported "device doesn't support PIN policy RP IDs")]
    else None;
    check (PINComplexityPolicy params && bool_decide (PinComplexityPolicy info = None))
      (newErrorMessage ErrNotSupported "device doesn't support pinComplexityPolicy");
    check (ForceChangePIN params && negb (flag (Options info) OptionClientPIN))
      (newErrorMessage ErrPinNotSet "cannot force a PIN change before a PIN is set")].

Definition CTAP2_ERR_PIN_POLICY_VIOLATION : Z := 0x37.

(** The PIN policy details added to a policy violation of the authenticator. *)
Definition pinPolicyError (info : AuthenticatorGetInfoResponse) (err : option error)
    : option error :=
  match err with
  | None => None
  | Some e =>
      if len (PinComplexityPolicyURL info) =? 0 then err
      else
        match errors_As as_CTAPError e with
        | Some (_, status) =>
            if negb (status =? CTAP2_ERR_PIN_POLICY_VIOLATION) then err
            else Some (newErrorMessage e ("PIN policy details: " +:+ PinComplexityPolicyURLString info))
        | None => err
        end
  end.

Record HMACGetSecretInput := HMACGetSecret { Salt1 : list Z; Salt2 : slice }.

Definition validateHMACGetSecretSalts (input : HMACGetSecretInput) : option error :=
  first_error [
    check (negb (len (Salt1 input) =? 32))
      (newErrorMessage ErrInvalidSaltSize "salt1 must be exactly 32 bytes");
    match Salt2 input with
    | None => None
    | Some s => check (negb (len s =? 32))
        (newErrorMessage ErrInvalidSaltSize "salt2 must be exactly 32 bytes when present")
    end].

(** ** Properties *)

Section Properties.
Context (NFC : list Z -> list Z).

(** An accepted PIN, branch by branch. *)
Lemma NormalizeAndValidate_spec value n :
  NormalizeAndValidate NFC value n <> Panic /\
  forall v, NormalizeAndValidate NFC value n = Ok v <->
    v = NFC value /\ Z.max n DefaultMinPINCodePoints <= RuneCountInString v /\
    len v <= maxUTF8Bytes /\ last v <> Some 0.
Proof.
  unfold NormalizeAndValidate, DefaultMinPINCodePoints, maxUTF8Bytes.
  set (m := if n <? 4 then 4 else n).
  assert (Hm : m = Z.max n 4) by (unfold m; destruct (Z.ltb_spec n 4); lia).
  pose proof (rune_count_le (NFC value)) as Hr.
  destruct (Z.ltb_spec (RuneCountInString (NFC value)) m); [split; [done|]; naive_solver lia|].
  destruct (Z.ltb_spec 63 (len (NFC value))); [split; [done|]; naive_solver lia|].
  destruct (last (NFC value)) as [b|] eqn:Hl.
  - destruct (Z.eqb_spec b 0); (split; [done|]); naive_solver lia.
  - exfalso. apply last_None in Hl. rewrite Hl in Hr, H. change (len []) with 0 in Hr. lia.
Qed.

(** A new PIN is accepted exactly when its NFC form has between the
    authenticator's minimum and maximum number of code points, at most 63
    bytes, and a last byte that is not zero (so that zero padding can be
    removed again); the form is what is sent. No PIN makes the check
    panic, the empty one included. *)
Theorem new_pin_accepted info value :
  normalizeAndValidateNewPIN NFC info value <> Panic /\
  forall v, normalizeAndValidateNewPIN NFC info value = Ok v <->
    v = NFC value /\
    EffectiveMinPINLength info <= RuneCountInString v <= EffectiveMaxPINLength info /\
    len v <= maxUTF8Bytes /\ last v <> Some 0.
Proof.
  unfold normalizeAndValidateNewPIN.
  assert (Hmin : Z.max (EffectiveMinPINLength info) DefaultMinPINCodePoints =
    EffectiveMinPINLength info).
  { unfold EffectiveMinPINLength. destruct (Z.ltb_spec DefaultMinPINCodePoints (MinPINLength info)); lia. }
  pose proof (NormalizeAndValidate_spec value (EffectiveMinPINLength info)) as [Hp Hs].
  rewrite Hmin in Hs.
  destruct (Z.ltb_spec (EffectiveMaxPINLength info) (EffectiveMinPINLength info));
    [split; [done|]; naive_solver lia|].
  destruct (NormalizeAndValidate NFC value (EffectiveMinPINLength info)) as [u| | |];
    cbn [mbind result_bind].
  - pose proof (proj1 (Hs u) eq_refl) as (-> & Hu).
    destruct (Z.ltb_spec (EffectiveMaxPINLength info) (RuneCountInString (NFC value)));
      (split; [done|]); naive_solver lia.
  - split; [done|]. intros v. specialize (Hs v). split; [done|]. intros (? & [? _] & ?).
    by apply Hs.
  - done.
  - split; [done|]. intros v. specialize (Hs v). split; [done|]. intros (? & [? _] & ?).
    by apply Hs.
Qed.
End Properties.

(** [first_error] finds the first failing check. *)
Lemma first_error_None l : first_error l = None <-> Forall (fun e => e = None) l.
Proof.
  unfold first_error. induction l as [|[e|] l IH]; cbn; [|split; [done|]|].
  - split; [constructor|done].
  - intros H. apply Forall_cons in H as [? _]. done.
  - rewrite Forall_cons. naive_solver.
Qed.

Lemma check_None b e : check b e = None <-> b = false.
Proof. by destruct b. Qed.

Lemma bool_impl (b : bool) (P : Prop) : (b = false \/ P) <-> (b = true -> P).
Proof. destruct b; naive_solver. Qed.

(** What [ValidateUvAuthToken] lets through. *)
Lemma ValidateUvAuthToken_None fips p token :
  ValidateUvAuthToken fips p token = None <->
  (p = PinUvAuthProtocolOne /\ fips = false /\ 0 < len token /\ len token mod 16 = 0) \/
  (p = PinUvAuthProtocolTwo /\ len token = 32).
Proof.
  unfold ValidateUvAuthToken, ValidateFIPS140UvAuthProtocol, PinUvAuthProtocolOne,
    PinUvAuthProtocolTwo.
  pose proof (len_nonneg token).
  destruct (Z.eqb_spec p 2) as [->|H2]; cbn [negb Z.eqb Pos.eqb].
  - rewrite orb_true_r. destruct (Z.eqb_spec (len token) 32); naive_solver lia.
  - rewrite orb_false_r. destruct fips; cbn [negb]; [naive_solver lia|].
    destruct (Z.eqb_spec p 1) as [->|H1]; [|naive_solver lia].
    destruct (Z.eqb_spec (len token) 0); destruct (Z.eqb_spec (len token mod 16) 0);
      cbn [orb negb]; naive_solver lia.
Qed.

(** A minimum-PIN-length request passes its checks exactly when the new
    minimum does not decrease and stays below the maximum, the RP IDs fit
    and are supported, and a complexity policy or a forced change is asked
    only of an authenticator that has one, respectively has a PIN set. *)
Theorem set_min_pin_length_checked info params :
  validateSetMinPINLength info params = None <->
  (forall n, NewMinPINLength params = Some n ->
     EffectiveMinPINLength info <= n <= EffectiveMaxPINLength info) /\
  (MinPINLengthRPIDs params <> [] ->
     (forall m, MaxRPIDsForSetMinPINLength info = Some m -> len (MinPINLengthRPIDs params) <= m) /\
     (ExtensionIdentifierMinPinLength ∈ Extensions info \/
      ExtensionIdentifierPinComplexityPolicy ∈ Extensions info)) /\
  (PINComplexityPolicy params = true -> PinComplexityPolicy info <> None) /\
  (ForceChangePIN params = true -> Options info !! OptionClientPIN = Some true).
Proof.
  unfold validateSetMinPINLength. rewrite first_error_None, !Forall_cons.
  destruct params as [newmin ids force policy]; cbn [NewMinPINLength MinPINLengthRPIDs
    ForceChangePIN PINComplexityPolicy].
  assert (H1 : match newmin with
    | Some n => first_error [
        check (n <? EffectiveMinPINLength info)
          (newErrorMessage SyntaxError "new minimum PIN length cannot decrease the current minimum");
        check (EffectiveMaxPINLength info <? n)
          (newErrorMessage SyntaxError "new minimum PIN length exceeds the maximum PIN length")]
    | None => None end = None <->
    (forall n, newmin = Some n -> EffectiveMinPINLength info <= n <= EffectiveMaxPINLength info)).
  { destruct newmin as [n|]; [|naive_solver].
    rewrite first_error_None, !Forall_cons, !check_None, !Z.ltb_ge. naive_solver. }
  assert (H2 : (if negb (len ids =? 0) then first_error [
      match MaxRPIDsForSetMinPINLength info with
      | None => None
      | Some m => check (m <? len ids)
          (newErrorMessage SyntaxError "too many RP IDs for setMinPINLength")
      end;
      check (negb (contains (Extensions info) ExtensionIdentifierMinPinLength) &&
             negb (contains (Extensions info) ExtensionIdentifierPinComplexityPolicy))
        (newErrorMessage ErrNotSupported "device doesn't support PIN policy RP IDs")]
    else None) = None <->
    (ids <> [] ->
     (forall m, MaxRPIDsForSetMinPINLength info = Some m -> len ids <= m) /\
     (ExtensionIdentifierMinPinLength ∈ Extensions info \/
      ExtensionIdentifierPinComplexityPolicy ∈ Extensions info))).
  { destruct (Z.eqb_spec (len ids) 0) as [Hz|Hz]; cbn [negb].
    - apply len_0 in Hz. naive_solver.
    - assert (Hne : ids <> []) by by intros ->.
      rewrite first_error_None, !Forall_cons, check_None, andb_false_iff, !negb_false_iff, !contains_true.
      destruct (MaxRPIDsForSetMinPINLength info) as [m|]; [rewrite check_None, Z.ltb_ge|];
        split; [intros (? & ? & _)|intros H; specialize (H Hne)| |]; naive_solver. }
  rewrite H1, H2, !check_None, !andb_false_iff, negb_false_iff, flag_true, bool_decide_eq_false.
  rewrite !bool_impl, Forall_nil. tauto.
Qed.
