(* ===== verification/Preflight.v ===== *)
(** * Preflight checks (src/authenticator/preflight.go)

    What a [Device] checks against the cached authenticatorGetInfo response
    before it sends anything: the user verification a credential operation
    needs, the PIN/UV auth protocol and token, the token flow and the
    permissions it may carry, the availability of the management commands.
    The request options are a Go map, read with and without the comma-ok
    form; a token is a slice that may be nil. *)
From S2P Require Import Prelude GoError Transport Protocol Pin.

Definition has_token (pinUvAuthToken : slice) : bool := bool_decide (pinUvAuthToken <> None).

Definition validateUserVerificationRequest (info : AuthenticatorGetInfoResponse)
    (pinUvAuthToken : slice) (options : gmap string bool) : option error :=
  if bool_decide (pinUvAuthToken = Some []) then
    Some (newErrorMessage SyntaxError "pinUvAuthToken must not be empty")
  else
    let hasToken := has_token pinUvAuthToken in
    let builtInUVRequested := flag options OptionUserVerification in
    if hasToken && builtInUVRequested then
      Some (newErrorMessage SyntaxError
              "pinUvAuthToken and built-in user verification are mutually exclusive")
    else if builtInUVRequested then
      match Options info !! OptionUserVerification with
      | None =>
          Some (newErrorMessage ErrNotSupported "device doesn't support built-in user verification")
      | Some builtInUVConfigured =>
          if negb builtInUVConfigured then
            Some (newErrorMessage ErrUvNotConfigured "please configure UV first (e.g. enroll biometry)")
          else None
      end
    else None.

Definition isFIDO20Only (versions : list string) : bool :=
  let fido20Only := Supports versions FIDO_2_0 in
  if existsb (fun version => negb (bool_decide (version = FIDO_2_0)) &&
                             negb (bool_decide (version = U2F_V2))) versions
  then false else fido20Only.

Definition hasConfiguredUserVerification (info : AuthenticatorGetInfoResponse) : bool :=
  flag (Options info) OptionClientPIN || flag (Options info) OptionUserVerification.

Definition alwaysUVEnabled (info : AuthenticatorGetInfoResponse) : bool :=
  negb (isFIDO20Only (Versions info)) && flag (Options info) OptionAlwaysUv.

(** ** PIN/UV auth protocol *)

Section Protocol.
Context (fips_enabled : bool).

(** The loop over the protocols of the response: the first supported one
    the policy lets through, else the last policy error. *)
Fixpoint first_protocol (candidates : list Z) (policyErr : option error)
    : Z + option error :=
  match candidates with
  | [] => inr policyErr
  | candidate :: rest =>
      if (candidate =? PinUvAuthProtocolOne) || (candidate =? PinUvAuthProtocolTwo) then
        match ValidateFIPS140UvAuthProtocol fips_enabled candidate with
        | Some err => first_protocol rest (Some err)
        | None => inl candidate
        end
      else first_protocol rest policyErr
  end.

Definition requirePinUvAuthProtocol (info : AuthenticatorGetInfoResponse) : result Z :=
  match first_protocol (PinUvAuthProtocols info) None with
  | inl candidate => Ok candidate
  | inr (Some policyErr) => Err policyErr
  | inr None =>
      if (len (PinUvAuthProtocols info) =? 0) && IsPreviewOnly (Versions info)
         && flag (Options info) OptionUvToken then
        match ValidateFIPS140UvAuthProtocol fips_enabled PinUvAuthProtocolOne with
        | Some err => Err err
        | None => Ok PinUvAuthProtocolOne
        end
      else Err (newErrorMessage ErrNotSupported "device didn't report a supported pinUvAuthProtocol")
  end.

Definition pinUvAuthProtocolForRequest (info : AuthenticatorGetInfoResponse)
    (pinUvAuthToken : slice) (required : bool) : result Z :=
  match pinUvAuthToken with
  | None => if required then Err ErrPinUvAuthTokenRequired else Ok 0
  | Some token =>
      requirePinUvAuthProtocol info ≫= fun pinUvAuthProtocol =>
      if negb (isFIDO20Only (Versions info)) && negb (IsPreviewOnly (Versions info))
         && (pinUvAuthProtocol =? PinUvAuthProtocolOne)
         && negb (len token =? 16) && negb (len token =? 32) then
        Err (newErrorMessage SyntaxError
          "pinUvAuthToken must be 16 or 32 bytes for PIN/UV auth protocol 1 on CTAP 2.1 or later")
      else
        match ValidateUvAuthToken fips_enabled pinUvAuthProtocol token with
        | Some err => Err (newErrorMessage SyntaxError (token_error_text err))
        | None => Ok pinUvAuthProtocol
        end
  end.
End Protocol.

(** ** Authorisation of credential operations *)

Definition validateMakeCredentialAuthorization (info : AuthenticatorGetInfoResponse)
    (pinUvAuthToken : slice) (options : gmap string bool) : option error :=
  match validateUserVerificationRequest info pinUvAuthToken options with
  | Some err => Some err
  | None =>
      let hasToken := has_token pinUvAuthToken in
      let builtInUVRequested := flag options OptionUserVerification in
      let userVerificationConfigured := hasConfiguredUserVerification info in
      let fido20Only := isFIDO20Only (Versions info) in
      let requiresUV :=
        if negb fido20Only then
          alwaysUVEnabled info ||
          (userVerificationConfigured &&
           (negb (flag (Options info) OptionMakeCredentialUvNotRequired) ||
            flag options OptionResidentKeys))
        else userVerificationConfigured in
      if negb requiresUV then None
      else if hasToken || builtInUVRequested ||
              (alwaysUVEnabled info && flag (Options info) OptionUserVerification) then None
      else Some ErrPinUvAuthTokenRequired
  end.

Definition validateGetAssertionAuthorization (info : AuthenticatorGetInfoResponse)
    (pinUvAuthToken : slice) (options : gmap string bool) : option error :=
  match validateUserVerificationRequest info pinUvAuthToken options with
  | Some err => Some err
  | None =>
      if bool_decide (is_Some (options !! OptionResidentKeys)) then
        Some (newErrorMessage ErrNotSupported "rk option is not supported by GetAssertion")
      else
        let userPresenceRequested :=
          match options !! OptionUserPresence with Some up => up | None => true end in
        if isFIDO20Only (Versions info) || negb (alwaysUVEnabled info)
           || negb userPresenceRequested then None
        else if has_token pinUvAuthToken || flag options OptionUserVerification
                || flag (Options info) OptionUserVerification then None
        else if flag (Options info) OptionClientPIN
                && negb (flag (Options info) OptionNoMcGaPermissionsWithClientPin) then
          Some ErrPinUvAuthTokenRequired
        else if bool_decide (Options info !! OptionUserVerification = Some false) then
          Some (newErrorMessage ErrUvNotConfigured "please configure UV first (e.g. enroll biometry)")
        else Some (newErrorMessage ErrBuiltInUVRequired
               "alwaysUv requires user verification for GetAssertion")
  end.

(** ** Token permissions *)

Definition validatePinUvAuthTokenPermissionSet (permission : Z) : option error :=
  if permission =? PermissionNone then
    Some (newErrorMessage SyntaxError "pinUvAuthToken permission must not be zero")
  else if has_bit permission PermissionPersistentCredentialManagementReadOnly
          && negb (permission =? PermissionPersistentCredentialManagementReadOnly) then
    Some (newErrorMessage SyntaxError "pcmr permission cannot be combined with other permissions")
  else None.

Definition validatePinUvAuthTokenPermissionRPID (permission : Z) (rpID : string)
    : option error :=
  if has_bit permission (Z.lor PermissionMakeCredential PermissionGetAssertion)
     && bool_decide (rpID = "") then
    Some (newErrorMessage SyntaxError "rpID is required for MakeCredential and GetAssertion permissions")
  else None.

Definition permissionedPinUvAuthTokensSupported (info : AuthenticatorGetInfoResponse) : bool :=
  negb (isFIDO20Only (Versions info)) && flag (Options info) OptionPinUvAuthToken.

Definition bioEnrollmentMode (info : AuthenticatorGetInfoResponse) : result bool :=
  let preview := IsPreviewOnly (Versions info) in
  if preview then
    if bool_decide (Options info !! OptionUserVerificationMgmtPreview = None) then
      Err (newErrorMessage ErrNotSupported "device doesn't support preview biometric enrollment")
    else Ok true
  else if bool_decide (Options info !! OptionBioEnroll = None) then
    Err (newErrorMessage ErrNotSupported "device doesn't support biometric enrollment")
  else Ok preview.

Definition credentialManagementMode (info : AuthenticatorGetInfoResponse) : result bool :=
  let preview := IsPreviewOnly (Versions info) in
  let option := if preview then OptionCredentialManagementPreview
                else OptionCredentialManagement in
  match Options info !! option with
  | Some true => Ok preview
  | _ => Err (newErrorMessage ErrNotSupported "device doesn't support credential management")
  end.

Inductive pinTokenFlow := pinTokenFlowLegacy | pinTokenFlowWithPermissions.
Inductive uvTokenFlow := uvTokenFlowPreview | uvTokenFlowWithPermissions.

(** A check that returns its error. *)
Definition guard_err (c : option error) : result unit :=
  match c with Some e => Err e | None => Ok tt end.
Definition reject (b : bool) (msg : string) : result unit :=
  guard_err (check b (newErrorMessage ErrNotSupported msg)).

Definition selectPinTokenFlowUsingPIN (info : AuthenticatorGetInfoResponse)
    (permission : Z) (rpID : string) : result pinTokenFlow :=
  (if negb (isFIDO20Only (Versions info)) || negb (permission =? PermissionNone)
   then guard_err (validatePinUvAuthTokenPermissionSet permission) else Ok tt) ≫= fun _ =>
  match Options info !! OptionClientPIN with
  | None => Err (newErrorMessage ErrNotSupported "device doesn't support clientPin")
  | Some false => Err (newErrorMessage ErrPinNotSet "please set PIN first")
  | Some true =>
    reject (flag (Options info) OptionNoMcGaPermissionsWithClientPin
            && has_bit permission (Z.lor PermissionMakeCredential PermissionGetAssertion))
      "device doesn't allow PIN-obtained tokens with MakeCredential or GetAssertion permissions" ≫= fun _ =>
    let previewPermissions := PermissionNone in
    (if has_bit permission PermissionCredentialManagement then
       if IsPreviewOnly (Versions info) then
         credentialManagementMode info ≫= fun _ =>
         Ok (Z.lor previewPermissions PermissionCredentialManagement)
       else reject (negb (flag (Options info) OptionCredentialManagement))
              "device doesn't support CredentialManagement permission" ≫= fun _ =>
         Ok previewPermissions
     else Ok previewPermissions) ≫= fun previewPermissions =>
    (if has_bit permission PermissionBioEnrollment then
       if IsPreviewOnly (Versions info) then
         bioEnrollmentMode info ≫= fun _ => Ok (Z.lor previewPermissions PermissionBioEnrollment)
       else reject (bool_decide (Options info !! OptionBioEnroll = None))
              "device doesn't support BioEnrollment permission" ≫= fun _ => Ok previewPermissions
     else Ok previewPermissions) ≫= fun previewPermissions =>
    reject (has_bit permission PermissionLargeBlobWrite
            && negb (flag (Options info) OptionLargeBlobs))
      "device doesn't support LargeBlobWrite permission" ≫= fun _ =>
    reject (has_bit permission PermissionAuthenticatorConfiguration
            && negb (flag (Options info) OptionAuthenticatorConfig))
      "device doesn't support AuthenticatorConfiguration permission" ≫= fun _ =>
    reject (has_bit permission PermissionPersistentCredentialManagementReadOnly
            && negb (flag (Options info) OptionPersistentCredentialManagementReadOnly))
      "device doesn't support PersistentCredentialManagementReadOnly permission" ≫= fun _ =>
    let permissionedTokens := permissionedPinUvAuthTokensSupported info in
    if negb permissionedTokens || negb (previewPermissions =? PermissionNone) then
      let legacyPermissions :=
        Z.lor (Z.lor PermissionMakeCredential PermissionGetAssertion) previewPermissions in
      if negb (Z.ldiff permission legacyPermissions =? 0) then
        Err (newErrorMessage ErrNotSupported "legacy getPinToken cannot grant the requested permissions")
      else Ok pinTokenFlowLegacy
    else
      guard_err (validatePinUvAuthTokenPermissionRPID permission rpID) ≫= fun _ =>
      Ok pinTokenFlowWithPermissions
  end.

Definition selectPinUvAuthTokenFlowUsingUV (info : AuthenticatorGetInfoResponse)
    (permission : Z) (rpID : string) : result uvTokenFlow :=
  guard_err (validatePinUvAuthTokenPermissionSet permission) ≫= fun _ =>
  match Options info !! OptionUserVerification with
  | None => Err (newErrorMessage ErrNotSupported "device doesn't support user verification")
  | Some false =>
      Err (newErrorMessage ErrUvNotConfigured "please configure UV first (e.g. enroll biometry)")
  | Some true =>
    if IsPreviewOnly (Versions info) && flag (Options info) OptionUvToken then
      reject (negb (len (PinUvAuthProtocols info) =? 0)
              && negb (contains (PinUvAuthProtocols info) PinUvAuthProtocolOne))
        "device advertises uvToken without pinUvAuthProtocol 1" ≫= fun _ =>
      let legacyPermissions := Z.lor PermissionMakeCredential PermissionGetAssertion in
      (if has_bit permission PermissionCredentialManagement then
         credentialManagementMode info ≫= fun _ =>
         Ok (Z.lor legacyPermissions PermissionCredentialManagement)
       else Ok legacyPermissions) ≫= fun legacyPermissions =>
      (if has_bit permission PermissionBioEnrollment then
         bioEnrollmentMode info ≫= fun _ =>
         Ok (Z.lor legacyPermissions PermissionBioEnrollment)
       else Ok legacyPermissions) ≫= fun legacyPermissions =>
      if negb (Z.ldiff permission legacyPermissions =? 0) then
        Err (newErrorMessage ErrNotSupported "preview getUvToken cannot grant the requested permissions")
      else Ok uvTokenFlowPreview
    else
      reject (negb (permissionedPinUvAuthTokensSupported info))
        "device doesn't support pinUvAuthToken" ≫= fun _ =>
      reject (has_bit permission PermissionCredentialManagement
              && negb (flag (Options info) OptionCredentialManagement))
        "device doesn't support CredentialManagement permission" ≫= fun _ =>
      reject (has_bit permission PermissionBioEnrollment
              && (bool_decide (Options info !! OptionBioEnroll = None)
                  || negb (flag (Options info) OptionUvBioEnroll)))
        "device doesn't support obtaining BioEnrollment permission using built-in UV" ≫= fun _ =>
      reject (has_bit permission PermissionLargeBlobWrite
              && negb (flag (Options info) OptionLargeBlobs))
        "device doesn't support LargeBlobWrite permission" ≫= fun _ =>
      reject (has_bit permission PermissionAuthenticatorConfiguration
              && (negb (flag (Options info) OptionAuthenticatorConfig)
                  || negb (flag (Options info) OptionUvAcfg)))
        "device doesn't support obtaining AuthenticatorConfiguration permission using built-in UV" ≫= fun _ =>
      reject (has_bit permission PermissionPersistentCredentialManagementReadOnly
              && negb (flag (Options info) OptionPersistentCredentialManagementReadOnly))
        "device doesn't support PersistentCredentialManagementReadOnly permission" ≫= fun _ =>
      guard_err (validatePinUvAuthTokenPermissionRPID permission rpID) ≫= fun _ =>
      Ok uvTokenFlowWithPermissions
  end.

(** ** Management commands *)

Definition ConfigSubCommandEnableEnterpriseAttestation : Z := 1.
Definition ConfigSubCommandToggleAlwaysUv : Z := 2.
Definition ConfigSubCommandSetMinPINLength : Z := 3.
Definition ConfigSubCommandEnableLongTouchForReset : Z := 4.

Definition largeBlobsAuthorizationRequired (info : AuthenticatorGetInfoResponse) : bool :=
  hasConfiguredUserVerification info || alwaysUVEnabled info.

Definition configAuthorizationRequired (info : AuthenticatorGetInfoResponse)
    (subCommand : Z) : bool :=
  let userVerificationConfigured := hasConfiguredUserVerification info in
  let alwaysUV := alwaysUVEnabled info in
  if (subCommand =? ConfigSubCommandToggleAlwaysUv) && negb userVerificationConfigured
     && alwaysUV then false
  else userVerificationConfigured || alwaysUV.

(** The generated [ConfigSubCommand.String]. *)
Definition ConfigSubCommand_String (i : Z) : string :=
  if i =? 1 then "ConfigSubCommandEnableEnterpriseAttestation"
  else if i =? 2 then "ConfigSubCommandToggleAlwaysUv"
  else if i =? 3 then "ConfigSubCommandSetMinPINLength"
  else if i =? 4 then "ConfigSubCommandEnableLongTouchForReset"
  else "ConfigSubCommand(" +:+ pretty i +:+ ")".

Definition validateAuthenticatorConfigCommand (info : AuthenticatorGetInfoResponse)
    (subCommand : Z) : option error :=
  if negb (flag (Options info) OptionAuthenticatorConfig) then
    Some (newErrorMessage ErrNotSupported "device doesn't support authnrCfg")
  else if Supports (Versions info) FIDO_2_3
          && negb (contains (AuthenticatorConfigCommands info) subCommand) then
    Some (newErrorMessage ErrNotSupported
            ("device doesn't support authenticatorConfig subcommand " +:+
             ConfigSubCommand_String subCommand))
  else None.

(** ** The authenticator's side (CTAP 2.1, sections 6.1.2 and 6.2.2)

    The part of the authenticator's algorithms that decides on user
    verification, step by step as the specification lists them: [param] says
    whether pinUvAuthParam is present. *)
Inductive outcome :=
  | Proceed
  | InvalidOption        (* the uv option without enabled built-in UV *)
  | UnsupportedOption    (* rk in authenticatorGetAssertion *)
  | NotProtected         (* alwaysUv without any configured UV *)
  | PuatRequired         (* CTAP2_ERR_PUAT_REQUIRED *)
  | OperationDenied.     (* CTAP2_ERR_OPERATION_DENIED *)

Section Authenticator.
Context (info : AuthenticatorGetInfoResponse) (param : bool) (options : gmap string bool).

Definition built_in_uv : bool := bool_decide (Options info !! OptionUserVerification = Some true).
Definition protected : bool :=
  built_in_uv || bool_decide (Options info !! OptionClientPIN = Some true).
(** alwaysUv and makeCredUvNotRqd do not exist in CTAP 2.0. *)
Definition feature (option : string) : bool :=
  negb (isFIDO20Only (Versions info)) && bool_decide (Options info !! option = Some true).

Definition makecred_algorithm : outcome :=
  (* step 5: the options; pinUvAuthParam makes uv false *)
  let uv := if param then false else flag options OptionUserVerification in
  let rk := flag options OptionResidentKeys in
  if uv && negb built_in_uv then InvalidOption
  (* step 6: alwaysUv *)
  else if feature OptionAlwaysUv then
    if negb protected then NotProtected
    else if param then Proceed
    else if uv || built_in_uv then Proceed else PuatRequired
  (* step 7: makeCredUvNotRqd *)
  else if feature OptionMakeCredentialUvNotRequired then
    if protected && negb uv && negb param && rk then PuatRequired else Proceed
  (* step 8: otherwise *)
  else if protected && negb uv && negb param then PuatRequired else Proceed.

Definition getassertion_algorithm : outcome :=
  let uv := if param then false else flag options OptionUserVerification in
  let up := default true (options !! OptionUserPresence) in
  if uv && negb built_in_uv then InvalidOption
  else if bool_decide (is_Some (options !! OptionResidentKeys)) then UnsupportedOption
  else if feature OptionAlwaysUv && up then
    if negb protected then NotProtected
    else if param then Proceed
    else if uv || built_in_uv then Proceed
    else if negb (flag (Options info) OptionNoMcGaPermissionsWithClientPin) then PuatRequired
    else OperationDenied
  else Proceed.
End Authenticator.

(** How the checks answer an outcome. *)
Definition makecred_answer (o : outcome) (answer : option error) : Prop :=
  match o with
  | Proceed => answer = None
  | InvalidOption => exists e, answer = Some e /\
      (errors_Is e ErrNotSupported = true \/ errors_Is e ErrUvNotConfigured = true)
  | _ => answer = Some ErrPinUvAuthTokenRequired
  end.

Definition getassertion_answer (o : outcome) (answer : option error) : Prop :=
  match o with
  | Proceed => answer = None
  | InvalidOption => exists e, answer = Some e /\
      (errors_Is e ErrNotSupported = true \/ errors_Is e ErrUvNotConfigured = true)
  | UnsupportedOption => exists e, answer = Some e /\ errors_Is e ErrNotSupported = true
  | PuatRequired => answer = Some ErrPinUvAuthTokenRequired
  | NotProtected | OperationDenied => exists e, answer = Some e /\
      (errors_Is e ErrBuiltInUVRequired = true \/ errors_Is e ErrUvNotConfigured = true)
  end.

(** A request the platform may send: no empty token, no token together with
    the uv option, and a token only from a protected authenticator. *)
Definition valid_request (info : AuthenticatorGetInfoResponse) (token : slice)
    (options : gmap string bool) : Prop :=
  token <> Some [] /\
  (token <> None -> flag options OptionUserVerification = false /\ protected info = true).

Lemma flag_decide m k : flag m k = bool_decide (m !! k = Some true).
Proof. unfold flag. by destruct (m !! k) as [[]|]. Qed.

Lemma has_token_spec token : has_token token = true <-> token <> None.
Proof. unfold has_token. apply bool_decide_eq_true. Qed.

(** An error is one of the sentinels a goal lists. *)
Ltac by_is :=
  eexists; split; [reflexivity|];
  first [vm_compute; reflexivity | left; vm_compute; reflexivity | right; vm_compute; reflexivity].

(** The common first check on a valid request. *)
Lemma user_verification_request_valid info token options :
  valid_request info token options ->
  let uv := flag options OptionUserVerification in
  if uv && negb (built_in_uv info)
  then exists e, validateUserVerificationRequest info token options = Some e /\
    (errors_Is e ErrNotSupported = true \/ errors_Is e ErrUvNotConfigured = true)
  else validateUserVerificationRequest info token options = None.
Proof.
  intros [Hne Htok]. cbn zeta. unfold validateUserVerificationRequest, built_in_uv, has_token.
  rewrite (bool_decide_eq_false_2 (token = Some [])) by done.
  destruct token as [t|].
  - destruct Htok as [-> _]; [done|]. cbn [andb]. by rewrite andb_false_r.
  - rewrite (bool_decide_eq_false_2 (_ <> _)) by naive_solver. cbn [andb].
    destruct (flag options OptionUserVerification); [|done].
    destruct (Options info !! OptionUserVerification) as [[]|]; [done | by_is | by_is].
Qed.

(** C31. The authorisation check of authenticatorMakeCredential predicts the
    authenticator: on a request the platform may send it passes exactly when
    the algorithm of section 6.1.2 (CTAP 2.0 included) proceeds, reports a
    missing token exactly when user verification is required and the request
    carries none, and rejects a uv option the authenticator would reject; an
    empty token, or a token with the uv option, is a syntax error. *)
Theorem make_credential_preflight info token options :
  (valid_request info token options ->
   makecred_answer (makecred_algorithm info (has_token token) options)
     (validateMakeCredentialAuthorization info token options)) /\
  (token = Some [] \/ (token <> None /\ flag options OptionUserVerification = true) ->
   exists e, validateMakeCredentialAuthorization info token options = Some e /\
     errors_Is e SyntaxError = true).
Proof.
  split.
  - intros Hv. pose proof (user_verification_request_valid _ _ _ Hv) as Hu. cbn zeta in Hu.
    destruct Hv as [_ Htok].
    unfold makecred_algorithm, validateMakeCredentialAuthorization, hasConfiguredUserVerification,
      alwaysUVEnabled, feature. unfold protected in *.
    destruct (has_token token) eqn:Ht.
    + apply has_token_spec, Htok in Ht as [Ho Hp]. rewrite Ho in *. cbn [andb] in Hu.
      rewrite Hu, Hp, !flag_decide. cbn. repeat case_match; try done; to_prop; naive_solver.
    + cbn zeta. destruct (flag options OptionUserVerification && negb (built_in_uv info)) eqn:Hi.
      { destruct Hu as (e & -> & He). cbn. eauto. }
      rewrite Hu, !flag_decide in *. fold (built_in_uv info) in *.
      destruct (isFIDO20Only _), (built_in_uv info), (bool_decide (Options info !! OptionClientPIN = _)),
        (bool_decide (Options info !! OptionAlwaysUv = _)),
        (bool_decide (Options info !! OptionMakeCredentialUvNotRequired = _)),
        (bool_decide (options !! OptionResidentKeys = _)),
        (bool_decide (options !! OptionUserVerification = _)); cbn in *; done.
  - intros Hbad. unfold validateMakeCredentialAuthorization, validateUserVerificationRequest.
    case_bool_decide; [by_is|]. destruct Hbad as [?|[Ht ->]]; [done|].
    apply has_token_spec in Ht as ->. by_is.
Qed.

(** C32. The authorisation check of authenticatorGetAssertion predicts the
    authenticator likewise (section 6.2.2): it passes exactly when the
    algorithm proceeds, alwaysUv bites only when user presence is requested
    (the default), a PIN token is asked for exactly when the PIN may provide
    one, and the rk option is refused. *)
Theorem get_assertion_preflight info token options :
  valid_request info token options ->
  getassertion_answer (getassertion_algorithm info (has_token token) options)
    (validateGetAssertionAuthorization info token options).
Proof.
  intros Hv. pose proof (user_verification_request_valid _ _ _ Hv) as Hu. cbn zeta in Hu.
  destruct Hv as [_ Htok].
  unfold getassertion_algorithm, validateGetAssertionAuthorization, alwaysUVEnabled, feature.
  unfold protected in *.
  assert (Hup : default true (options !! OptionUserPresence) =
    match options !! OptionUserPresence with Some up => up | None => true end) by done.
  rewrite Hup. generalize (match options !! OptionUserPresence with Some up => up | None => true end).
  intros up. destruct (has_token token) eqn:Ht.
  - apply has_token_spec, Htok in Ht as [Ho Hp]. rewrite Ho in *. cbn [andb] in Hu.
    rewrite Hu, Hp, !flag_decide. cbn. repeat case_match; try done; to_prop; naive_solver.
  - destruct (flag options OptionUserVerification && negb (built_in_uv info)) eqn:Hi.
    { destruct Hu as (e & -> & He). cbn. eauto. }
    rewrite Hu. destruct (bool_decide (is_Some _)); [by_is|].
    rewrite !flag_decide in *. unfold built_in_uv in *.
    destruct (isFIDO20Only _), (Options info !! OptionUserVerification) as [[]|],
      (bool_decide (Options info !! OptionClientPIN = _)),
      (bool_decide (Options info !! OptionAlwaysUv = _)),
      (bool_decide (Options info !! OptionNoMcGaPermissionsWithClientPin = _)),
      (bool_decide (options !! OptionUserVerification = _)), up; cbn in *; first [done | by_is].
Qed.

Definition sample_uv_info : AuthenticatorGetInfoResponse :=
  sample_info ["FIDO_2_0"; "FIDO_2_1"]
    (<["clientPin" := true]> (<["alwaysUv" := true]> ∅)) [2; 1].

Lemma make_credential_preflight_witness :
  validateMakeCredentialAuthorization sample_uv_info None ∅ = Some ErrPinUvAuthTokenRequired /\
  validateMakeCredentialAuthorization sample_uv_info (Some (zeros 32)) ∅ = None.
Proof.
  split.
  - exact (proj1 (make_credential_preflight sample_uv_info None ∅)
      ltac:(split; [done | intros H; by destruct H])).
  - exact (proj1 (make_credential_preflight sample_uv_info (Some (zeros 32)) ∅)
      ltac:(split; [done | by intros _])).
Defined.

Lemma get_assertion_preflight_witness :
  validateGetAssertionAuthorization sample_uv_info None ∅ = Some ErrPinUvAuthTokenRequired.
Proof.
  exact (get_assertion_preflight sample_uv_info None ∅
    ltac:(split; [done | intros H; by destruct H])).
Defined.

(** ** PIN/UV auth protocol of a request *)

(** The protocol chosen is the first acceptable one of the response. *)
Definition acceptable (fips : bool) (p : Z) : Prop :=
  p = PinUvAuthProtocolTwo \/ (p = PinUvAuthProtocolOne /\ fips = false).

#[export] Instance acceptable_dec fips p : Decision (acceptable fips p).
Proof. unfold acceptable. apply _. Defined.

Lemma first_protocol_find fips l pe :
  match first_protocol fips l pe with
  | inl p => list_find (acceptable fips) l <> None /\ (snd <$> list_find (acceptable fips) l) = Some p
  | inr _ => list_find (acceptable fips) l = None
  end.
Proof.
  revert pe. induction l as [|c l IH]; intros pe; [done|].
  assert (Hskip : forall pe', ~ acceptable fips c ->
    match first_protocol fips l pe' with
    | inl p => list_find (acceptable fips) (c :: l) <> None /\
        (snd <$> list_find (acceptable fips) (c :: l)) = Some p
    | inr _ => list_find (acceptable fips) (c :: l) = None
    end).
  { intros pe' Hn. cbn [list_find]. rewrite decide_False by done. specialize (IH pe').
    destruct (first_protocol fips l pe'); destruct (list_find _ l) as [[]|]; naive_solver. }
  cbn [first_protocol]. unfold ValidateFIPS140UvAuthProtocol, PinUvAuthProtocolOne, PinUvAuthProtocolTwo.
  destruct (Z.eqb_spec c 2) as [->|H2].
  - rewrite orb_true_r. cbn [orb]. rewrite orb_true_r. cbn [list_find].
    rewrite decide_True by by left. done.
  - rewrite !orb_false_r. destruct (Z.eqb_spec c 1) as [->|H1].
    + destruct fips; cbn [negb].
      * apply Hskip. intros [?|[_ ?]]; done.
      * cbn [list_find]. rewrite decide_True by by right. done.
    + apply Hskip. intros [?|[? _]]; done.
Qed.

Lemma first_acceptable fips l pe p :
  first_protocol fips l pe = inl p ->
  exists i, list_find (acceptable fips) l = Some (i, p).
Proof.
  intros H. pose proof (first_protocol_find fips l pe) as Hf. rewrite H in Hf.
  destruct (list_find (acceptable fips) l) as [[i q]|]; [|naive_solver].
  exists i. naive_solver.
Qed.

(** A token goes into a request only with a protocol the authenticator
    reported - the first one the FIPS policy allows - or protocol one of the
    preview UV-token flow, and only with a length the protocol and the CTAP
    version allow (so that [ValidateUvAuthToken] passes in the client); no
    token goes without a protocol, and a missing one is reported exactly when
    the request needs it. *)
Theorem protocol_for_request fips info token required p :
  pinUvAuthProtocolForRequest fips info token required = Ok p ->
  match token with
  | None => required = false /\ p = 0
  | Some t =>
      acceptable fips p /\
      ((exists i, list_find (acceptable fips) (PinUvAuthProtocols info) = Some (i, p)) \/
       (PinUvAuthProtocols info = [] /\ p = PinUvAuthProtocolOne /\
        IsPreviewOnly (Versions info) = true /\ flag (Options info) OptionUvToken = true)) /\
      ValidateUvAuthToken fips p t = None /\
      (isFIDO20Only (Versions info) = false -> IsPreviewOnly (Versions info) = false ->
       len t = 16 \/ len t = 32)
  end.
Proof.
  unfold pinUvAuthProtocolForRequest. destruct token as [t|]; [|by destruct required; naive_solver].
  destruct (requirePinUvAuthProtocol fips info) as [q| | |] eqn:Hq; try done.
  cbn [mbind result_bind]. intros H.
  destruct (_ && _) eqn:Hc in H; [done|].
  destruct (ValidateUvAuthToken fips q t) eqn:Hv; [done|]. injection H as <-.
  split; [|split; [|split; [done|]]].
  - unfold acceptable. apply ValidateUvAuthToken_None in Hv. naive_solver.
  - unfold requirePinUvAuthProtocol in Hq.
    destruct (first_protocol fips (PinUvAuthProtocols info) None) as [c|pe] eqn:Hf.
    + injection Hq as ->. left. by eapply first_acceptable.
    + right. destruct pe; [done|]. destruct (_ && _) eqn:Hp in Hq; [|done].
      destruct (ValidateFIPS140UvAuthProtocol _ _) in Hq; [done|]. injection Hq as <-.
      to_prop. split; [by apply len_0|done].
  - intros Hf Hp. rewrite Hf, Hp in Hc. cbn [negb andb] in Hc.
    apply ValidateUvAuthToken_None in Hv as [(-> & _)|[_ ?]]; [|by right].
    change (1 =? 1) with true in Hc. cbn [andb] in Hc. rewrite Z.eqb_refl in Hc. cbn [andb] in Hc.
    to_prop. destruct Hc as [Hc|Hc]; to_prop; auto.
Qed.

Lemma protocol_for_request_witness :
  pinUvAuthProtocolForRequest true sample_uv_info (Some (zeros 32)) true = Ok 2 /\
  acceptable true 2.
Proof.
  assert (H : pinUvAuthProtocolForRequest true sample_uv_info (Some (zeros 32)) true = Ok 2)
    by (vm_compute; reflexivity).
  split; [exact H|].
  exact (proj1 (protocol_for_request true sample_uv_info (Some (zeros 32)) true 2 H)).
Defined.

(** ** Token flows *)

(** What the authenticator must report for a permission to be granted with a
    PIN, and which permissions belong to the preview commands. *)
Definition present (info : AuthenticatorGetInfoResponse) (option : string) : Prop :=
  Options info !! option <> None.
Definition enabled (info : AuthenticatorGetInfoResponse) (option : string) : Prop :=
  Options info !! option = Some true.

Definition cm_backed (info : AuthenticatorGetInfoResponse) : Prop :=
  if IsPreviewOnly (Versions info) then enabled info OptionCredentialManagementPreview
  else enabled info OptionCredentialManagement.
Definition be_backed (info : AuthenticatorGetInfoResponse) : Prop :=
  if IsPreviewOnly (Versions info) then present info OptionUserVerificationMgmtPreview
  else present info OptionBioEnroll.

Definition mc_ga : Z := Z.lor PermissionMakeCredential PermissionGetAssertion.
Definition cm_be : Z := Z.lor PermissionCredentialManagement PermissionBioEnrollment.

(** The permissions shared by both flows: no pcmr beside others, and the
    options behind lbw, acfg and pcmr. *)
Definition common_backed (info : AuthenticatorGetInfoResponse) (permission : Z) : Prop :=
  (has_bit permission PermissionPersistentCredentialManagementReadOnly = true ->
   permission = PermissionPersistentCredentialManagementReadOnly /\
   enabled info OptionPersistentCredentialManagementReadOnly) /\
  (has_bit permission PermissionLargeBlobWrite = true -> enabled info OptionLargeBlobs) /\
  (has_bit permission PermissionAuthenticatorConfiguration = true ->
   enabled info OptionAuthenticatorConfig).

Lemma bind_Ok_iff {A B} (r : result A) (f : A -> result B) b :
  (r ≫= f) = Ok b <-> exists a, r = Ok a /\ f a = Ok b.
Proof. destruct r; cbn; naive_solver. Qed.

Lemma reject_Ok b msg u : reject b msg = Ok u <-> b = false.
Proof. destruct b, u; cbn; naive_solver. Qed.

Lemma guard_err_Ok c u : guard_err c = Ok u <-> c = None.
Proof. destruct c, u; cbn; naive_solver. Qed.

Lemma permission_set_None permission :
  validatePinUvAuthTokenPermissionSet permission = None <->
  permission <> 0 /\
  (has_bit permission PermissionPersistentCredentialManagementReadOnly = true ->
   permission = PermissionPersistentCredentialManagementReadOnly).
Proof.
  unfold validatePinUvAuthTokenPermissionSet, PermissionNone.
  destruct (Z.eqb_spec permission 0); [naive_solver|].
  destruct (has_bit _ _); cbn [andb]; [|naive_solver].
  destruct (Z.eqb_spec permission PermissionPersistentCredentialManagementReadOnly); naive_solver.
Qed.

Lemma permission_rpid_None permission rpID :
  validatePinUvAuthTokenPermissionRPID permission rpID = None <->
  (has_bit permission mc_ga = true -> rpID <> "").
Proof.
  unfold validatePinUvAuthTokenPermissionRPID, mc_ga.
  destruct (has_bit _ _); cbn [andb]; [|naive_solver]. case_bool_decide; naive_solver.
Qed.

Lemma credentialManagementMode_Ok info b :
  credentialManagementMode info = Ok b <-> b = IsPreviewOnly (Versions info) /\ cm_backed info.
Proof.
  unfold credentialManagementMode, cm_backed, enabled.
  destruct (IsPreviewOnly _); destruct (Options info !! _) as [[]|]; naive_solver.
Qed.

Lemma bioEnrollmentMode_Ok info b :
  bioEnrollmentMode info = Ok b <-> b = IsPreviewOnly (Versions info) /\ be_backed info.
Proof.
  unfold bioEnrollmentMode, be_backed, present.
  destruct (IsPreviewOnly _); case_bool_decide; naive_solver.
Qed.

Lemma flag_false_negb m k : negb (flag m k) = false <-> m !! k = Some true.
Proof. rewrite negb_false_iff. apply flag_true. Qed.

Lemma andb_false_impl a b : (a && b)%bool = false <-> (a = true -> b = false).
Proof. destruct a, b; naive_solver. Qed.

(** *** Permission bits *)

Lemma land_bit p k : 0 <= k -> Z.land p (2 ^ k) = if has_bit p (2 ^ k) then 2 ^ k else 0.
Proof.
  intros Hk.
  assert (Hl : Z.land p (2 ^ k) = if Z.testbit p k then 2 ^ k else 0).
  { apply Z.bits_inj'. intros i Hi. rewrite Z.land_spec, Z.pow2_bits_eqb by done.
    destruct (Z.eqb_spec k i) as [<-|Hne].
    - rewrite andb_true_r. destruct (Z.testbit p k); [by rewrite Z.pow2_bits_true|by rewrite Z.bits_0].
    - rewrite andb_false_r. destruct (Z.testbit p k); [by rewrite Z.pow2_bits_false|by rewrite Z.bits_0]. }
  unfold has_bit. rewrite Hl. pose proof (Z.pow_pos_nonneg 2 k).
  destruct (Z.testbit p k); [|done]. destruct (Z.eqb_spec (2 ^ k) 0); [lia|done].
Qed.

(** Granting only the requested bits of a mask grants as much of the request
    as granting the mask. *)
Lemma ldiff_lor_land p m c : Z.ldiff p (Z.lor m (Z.land p c)) = Z.ldiff p (Z.lor m c).
Proof.
  apply Z.bits_inj'. intros i Hi. rewrite !Z.ldiff_spec, !Z.lor_spec, Z.land_spec by done.
  by destruct (Z.testbit p i), (Z.testbit m i), (Z.testbit c i).
Qed.

(** The requested bits among cm and be, as the code collects them. *)
Lemma collect_cm_be p :
  Z.lor (if has_bit p PermissionCredentialManagement then PermissionCredentialManagement else 0)
    (if has_bit p PermissionBioEnrollment then PermissionBioEnrollment else 0) = Z.land p cm_be.
Proof.
  unfold cm_be. rewrite Z.land_lor_distr_r.
  change PermissionCredentialManagement with (2 ^ 2).
  change PermissionBioEnrollment with (2 ^ 3). by rewrite !land_bit by lia.
Qed.

Definition preview_mask (info : AuthenticatorGetInfoResponse) (permission : Z) : Z :=
  if IsPreviewOnly (Versions info) then Z.land permission cm_be else 0.

Lemma preview_cm_Ok info p prev v :
  (if has_bit p PermissionCredentialManagement then
     if IsPreviewOnly (Versions info) then
       credentialManagementMode info ≫= fun _ => Ok (Z.lor prev PermissionCredentialManagement)
     else reject (negb (flag (Options info) OptionCredentialManagement))
            "device doesn't support CredentialManagement permission" ≫= fun _ => Ok prev
   else Ok prev) = Ok v <->
  (has_bit p PermissionCredentialManagement = true -> cm_backed info) /\
  v = Z.lor prev (if IsPreviewOnly (Versions info) && has_bit p PermissionCredentialManagement
                  then PermissionCredentialManagement else 0).
Proof.
  destruct (has_bit _ _); [|rewrite andb_false_r, Z.lor_0_r; naive_solver].
  rewrite andb_true_r. destruct (IsPreviewOnly _) eqn:Hp; rewrite bind_Ok_iff.
  - setoid_rewrite credentialManagementMode_Ok. naive_solver.
  - setoid_rewrite reject_Ok. setoid_rewrite flag_false_negb. rewrite Z.lor_0_r.
    unfold cm_backed, enabled. rewrite Hp. split; [naive_solver|]. intros [? ->]. exists tt. naive_solver.
Qed.

Lemma preview_be_Ok info p prev v :
  (if has_bit p PermissionBioEnrollment then
     if IsPreviewOnly (Versions info) then
       bioEnrollmentMode info ≫= fun _ => Ok (Z.lor prev PermissionBioEnrollment)
     else reject (bool_decide (Options info !! OptionBioEnroll = None))
            "device doesn't support BioEnrollment permission" ≫= fun _ => Ok prev
   else Ok prev) = Ok v <->
  (has_bit p PermissionBioEnrollment = true -> be_backed info) /\
  v = Z.lor prev (if IsPreviewOnly (Versions info) && has_bit p PermissionBioEnrollment
                  then PermissionBioEnrollment else 0).
Proof.
  destruct (has_bit _ _); [|rewrite andb_false_r, Z.lor_0_r; naive_solver].
  rewrite andb_true_r. destruct (IsPreviewOnly _) eqn:Hp; rewrite bind_Ok_iff.
  - setoid_rewrite bioEnrollmentMode_Ok. naive_solver.
  - setoid_rewrite reject_Ok. setoid_rewrite bool_decide_eq_false. rewrite Z.lor_0_r.
    unfold be_backed, present. rewrite Hp. split; [naive_solver|]. intros [? ->]. exists tt. naive_solver.
Qed.

Lemma preview_mask_collect info p :
  Z.lor (Z.lor PermissionNone
    (if IsPreviewOnly (Versions info) && has_bit p PermissionCredentialManagement
     then PermissionCredentialManagement else 0))
    (if IsPreviewOnly (Versions info) && has_bit p PermissionBioEnrollment
     then PermissionBioEnrollment else 0) = preview_mask info p.
Proof.
  unfold preview_mask. destruct (IsPreviewOnly _); [|done]. cbn [andb].
  change PermissionNone with 0. rewrite Z.lor_0_l. apply collect_cm_be.
Qed.

Lemma preview_mask_nonzero info p :
  negb (preview_mask info p =? 0) = IsPreviewOnly (Versions info) && has_bit p cm_be.
Proof. unfold preview_mask, has_bit. by destruct (IsPreviewOnly _). Qed.

(** *** The flow using the PIN *)

(** The flow for the permissions: with permissions when the authenticator
    has them and no preview command is asked for. *)
Definition pin_flow_of (info : AuthenticatorGetInfoResponse) (permission : Z) : pinTokenFlow :=
  if permissionedPinUvAuthTokensSupported info &&
     negb (IsPreviewOnly (Versions info) && has_bit permission cm_be)
  then pinTokenFlowWithPermissions else pinTokenFlowLegacy.

(** What the legacy command grants: mc and ga, and the preview commands. *)
Definition legacy_grant (info : AuthenticatorGetInfoResponse) : Z :=
  Z.lor mc_ga (if IsPreviewOnly (Versions info) then cm_be else 0).

Lemma ldiff_preview_mask info p :
  Z.ldiff p (Z.lor mc_ga (preview_mask info p)) = Z.ldiff p (legacy_grant info).
Proof.
  unfold preview_mask, legacy_grant. destruct (IsPreviewOnly _); [|done]. apply ldiff_lor_land.
Qed.

(** The last decision, on the preview permissions collected. *)
Lemma pin_flow_decision info permission rpID flow :
  (if negb (permissionedPinUvAuthTokensSupported info)
      || negb (preview_mask info permission =? PermissionNone) then
     if negb (Z.ldiff permission (Z.lor (Z.lor PermissionMakeCredential PermissionGetAssertion)
                                    (preview_mask info permission)) =? 0) then
       Err (newErrorMessage ErrNotSupported "legacy getPinToken cannot grant the requested permissions")
     else Ok pinTokenFlowLegacy
   else guard_err (validatePinUvAuthTokenPermissionRPID permission rpID) ≫= fun _ =>
        Ok pinTokenFlowWithPermissions) = Ok flow <->
  flow = pin_flow_of info permission /\
  match flow with
  | pinTokenFlowLegacy => Z.ldiff permission (legacy_grant info) = 0
  | pinTokenFlowWithPermissions => has_bit permission mc_ga = true -> rpID <> ""
  end.
Proof.
  unfold pin_flow_of. change PermissionNone with 0. fold mc_ga.
  rewrite preview_mask_nonzero, ldiff_preview_mask.
  destruct (permissionedPinUvAuthTokensSupported info); cbn [negb orb andb];
    [destruct (_ && _); cbn [negb]|];
    [destruct (Z.eqb_spec (Z.ldiff permission (legacy_grant info)) 0); naive_solver| |
     destruct (Z.eqb_spec (Z.ldiff permission (legacy_grant info)) 0); naive_solver].
  rewrite bind_Ok_iff. setoid_rewrite guard_err_Ok. setoid_rewrite permission_rpid_None.
  split; [naive_solver|]. intros [-> ?]. by exists tt.
Qed.


(** *** The flow using built-in user verification *)

Definition preview_uv (info : AuthenticatorGetInfoResponse) : bool :=
  IsPreviewOnly (Versions info) && flag (Options info) OptionUvToken.

(** What the authenticator must report besides, flow by flow. *)
Definition uv_flow_backed (info : AuthenticatorGetInfoResponse) (permission : Z) (rpID : string)
    (flow : uvTokenFlow) : Prop :=
  match flow with
  | uvTokenFlowPreview =>
      (PinUvAuthProtocols info = [] \/ PinUvAuthProtocolOne ∈ PinUvAuthProtocols info) /\
      (has_bit permission PermissionCredentialManagement = true -> cm_backed info) /\
      (has_bit permission PermissionBioEnrollment = true -> be_backed info) /\
      Z.ldiff permission (Z.lor mc_ga cm_be) = 0
  | uvTokenFlowWithPermissions =>
      permissionedPinUvAuthTokensSupported info = true /\
      (has_bit permission PermissionCredentialManagement = true ->
       enabled info OptionCredentialManagement) /\
      (has_bit permission PermissionBioEnrollment = true ->
       present info OptionBioEnroll /\ enabled info OptionUvBioEnroll) /\
      (has_bit permission PermissionLargeBlobWrite = true -> enabled info OptionLargeBlobs) /\
      (has_bit permission PermissionAuthenticatorConfiguration = true ->
       enabled info OptionAuthenticatorConfig /\ enabled info OptionUvAcfg) /\
      (has_bit permission PermissionPersistentCredentialManagementReadOnly = true ->
       enabled info OptionPersistentCredentialManagementReadOnly) /\
      (has_bit permission mc_ga = true -> rpID <> "")
  end.

Lemma preview_uv_decision info permission rpID flow :
  preview_uv info = true ->
  (reject (negb (len (PinUvAuthProtocols info) =? 0)
           && negb (contains (PinUvAuthProtocols info) PinUvAuthProtocolOne))
     "device advertises uvToken without pinUvAuthProtocol 1" ≫= fun _ =>
   (if has_bit permission PermissionCredentialManagement then
      credentialManagementMode info ≫= fun _ => Ok (Z.lor mc_ga PermissionCredentialManagement)
    else Ok mc_ga) ≫= fun legacyPermissions =>
   (if has_bit permission PermissionBioEnrollment then
      bioEnrollmentMode info ≫= fun _ => Ok (Z.lor legacyPermissions PermissionBioEnrollment)
    else Ok legacyPermissions) ≫= fun legacyPermissions =>
   if negb (Z.ldiff permission legacyPermissions =? 0) then
     Err (newErrorMessage ErrNotSupported "preview getUvToken cannot grant the requested permissions")
   else Ok uvTokenFlowPreview) = Ok flow <->
  flow = uvTokenFlowPreview /\ uv_flow_backed info permission rpID flow.
Proof.
  intros Hp. unfold preview_uv in Hp. to_prop.
  assert (Hcm : forall v, (if has_bit permission PermissionCredentialManagement then
      credentialManagementMode info ≫= fun _ => Ok (Z.lor mc_ga PermissionCredentialManagement)
    else Ok mc_ga) = Ok v <-> (has_bit permission PermissionCredentialManagement = true -> cm_backed info) /\
    v = Z.lor mc_ga (if has_bit permission PermissionCredentialManagement
                     then PermissionCredentialManagement else 0)).
  { intros v. destruct (has_bit _ _); [|naive_solver]. rewrite bind_Ok_iff.
    setoid_rewrite credentialManagementMode_Ok. naive_solver. }
  assert (Hbe : forall prev v, (if has_bit permission PermissionBioEnrollment then
      bioEnrollmentMode info ≫= fun _ => Ok (Z.lor prev PermissionBioEnrollment)
    else Ok prev) = Ok v <-> (has_bit permission PermissionBioEnrollment = true -> be_backed info) /\
    v = Z.lor prev (if has_bit permission PermissionBioEnrollment then PermissionBioEnrollment else 0)).
  { intros prev v. destruct (has_bit permission PermissionBioEnrollment) eqn:Hb.
    2: { rewrite Z.lor_0_r. naive_solver. }
    rewrite bind_Ok_iff.
    setoid_rewrite bioEnrollmentMode_Ok. naive_solver. }
  repeat setoid_rewrite bind_Ok_iff. setoid_rewrite Hcm. setoid_rewrite Hbe. setoid_rewrite reject_Ok.
  assert (Hproto : negb (len (PinUvAuthProtocols info) =? 0)
      && negb (contains (PinUvAuthProtocols info) PinUvAuthProtocolOne) = false <->
    PinUvAuthProtocols info = [] \/ PinUvAuthProtocolOne ∈ PinUvAuthProtocols info).
  { rewrite andb_false_iff, !negb_false_iff, contains_true, Z.eqb_eq.
    split; (intros [Hx|Hx]; [left|by right]); [by apply len_0|by rewrite Hx]. }
  setoid_rewrite Hproto. clear Hcm Hbe Hproto. unfold uv_flow_backed.
  assert (Hmask : Z.lor (Z.lor mc_ga (if has_bit permission PermissionCredentialManagement
      then PermissionCredentialManagement else 0)) (if has_bit permission PermissionBioEnrollment
      then PermissionBioEnrollment else 0) = Z.lor mc_ga (Z.land permission cm_be))
    by (rewrite <- Z.lor_assoc; by rewrite collect_cm_be).
  split.
  - intros ([] & Hq & cm & [Hc ->] & be & [Hb ->] & Hd). rewrite Hmask, ldiff_lor_land in Hd.
    destruct (Z.eqb_spec (Z.ldiff permission (Z.lor mc_ga cm_be)) 0); [|done]. by injection Hd as <-.
  - intros (-> & Hq & Hc & Hb & Hd). exists tt. split; [done|]. eexists. split; [by split|].
    exists (Z.lor mc_ga (Z.land permission cm_be)). split; [split; [done|by rewrite Hmask]|].
    by rewrite ldiff_lor_land, Hd.
Qed.

(** C7. A token request with built-in user verification gets a flow exactly
    when user verification is configured and the permissions are a well-formed
    set the authenticator supports: the preview flow on a preview
    authenticator with uvToken, for at most mc, ga, cm and be and with
    protocol one, else the flow with permissions, where be and acfg need
    their uv options and mc and ga an RP ID. *)
Theorem uv_token_flow info permission rpID flow :
  selectPinUvAuthTokenFlowUsingUV info permission rpID = Ok flow <->
  permission <> 0 /\
  (has_bit permission PermissionPersistentCredentialManagementReadOnly = true ->
   permission = PermissionPersistentCredentialManagementReadOnly) /\
  enabled info OptionUserVerification /\
  flow = (if preview_uv info then uvTokenFlowPreview else uvTokenFlowWithPermissions) /\
  uv_flow_backed info permission rpID flow.
Proof.
  unfold selectPinUvAuthTokenFlowUsingUV. rewrite bind_Ok_iff.
  setoid_rewrite guard_err_Ok. setoid_rewrite permission_set_None. unfold enabled.
  destruct (Options info !! OptionUserVerification) as [[]|]; [|naive_solver..].
  fold (preview_uv info). destruct (preview_uv info) eqn:Hp.
  - setoid_rewrite (preview_uv_decision info permission rpID flow Hp). split; [naive_solver|].
    intros (? & ? & _ & ? & ?). by exists tt.
  - repeat setoid_rewrite bind_Ok_iff. setoid_rewrite reject_Ok. setoid_rewrite guard_err_Ok.
    setoid_rewrite permission_rpid_None. setoid_rewrite andb_false_impl.
    setoid_rewrite orb_false_iff. setoid_rewrite flag_false_negb. setoid_rewrite negb_false_iff.
    setoid_rewrite bool_decide_eq_false. split.
    + intros ([] & [Hz Hs] & [] & ? & [] & ? & [] & ? & [] & ? & [] & ? & [] & ? & [] & ? & [= <-]).
      by split_and!.
    + intros (Hz & Hs & _ & -> & ? & ? & ? & ? & ? & ? & ?). exists tt. split; [done|].
      do 6 (exists tt; split; [done|]). by exists tt.
Qed.
