(* ===== verification/Cose.v ===== *)
(** * COSE keys (src/cose/key.go, types.go) and the FIPS algorithm policy

    A COSE_Key map as the CBOR decoder builds it, its conversion from and to
    the P-256 public keys of the key agreement, the algorithm a credential
    key declares, the table of signature algorithms, and the algorithm filters
    of src/internal/fips140policy/policy.go. A P-256 public key is its
    uncompressed 65-byte encoding; [NewPublicKey] of crypto/ecdh is written
    out as the curve equation. *)
From S2P Require Import Prelude GoError.

(** ** Keys *)

(** The dynamic values of a [map[int]any]: the integer types, byte strings,
    anything else. Values of the sized types are in range. *)
Inductive any :=
  | VAlgorithm (v : Z) | VInt (v : Z) | VInt8 (v : Z) | VInt16 (v : Z) | VInt32 (v : Z)
  | VInt64 (v : Z) | VUint (v : Z) | VUint8 (v : Z) | VUint16 (v : Z) | VUint32 (v : Z)
  | VUint64 (v : Z) | VBytes (b : list Z) | VOther.

#[export] Instance any_eq_dec : EqDecision any.
Proof. solve_decision. Defined.

(** A nil map is [None]. *)
Definition Key : Type := option (gmap Z any).

Definition KeyParameterKty : Z := 1.
Definition KeyParameterAlg : Z := 3.
Definition KeyTypeEC2 : Z := 2.
Definition EC2KeyParameterCrv : Z := -1.
Definition EC2KeyParameterX : Z := -2.
Definition EC2KeyParameterY : Z := -3.
Definition EllipticCurveP256 : Z := 1.
Definition AlgorithmECDHESHKDF256 : Z := -25.

Definition cose_error (text : string) {A} : result A := Err (EText ("cose: " +:+ text)).

(** ** P-256 public keys *)

Definition p256_p : Z := 2 ^ 256 - 2 ^ 224 + 2 ^ 192 + 2 ^ 96 - 1.
Definition p256_b : Z :=
  0x5ac635d8aa3a93e7b3ebbd55769886bc651d06b0cc53b0f63bce3c3e27d2604b.

Definition be_value (b : list Z) : Z := foldl (fun acc d => acc * 256 + d) 0 b.

Definition p256_on_curve (x y : Z) : bool :=
  (x <? p256_p) && (y <? p256_p)
  && ((y * y - (x * x * x - 3 * x + p256_b)) mod p256_p =? 0).

(** [ecdh.P256().NewPublicKey] on an uncompressed encoding. *)
Definition valid_public_key (encoded : list Z) : bool :=
  (len encoded =? 65) && bool_decide (head encoded = Some 4)
  && p256_on_curve (be_value (take 32 (drop 1 encoded))) (be_value (drop 33 encoded)).

Definition KeyFromP256PublicKey (publicKey : list Z) : Key :=
  Some (<[KeyParameterKty := VInt KeyTypeEC2]>
       (<[KeyParameterAlg := VAlgorithm AlgorithmECDHESHKDF256]>
       (<[EC2KeyParameterCrv := VInt EllipticCurveP256]>
       (<[EC2KeyParameterX := VBytes (take 32 (drop 1 publicKey))]>
       (<[EC2KeyParameterY := VBytes (take 32 (drop 33 publicKey))]> ∅))))).

Definition requireInteger (k : gmap Z any) (label want : Z) (name : string) : result unit :=
  match k !! label with
  | None => cose_error ("key agreement key is missing " +:+ name)
  | Some value =>
      match (match value with
             | VAlgorithm v | VInt v | VInt64 v => Some (v =? want)
             | VUint64 v => Some ((0 <=? want) && (v =? want))
             | _ => None
             end) with
      | None => cose_error ("key agreement key has invalid " +:+ name +:+ " type")
      | Some false => cose_error ("key agreement key has invalid " +:+ name)
      | Some true => Ok tt
      end
  end.

Definition coordinate (k : gmap Z any) (label : Z) (name : string) : result (list Z) :=
  match k !! label with
  | None => cose_error ("key agreement key is missing " +:+ name +:+ " coordinate")
  | Some (VBytes c) =>
      if negb (len c =? 32) then
        cose_error ("key agreement key has invalid " +:+ name +:+ " coordinate length")
      else Ok c
  | Some _ => cose_error ("key agreement key has invalid " +:+ name +:+ " coordinate type")
  end.

Definition P256PublicKey (key : Key) : result (list Z) :=
  match key with
  | None => cose_error "nil key agreement key"
  | Some k =>
      if negb (Z.of_nat (size k) =? 5) then
        cose_error ("key agreement key has " +:+ pretty (Z.of_nat (size k)) +:+ " parameters, want 5")
      else
        requireInteger k KeyParameterKty KeyTypeEC2 "kty" ≫= fun _ =>
        requireInteger k KeyParameterAlg AlgorithmECDHESHKDF256 "alg" ≫= fun _ =>
        requireInteger k EC2KeyParameterCrv EllipticCurveP256 "crv" ≫= fun _ =>
        coordinate k EC2KeyParameterX "x" ≫= fun x =>
        coordinate k EC2KeyParameterY "y" ≫= fun y =>
        let encoded := [0x04] ++ x ++ y in
        if valid_public_key encoded then Ok encoded
        else cose_error "invalid P-256 public key"
  end.

(** ** Algorithms *)

Definition max_int64 : Z := 2 ^ 63 - 1.

Definition keyInteger (key : Key) (label : Z) (name : string) : result Z :=
  match default ∅ key !! label with
  | None => cose_error ("credential key is missing " +:+ name)
  | Some value =>
      match (match value with
             | VAlgorithm v | VInt v | VInt8 v | VInt16 v | VInt32 v | VInt64 v
             | VUint8 v | VUint16 v | VUint32 v => Some v
             | VUint v | VUint64 v => if v <=? max_int64 then Some v else None
             | _ => None
             end) with
      | Some v => Ok v
      | None => cose_error ("credential key has invalid " +:+ name +:+ " type")
      end
  end.

(** [int] is 64 bits wide, so an [int64] never overflows it. *)
Definition Algorithm (key : Key) : result Z := keyInteger key KeyParameterAlg "alg".

Inductive fips140Approval := fips140NotApproved | fips140Approved | fips140VerifyOnly.

#[export] Instance fips140Approval_eq_dec : EqDecision fips140Approval.
Proof. solve_decision. Defined.

Inductive signatureKind :=
  | signatureEdDSA | signatureECDSA | signatureECDSASecp256k1 | signatureRSA | signatureRSAPSS.

(** [crypto.Hash]; [NoHash] is its zero value. *)
Inductive crypto_Hash := NoHash | SHA1 | SHA256 | SHA384 | SHA512.

Record signatureAlgorithm := MkSignatureAlgorithm {
  alg_kind : signatureKind;
  alg_hash : crypto_Hash;
  alg_curve : Z;
  alg_fips : fips140Approval }.

Definition AlgorithmES256 : Z := -7.
Definition AlgorithmEdDSA : Z := -8.
Definition EllipticCurveP384 : Z := 2.
Definition EllipticCurveP521 : Z := 3.
Definition EllipticCurveEd25519 : Z := 6.
Definition EllipticCurveEd448 : Z := 7.
Definition EllipticCurveSecp256k1 : Z := 8.

Definition signatureAlgorithms : list (Z * signatureAlgorithm) :=
  let ecdsa hash curve := MkSignatureAlgorithm signatureECDSA hash curve fips140Approved in
  let rsa kind hash := MkSignatureAlgorithm kind hash 0 fips140Approved in
  [(AlgorithmES256, ecdsa SHA256 EllipticCurveP256);
   (-9, ecdsa SHA256 EllipticCurveP256);
   (-35, ecdsa SHA384 EllipticCurveP384);
   (-51, ecdsa SHA384 EllipticCurveP384);
   (-36, ecdsa SHA512 EllipticCurveP521);
   (-52, ecdsa SHA512 EllipticCurveP521);
   (AlgorithmEdDSA, MkSignatureAlgorithm signatureEdDSA NoHash 0 fips140VerifyOnly);
   (-19, MkSignatureAlgorithm signatureEdDSA NoHash EllipticCurveEd25519 fips140Approved);
   (-47, MkSignatureAlgorithm signatureECDSASecp256k1 SHA256 EllipticCurveSecp256k1
           fips140NotApproved);
   (-257, rsa signatureRSA SHA256); (-258, rsa signatureRSA SHA384);
   (-259, rsa signatureRSA SHA512);
   (-65535, MkSignatureAlgorithm signatureRSA SHA1 0 fips140NotApproved);
   (-37, rsa signatureRSAPSS SHA256); (-38, rsa signatureRSAPSS SHA384);
   (-39, rsa signatureRSAPSS SHA512)].

(** The map read with the comma-ok form. *)
Definition signature_spec (a : Z) : option signatureAlgorithm :=
  (fun e => e.2.2) <$> list_find (fun e => e.1 = a) signatureAlgorithms.

(** An absent entry has the zero value, which is not approved. *)
Definition FIPS140Approved (a : Z) : bool :=
  match signature_spec a with
  | Some spec => bool_decide (alg_fips spec = fips140Approved)
  | None => false
  end.

(** ** The FIPS 140-3 request policy *)

Section Policy.
Context (fips_enabled : bool).

(** [PublicKeyCredentialParameters]: type and algorithm. *)
Definition FilterCredentialParameters (parameters : list (string * Z))
    : result (list (string * Z)) :=
  if negb fips_enabled || (len parameters =? 0) then Ok parameters
  else
    let parameters := filter (fun p => FIPS140Approved p.2 = true) parameters in
    if len parameters =? 0 then
      Err (EPolicy "MakeCredential without an approved credential algorithm")
    else Ok parameters.

Definition FilterPreviewSignAlgorithms (algorithms : list Z) : result (list Z) :=
  if negb fips_enabled || (len algorithms =? 0) then Ok algorithms
  else
    let algorithms := filter (fun a => FIPS140Approved a = true) algorithms in
    if len algorithms =? 0 then
      Err (EPolicy "previewSign credential generation without an approved algorithm")
    else Ok algorithms.

Definition ValidateCredentialKey (key : Key) : result unit :=
  if negb fips_enabled then Ok tt
  else
    Algorithm key ≫= fun algorithm =>
    if negb (FIPS140Approved algorithm) then
      Err (EPolicy ("credential algorithm " +:+ pretty algorithm +:+ " returned by MakeCredential"))
    else Ok tt.
End Policy.

(** ** Properties *)

(** A public key is the prefix byte and two 32-byte coordinates. *)
Lemma valid_public_key_split encoded :
  valid_public_key encoded = true ->
  exists x y, encoded = 4 :: x ++ y /\ len x = 32 /\ len y = 32 /\
    take 32 (drop 1 encoded) = x /\ take 32 (drop 33 encoded) = y.
Proof.
  unfold valid_public_key. intros H. to_prop. destruct encoded as [|b r]; [done|].
  cbn in H1. injection H1 as ->. rewrite len_cons in H. cbn [drop skipn] in *. rewrite drop_0 in *.
  exists (take 32 r), (drop 32 r). rewrite take_drop, len_take, len_drop.
  split_and!; try lia; try done. rewrite take_ge; [done|].
  rewrite length_drop. unfold len in H. lia.
Qed.

(** The five members of a key agreement key, in any of the integer types the
    decoder produces. *)
Definition key_agreement (k : gmap Z any) (x y : list Z) : Prop :=
  size k = 5%nat /\
  requireInteger k KeyParameterKty KeyTypeEC2 "kty" = Ok tt /\
  requireInteger k KeyParameterAlg AlgorithmECDHESHKDF256 "alg" = Ok tt /\
  requireInteger k EC2KeyParameterCrv EllipticCurveP256 "crv" = Ok tt /\
  k !! EC2KeyParameterX = Some (VBytes x) /\ len x = 32 /\
  k !! EC2KeyParameterY = Some (VBytes y) /\ len y = 32.

Lemma coordinate_Ok k label name c :
  coordinate k label name = Ok c <-> k !! label = Some (VBytes c) /\ len c = 32.
Proof.
  unfold coordinate, cose_error. destruct (k !! label) as [[]|]; try naive_solver.
  destruct (Z.eqb_spec (len b) 32); naive_solver.
Qed.

Lemma P256PublicKey_Ok k encoded :
  P256PublicKey (Some k) = Ok encoded <->
  exists x y, key_agreement k x y /\ encoded = 4 :: x ++ y /\ valid_public_key encoded = true.
Proof.
  unfold P256PublicKey, key_agreement, cose_error.
  destruct (Z.eqb_spec (Z.of_nat (size k)) 5); cbn [negb]; [|split; [done|naive_solver lia]].
  assert (size k = 5%nat) by lia.
  destruct (requireInteger k KeyParameterKty _ _) as [[]| | |]; [|naive_solver..].
  destruct (requireInteger k KeyParameterAlg _ _) as [[]| | |]; [|naive_solver..].
  destruct (requireInteger k EC2KeyParameterCrv _ _) as [[]| | |]; [|naive_solver..].
  cbn [mbind result_bind].
  destruct (coordinate k EC2KeyParameterX "x") as [x| | |] eqn:Hx.
  2-4: split; [done|]; intros (x & y & (_ & _ & _ & _ & Hk & Hl & _) & _);
    by rewrite (proj2 (coordinate_Ok k _ "x" x) (conj Hk Hl)) in Hx.
  destruct (coordinate k EC2KeyParameterY "y") as [y| | |] eqn:Hy.
  2-4: split; [done|]; intros (? & y & (_ & _ & _ & _ & _ & _ & Hk & Hl) & _);
    by rewrite (proj2 (coordinate_Ok k _ "y" y) (conj Hk Hl)) in Hy.
  apply coordinate_Ok in Hx as [Hx Hxl], Hy as [Hy Hyl]. cbn [mbind result_bind app].
  split.
  - destruct (valid_public_key (4 :: x ++ y)) eqn:Hv; [|done]. intros [= <-]. by exists x, y.
  - intros (x' & y' & (_ & _ & _ & _ & Hx' & _ & Hy' & _) & -> & Hv). simplify_eq. by rewrite Hv.
Qed.

(** The COSE form of a public key converts back to it. *)
Lemma key_roundtrip publicKey :
  valid_public_key publicKey = true ->
  P256PublicKey (KeyFromP256PublicKey publicKey) = Ok publicKey.
Proof.
  intros Hv. destruct (valid_public_key_split _ Hv) as (x & y & He & Hx & Hy & Htx & Hty).
  apply P256PublicKey_Ok. exists x, y. rewrite Htx, Hty. split; [|by rewrite <- He].
  by split_and!.
Qed.
