(* ===== verification/Crypto.v ===== *)
(** * PIN/UV auth protocols and large-blob encryption (src/crypto)

    [crypto.go], [protocolone], [protocoltwo], [credential_store_state.go]
    and [helpers.go]. The primitives of the Go standard library - SHA-256,
    the AES block cipher, AES-GCM, DEFLATE and P-256 Diffie-Hellman - are
    the operations of the class [Primitives], their documented laws the
    class [PrimitiveLaws]; HMAC, HKDF and the CBC mode are written out over
    them. Random bytes (the IV of protocol two, the GCM nonce, the platform's
    private key) are arguments. *)
From S2P Require Import Prelude GoError Protocol Pin Cose.

Class Primitives := {
  sha256 : list Z -> list Z;
  aes_encrypt : list Z -> list Z -> list Z;        (* key, one block *)
  aes_decrypt : list Z -> list Z -> list Z;
  gcm_seal : list Z -> list Z -> list Z -> list Z -> list Z;   (* key, nonce, plaintext, aad *)
  gcm_open : list Z -> list Z -> list Z -> list Z -> result (list Z);
  deflate : list Z -> list Z;
  (* what reading at most so many bytes of the inflated stream yields *)
  inflate : list Z -> Z -> result (list Z);
  PrivateKey : Type;
  public_key : PrivateKey -> list Z;
  ecdh : PrivateKey -> list Z -> result (list Z) }.

Class PrimitiveLaws `{Primitives} := {
  sha256_bytes m : len (sha256 m) = 32 /\ Forall is_byte (sha256 m);
  aes_encrypt_bytes key b : len b = 16 -> Forall is_byte b ->
    len (aes_encrypt key b) = 16 /\ Forall is_byte (aes_encrypt key b);
  aes_inverse key b : len b = 16 -> Forall is_byte b -> aes_decrypt key (aes_encrypt key b) = b;
  gcm_inverse key nonce p aad : gcm_open key nonce (gcm_seal key nonce p aad) aad = Ok p;
  inflate_deflate d n : 0 <= n -> inflate (deflate d) n = Ok (take (Z.to_nat n) d);
  public_key_valid k : valid_public_key (public_key k) = true;
  ecdh_agree a b : exists z, ecdh a (public_key b) = Ok z /\ ecdh b (public_key a) = Ok z /\ len z = 32 }.

(** ** Modes of the standard library *)

Definition xor_bytes (a b : list Z) : list Z := zip_with Z.lxor a b.

Definition sha256_block : nat := 64.

Section Modes.
Context `{Primitives}.

Definition hmac_key (key : list Z) : list Z :=
  let key := if Z.of_nat sha256_block <? len key then sha256 key else key in
  key ++ zeros (sha256_block - length key).

Definition hmac (key message : list Z) : list Z :=
  let k := hmac_key key in
  sha256 (((fun b => Z.lxor b 0x5c) <$> k) ++ sha256 (((fun b => Z.lxor b 0x36) <$> k) ++ message)).

(** [hkdf.Extract] and [hkdf.Expand] for lengths up to 255 blocks. *)
Definition hkdf_Extract (secret salt : list Z) : list Z := hmac salt secret.
Fixpoint hkdf_blocks (n : nat) (prk info previous : list Z) (i : Z) : list Z :=
  match n with
  | O => []
  | S n' =>
      let t := hmac prk (previous ++ info ++ [i]) in
      t ++ hkdf_blocks n' prk info t (i + 1)
  end.
Definition hkdf_Expand (prk : list Z) (info : string) (keyLength : nat) : list Z :=
  take keyLength (hkdf_blocks ((keyLength + 31) / 32) prk (bytes_of_string info) [] 1).
Definition hkdf_Key (secret salt : list Z) (info : string) (keyLength : nat) : list Z :=
  hkdf_Expand (hkdf_Extract secret salt) info keyLength.

(** [aes.NewCipher]: the key it keeps. *)
Definition NewCipher (key : list Z) : result (list Z) :=
  if bool_decide (len key ∈ [16; 24; 32]) then Ok key
  else Err (EText ("crypto/aes: invalid key size " +:+ pretty (len key))).

Fixpoint cbc_encrypt_blocks (key iv : list Z) (blocks : list (list Z)) : list (list Z) :=
  match blocks with
  | [] => []
  | b :: rest =>
      let c := aes_encrypt key (xor_bytes b iv) in
      c :: cbc_encrypt_blocks key c rest
  end.
Fixpoint cbc_decrypt_blocks (key iv : list Z) (blocks : list (list Z)) : list (list Z) :=
  match blocks with
  | [] => []
  | c :: rest => xor_bytes (aes_decrypt key c) iv :: cbc_decrypt_blocks key c rest
  end.

(** [CryptBlocks] panics on input that is not full blocks. *)
Definition full_blocks (src : list Z) : bool := len src mod 16 =? 0.
Definition cbc_encrypt (key iv src : list Z) : result (list Z) :=
  if full_blocks src then Ok (concat (cbc_encrypt_blocks key iv (chunk 16 src))) else Panic.
Definition cbc_decrypt (key iv src : list Z) : result (list Z) :=
  if full_blocks src then Ok (concat (cbc_decrypt_blocks key iv (chunk 16 src))) else Panic.
End Modes.

(** ** Protocol one *)
Module ProtocolOne.
Section ProtocolOne.
Context `{Primitives}.

Definition KDF (z : list Z) : list Z := sha256 z.

Definition Encrypt (sharedSecret demPlaintext : list Z) : result (list Z) :=
if negb (len sharedSecret =? 32) then Err (EText "invalid shared secret length")
else if negb (len demPlaintext mod 16 =? 0) then Err (EText "invalid plaintext length")
else
  NewCipher sharedSecret ≫= fun block =>
  cbc_encrypt block (zeros 16) demPlaintext.

Definition Decrypt (sharedSecret demCiphertext : list Z) : result (list Z) :=
if negb (len sharedSecret =? 32) then Err (EText "invalid shared secret length")
else
  NewCipher sharedSecret ≫= fun block =>
  if (len demCiphertext =? 0) || negb (len demCiphertext mod 16 =? 0) then
    Err (EText "invalid ciphertext length")
  else cbc_decrypt block (zeros 16) demCiphertext.

Definition Authenticate (sharedSecret message : list Z) : list Z :=
take 16 (hmac sharedSecret message).
End ProtocolOne.
End ProtocolOne.

(** ** Protocol two *)
Module ProtocolTwo.
Section ProtocolTwo.
Context `{Primitives}.

Definition KDF (z : list Z) : result (list Z) :=
if negb (len z =? 32) then
  Err (EText ("invalid P-256 shared secret length: got " +:+ pretty (len z) +:+ ", want 32"))
else
  let prk := hkdf_Extract z (zeros 32) in
  let hmacKey := hkdf_Expand prk "CTAP2 HMAC key" 32 in
  let aesKey := hkdf_Expand prk "CTAP2 AES key" 32 in
  Ok (hmacKey ++ aesKey).

Definition Encrypt (iv sharedSecret demPlaintext : list Z) : result (list Z) :=
if negb (len sharedSecret =? 64) then Err (EText "invalid shared secret length")
else if negb (len demPlaintext mod 16 =? 0) then Err (EText "invalid plaintext length")
else
  let key := drop 32 sharedSecret in
  NewCipher key ≫= fun block =>
  cbc_encrypt block iv demPlaintext ≫= fun ciphertext =>
  Ok (iv ++ ciphertext).

Definition Decrypt (sharedSecret demCiphertext : list Z) : result (list Z) :=
if negb (len sharedSecret =? 64) then Err (EText "invalid shared secret length")
else
  let key := drop 32 sharedSecret in
  NewCipher key ≫= fun block =>
  if len demCiphertext <? 16 then Err (EText "invalid ciphertext")
  else
    let iv := take 16 demCiphertext in
    let ciphertext := drop 16 demCiphertext in
    if (len ciphertext =? 0) || negb (len ciphertext mod 16 =? 0) then
      Err (EText "invalid ciphertext")
    else cbc_decrypt block iv ciphertext.

(** Slicing a key shorter than 32 bytes panics. *)
Definition Authenticate (sharedSecret message : list Z) : result (list Z) :=
if len sharedSecret <? 32 then Panic
else Ok (hmac (take 32 sharedSecret) message).
End ProtocolTwo.
End ProtocolTwo.

(** ** The protocol object *)

Definition ErrInvalidAuthProtocol : error := ESentinel "invalid auth protocol".
Definition largeBlobNonceSize : Z := 12.
Definition MaxLargeBlobDataSize : Z := Z.shiftl 1 20.
Definition getInfoEncryptedMemberPlaintextSize : Z := 16.

Section Crypto.
Context `{Primitives}.
Context (fips_enabled : bool).

Record PinUvAuthProtocol := PinUvAuth {
  Number : Z;
  platformPrivateKey : PrivateKey;
  platformCoseKey : Key }.

(** [random_key] is the key [GenerateKey] draws. *)
Definition NewPinUvAuthProtocol (random_key : PrivateKey) (number : Z)
    : result PinUvAuthProtocol :=
  match ValidateFIPS140UvAuthProtocol fips_enabled number with
  | Some err => Err err
  | None =>
      Ok (PinUvAuth number random_key (KeyFromP256PublicKey (public_key random_key)))
  end.

Definition KDF (p : PinUvAuthProtocol) (z : list Z) : result (list Z) :=
  if Number p =? PinUvAuthProtocolOne then Ok (ProtocolOne.KDF z)
  else if Number p =? PinUvAuthProtocolTwo then ProtocolTwo.KDF z
  else Err ErrInvalidAuthProtocol.

Definition wrap_err {A} (msg : string) (r : result A) : result A :=
  match r with Err e => Err (EMessage e msg) | _ => r end.

Definition ECDH (p : PinUvAuthProtocol) (peerCoseKey : Key) : result (list Z) :=
  wrap_err "cannot convert peer public key to Go *ecdh.PublicKey" (P256PublicKey peerCoseKey)
    ≫= fun peerPubkey =>
  wrap_err "cannot derive shared secret" (ecdh (platformPrivateKey p) peerPubkey) ≫= fun z =>
  KDF p z.

(** [iv] is drawn by protocol two only. *)
Definition Encrypt (p : PinUvAuthProtocol) (iv sharedSecret demPlaintext : list Z)
    : result (list Z) :=
  if Number p =? PinUvAuthProtocolOne then ProtocolOne.Encrypt sharedSecret demPlaintext
  else if Number p =? PinUvAuthProtocolTwo then ProtocolTwo.Encrypt iv sharedSecret demPlaintext
  else Err ErrInvalidAuthProtocol.

Definition Decrypt (p : PinUvAuthProtocol) (sharedSecret demCiphertext : list Z)
    : result (list Z) :=
  if Number p =? PinUvAuthProtocolOne then ProtocolOne.Decrypt sharedSecret demCiphertext
  else if Number p =? PinUvAuthProtocolTwo then ProtocolTwo.Decrypt sharedSecret demCiphertext
  else Err ErrInvalidAuthProtocol.

Definition Encapsulate (p : PinUvAuthProtocol) (peerCoseKey : Key) : result (Key * list Z) :=
  ECDH p peerCoseKey ≫= fun sharedSecret => Ok (platformCoseKey p, sharedSecret).

Definition Authenticate (number : Z) (sharedSecret message : list Z) : result (list Z) :=
  if number =? PinUvAuthProtocolOne then Ok (ProtocolOne.Authenticate sharedSecret message)
  else if number =? PinUvAuthProtocolTwo then ProtocolTwo.Authenticate sharedSecret message
  else Panic.

(** *** Large blobs *)

Record LargeBlob := MkLargeBlob {
  Ciphertext : list Z;
  Nonce : list Z;
  OrigSize : Z }.

Definition CompressLargeBlobData (data : list Z) : result (list Z) :=
  if MaxLargeBlobDataSize <? len data then
    Err (EText ("large blob data is too large: got " +:+ pretty (len data) +:+
                " bytes, maximum is " +:+ pretty MaxLargeBlobDataSize))
  else Ok (deflate data).

Definition DecompressLargeBlobData (compressed : list Z) (originalSize : Z)
    : result (list Z) :=
  if MaxLargeBlobDataSize <? originalSize then
    Err (EText ("large blob original size is too large: got " +:+ pretty originalSize +:+
                " bytes, maximum is " +:+ pretty MaxLargeBlobDataSize))
  else
    inflate compressed (originalSize + 1) ≫= fun data =>
    if negb (len data =? originalSize) then
      Err (EText ("large blob orig size mismatch: got " +:+ pretty (len data) +:+ ", want " +:+
                  pretty originalSize))
    else Ok data.

Definition blob_aad (origSize : Z) : list Z := bytes_of_string "blob" ++ put_le 8 origSize.

Definition OpenLargeBlob (key : list Z) (blob : LargeBlob) : result (list Z) :=
  if negb (len key =? 32) then
    Err (EText ("invalid large blob key length: got " +:+ pretty (len key) +:+ ", want 32"))
  else
    NewCipher key ≫= fun block =>
    if negb (len (Nonce blob) =? largeBlobNonceSize) then
      Err (EText ("invalid large blob nonce length: got " +:+ pretty (len (Nonce blob)) +:+
                  ", want " +:+ pretty largeBlobNonceSize))
    else gcm_open block (Nonce blob) (Ciphertext blob) (blob_aad (OrigSize blob)).

Definition DecryptLargeBlob (key : list Z) (blob : LargeBlob) : result (list Z) :=
  OpenLargeBlob key blob ≫= fun plaintext =>
  DecompressLargeBlobData plaintext (OrigSize blob).

Definition EncryptLargeBlob (nonce key origData : list Z) : result LargeBlob :=
  if negb (len key =? 32) then
    Err (EText ("invalid large blob key length: got " +:+ pretty (len key) +:+ ", want 32"))
  else
    CompressLargeBlobData origData ≫= fun plaintext =>
    NewCipher key ≫= fun block =>
    let origSize := len origData in
    Ok (MkLargeBlob (gcm_seal block nonce plaintext (blob_aad origSize)) nonce origSize).

(** *** Encrypted members of authenticatorGetInfo *)

Definition decryptGetInfoMember (persistentPinUvAuthToken encrypted : list Z) (info : string)
    : result (list Z) :=
  if len persistentPinUvAuthToken =? 0 then
    Err (EText "persistentPinUvAuthToken must not be empty")
  else if negb (len persistentPinUvAuthToken mod 16 =? 0) then
    Err (EText "persistentPinUvAuthToken must be a positive multiple of 16 bytes")
  else if negb (len encrypted =? 2 * getInfoEncryptedMemberPlaintextSize) then
    Err (EText (info +:+ " must be exactly 32 bytes"))
  else
    let key := hkdf_Key persistentPinUvAuthToken (zeros 32) info 16 in
    NewCipher key ≫= fun block =>
    cbc_decrypt block (take 16 encrypted) (drop 16 encrypted).

Definition DecryptDeviceIdentifier (persistentPinUvAuthToken encIdentifier : list Z) :=
  decryptGetInfoMember persistentPinUvAuthToken encIdentifier "encIdentifier".
Definition DecryptCredentialStoreState (persistentPinUvAuthToken encCredStoreState : list Z) :=
  decryptGetInfoMember persistentPinUvAuthToken encCredStoreState "encCredStoreState".
End Crypto.

(** ** Properties *)

Lemma xor_involutive a b : length a = length b -> xor_bytes (xor_bytes a b) b = a.
Proof.
  revert b. induction a as [|x a IH]; intros [|y b] Hl; try done.
  cbn. f_equal; [by rewrite Z.lxor_assoc, Z.lxor_nilpotent, Z.lxor_0_r|].
  apply IH. by injection Hl.
Qed.

Lemma lxor_byte x y : is_byte x -> is_byte y -> is_byte (Z.lxor x y).
Proof.
  unfold is_byte. intros Hx Hy. split; [apply Z.lxor_nonneg; lia|].
  assert (H : Z.lxor x y mod 2 ^ 8 = Z.lxor x y).
  { apply Z.bits_inj'. intros i Hi. destruct (Z.lt_ge_cases i 8).
    - by rewrite Z.mod_pow2_bits_low by lia.
    - rewrite Z.mod_pow2_bits_high, Z.lxor_spec by lia.
      rewrite <- (Z.mod_small x (2 ^ 8)), <- (Z.mod_small y (2 ^ 8)) by lia.
      by rewrite !Z.mod_pow2_bits_high by lia. }
  rewrite <- H. apply Z.mod_pos_bound. lia.
Qed.

Lemma xor_bytes_bytes a b : Forall is_byte a -> Forall is_byte b -> Forall is_byte (xor_bytes a b).
Proof.
  intros Ha. revert b. induction Ha as [|x a Hx Ha IH]; intros b [|y b' Hy Hb]; try constructor.
  - by apply lxor_byte.
  - by apply IH.
Qed.

Lemma len_xor a b : len a = len b -> len (xor_bytes a b) = len a.
Proof. unfold len, xor_bytes. intros. rewrite length_zip_with. lia. Qed.

Lemma zeros_bytes n : Forall is_byte (zeros n).
Proof. apply Forall_replicate. unfold is_byte. lia. Qed.

Definition block (b : list Z) : Prop := len b = 16 /\ Forall is_byte b.

Lemma block_length b : block b -> length b = 16%nat.
Proof. intros [H _]. unfold len in H. lia. Qed.

Lemma chunk_full_blocks (bs : list (list Z)) :
  Forall (fun b => length b = 16%nat) bs -> chunk 16 (concat bs) = bs.
Proof.
  intros H. destruct bs as [|b bs _] using rev_ind; [done|].
  apply Forall_app in H as [Hbs Hb]. apply Forall_cons in Hb as [Hb _].
  rewrite concat_app. cbn. rewrite app_nil_r. apply chunk_full_app; try done; [lia| |lia].
  by intros ->.
Qed.

(** Full blocks, and the blocks of full-block data. *)
Lemma chunk_blocks src :
  len src mod 16 = 0 -> Forall is_byte src -> Forall block (chunk 16 src).
Proof.
  revert src. apply (chunk_ind 16 ltac:(lia) (fun src => len src mod 16 = 0 -> Forall is_byte src ->
    Forall block (chunk 16 src))); [constructor|].
  intros src Hne IH Hm Hb. rewrite chunk_step by (done || lia).
  assert (16 <= len src).
  { apply len_pos in Hne. destruct (Z.lt_ge_cases (len src) 16); [|done].
    rewrite Z.mod_small in Hm; lia. }
  constructor.
  - split; [rewrite len_take; lia|by apply Forall_take].
  - apply IH; [|by apply Forall_drop].
    rewrite len_drop, Z.max_r by lia. change (Z.of_nat 16) with 16.
    rewrite Zminus_mod, Hm. done.
Qed.

Lemma full_blocks_concat bs : Forall block bs -> full_blocks (concat bs) = true.
Proof.
  intros H. unfold full_blocks. apply Z.eqb_eq. induction H as [|b bs [Hb _] _ IH]; [done|].
  cbn. rewrite len_app, Hb, Z.add_mod, IH by lia. done.
Qed.

Section Laws.
Context `{PrimitiveLaws}.

Lemma hmac_bytes key m : len (hmac key m) = 32 /\ Forall is_byte (hmac key m).
Proof. apply sha256_bytes. Qed.

Lemma len_hkdf_blocks n prk info t i :
  len (hkdf_blocks n prk info t i) = 32 * Z.of_nat n.
Proof.
  revert t i. induction n as [|n IH]; intros t i; [done|].
  cbn [hkdf_blocks]. rewrite len_app, IH, (proj1 (hmac_bytes _ _)). lia.
Qed.

Lemma len_hkdf_Expand prk info n : len (hkdf_Expand prk info n) = Z.of_nat n.
Proof.
  unfold hkdf_Expand. rewrite len_take, len_hkdf_blocks.
  pose proof (Nat.div_mod (n + 31) 32 ltac:(lia)) as Hd.
  pose proof (Nat.mod_upper_bound (n + 31) 32 ltac:(lia)). lia.
Qed.

(** *** CBC *)

Lemma cbc_encrypt_blocks_ok key iv bs :
  block iv -> Forall block bs -> Forall block (cbc_encrypt_blocks key iv bs).
Proof.
  intros Hiv Hbs. revert iv Hiv. induction Hbs as [|b bs [Hl Hb] Hbs IH]; intros iv [Hi Hib];
    cbn [cbc_encrypt_blocks]; [constructor|].
  assert (block (aes_encrypt key (xor_bytes b iv))).
  { apply aes_encrypt_bytes; [rewrite len_xor; congruence|by apply xor_bytes_bytes]. }
  constructor; [done|]. by apply IH.
Qed.

Lemma cbc_blocks_inverse key iv bs :
  block iv -> Forall block bs -> cbc_decrypt_blocks key iv (cbc_encrypt_blocks key iv bs) = bs.
Proof.
  intros Hiv Hbs. revert iv Hiv. induction Hbs as [|b bs Hb Hbs IH]; intros iv Hi;
    cbn [cbc_encrypt_blocks cbc_decrypt_blocks]; [done|].
  assert (Hx : block (xor_bytes b iv)).
  { destruct Hb, Hi. split; [rewrite len_xor; congruence|by apply xor_bytes_bytes]. }
  rewrite aes_inverse by apply Hx. f_equal.
  - apply xor_involutive. by rewrite (block_length b), (block_length iv).
  - apply IH. apply aes_encrypt_bytes; apply Hx.
Qed.

(** Decrypting what was encrypted, lengths and panics included. *)
Lemma cbc_inverse key iv src :
  block iv -> len src mod 16 = 0 -> Forall is_byte src ->
  exists ct, cbc_encrypt key iv src = Ok ct /\ cbc_decrypt key iv ct = Ok src /\
    len ct = len src.
Proof.
  intros Hiv Hm Hb. pose proof (chunk_blocks src Hm Hb) as Hc.
  pose proof (cbc_encrypt_blocks_ok key iv _ Hiv Hc) as He.
  unfold cbc_encrypt, full_blocks. rewrite (proj2 (Z.eqb_eq _ _) Hm).
  eexists. split; [done|]. split.
  - unfold cbc_decrypt. rewrite full_blocks_concat by done.
    rewrite chunk_full_blocks by (eapply Forall_impl; [exact He|]; intros; by apply block_length).
    rewrite cbc_blocks_inverse by done. by rewrite concat_chunk by lia.
  - rewrite <- (concat_chunk 16 ltac:(lia) src) at 2. clear Hm Hb. revert iv Hiv He.
    induction Hc as [|b bs Hb Hc IH]; intros iv Hiv He; [done|].
    cbn [cbc_encrypt_blocks concat] in *. apply Forall_cons in He as [Hh He].
    rewrite !len_app, (IH _ Hh He), (proj1 Hh), (proj1 Hb). done.
Qed.

Lemma NewCipher_ok key : len key = 16 \/ len key = 32 -> NewCipher key = Ok key.
Proof. unfold NewCipher. intros [-> | ->]; done. Qed.

(** *** Shared secrets *)

Definition secret_length (number : Z) : Z := if number =? PinUvAuthProtocolOne then 32 else 64.

Lemma KDF_total p z :
  (Number p = PinUvAuthProtocolOne \/ Number p = PinUvAuthProtocolTwo) -> len z = 32 ->
  exists ss, KDF p z = Ok ss /\ len ss = secret_length (Number p).
Proof.
  unfold KDF, secret_length. intros [Hn|Hn] Hz; rewrite Hn; cbn.
  - eexists. split; [done|]. apply sha256_bytes.
  - unfold ProtocolTwo.KDF. rewrite Hz. cbn [Z.eqb negb Pos.eqb]. eexists. split; [done|].
    by rewrite len_app, !len_hkdf_Expand.
Qed.

(** Encryption is total on full blocks and decryption inverts it. *)
Lemma encrypt_decrypt p q iv ss pt :
  (Number p = PinUvAuthProtocolOne \/ Number p = PinUvAuthProtocolTwo) ->
  Number q = Number p -> len ss = secret_length (Number p) -> block iv ->
  pt <> [] -> len pt mod 16 = 0 -> Forall is_byte pt ->
  exists ct, Encrypt p iv ss pt = Ok ct /\ Decrypt q ss ct = Ok pt /\
    len ct = len pt + (if Number p =? PinUvAuthProtocolOne then 0 else 16).
Proof.
  unfold Encrypt, Decrypt, secret_length. intros Hn Hq Hs Hiv Hne Hm Hb. rewrite Hq.
  apply len_pos in Hne.
  assert (Hz : block (zeros 16)) by (split; [done|apply zeros_bytes]).
  destruct Hn as [Hn|Hn]; rewrite Hn in *;
    cbn [PinUvAuthProtocolOne PinUvAuthProtocolTwo Z.eqb Pos.eqb] in *.
  - destruct (cbc_inverse ss (zeros 16) pt Hz Hm Hb) as (ct & He & Hd & Hl).
    exists ct. unfold ProtocolOne.Encrypt, ProtocolOne.Decrypt.
    rewrite Hs, Hm, (NewCipher_ok ss) by auto. cbn [Z.eqb Pos.eqb negb mbind result_bind].
    rewrite Hl, Hm. rewrite (proj2 (Z.eqb_neq (len pt) 0)) by lia. split_and!; auto; lia.
  - assert (Hk : len (drop 32 ss) = 32) by (rewrite len_drop, Hs; done).
    destruct (cbc_inverse (drop 32 ss) iv pt Hiv Hm Hb) as (ct & He & Hd & Hl).
    exists (iv ++ ct). unfold ProtocolTwo.Encrypt, ProtocolTwo.Decrypt.
    rewrite Hs, Hm, (NewCipher_ok (drop 32 ss)) by auto. cbn [Z.eqb Pos.eqb negb mbind result_bind].
    rewrite He. cbn [mbind result_bind]. rewrite len_app, (proj1 Hiv), Hl.
    rewrite (proj2 (Z.ltb_ge _ 16)) by (pose proof (len_nonneg pt); lia).
    rewrite (take_app_length' iv), (drop_app_length' iv), Hl, Hm by by rewrite (block_length iv).
    rewrite (proj2 (Z.eqb_neq (len pt) 0)) by lia. split_and!; auto; lia.
Qed.

(** Both sides of the key agreement derive the same shared secret. *)
Lemma shared_secret_agrees fips k a number p q :
  NewPinUvAuthProtocol fips k number = Ok p ->
  number = PinUvAuthProtocolOne \/ number = PinUvAuthProtocolTwo ->
  Number q = number -> platformPrivateKey q = a ->
  exists ss, Encapsulate p (KeyFromP256PublicKey (public_key a)) =
      Ok (KeyFromP256PublicKey (public_key k), ss) /\
    ECDH q (KeyFromP256PublicKey (public_key k)) = Ok ss /\
    len ss = secret_length number.
Proof.
  unfold NewPinUvAuthProtocol. intros Hp Hn Hq Ha.
  destruct (ValidateFIPS140UvAuthProtocol fips number); [done|]. injection Hp as <-.
  destruct (ecdh_agree k a) as (z & Hk & Hak & Hz).
  set (p := PinUvAuth _ _ _).
  destruct (KDF_total p z Hn Hz) as (ss & Hss & Hl).
  exists ss. unfold Encapsulate, ECDH. rewrite !key_roundtrip by apply public_key_valid.
  cbn [wrap_err mbind result_bind platformPrivateKey p]. rewrite Hk, Ha, Hak.
  cbn [wrap_err mbind result_bind].
  assert (Hkq : KDF q z = Ok ss) by (rewrite <- Hss; unfold KDF; by rewrite Hq).
  fold p. rewrite Hss, Hkq. done.
Qed.

(** C9. The two PIN/UV auth protocols agree on a key and keep messages: for
    the platform's and the authenticator's key pairs both sides derive the
    same shared secret from the other's COSE key, encryption of any
    non-empty whole number of blocks succeeds, and the authenticator
    decrypts it to the plaintext (an IV longer in protocol two, which draws
    one). *)
Theorem key_agreement_roundtrip fips k a number p q iv pt :
  NewPinUvAuthProtocol fips k number = Ok p ->
  number = PinUvAuthProtocolOne \/ number = PinUvAuthProtocolTwo ->
  Number q = number -> platformPrivateKey q = a ->
  block iv -> pt <> [] -> len pt mod 16 = 0 -> Forall is_byte pt ->
  exists ss ct,
    Encapsulate p (KeyFromP256PublicKey (public_key a)) =
      Ok (KeyFromP256PublicKey (public_key k), ss) /\
    ECDH q (KeyFromP256PublicKey (public_key k)) = Ok ss /\
    Encrypt p iv ss pt = Ok ct /\ Decrypt q ss ct = Ok pt /\
    len ct = len pt + (if number =? PinUvAuthProtocolOne then 0 else 16).
Proof.
  intros Hp Hn Hq Ha Hiv Hne Hm Hb.
  destruct (shared_secret_agrees fips k a number p q Hp Hn Hq Ha) as (ss & He & Hs & Hl).
  assert (Hnp : Number p = number).
  { unfold NewPinUvAuthProtocol in Hp. destruct (ValidateFIPS140UvAuthProtocol fips number); [done|].
    by injection Hp as <-. }
  destruct (encrypt_decrypt p q iv ss pt) as (ct & Hc & Hd & Hlc); try done; try congruence.
  exists ss, ct. rewrite Hnp in Hlc. done.
Qed.

(** A token that passed its length check authenticates any message without a
    panic, and the parameter has the length of its protocol. *)
Lemma authenticate_total fips number token message :
  ValidateUvAuthToken fips number token = None ->
  exists param, Authenticate number token message = Ok param /\
    len param = (if number =? PinUvAuthProtocolOne then 16 else 32).
Proof.
  intros Hv. apply ValidateUvAuthToken_None in Hv. unfold Authenticate.
  destruct Hv as [(-> & _ & Hl & Hm)|[-> Hl]].
  - eexists. split; [done|]. unfold ProtocolOne.Authenticate.
    rewrite len_take, (proj1 (hmac_bytes _ _)). done.
  - cbn. unfold ProtocolTwo.Authenticate. rewrite Hl. eexists. split; [done|]. apply hmac_bytes.
Qed.

(** *** Large blobs *)

Lemma decompress_compress data :
  len data <= MaxLargeBlobDataSize ->
  CompressLargeBlobData data = Ok (deflate data) /\
  DecompressLargeBlobData (deflate data) (len data) = Ok data.
Proof.
  intros Hd. unfold CompressLargeBlobData, DecompressLargeBlobData.
  rewrite (proj2 (Z.ltb_ge _ _)) by lia. split; [done|].
  pose proof (len_nonneg data). rewrite inflate_deflate by lia. cbn [mbind result_bind].
  rewrite take_ge by (unfold len; lia). by rewrite Z.eqb_refl.
Qed.

Lemma decompress_size c n d :
  DecompressLargeBlobData c n = Ok d -> len d = n /\ n <= MaxLargeBlobDataSize.
Proof.
  unfold DecompressLargeBlobData. destruct (Z.ltb_spec MaxLargeBlobDataSize n); [done|].
  destruct (inflate c (n + 1)) as [u| | |]; try done. cbn [mbind result_bind].
  destruct (Z.eqb_spec (len u) n); [|done]. cbn [negb]. by intros [= <-].
Qed.

(** C34. Large blobs of up to 1 MiB survive encryption and decryption with
    their 32-byte key, larger ones are refused, and whatever an
    authenticator returns, a decrypted blob has the size the element
    declares and at most 1 MiB. *)
Theorem large_blob_roundtrip nonce key data :
  len key = 32 -> len nonce = largeBlobNonceSize ->
  (len data <= MaxLargeBlobDataSize ->
   exists blob, EncryptLargeBlob nonce key data = Ok blob /\ OrigSize blob = len data /\
     DecryptLargeBlob key blob = Ok data) /\
  (MaxLargeBlobDataSize < len data -> exists e, EncryptLargeBlob nonce key data = Err e) /\
  (forall blob plain, DecryptLargeBlob key blob = Ok plain ->
   len plain = OrigSize blob /\ OrigSize blob <= MaxLargeBlobDataSize).
Proof.
  intros Hk Hn. unfold EncryptLargeBlob, DecryptLargeBlob, OpenLargeBlob.
  rewrite Hk, (NewCipher_ok key) by auto. cbn [Z.eqb Pos.eqb negb mbind result_bind]. split_and!.
  - intros Hd. destruct (decompress_compress data Hd) as [Hc Hu]. rewrite Hc. cbn [mbind result_bind].
    eexists. split; [done|]. cbn [OrigSize Nonce Ciphertext]. split; [done|].
    rewrite Hn, Z.eqb_refl. cbn [negb]. rewrite gcm_inverse. done.
  - intros Hd. unfold CompressLargeBlobData. rewrite (proj2 (Z.ltb_lt _ _)) by done. cbn. eauto.
  - intros blob plain. destruct (negb _); [done|].
    destruct (gcm_open key (Nonce blob) (Ciphertext blob) (blob_aad (OrigSize blob))); try done.
    apply decompress_size.
Qed.

(** The encrypted members of authenticatorGetInfo decrypt to what the
    authenticator put there. *)
Lemma get_info_member_roundtrip token iv id info :
  0 < len token -> len token mod 16 = 0 -> block iv -> block id ->
  exists ct, cbc_encrypt (hkdf_Key token (zeros 32) info 16) iv id = Ok ct /\
    decryptGetInfoMember token (iv ++ ct) info = Ok id.
Proof.
  intros Hpos Hm Hiv [Hid Hb].
  destruct (cbc_inverse (hkdf_Key token (zeros 32) info 16) iv id Hiv) as (ct & He & Hd & Hl);
    [by rewrite Hid|done|].
  exists ct. split; [done|]. unfold decryptGetInfoMember.
  rewrite (proj2 (Z.eqb_neq (len token) 0)), Hm by lia. cbn [Z.eqb negb].
  rewrite len_app, (proj1 Hiv), Hl, Hid. cbn [getInfoEncryptedMemberPlaintextSize Z.mul Z.eqb negb Z.add Pos.add Pos.mul Pos.eqb].
  rewrite NewCipher_ok by (left; apply len_hkdf_Expand). cbn [mbind result_bind].
  rewrite (take_app_length' iv), (drop_app_length' iv) by by rewrite (block_length iv). done.
Qed.
End Laws.

(** ** Sample primitives

    An executable instance of the interface, with the laws: a mixing function
    in place of the hash, a keyed permutation of blocks in place of AES, an
    authenticated but not secret sealing, no compression, and the P-256
    points of the private keys 1 and 2. *)

Definition sample_hash (m : list Z) : list Z :=
  let s := foldl (fun acc b => u8 (acc * 31 + b + 7)) 1 m in
  (fun i => u8 (s * (Z.of_nat i + 3) + len m)) <$> seq 0 32.

Definition sample_pad (key : list Z) : list Z := take 16 ((u8 <$> key) ++ zeros 16).

Definition sample_seal (key nonce p aad : list Z) : list Z :=
  p ++ sample_hash (key ++ nonce ++ aad ++ p).

Definition sample_open (key nonce ct aad : list Z) : result (list Z) :=
  let p := take (length ct - 32) ct in
  if bool_decide (sample_seal key nonce p aad = ct) then Ok p
  else Err (EText "cipher: message authentication failed").

Fixpoint be_bytes (n : nat) (v : Z) : list Z :=
  match n with O => [] | S n' => be_bytes n' (Z.shiftr v 8) ++ [u8 v] end.

Definition sample_point (x y : Z) : list Z := [4] ++ be_bytes 32 x ++ be_bytes 32 y.
Definition sample_x (k : nat) : Z :=
  match k with
  | 1%nat => 0x6b17d1f2e12c4247f8bce6e563a440f277037d812deb33a0f4a13945d898c296
  | 2%nat => 0x7cf27b188d034f7e8a52380304b51ac3c08969e277f21b35a60b48fc47669978
  | _ => 0xe2534a3532d08fbba02dde659ee62bd0031fe2db785596ef509302446b030852
  end.
Definition sample_public (two : bool) : list Z :=
  if two then sample_point (sample_x 2) 0x7775510db8ed040293d9ac69f7430dbba7dade63ce982299e04b79d227873d1
  else sample_point (sample_x 1) 0x4fe342e2fe1a7f9b8ee7eb4a7c0f9e162bce33576b315ececbb6406837bf51f5.

#[export] Instance sample_primitives : Primitives := {|
  sha256 := sample_hash;
  aes_encrypt key b := xor_bytes b (sample_pad key);
  aes_decrypt key b := xor_bytes b (sample_pad key);
  gcm_seal := sample_seal;
  gcm_open := sample_open;
  deflate d := d;
  inflate d n := Ok (take (Z.to_nat n) d);
  PrivateKey := bool;
  public_key := sample_public;
  ecdh k peer :=
    if bool_decide (peer = sample_public false) then
      Ok (be_bytes 32 (sample_x (if k then 2 else 1)))
    else if bool_decide (peer = sample_public true) then
      Ok (be_bytes 32 (sample_x (if k then 4 else 2)))
    else Err (EText "ecdh: unknown point") |}.

Lemma sample_hash_bytes m : len (sample_hash m) = 32 /\ Forall is_byte (sample_hash m).
Proof.
  unfold sample_hash. split; [by rewrite len_fmap|].
  apply Forall_fmap, Forall_true. intros i. apply u8_range.
Qed.

Lemma sample_pad_block key : block (sample_pad key).
Proof.
  unfold sample_pad. split.
  - rewrite len_take, len_app, len_fmap. change (len (zeros 16)) with 16.
    pose proof (len_nonneg key). lia.
  - apply Forall_take, Forall_app. split; [|apply zeros_bytes].
    apply Forall_fmap, Forall_true. intros i. apply u8_range.
Qed.

Lemma sample_open_seal key nonce p aad :
  sample_open key nonce (sample_seal key nonce p aad) aad = Ok p.
Proof.
  assert (Ht : take (length (sample_seal key nonce p aad) - 32) (sample_seal key nonce p aad) = p).
  { pose proof (proj1 (sample_hash_bytes (key ++ nonce ++ aad ++ p))) as Hs. unfold len in Hs.
    unfold sample_seal. rewrite length_app. apply take_app_length'. lia. }
  unfold sample_open. rewrite Ht. by rewrite bool_decide_eq_true_2.
Qed.

#[export] Instance sample_laws : PrimitiveLaws.
Proof.
  split.
  - apply sample_hash_bytes.
  - intros key b Hl Hb. destruct (sample_pad_block key) as [Hp Hpb]. cbn.
    split; [rewrite len_xor; congruence|by apply xor_bytes_bytes].
  - intros key b Hl Hb. cbn. apply xor_involutive.
    rewrite (block_length (sample_pad key)) by apply sample_pad_block. unfold len in Hl. lia.
  - apply sample_open_seal.
  - intros d n Hn. done.
  - intros []; vm_compute; reflexivity.
  - intros [] []; vm_compute; eauto.
Qed.

(** *** The properties at concrete inputs *)

Definition sample_platform : @PinUvAuthProtocol sample_primitives :=
  @PinUvAuth sample_primitives 2 false (KeyFromP256PublicKey (sample_public false)).
Definition sample_authenticator : @PinUvAuthProtocol sample_primitives :=
  @PinUvAuth sample_primitives 2 true None.

Lemma key_agreement_roundtrip_witness :
  exists ss ct,
    Encapsulate sample_platform
      (KeyFromP256PublicKey (sample_public true)) =
      Ok (KeyFromP256PublicKey (sample_public false), ss) /\
    Decrypt sample_authenticator ss ct = Ok (zeros 64).
Proof.
  destruct (@key_agreement_roundtrip sample_primitives sample_laws false false true 2
    sample_platform sample_authenticator
    (zeros 16) (zeros 64)) as (ss & ct & He & _ & _ & Hd & _).
  - reflexivity.
  - right. reflexivity.
  - reflexivity.
  - reflexivity.
  - split; [reflexivity | apply zeros_bytes].
  - discriminate.
  - reflexivity.
  - apply zeros_bytes.
  - exists ss, ct. exact (conj He Hd).
Defined.

Lemma large_blob_roundtrip_witness :
  exists blob, EncryptLargeBlob (zeros 12) (zeros 32) [1; 2; 3] = Ok blob /\
    DecryptLargeBlob (zeros 32) blob = Ok [1; 2; 3].
Proof.
  destruct (large_blob_roundtrip (zeros 12) (zeros 32) [1; 2; 3] eq_refl eq_refl) as [H _].
  destruct (H ltac:(vm_compute; discriminate)) as (blob & He & _ & Hd).
  exists blob. exact (conj He Hd).
Defined.
