(* ===== verification/Messages.v ===== *)
(** * CTAP messages (src/protocol, src/credential)

    The request and response structures of the commands, as the client fills
    and reads them, the extension members they carry, and the
    authenticator data of credential responses. The CBOR codec
    (fxamacker/cbor) is the class [Codec]: its encoder, and one decoder per
    response type. A slice or map member that Go distinguishes from nil is
    an option; an optional member encoded with omitempty or omitzero has its
    zero value when absent. *)
From S2P Require Import Prelude GoError Transport Protocol Pin Cose Crypto.

(** ** Commands *)

Definition AuthenticatorMakeCredential : Z := 0x01.
Definition AuthenticatorGetAssertion : Z := 0x02.
Definition AuthenticatorGetNextAssertion : Z := 0x08.
Definition AuthenticatorGetInfo : Z := 0x04.
Definition AuthenticatorClientPIN : Z := 0x06.
Definition AuthenticatorReset : Z := 0x07.
Definition AuthenticatorBioEnrollment : Z := 0x09.
Definition AuthenticatorCredentialManagement : Z := 0x0a.
Definition AuthenticatorSelection : Z := 0x0b.
Definition AuthenticatorLargeBlobs : Z := 0x0c.
Definition AuthenticatorConfig : Z := 0x0d.
Definition PrototypeAuthenticatorBioEnrollment : Z := 0x40.
Definition PrototypeAuthenticatorCredentialManagement : Z := 0x41.

Definition ClientPINSubCommandGetPINRetries : Z := 1.
Definition ClientPINSubCommandGetKeyAgreement : Z := 2.
Definition ClientPINSubCommandSetPIN : Z := 3.
Definition ClientPINSubCommandChangePIN : Z := 4.
Definition ClientPINSubCommandGetPinToken : Z := 5.
Definition ClientPINSubCommandGetPinUvAuthTokenUsingUvWithPermissions : Z := 6.
Definition ClientPINSubCommandGetUVRetries : Z := 7.
Definition ClientPINSubCommandGetPinUvAuthTokenUsingPinWithPermissions : Z := 9.

Definition BioEnrollmentSubCommandEnrollBegin : Z := 1.
Definition BioEnrollmentSubCommandEnrollCaptureNextSample : Z := 2.
Definition BioEnrollmentSubCommandCancelCurrentEnrollment : Z := 3.
Definition BioEnrollmentSubCommandEnumerateEnrollments : Z := 4.
Definition BioEnrollmentSubCommandSetFriendlyName : Z := 5.
Definition BioEnrollmentSubCommandRemoveEnrollment : Z := 6.
Definition BioEnrollmentSubCommandGetFingerprintSensorInfo : Z := 7.
Definition BioModalityFingerprint : Z := 1.

Definition CredentialManagementSubCommandGetCredsMetadata : Z := 1.
Definition CredentialManagementSubCommandEnumerateRPsBegin : Z := 2.
Definition CredentialManagementSubCommandEnumerateRPsGetNextRP : Z := 3.
Definition CredentialManagementSubCommandEnumerateCredentialsBegin : Z := 4.
Definition CredentialManagementSubCommandEnumerateCredentialsGetNextCredential : Z := 5.
Definition CredentialManagementSubCommandDeleteCredential : Z := 6.
Definition CredentialManagementSubCommandUpdateUserInformation : Z := 7.

(** ** Credential entities *)

Record RpEntity := MkRpEntity { rp_ID : string; rp_Name : string }.
Record UserEntity := MkUserEntity {
  user_ID : slice; DisplayName : string; user_Name : string; Icon : string }.
Record Descriptor := MkDescriptor {
  cred_Type : string; cred_ID : slice; cred_Transports : list string }.

Definition zero_user : UserEntity := MkUserEntity None "" "" "".
Definition zero_descriptor : Descriptor := MkDescriptor "" None [].

(** ** Extension members *)

Record HMACSecret := MkHMACSecret {
  hs_KeyAgreement : Key;
  SaltEnc : slice;
  SaltAuth : slice;
  hs_PinUvAuthProtocol : Z }.

Definition zero_hmac_secret : HMACSecret := MkHMACSecret None None None 0.

Definition HMACSecret_IsZero (s : HMACSecret) : bool :=
  bool_decide (hs_KeyAgreement s = None) && bool_decide (SaltEnc s = None)
  && bool_decide (SaltAuth s = None) && (hs_PinUvAuthProtocol s =? 0).

Record PreviewSignGenerateKeyInput := MkPreviewSignGenerateKeyInput {
  Algorithms : option (list Z);
  ps_Flags : option Z }.

Record PreviewSignSignInput := MkPreviewSignSignInput {
  KeyHandle : slice;
  ToBeSigned : slice;
  AdditionalArguments : slice }.

Record GetLargeBlobParams := MkGetLargeBlobParams {
  glb_Read : bool;
  glb_Write : slice;
  glb_OriginalSize : option Z }.

Record CreateExtensionInputs := MkCreateExtensionInputs {
  ci_CredProtect : Z;
  ci_CredBlob : slice;
  ci_LargeBlobKey : bool;
  ci_LargeBlob_Support : string;
  ci_MinPinLength : bool;
  ci_PinComplexityPolicy : bool;
  ci_HMACSecret : bool;
  ci_HMACSecretMC : HMACSecret;
  ci_ThirdPartyPayment : bool;
  ci_PreviewSign : PreviewSignGenerateKeyInput }.

Definition zero_create_inputs : CreateExtensionInputs :=
  MkCreateExtensionInputs 0 None false "" false false false zero_hmac_secret false
    (MkPreviewSignGenerateKeyInput None None).

Record GetExtensionInputs := MkGetExtensionInputs {
  gi_CredBlob : bool;
  gi_LargeBlobKey : bool;
  gi_LargeBlob : GetLargeBlobParams;
  gi_HMACSecret : HMACSecret;
  gi_ThirdPartyPayment : bool;
  gi_PreviewSign : PreviewSignSignInput }.

Definition zero_get_inputs : GetExtensionInputs :=
  MkGetExtensionInputs false false (MkGetLargeBlobParams false None None) zero_hmac_secret false
    (MkPreviewSignSignInput None None None).

Record PreviewSignOutput := MkPreviewSignOutput {
  pso_Algorithm : option Z;
  pso_Flags : option Z;
  pso_Signature : slice }.

Record CreateExtensionOutputs := MkCreateExtensionOutputs {
  co_CredProtect : Z;
  co_CredBlob : option bool;
  co_MinPinLength : Z;
  co_PinComplexityPolicy : option bool;
  co_HMACSecret : option bool;
  co_HMACSecretMC : slice;
  co_PreviewSign : option PreviewSignOutput }.

Record GetExtensionOutputs := MkGetExtensionOutputs {
  go_CredBlob : slice;
  go_HMACSecret : slice;
  go_ThirdPartyPayment : option bool;
  go_PreviewSign : option PreviewSignOutput }.

Record GetLargeBlobOutput := MkGetLargeBlobOutput {
  lbo_Written : option bool;
  lbo_Blob : slice;
  lbo_OriginalSize : option Z }.

(** ** Requests *)

Record ClientPINRequest := MkClientPINRequest {
  cp_PinUvAuthProtocol : Z;
  cp_SubCommand : Z;
  cp_KeyAgreement : Key;
  cp_PinUvAuthParam : list Z;
  cp_NewPinEnc : list Z;
  cp_PinHashEnc : list Z;
  cp_Permissions : Z;
  cp_RPID : string }.

Record BioEnrollmentSubCommandParams := MkBioParams {
  bp_TemplateID : slice;
  TemplateFriendlyName : option string;
  TimeoutMilliseconds : Z }.

Record BioEnrollmentRequest := MkBioEnrollmentRequest {
  be_Modality : Z;
  be_SubCommand : Z;
  be_SubCommandParams : BioEnrollmentSubCommandParams;
  be_PinUvAuthProtocol : Z;
  be_PinUvAuthParam : list Z;
  be_GetModality : bool }.

Record CredentialManagementSubCommandParams := MkCMParams {
  cmp_RPIDHash : slice;
  cmp_CredentialID : Descriptor;
  cmp_User : UserEntity }.

Record CredentialManagementRequest := MkCMRequest {
  cm_SubCommand : Z;
  cm_SubCommandParams : CredentialManagementSubCommandParams;
  cm_PinUvAuthProtocol : Z;
  cm_PinUvAuthParam : list Z }.

Record LargeBlobsRequest := MkLargeBlobsRequest {
  lb_Get : option Z;
  lb_Set : slice;
  lb_Offset : Z;
  lb_Length : Z;
  lb_PinUvAuthParam : list Z;
  lb_PinUvAuthProtocol : Z }.

(** The only parameters of a config subcommand are those of setMinPINLength. *)
Record ConfigRequest := MkConfigRequest {
  cfg_SubCommand : Z;
  cfg_SubCommandParams : option SetMinPINLengthParams;
  cfg_PinUvAuthProtocol : Z;
  cfg_PinUvAuthParam : list Z }.

Record MakeCredentialRequest := MkMakeCredentialRequest {
  mc_ClientDataHash : list Z;
  mc_RP : RpEntity;
  mc_User : UserEntity;
  mc_PubKeyCredParams : list (string * Z);
  mc_ExcludeList : list Descriptor;
  mc_Extensions : CreateExtensionInputs;
  mc_Options : gmap string bool;
  mc_PinUvAuthParam : slice;
  mc_PinUvAuthProtocol : Z;
  mc_EnterpriseAttestation : Z;
  mc_AttestationFormatsPreference : list string }.

Record GetAssertionRequest := MkGetAssertionRequest {
  ga_RPID : string;
  ga_ClientDataHash : list Z;
  ga_AllowList : list Descriptor;
  ga_Extensions : GetExtensionInputs;
  ga_Options : gmap string bool;
  ga_PinUvAuthParam : slice;
  ga_PinUvAuthProtocol : Z }.

(** Everything the client marshals. *)
Inductive message :=
  | MClientPIN (r : ClientPINRequest)
  | MBio (r : BioEnrollmentRequest)
  | MBioParams (p : BioEnrollmentSubCommandParams)
  | MCredMgmt (r : CredentialManagementRequest)
  | MCredMgmtParams (p : CredentialManagementSubCommandParams)
  | MLargeBlobs (r : LargeBlobsRequest)
  | MConfig (r : ConfigRequest)
  | MConfigParams (p : SetMinPINLengthParams)
  | MMakeCredential (r : MakeCredentialRequest)
  | MGetAssertion (r : GetAssertionRequest).

(** ** Responses *)

Record ClientPINResponse := MkClientPINResponse {
  r_KeyAgreement : Key;
  r_PinUvAuthToken : list Z;
  r_PinRetries : option Z;
  r_PowerCycleState : option bool;
  r_UvRetries : option Z }.

Record TemplateInfo := MkTemplateInfo { ti_TemplateID : list Z; ti_FriendlyName : string }.

Record BioEnrollmentResponse := MkBioEnrollmentResponse {
  br_Modality : Z;
  FingerprintKind : Z;
  MaxCaptureSamplesRequiredForEnroll : option Z;
  br_TemplateID : list Z;
  LastEnrollSampleStatus : option Z;
  RemainingSamples : option Z;
  TemplateInfos : list TemplateInfo;
  MaxTemplateFriendlyName : option Z }.

Record CredentialManagementResponse := MkCMResponse {
  ExistingResidentCredentialsCount : option Z;
  MaxPossibleRemainingResidentCredentialsCount : option Z;
  cr_RP : RpEntity;
  cr_RPIDHash : list Z;
  TotalRPs : Z;
  cr_User : UserEntity;
  cr_CredentialID : Descriptor;
  cr_PublicKey : Key;
  TotalCredentials : Z;
  cr_CredProtect : Z;
  cr_LargeBlobKey : list Z;
  cr_ThirdPartyPayment : option bool }.

Section Responses.
(** [any]: a decoded CBOR value the library passes on. *)
Context {Any : Type}.

Record MakeCredentialAuthData := MkMakeCredentialAuthData {
  mad_RPIDHash : list Z;
  mad_Flags : Z;
  mad_SignCount : Z;
  mad_AttestedCredentialData : option (@AttestedCredentialData Key);
  mad_Extensions : option CreateExtensionOutputs }.

Record GetAssertionAuthData := MkGetAssertionAuthData {
  gad_RPIDHash : list Z;
  gad_Flags : Z;
  gad_SignCount : Z;
  gad_AttestedCredentialData : option (@AttestedCredentialData Key);
  gad_Extensions : option GetExtensionOutputs }.

Record MakeCredentialResponse := MkMakeCredentialResponse {
  mr_Format : string;
  mr_AuthDataRaw : list Z;
  mr_AuthData : option MakeCredentialAuthData;
  mr_AttestationStatement : gmap string Any;
  mr_EnterpriseAttestation : bool;
  mr_LargeBlobKey : list Z;
  mr_UnsignedExtensionOutputs : gmap string Any }.

Record GetAssertionResponse := MkGetAssertionResponse {
  gr_Credential : Descriptor;
  gr_AuthDataRaw : list Z;
  gr_AuthData : option GetAssertionAuthData;
  gr_Signature : list Z;
  gr_User : option UserEntity;
  gr_NumberOfCredentials : Z;
  gr_UserSelected : bool;
  gr_LargeBlobKey : list Z;
  gr_UnsignedExtensionOutputs : gmap string Any }.
End Responses.
Arguments MakeCredentialResponse : clear implicits.
Arguments GetAssertionResponse : clear implicits.

(** ** The codec *)

Class Codec := {
  Any : Type;
  Marshal : message -> result (list Z);
  (* decoding into a pointer yields nil on a CBOR null *)
  Unmarshal_ClientPIN : list Z -> result (option ClientPINResponse);
  Unmarshal_Bio : list Z -> result BioEnrollmentResponse;
  Unmarshal_CredMgmt : list Z -> result CredentialManagementResponse;
  Unmarshal_LargeBlobs : list Z -> result (list Z);
  Unmarshal_Info : list Z -> result AuthenticatorGetInfoResponse;
  Unmarshal_MakeCredential : list Z -> result (MakeCredentialResponse Any);
  Unmarshal_GetAssertion : list Z -> result (GetAssertionResponse Any);
  (* the parts of authenticator data: value and length of a CBOR prefix *)
  decode_cose_key : list Z -> result (Key * Z);
  decode_any_map : list Z -> result (bool * Z);
  Decode_CreateExtensionOutputs : list Z -> result CreateExtensionOutputs;
  Decode_GetExtensionOutputs : list Z -> result GetExtensionOutputs;
  (* a decoded value, marshalled and unmarshalled as another type *)
  remarshal_supported : Any -> result bool;
  remarshal_GetLargeBlobOutput : Any -> result GetLargeBlobOutput;
  remarshal_AttestationObject : Any -> result slice;
  (* the array of large blobs *)
  Marshal_LargeBlobArray : list LargeBlob -> result (list Z);
  Unmarshal_LargeBlobArray : list Z -> result (list LargeBlob) }.

Section Codec.
Context `{Codec}.

Definition ParseMakeCredentialAuthData (data : list Z) : result MakeCredentialAuthData :=
  parseAuthData decode_cose_key decode_any_map data ≫= fun d =>
  (match ad_Extensions d with
   | None => Ok None
   | Some b => Some <$> Decode_CreateExtensionOutputs b
   end) ≫= fun extensions =>
  Ok (MkMakeCredentialAuthData (RPIDHash d) (Flags d) (SignCount d)
        (ad_AttestedCredentialData d) extensions).

Definition ParseGetAssertionAuthData (data : list Z) : result GetAssertionAuthData :=
  parseAuthData decode_cose_key decode_any_map data ≫= fun d =>
  (match ad_Extensions d with
   | None => Ok None
   | Some b => Some <$> Decode_GetExtensionOutputs b
   end) ≫= fun extensions =>
  Ok (MkGetAssertionAuthData (RPIDHash d) (Flags d) (SignCount d)
        (ad_AttestedCredentialData d) extensions).

Definition decodeUnsignedExtensionOutput {T} (decode : Any -> result T)
    (outputs : gmap string Any) (identifier : string) : result (option T) :=
  match outputs !! identifier with
  | None => Ok None
  | Some value => Some <$> decode value
  end.

Definition ExtensionIdentifierLargeBlob : string := "largeBlob".
Definition ExtensionIdentifierLargeBlobKey : string := "largeBlobKey".
Definition ExtensionIdentifierPreviewSign : string := "previewSign".

(** The [LargeBlobUnsignedExtensionOutput] methods and their preview-sign
    counterpart. *)
Definition create_LargeBlobUnsignedExtensionOutput (r : MakeCredentialResponse Any)
    : result (option bool) :=
  decodeUnsignedExtensionOutput remarshal_supported (mr_UnsignedExtensionOutputs r)
    ExtensionIdentifierLargeBlob.
Definition get_LargeBlobUnsignedExtensionOutput (r : GetAssertionResponse Any)
    : result (option GetLargeBlobOutput) :=
  decodeUnsignedExtensionOutput remarshal_GetLargeBlobOutput (gr_UnsignedExtensionOutputs r)
    ExtensionIdentifierLargeBlob.
Definition PreviewSignUnsignedExtensionOutput (r : MakeCredentialResponse Any)
    : result (option slice) :=
  decodeUnsignedExtensionOutput remarshal_AttestationObject (mr_UnsignedExtensionOutputs r)
    ExtensionIdentifierPreviewSign.

(** [resp.AuthData = &authData]. *)
Definition set_mr_AuthData (r : MakeCredentialResponse Any) (d : MakeCredentialAuthData)
    : MakeCredentialResponse Any :=
  MkMakeCredentialResponse (mr_Format r) (mr_AuthDataRaw r) (Some d) (mr_AttestationStatement r)
    (mr_EnterpriseAttestation r) (mr_LargeBlobKey r) (mr_UnsignedExtensionOutputs r).
Definition set_gr_AuthData (r : GetAssertionResponse Any) (d : GetAssertionAuthData)
    : GetAssertionResponse Any :=
  MkGetAssertionResponse (gr_Credential r) (gr_AuthDataRaw r) (Some d) (gr_Signature r) (gr_User r)
    (gr_NumberOfCredentials r) (gr_UserSelected r) (gr_LargeBlobKey r)
    (gr_UnsignedExtensionOutputs r).
End Codec.

(** A codec for the samples that loses nothing: the number stdpp's
    [Countable] gives a value. *)
Definition number_bytes {A} `{Countable A} (a : A) : list Z := [Z.pos (encode a)].
Definition read_number {A} `{Countable A} (b : list Z) : option A :=
  match b with [Z.pos p] => decode p | _ => None end.

Lemma read_number_bytes {A} `{Countable A} (a : A) : read_number (number_bytes a) = Some a.
Proof. unfold read_number, number_bytes. apply decode_encode. Qed.
