(* ===== verification/Client.v ===== *)
(** * The CTAP client (src/client/commands.go, validation.go)

    One function per CTAP command: it checks its arguments, computes the
    PIN/UV auth parameter, marshals the request, exchanges it over the
    transport, and decodes the response. The transport is any function of
    the world [W]; the sequences the client returns are functions of the
    caller's yield, run in that world, so that a caller may stop them or use
    the connection in between. Random choices (the platform key, IVs) are
    arguments. The diagnostics sink is [emit]. *)
From S2P Require Import Prelude GoError Transport Protocol Pin Cose Crypto Messages.

Definition ErrTransportNotConfigured : error := ESentinel "client: transport not configured".

(** [iter.Seq2[A, error]]: a run with a yield that says whether to go on. *)
Definition Seq (W A : Type) : Type := (A + error -> M W bool) -> M W unit.

(** The shape of the client's sequences: a first response, or its error,
    then [rest] further ones fetched one at a time; the sequence ends with
    the first error, which is yielded, and when the caller stops. *)
Fixpoint iterate {W A} (n : nat) (fetch : M W A) (yield : A + error -> M W bool) : M W unit :=
  match n with
  | O => mret tt
  | S n' =>
      r ← try_ fetch;
      match r with
      | inr err => yield (inr err);; mret tt
      | inl resp =>
          go_on ← yield (inl resp);
          if negb go_on then mret tt else iterate n' fetch yield
      end
  end.

Definition sequence {W A} (begin : M W A) (rest : A -> nat) (fetch : M W A) : Seq W A := fun yield =>
  r ← try_ begin;
  match r with
  | inr err => yield (inr err);; mret tt
  | inl resp =>
      go_on ← yield (inl resp);
      if negb go_on then mret tt else iterate (rest resp) fetch yield
  end.

Definition clientDataHashSize : Z := 32.

Definition validateClientDataHash (clientDataHash : list Z) : option error :=
  check (negb (len clientDataHash =? clientDataHashSize))
    (EText "clientDataHash must be exactly 32 bytes").

Definition validateFIPS140HMACSecret (fips_enabled : bool) (hmacSecret : HMACSecret) : option error :=
  if HMACSecret_IsZero hmacSecret then None
  else
    let pinUvAuthProtocol :=
      if hs_PinUvAuthProtocol hmacSecret =? 0 then PinUvAuthProtocolOne
      else hs_PinUvAuthProtocol hmacSecret in
    ValidateFIPS140UvAuthProtocol fips_enabled pinUvAuthProtocol.

Definition normalizeSelectionError (err : option error) : option error :=
  match err with
  | None => None
  | Some e =>
      match errors_As as_CTAPError e with
      | Some (_, status) => if status =? CTAP2_ERR_KEEPALIVE_CANCEL then None else err
      | None => err
      end
  end.

(** The 32 bytes of 0xff before an authenticated message. *)
Definition padding : list Z := replicate 32 0xff.

(** A FIPS-filtered extension input, and the filtered inputs. *)
Definition set_previewSignAlgorithms (e : CreateExtensionInputs) (algorithms : option (list Z))
    : CreateExtensionInputs :=
  MkCreateExtensionInputs (ci_CredProtect e) (ci_CredBlob e) (ci_LargeBlobKey e)
    (ci_LargeBlob_Support e) (ci_MinPinLength e) (ci_PinComplexityPolicy e) (ci_HMACSecret e)
    (ci_HMACSecretMC e) (ci_ThirdPartyPayment e)
    (MkPreviewSignGenerateKeyInput algorithms (ps_Flags (ci_PreviewSign e))).

Section Client.
Context `{Primitives} `{Codec} {W : Type}.
Context (fips_enabled : bool) (NFC : list Z -> list Z).
(** The configured transport, [None] when nil, and the diagnostics. *)
Context (transport : option (list Z -> M W CBORResponse)).
Context (emit : option (list Z -> CBORResponse + error -> M W unit)).

Definition exchange (CBOR : list Z -> M W CBORResponse) (data : list Z) : M W CBORResponse :=
  match emit with
  | None => CBOR data
  | Some emitDiagnostic =>
      r ← try_ (CBOR data);
      emitDiagnostic data r;;
      match r with inl response => mret response | inr err => fail err end
  end.

Definition cbor (data : list Z) : M W CBORResponse :=
  match transport with
  | None => fail ErrTransportNotConfigured
  | Some CBOR => exchange CBOR data
  end.

(** [slices.Concat([]byte{byte(command)}, b)] sent. *)
Definition command_cbor (command : Z) (b : list Z) : M W CBORResponse := cbor (command :: b).

Definition check_err (c : option error) : M W unit :=
  match c with Some e => fail e | None => mret tt end.

(** ** Credentials *)

Definition MakeCredential (pinUvAuthProtocol : Z) (pinUvAuthToken : slice)
    (clientDataHash : list Z) (rp : RpEntity) (user : UserEntity)
    (pubKeyCredParams : list (string * Z)) (excludeList : list Descriptor)
    (extensions : option CreateExtensionInputs) (options : gmap string bool)
    (enterpriseAttestation : Z) (attestationFormatsPreference : list string)
    : M W (MakeCredentialResponse Any) :=
  check_err (validateClientDataHash clientDataHash);;
  pubKeyCredParams ← lift (FilterCredentialParameters fips_enabled pubKeyCredParams);
  let requestExtensions := default zero_create_inputs extensions in
  previewSignAlgorithms ← lift
    match Algorithms (ci_PreviewSign requestExtensions) with
    | None => Ok None
    | Some algorithms => Some <$> FilterPreviewSignAlgorithms fips_enabled algorithms
    end;
  let requestExtensions := set_previewSignAlgorithms requestExtensions previewSignAlgorithms in
  check_err (if fips_enabled
             then validateFIPS140HMACSecret fips_enabled (ci_HMACSecretMC requestExtensions)
             else None);;
  '(param, protocol) ← match pinUvAuthToken with
    | None => mret (None, 0)
    | Some token =>
        check_err (ValidateUvAuthToken fips_enabled pinUvAuthProtocol token);;
        pinUvAuthParam ← lift (Authenticate pinUvAuthProtocol token clientDataHash);
        mret (Some pinUvAuthParam, pinUvAuthProtocol)
    end;
  b ← lift (wrap_err "cannot marshal MakeCredential CBOR request" (Marshal (MMakeCredential
    (MkMakeCredentialRequest clientDataHash rp user pubKeyCredParams excludeList
       requestExtensions options param protocol enterpriseAttestation
       attestationFormatsPreference))));
  respRaw ← command_cbor AuthenticatorMakeCredential b;
  resp ← lift (Unmarshal_MakeCredential (Data respRaw));
  authData ← lift (ParseMakeCredentialAuthData (mr_AuthDataRaw resp));
  match mad_AttestedCredentialData authData with
  | None => mret tt
  | Some c => lift (ValidateCredentialKey fips_enabled (CredentialPublicKey c))
  end;;
  mret (set_mr_AuthData resp authData).

(** One further assertion. *)
Definition next_assertion : M W (GetAssertionResponse Any) :=
  respRaw ← cbor [AuthenticatorGetNextAssertion];
  resp ← lift (Unmarshal_GetAssertion (Data respRaw));
  authData ← lift (ParseGetAssertionAuthData (gr_AuthDataRaw resp));
  mret (set_gr_AuthData resp authData).

Definition GetAssertion (pinUvAuthProtocol : Z) (pinUvAuthToken : slice) (rpID : string)
    (clientDataHash : list Z) (allowList : list Descriptor)
    (extensions : option GetExtensionInputs) (options : gmap string bool)
    : Seq W (GetAssertionResponse Any) := fun yield =>
  sequence (
    check_err (validateClientDataHash clientDataHash);;
    check_err (match extensions with
               | Some e => if fips_enabled
                   then validateFIPS140HMACSecret fips_enabled (gi_HMACSecret e) else None
               | None => None
               end);;
    let requestExtensions := default zero_get_inputs extensions in
    '(param, protocol) ← match pinUvAuthToken with
      | None => mret (None, 0)
      | Some token =>
          check_err (ValidateUvAuthToken fips_enabled pinUvAuthProtocol token);;
          pinUvAuthParamBegin ← lift (Authenticate pinUvAuthProtocol token clientDataHash);
          mret (Some pinUvAuthParamBegin, pinUvAuthProtocol)
      end;
    bBegin ← lift (Marshal (MGetAssertion (MkGetAssertionRequest rpID clientDataHash allowList
      requestExtensions options param protocol)));
    respRawBegin ← command_cbor AuthenticatorGetAssertion bBegin;
    respBegin ← lift (Unmarshal_GetAssertion (Data respRawBegin));
    authData ← lift (ParseGetAssertionAuthData (gr_AuthDataRaw respBegin));
    mret (set_gr_AuthData respBegin authData))
  (fun respBegin => if gr_NumberOfCredentials respBegin =? 0 then 0%nat
                    else Z.to_nat (gr_NumberOfCredentials respBegin - 1))
  next_assertion yield.

Definition GetInfo : M W AuthenticatorGetInfoResponse :=
  respRaw ← cbor [AuthenticatorGetInfo];
  lift (Unmarshal_Info (Data respRaw)).

(** ** authenticatorClientPIN *)

Definition clientPIN_request (pinUvAuthProtocol subCommand : Z) : ClientPINRequest :=
  MkClientPINRequest pinUvAuthProtocol subCommand None [] [] [] 0 "".

(** A member read through the response pointer, which is nil after a CBOR
    null: the dereference panics. *)
Definition deref {A} (p : option A) : M W A :=
  match p with Some a => mret a | None => panic end.

Definition GetPINRetries (pinUvAuthProtocol : Z) : M W (Z * option bool) :=
  check_err (if negb (pinUvAuthProtocol =? 0)
             then ValidateFIPS140UvAuthProtocol fips_enabled pinUvAuthProtocol else None);;
  b ← lift (Marshal (MClientPIN
    (clientPIN_request pinUvAuthProtocol ClientPINSubCommandGetPINRetries)));
  respRaw ← command_cbor AuthenticatorClientPIN b;
  resp ← lift (Unmarshal_ClientPIN (Data respRaw));
  resp ← deref resp;
  match r_PinRetries resp with
  | None => fail (EText "spec violation: pinRetries is nil")
  | Some n => mret (n, r_PowerCycleState resp)
  end.

Definition GetUVRetries (pinUvAuthProtocol : Z) : M W Z :=
  check_err (if negb (pinUvAuthProtocol =? 0)
             then ValidateFIPS140UvAuthProtocol fips_enabled pinUvAuthProtocol else None);;
  b ← lift (Marshal (MClientPIN
    (clientPIN_request pinUvAuthProtocol ClientPINSubCommandGetUVRetries)));
  respRaw ← command_cbor AuthenticatorClientPIN b;
  resp ← lift (Unmarshal_ClientPIN (Data respRaw));
  resp ← deref resp;
  match r_UvRetries resp with
  | None => fail (EText "spec violation: uvRetries is nil")
  | Some n => mret n
  end.

(** [fmt.Errorf("...: %w", err)] around the error of a call. *)
Definition wrapping {A} (msg : string) (m : M W A) : M W A :=
  r ← try_ m;
  match r with inl a => mret a | inr err => fail (EMessage err msg) end.

Definition GetKeyAgreement (pinUvAuthProtocol : Z) : M W Key :=
  check_err (ValidateFIPS140UvAuthProtocol fips_enabled pinUvAuthProtocol);;
  b ← wrapping "cannot marshal keyAgreement CBOR request" (lift (Marshal (MClientPIN
    (clientPIN_request pinUvAuthProtocol ClientPINSubCommandGetKeyAgreement))));
  respRaw ← wrapping "keyAgreement CBOR request failed" (command_cbor AuthenticatorClientPIN b);
  resp ← wrapping "cannot unmarshal keyAgreement CBOR response"
    (lift (Unmarshal_ClientPIN (Data respRaw)));
  resp ← deref resp;
  mret (r_KeyAgreement resp).

(** [copy] into 64 zero bytes. *)
Definition encryptNewPIN (pinProtocol : PinUvAuthProtocol) (iv sharedSecret pin : list Z)
    : result (list Z) :=
  let pinBytes := take 64 pin ++ zeros (64 - length pin) in
  Encrypt pinProtocol iv sharedSecret pinBytes.

Definition encryptPINHash (pinProtocol : PinUvAuthProtocol) (iv sharedSecret pin : list Z)
    : result (list Z) :=
  let pinHash := sha256 pin in
  Encrypt pinProtocol iv sharedSecret (take 16 pinHash).

Definition SetPIN (random_key : PrivateKey) (iv : list Z)
    (pinUvAuthProtocol : Z) (keyAgreement : Key) (pin : list Z) : M W unit :=
  pin ← lift (NormalizeAndValidate NFC pin DefaultMinPINCodePoints);
  pinProtocol ← lift (NewPinUvAuthProtocol fips_enabled random_key pinUvAuthProtocol);
  '(platformCoseKey, sharedSecret) ← lift (Encapsulate pinProtocol keyAgreement);
  newPinEnc ← lift (encryptNewPIN pinProtocol iv sharedSecret pin);
  pinUvAuthParam ← lift (Authenticate pinUvAuthProtocol sharedSecret newPinEnc);
  b ← lift (Marshal (MClientPIN (MkClientPINRequest (Number pinProtocol)
    ClientPINSubCommandSetPIN platformCoseKey pinUvAuthParam newPinEnc [] 0 "")));
  command_cbor AuthenticatorClientPIN b;;
  mret tt.

Definition ChangePIN (random_key : PrivateKey) (iv1 iv2 : list Z)
    (pinUvAuthProtocol : Z) (keyAgreement : Key) (currentPin newPin : list Z) : M W unit :=
  currentPin ← lift (NormalizeAndValidate NFC currentPin DefaultMinPINCodePoints);
  newPin ← lift (NormalizeAndValidate NFC newPin DefaultMinPINCodePoints);
  pinProtocol ← lift (NewPinUvAuthProtocol fips_enabled random_key pinUvAuthProtocol);
  '(platformCoseKey, sharedSecret) ← lift (Encapsulate pinProtocol keyAgreement);
  pinHashEnc ← lift (encryptPINHash pinProtocol iv1 sharedSecret currentPin);
  newPinEnc ← lift (encryptNewPIN pinProtocol iv2 sharedSecret newPin);
  pinUvAuthParam ← lift (Authenticate pinUvAuthProtocol sharedSecret (newPinEnc ++ pinHashEnc));
  b ← lift (Marshal (MClientPIN (MkClientPINRequest (Number pinProtocol)
    ClientPINSubCommandChangePIN platformCoseKey pinUvAuthParam newPinEnc pinHashEnc 0 "")));
  command_cbor AuthenticatorClientPIN b;;
  mret tt.

Definition GetPinToken (random_key : PrivateKey) (iv : list Z)
    (pinUvAuthProtocol : Z) (keyAgreement : Key) (pin : list Z) : M W (list Z) :=
  pin ← lift (NormalizeAndValidate NFC pin DefaultMinPINCodePoints);
  pinProtocol ← lift (NewPinUvAuthProtocol fips_enabled random_key pinUvAuthProtocol);
  '(platformCoseKey, sharedSecret) ← lift (Encapsulate pinProtocol keyAgreement);
  pinHashEnc ← lift (encryptPINHash pinProtocol iv sharedSecret pin);
  b ← lift (Marshal (MClientPIN (MkClientPINRequest (Number pinProtocol)
    ClientPINSubCommandGetPinToken platformCoseKey [] [] pinHashEnc 0 "")));
  respRaw ← command_cbor AuthenticatorClientPIN b;
  resp ← lift (Unmarshal_ClientPIN (Data respRaw));
  resp ← deref resp;
  lift (Decrypt pinProtocol sharedSecret (r_PinUvAuthToken resp)).

Definition GetPinUvAuthTokenUsingPinWithPermissions (random_key : PrivateKey) (iv : list Z)
    (pinUvAuthProtocol : Z) (keyAgreement : Key) (pin : list Z) (permissions : Z)
    (rpID : string) : M W (list Z) :=
  pin ← lift (NormalizeAndValidate NFC pin DefaultMinPINCodePoints);
  pinProtocol ← lift (NewPinUvAuthProtocol fips_enabled random_key pinUvAuthProtocol);
  '(platformCoseKey, sharedSecret) ← lift (Encapsulate pinProtocol keyAgreement);
  pinHashEnc ← lift (encryptPINHash pinProtocol iv sharedSecret pin);
  b ← lift (Marshal (MClientPIN (MkClientPINRequest (Number pinProtocol)
    ClientPINSubCommandGetPinUvAuthTokenUsingPinWithPermissions platformCoseKey [] []
    pinHashEnc permissions rpID)));
  respRaw ← command_cbor AuthenticatorClientPIN b;
  resp ← lift (Unmarshal_ClientPIN (Data respRaw));
  resp ← deref resp;
  lift (Decrypt pinProtocol sharedSecret (r_PinUvAuthToken resp)).

Definition getPinUvAuthTokenUsingUv (random_key : PrivateKey)
    (pinUvAuthProtocol : Z) (keyAgreement : Key) (permissions : Z) (rpID : string)
    : M W (list Z) :=
  pinProtocol ← lift (NewPinUvAuthProtocol fips_enabled random_key pinUvAuthProtocol);
  '(platformCoseKey, sharedSecret) ← lift (Encapsulate pinProtocol keyAgreement);
  b ← lift (Marshal (MClientPIN (MkClientPINRequest (Number pinProtocol)
    ClientPINSubCommandGetPinUvAuthTokenUsingUvWithPermissions platformCoseKey [] [] []
    permissions rpID)));
  respRaw ← command_cbor AuthenticatorClientPIN b;
  resp ← lift (Unmarshal_ClientPIN (Data respRaw));
  resp ← deref resp;
  lift (Decrypt pinProtocol sharedSecret (r_PinUvAuthToken resp)).

Definition GetPinUvAuthTokenUsingUv (random_key : PrivateKey) (keyAgreement : Key)
    : M W (list Z) :=
  getPinUvAuthTokenUsingUv random_key PinUvAuthProtocolOne keyAgreement PermissionNone "".

Definition GetPinUvAuthTokenUsingUvWithPermissions (random_key : PrivateKey)
    (pinUvAuthProtocol : Z) (keyAgreement : Key) (permissions : Z) (rpID : string)
    : M W (list Z) :=
  getPinUvAuthTokenUsingUv random_key pinUvAuthProtocol keyAgreement permissions rpID.

Definition Reset : M W unit := cbor [AuthenticatorReset];; mret tt.

Definition Selection : M W unit :=
  r ← try_ (cbor [AuthenticatorSelection]);
  check_err (normalizeSelectionError (match r with inl _ => None | inr err => Some err end)).
End Client.
