(* ===== verification/Management.v ===== *)
(** * Management commands of the client (src/client/commands.go)

    Biometric enrollment, credential management, large blobs and
    authenticator configuration: the commands whose PIN/UV auth parameter
    covers the subcommand and its parameters. What the authenticator
    verifies it over, read off the request it receives, is
    [authenticated_message]. *)
From S2P Require Import Prelude GoError Transport Protocol Pin Preflight Cose Crypto Messages Client.

Section Management.
Context `{Primitives} `{Codec} {W : Type}.
Context (fips_enabled : bool).
Context (transport : option (list Z -> M W CBORResponse)).
Context (emit : option (list Z -> CBORResponse + error -> M W unit)).

#[local] Abbreviation send := (command_cbor transport emit).

(** ** authenticatorBioEnrollment *)

Definition zero_bio_params : BioEnrollmentSubCommandParams := MkBioParams None None 0.

Definition bio_command (preview : bool) : Z :=
  if preview then PrototypeAuthenticatorBioEnrollment else AuthenticatorBioEnrollment.

Definition GetBioModality (preview : bool) : M W BioEnrollmentResponse :=
  b ← lift (Marshal (MBio (MkBioEnrollmentRequest 0 0 zero_bio_params 0 [] true)));
  respRaw ← send (bio_command preview) b;
  lift (Unmarshal_Bio (Data respRaw)).

Definition GetFingerprintSensorInfo (preview : bool) : M W BioEnrollmentResponse :=
  b ← lift (Marshal (MBio (MkBioEnrollmentRequest BioModalityFingerprint
    BioEnrollmentSubCommandGetFingerprintSensorInfo zero_bio_params 0 [] false)));
  respRaw ← send (bio_command preview) b;
  lift (Unmarshal_Bio (Data respRaw)).

Definition EnrollBegin (preview : bool) (pinUvAuthProtocol : Z) (pinUvAuthToken : list Z)
    (timeoutMilliseconds : Z) : M W BioEnrollmentResponse :=
  check_err (ValidateUvAuthToken fips_enabled pinUvAuthProtocol pinUvAuthToken);;
  bSubCommandParams ← lift (Marshal (MBioParams (MkBioParams None None timeoutMilliseconds)));
  let bSubCommandParams := if timeoutMilliseconds =? 0 then [] else bSubCommandParams in
  pinUvAuthParam ← lift (Authenticate pinUvAuthProtocol pinUvAuthToken
    ([BioModalityFingerprint; BioEnrollmentSubCommandEnrollBegin] ++ bSubCommandParams));
  b ← lift (Marshal (MBio (MkBioEnrollmentRequest BioModalityFingerprint
    BioEnrollmentSubCommandEnrollBegin (MkBioParams None None timeoutMilliseconds)
    pinUvAuthProtocol pinUvAuthParam false)));
  respRaw ← send (bio_command preview) b;
  lift (Unmarshal_Bio (Data respRaw)).

Definition EnrollCaptureNextSample (preview : bool) (pinUvAuthProtocol : Z)
    (pinUvAuthToken : list Z) (templateID : slice) (timeoutMilliseconds : Z)
    : M W BioEnrollmentResponse :=
  check_err (ValidateUvAuthToken fips_enabled pinUvAuthProtocol pinUvAuthToken);;
  bSubCommandParams ← lift (Marshal (MBioParams (MkBioParams templateID None timeoutMilliseconds)));
  pinUvAuthParam ← lift (Authenticate pinUvAuthProtocol pinUvAuthToken
    ([BioModalityFingerprint; BioEnrollmentSubCommandEnrollCaptureNextSample] ++ bSubCommandParams));
  b ← lift (Marshal (MBio (MkBioEnrollmentRequest BioModalityFingerprint
    BioEnrollmentSubCommandEnrollCaptureNextSample
    (MkBioParams templateID None timeoutMilliseconds) pinUvAuthProtocol pinUvAuthParam false)));
  respRaw ← send (bio_command preview) b;
  lift (Unmarshal_Bio (Data respRaw)).

Definition CancelCurrentEnrollment (preview : bool) : M W unit :=
  b ← lift (Marshal (MBio (MkBioEnrollmentRequest BioModalityFingerprint
    BioEnrollmentSubCommandCancelCurrentEnrollment zero_bio_params 0 [] false)));
  send (bio_command preview) b;;
  mret tt.

Definition EnumerateEnrollments (preview : bool) (pinUvAuthProtocol : Z)
    (pinUvAuthToken : list Z) : M W BioEnrollmentResponse :=
  check_err (ValidateUvAuthToken fips_enabled pinUvAuthProtocol pinUvAuthToken);;
  pinUvAuthParam ← lift (Authenticate pinUvAuthProtocol pinUvAuthToken
    [BioModalityFingerprint; BioEnrollmentSubCommandEnumerateEnrollments]);
  b ← lift (Marshal (MBio (MkBioEnrollmentRequest BioModalityFingerprint
    BioEnrollmentSubCommandEnumerateEnrollments zero_bio_params pinUvAuthProtocol
    pinUvAuthParam false)));
  respRaw ← send (bio_command preview) b;
  lift (Unmarshal_Bio (Data respRaw)).

Definition SetFriendlyName (preview : bool) (pinUvAuthProtocol : Z) (pinUvAuthToken : list Z)
    (templateID : slice) (friendlyName : string) : M W unit :=
  check_err (ValidateUvAuthToken fips_enabled pinUvAuthProtocol pinUvAuthToken);;
  bSubCommandParams ← lift (Marshal (MBioParams (MkBioParams templateID (Some friendlyName) 0)));
  pinUvAuthParam ← lift (Authenticate pinUvAuthProtocol pinUvAuthToken
    ([BioModalityFingerprint; BioEnrollmentSubCommandSetFriendlyName] ++ bSubCommandParams));
  b ← lift (Marshal (MBio (MkBioEnrollmentRequest BioModalityFingerprint
    BioEnrollmentSubCommandSetFriendlyName (MkBioParams templateID (Some friendlyName) 0)
    pinUvAuthProtocol pinUvAuthParam false)));
  send (bio_command preview) b;;
  mret tt.

Definition RemoveEnrollment (preview : bool) (pinUvAuthProtocol : Z) (pinUvAuthToken : list Z)
    (templateID : slice) : M W unit :=
  check_err (ValidateUvAuthToken fips_enabled pinUvAuthProtocol pinUvAuthToken);;
  bSubCommandParams ← lift (Marshal (MBioParams (MkBioParams templateID None 0)));
  pinUvAuthParam ← lift (Authenticate pinUvAuthProtocol pinUvAuthToken
    ([BioModalityFingerprint; BioEnrollmentSubCommandRemoveEnrollment] ++ bSubCommandParams));
  b ← lift (Marshal (MBio (MkBioEnrollmentRequest BioModalityFingerprint
    BioEnrollmentSubCommandRemoveEnrollment (MkBioParams templateID None 0)
    pinUvAuthProtocol pinUvAuthParam false)));
  send (bio_command preview) b;;
  mret tt.

(** ** authenticatorCredentialManagement *)

Definition zero_cm_params : CredentialManagementSubCommandParams :=
  MkCMParams None zero_descriptor zero_user.

Definition cm_command (preview : bool) : Z :=
  if preview then PrototypeAuthenticatorCredentialManagement
  else AuthenticatorCredentialManagement.

Definition GetCredsMetadata (preview : bool) (pinUvAuthProtocol : Z) (pinUvAuthToken : list Z)
    : M W CredentialManagementResponse :=
  check_err (ValidateUvAuthToken fips_enabled pinUvAuthProtocol pinUvAuthToken);;
  pinUvAuthParam ← lift (Authenticate pinUvAuthProtocol pinUvAuthToken
    [CredentialManagementSubCommandGetCredsMetadata]);
  b ← lift (Marshal (MCredMgmt (MkCMRequest CredentialManagementSubCommandGetCredsMetadata
    zero_cm_params pinUvAuthProtocol pinUvAuthParam)));
  respRaw ← send (cm_command preview) b;
  lift (Unmarshal_CredMgmt (Data respRaw)).

(** One further response of an enumeration. *)
Definition enumerate_next (preview : bool) (subCommand : Z) : M W CredentialManagementResponse :=
  bNext ← lift (Marshal (MCredMgmt (MkCMRequest subCommand zero_cm_params 0 [])));
  respRawNext ← send (cm_command preview) bNext;
  lift (Unmarshal_CredMgmt (Data respRawNext)).

Definition EnumerateRPs (preview : bool) (pinUvAuthProtocol : Z) (pinUvAuthToken : list Z)
    : Seq W CredentialManagementResponse := fun yield =>
  sequence (
    check_err (ValidateUvAuthToken fips_enabled pinUvAuthProtocol pinUvAuthToken);;
    pinUvAuthParamBegin ← lift (Authenticate pinUvAuthProtocol pinUvAuthToken
      [CredentialManagementSubCommandEnumerateRPsBegin]);
    bBegin ← lift (Marshal (MCredMgmt (MkCMRequest
      CredentialManagementSubCommandEnumerateRPsBegin zero_cm_params pinUvAuthProtocol
      pinUvAuthParamBegin)));
    respRawBegin ← send (cm_command preview) bBegin;
    respBegin ← lift (Unmarshal_CredMgmt (Data respRawBegin));
    if TotalRPs respBegin =? 0 then
      fail (EText "spec violation: totalRPs is missing or zero in enumerateRPsBegin response")
    else mret respBegin)
  (fun respBegin => Z.to_nat (TotalRPs respBegin - 1))
  (enumerate_next preview CredentialManagementSubCommandEnumerateRPsGetNextRP) yield.

Definition EnumerateCredentials (preview : bool) (pinUvAuthProtocol : Z)
    (pinUvAuthToken : list Z) (rpIDHash : slice) : Seq W CredentialManagementResponse := fun yield =>
  sequence (
    check_err (ValidateUvAuthToken fips_enabled pinUvAuthProtocol pinUvAuthToken);;
    bSubCommandParams ← lift (Marshal (MCredMgmtParams
      (MkCMParams rpIDHash zero_descriptor zero_user)));
    pinUvAuthParamBegin ← lift (Authenticate pinUvAuthProtocol pinUvAuthToken
      ([CredentialManagementSubCommandEnumerateCredentialsBegin] ++ bSubCommandParams));
    bBegin ← lift (Marshal (MCredMgmt (MkCMRequest
      CredentialManagementSubCommandEnumerateCredentialsBegin
      (MkCMParams rpIDHash zero_descriptor zero_user) pinUvAuthProtocol pinUvAuthParamBegin)));
    respRawBegin ← send (cm_command preview) bBegin;
    respBegin ← lift (Unmarshal_CredMgmt (Data respRawBegin));
    if TotalCredentials respBegin =? 0 then
      fail (EText "spec violation: totalCredentials is missing or zero in enumerateCredentialsBegin response")
    else mret respBegin)
  (fun respBegin => Z.to_nat (TotalCredentials respBegin - 1))
  (enumerate_next preview CredentialManagementSubCommandEnumerateCredentialsGetNextCredential) yield.

Definition DeleteCredential (preview : bool) (pinUvAuthProtocol : Z) (pinUvAuthToken : list Z)
    (credentialID : Descriptor) : M W unit :=
  check_err (ValidateUvAuthToken fips_enabled pinUvAuthProtocol pinUvAuthToken);;
  bSubCommandParams ← lift (Marshal (MCredMgmtParams (MkCMParams None credentialID zero_user)));
  pinUvAuthParam ← lift (Authenticate pinUvAuthProtocol pinUvAuthToken
    ([CredentialManagementSubCommandDeleteCredential] ++ bSubCommandParams));
  b ← lift (Marshal (MCredMgmt (MkCMRequest CredentialManagementSubCommandDeleteCredential
    (MkCMParams None credentialID zero_user) pinUvAuthProtocol pinUvAuthParam)));
  send (cm_command preview) b;;
  mret tt.

Definition UpdateUserInformation (preview : bool) (pinUvAuthProtocol : Z)
    (pinUvAuthToken : list Z) (credentialID : Descriptor) (user : UserEntity) : M W unit :=
  check_err (ValidateUvAuthToken fips_enabled pinUvAuthProtocol pinUvAuthToken);;
  bSubCommandParams ← lift (Marshal (MCredMgmtParams (MkCMParams None credentialID user)));
  pinUvAuthParam ← lift (Authenticate pinUvAuthProtocol pinUvAuthToken
    ([CredentialManagementSubCommandUpdateUserInformation] ++ bSubCommandParams));
  b ← lift (Marshal (MCredMgmt (MkCMRequest CredentialManagementSubCommandUpdateUserInformation
    (MkCMParams None credentialID user) pinUvAuthProtocol pinUvAuthParam)));
  send (cm_command preview) b;;
  mret tt.

(** ** authenticatorLargeBlobs *)

Definition LargeBlobs (pinUvAuthProtocol : Z) (pinUvAuthToken : slice) (get : Z)
    (set : slice) (offset length : Z) : M W (list Z) :=
  let getParam := if bool_decide (set = None) || negb (get =? 0) then Some get else None in
  '(param, protocol) ← match pinUvAuthToken with
    | None => mret ([], 0)
    | Some token =>
        check_err (ValidateUvAuthToken fips_enabled pinUvAuthProtocol token);;
        let offsetBin := put_le 4 (u32 offset) in
        let hash := sha256 (bytes_of set) in
        pinUvAuthParam ← lift (Authenticate pinUvAuthProtocol token
          (padding ++ [0x0c; 0x00] ++ offsetBin ++ hash));
        mret (pinUvAuthParam, pinUvAuthProtocol)
    end;
  b ← lift (Marshal (MLargeBlobs (MkLargeBlobsRequest getParam set offset length param protocol)));
  respRaw ← send AuthenticatorLargeBlobs b;
  match getParam with
  | Some _ => lift (Unmarshal_LargeBlobs (Data respRaw))
  | None => mret []
  end.

(** ** authenticatorConfig *)

(** The four subcommands differ in the subcommand byte and the parameters. *)
Definition config_authenticate (pinUvAuthProtocol : Z) (pinUvAuthToken : slice)
    (subCommand : Z) (bSubCommandParams : list Z) : M W (Z * list Z) :=
  match pinUvAuthToken with
  | None => mret (0, [])
  | Some token =>
      check_err (ValidateUvAuthToken fips_enabled pinUvAuthProtocol token);;
      pinUvAuthParam ← lift (Authenticate pinUvAuthProtocol token
        (padding ++ [0x0d; subCommand] ++ bSubCommandParams));
      mret (pinUvAuthProtocol, pinUvAuthParam)
  end.

Definition EnableEnterpriseAttestation (pinUvAuthProtocol : Z) (pinUvAuthToken : slice)
    : M W unit :=
  '(protocol, param) ← config_authenticate pinUvAuthProtocol pinUvAuthToken
    ConfigSubCommandEnableEnterpriseAttestation [];
  b ← lift (Marshal (MConfig (MkConfigRequest ConfigSubCommandEnableEnterpriseAttestation None
    protocol param)));
  send AuthenticatorConfig b;;
  mret tt.

Definition ToggleAlwaysUV (pinUvAuthProtocol : Z) (pinUvAuthToken : slice) : M W unit :=
  '(protocol, param) ← config_authenticate pinUvAuthProtocol pinUvAuthToken
    ConfigSubCommandToggleAlwaysUv [];
  b ← lift (Marshal (MConfig (MkConfigRequest ConfigSubCommandToggleAlwaysUv None
    protocol param)));
  send AuthenticatorConfig b;;
  mret tt.

Definition SetMinPINLength (pinUvAuthProtocol : Z) (pinUvAuthToken : slice)
    (params : SetMinPINLengthParams) : M W unit :=
  bSubCommandParams ← lift (Marshal (MConfigParams params));
  '(protocol, param) ← config_authenticate pinUvAuthProtocol pinUvAuthToken
    ConfigSubCommandSetMinPINLength bSubCommandParams;
  b ← lift (Marshal (MConfig (MkConfigRequest ConfigSubCommandSetMinPINLength (Some params)
    protocol param)));
  send AuthenticatorConfig b;;
  mret tt.

Definition EnableLongTouchForReset (pinUvAuthProtocol : Z) (pinUvAuthToken : slice) : M W unit :=
  '(protocol, param) ← config_authenticate pinUvAuthProtocol pinUvAuthToken
    ConfigSubCommandEnableLongTouchForReset [];
  b ← lift (Marshal (MConfig (MkConfigRequest ConfigSubCommandEnableLongTouchForReset None
    protocol param)));
  send AuthenticatorConfig b;;
  mret tt.
End Management.

(** ** What the authenticator verifies *)

(** The codec returns: it does not panic or block on a structure. *)
Class CodecLaws `{Codec} := {
  Marshal_returns m : (exists b, Marshal m = Ok b) \/ (exists e, Marshal m = Err e) }.

Section Authenticated.
Context `{PrimitiveLaws} `{CodecLaws} {W : Type}.
Context (fips_enabled : bool).
Context (transport : option (list Z -> M W CBORResponse)).
Context (emit : option (list Z -> CBORResponse + error -> M W unit)).

Definition bio_params_zero (p : BioEnrollmentSubCommandParams) : Prop :=
  bp_TemplateID p = None /\ TemplateFriendlyName p = None /\ TimeoutMilliseconds p = 0.
Definition cm_params_zero (p : CredentialManagementSubCommandParams) : Prop :=
  cmp_RPIDHash p = None /\ cmp_CredentialID p = zero_descriptor /\ cmp_User p = zero_user.

(** The encoding of subcommand parameters inside a request: zero
    parameters are left out (omitzero). *)
Definition params_bytes (zero : Prop) (params : message) (b : list Z) : Prop :=
  (zero /\ b = []) \/ (~ zero /\ Marshal params = Ok b).

(** The message the authenticator computes from a request it received
    (CTAP 2.1, sections 6.7, 6.8, 6.10 and 6.11), the protocol and the
    parameter it finds there. *)
Definition authenticated_message (r : message) (msg : list Z) (protocol : Z) (param : list Z)
    : Prop :=
  match r with
  | MBio r => exists ps, params_bytes (bio_params_zero (be_SubCommandParams r))
      (MBioParams (be_SubCommandParams r)) ps /\
      msg = [be_Modality r; be_SubCommand r] ++ ps /\
      protocol = be_PinUvAuthProtocol r /\ param = be_PinUvAuthParam r
  | MCredMgmt r => exists ps, params_bytes (cm_params_zero (cm_SubCommandParams r))
      (MCredMgmtParams (cm_SubCommandParams r)) ps /\
      msg = [cm_SubCommand r] ++ ps /\
      protocol = cm_PinUvAuthProtocol r /\ param = cm_PinUvAuthParam r
  | MLargeBlobs r =>
      msg = padding ++ [0x0c; 0x00] ++ put_le 4 (lb_Offset r) ++ sha256 (bytes_of (lb_Set r)) /\
      protocol = lb_PinUvAuthProtocol r /\ param = lb_PinUvAuthParam r
  | MConfig r => exists ps,
      match cfg_SubCommandParams r with
      | None => ps = []
      | Some params => Marshal (MConfigParams params) = Ok ps
      end /\
      msg = padding ++ [0x0d; cfg_SubCommand r] ++ ps /\
      protocol = cfg_PinUvAuthProtocol r /\ param = cfg_PinUvAuthParam r
  | _ => False
  end.

(** The calls a token authorises. *)
Inductive management :=
  | CEnrollBegin (timeoutMilliseconds : Z)
  | CEnrollCaptureNextSample (templateID : slice) (timeoutMilliseconds : Z)
  | CEnumerateEnrollments
  | CSetFriendlyName (templateID : slice) (friendlyName : string)
  | CRemoveEnrollment (templateID : slice)
  | CGetCredsMetadata
  | CDeleteCredential (credentialID : Descriptor)
  | CUpdateUserInformation (credentialID : Descriptor) (user : UserEntity)
  | CLargeBlobs (get : Z) (set : slice) (offset length : Z)
  | CEnableEnterpriseAttestation
  | CToggleAlwaysUV
  | CSetMinPINLength (params : SetMinPINLengthParams)
  | CEnableLongTouchForReset.

Definition discard {A} (m : M W A) : M W unit := m;; mret tt.

Definition run (preview : bool) (p : Z) (token : list Z) (c : management) : M W unit :=
  match c with
  | CEnrollBegin t => discard (EnrollBegin fips_enabled transport emit preview p token t)
  | CEnrollCaptureNextSample i t =>
      discard (EnrollCaptureNextSample fips_enabled transport emit preview p token i t)
  | CEnumerateEnrollments => discard (EnumerateEnrollments fips_enabled transport emit preview p token)
  | CSetFriendlyName i n => SetFriendlyName fips_enabled transport emit preview p token i n
  | CRemoveEnrollment i => RemoveEnrollment fips_enabled transport emit preview p token i
  | CGetCredsMetadata => discard (GetCredsMetadata fips_enabled transport emit preview p token)
  | CDeleteCredential d => DeleteCredential fips_enabled transport emit preview p token d
  | CUpdateUserInformation d u =>
      UpdateUserInformation fips_enabled transport emit preview p token d u
  | CLargeBlobs g s o l => discard (LargeBlobs fips_enabled transport emit p (Some token) g s o l)
  | CEnableEnterpriseAttestation => EnableEnterpriseAttestation fips_enabled transport emit p (Some token)
  | CToggleAlwaysUV => ToggleAlwaysUV fips_enabled transport emit p (Some token)
  | CSetMinPINLength ps => SetMinPINLength fips_enabled transport emit p (Some token) ps
  | CEnableLongTouchForReset => EnableLongTouchForReset fips_enabled transport emit p (Some token)
  end.

Definition command_of (preview : bool) (c : management) : Z :=
  match c with
  | CEnrollBegin _ | CEnrollCaptureNextSample _ _ | CEnumerateEnrollments
  | CSetFriendlyName _ _ | CRemoveEnrollment _ => bio_command preview
  | CGetCredsMetadata | CDeleteCredential _ | CUpdateUserInformation _ _ => cm_command preview
  | CLargeBlobs _ _ _ _ => AuthenticatorLargeBlobs
  | _ => AuthenticatorConfig
  end.

(** The arguments name something: a template, a credential, a 32-bit
    offset. *)
Definition arguments_present (c : management) : Prop :=
  match c with
  | CEnrollCaptureNextSample i _ | CRemoveEnrollment i => i <> None
  | CDeleteCredential d | CUpdateUserInformation d _ => d <> zero_descriptor
  | CLargeBlobs _ _ o _ => 0 <= o < 2 ^ 32
  | _ => True
  end.

(** One authenticated request is sent, and the response only read; or an
    error is returned before anything is sent. *)
Definition sends_authenticated (cmd p : Z) (token : list Z) {A} (m : M W A) (w : W) : Prop :=
  exists req b msg param (k : CBORResponse -> M W A),
    Marshal req = Ok b /\ authenticated_message req msg p param /\
    Authenticate p token msg = Ok param /\
    m w = (command_cbor transport emit cmd b ≫= k) w /\
    (forall resp w', (k resp w').2 = w').

Definition checked (cmd p : Z) (token : list Z) {A} (m : M W A) (w : W) : Prop :=
  (exists e, m w = (Err e, w)) \/ sends_authenticated cmd p token m w.

Context (p : Z) (token : list Z).

Lemma checked_discard {A} cmd (m : M W A) w :
  checked cmd p token m w -> checked cmd p token (discard m) w.
Proof.
  intros [[e He]|(req & b & msg & param & k & Hb & Hm & Ha & Hk & Hp)].
  - left. exists e. unfold discard. by rewrite (M_bind_Err _ _ _ _ _ He).
  - right. exists req, b, msg, param, (fun resp => discard (k resp)). split_and!; try done.
    + transitivity (discard (command_cbor transport emit cmd b ≫= k) w).
      { unfold discard, mbind, M_bind. unfold mbind, M_bind in Hk. by rewrite Hk. }
      apply M_bind_assoc.
    + intros resp w'. specialize (Hp resp w'). unfold discard, mbind, M_bind.
      by destruct (k resp w') as [[] ?].
Qed.

Lemma checked_marshal {A} cmd req (f : list Z -> M W A) w :
  (forall b, Marshal req = Ok b -> checked cmd p token (f b) w) ->
  checked cmd p token (lift (Marshal req) ≫= f) w.
Proof.
  intros Hf. destruct (Marshal_returns req) as [[b Hb]|[e He]].
  - rewrite Hb. by apply Hf.
  - rewrite He. left. by exists e.
Qed.

Lemma checked_send {A} cmd req b msg param (k : CBORResponse -> M W A) w :
  Marshal req = Ok b -> authenticated_message req msg p param ->
  Authenticate p token msg = Ok param -> (forall resp w', (k resp w').2 = w') ->
  checked cmd p token (command_cbor transport emit cmd b ≫= k) w.
Proof. intros. right. by exists req, b, msg, param, k. Qed.

Hypothesis (Hv : ValidateUvAuthToken fips_enabled p token = None).

Lemma checked_check {A} cmd (f : unit -> M W A) w :
  checked cmd p token (f tt) w ->
  checked cmd p token (check_err (ValidateUvAuthToken fips_enabled p token) ≫= f) w.
Proof using Type*. by rewrite Hv. Qed.

Lemma checked_auth {A} cmd msg (f : list Z -> M W A) w :
  (forall param, Authenticate p token msg = Ok param -> checked cmd p token (f param) w) ->
  checked cmd p token (lift (Authenticate p token msg) ≫= f) w.
Proof using Type*.
  intros Hf. destruct (authenticate_total fips_enabled p token msg Hv) as (param & Ha & _).
  rewrite Ha. by apply Hf.
Qed.

Lemma checked_config {A} cmd subCommand ps (f : Z * list Z -> M W A) w :
  (forall param, Authenticate p token (padding ++ [0x0d; subCommand] ++ ps) = Ok param ->
     checked cmd p token (f (p, param)) w) ->
  checked cmd p token (config_authenticate fips_enabled p (Some token) subCommand ps ≫= f) w.
Proof using Type*.
  intros Hf.
  destruct (authenticate_total fips_enabled p token (padding ++ [0x0d; subCommand] ++ ps) Hv)
    as (param & Ha & _).
  unfold config_authenticate. rewrite Hv. rewrite Ha. by apply Hf.
Qed.

Ltac authenticated_op :=
  repeat first
    [ apply checked_check | apply checked_marshal; intros ? ?
    | apply checked_auth; intros ? ? | apply checked_config; intros ? ? ];
  eapply checked_send; [eassumption | | eassumption | try done].

Lemma bio_params_present params b :
  ~ bio_params_zero params -> Marshal (MBioParams params) = Ok b ->
  params_bytes (bio_params_zero params) (MBioParams params) b.
Proof. by right. Qed.

Lemma bio_checked preview c w :
  command_of preview c = bio_command preview -> arguments_present c ->
  checked (bio_command preview) p token (run preview p token c) w.
Proof using Type*.
  intros Hc Hargs. destruct c; try (destruct preview; discriminate Hc); cbn [run].
  - apply checked_discard. unfold EnrollBegin. apply checked_check, checked_marshal. intros ps Hps.
    authenticated_op. cbn.
    eexists. split; [|done]. cbn. destruct (Z.eqb_spec timeoutMilliseconds 0) as [->|Ht].
    + left. by split; [|].
    + right. split; [|done]. unfold bio_params_zero. cbn. naive_solver.
  - apply checked_discard. unfold EnrollCaptureNextSample.
    authenticated_op. cbn. eexists. split; [|done].
    apply bio_params_present; [|done]. unfold bio_params_zero. cbn in *. naive_solver.
  - apply checked_discard. unfold EnumerateEnrollments.
    authenticated_op. cbn. exists []. split; [|done]. by left.
  - unfold SetFriendlyName. authenticated_op. cbn. eexists. split; [|done].
    apply bio_params_present; [|done]. unfold bio_params_zero. cbn in *. naive_solver.
  - unfold RemoveEnrollment. authenticated_op. cbn. eexists. split; [|done].
    apply bio_params_present; [|done]. unfold bio_params_zero. cbn in *. naive_solver.
Qed.

Lemma cm_checked preview c w :
  command_of preview c = cm_command preview -> arguments_present c ->
  checked (cm_command preview) p token (run preview p token c) w.
Proof using Type*.
  intros Hc Hargs. destruct c; try (destruct preview; discriminate Hc); cbn [run].
  - apply checked_discard. unfold GetCredsMetadata. authenticated_op. cbn. exists [].
    split; [|done]. by left.
  - unfold DeleteCredential. authenticated_op. cbn. eexists. split; [|done]. right.
    split; [|done]. intros (_ & Hd & _). by apply Hargs.
  - unfold UpdateUserInformation. authenticated_op. cbn. eexists. split; [|done]. right.
    split; [|done]. intros (_ & Hd & _). by apply Hargs.
Qed.

Lemma config_checked preview c w :
  command_of preview c = AuthenticatorConfig ->
  checked AuthenticatorConfig p token (run preview p token c) w.
Proof using Type*.
  intros Hc. destruct c; try (destruct preview; discriminate Hc); cbn [run].
  - unfold EnableEnterpriseAttestation. authenticated_op. cbn. by exists [].
  - unfold ToggleAlwaysUV. authenticated_op. cbn. by exists [].
  - unfold SetMinPINLength. authenticated_op. cbn. eexists. split; [eassumption|done].
  - unfold EnableLongTouchForReset. authenticated_op. cbn. by exists [].
Qed.

Lemma large_blobs_checked get set offset length w :
  0 <= offset < 2 ^ 32 ->
  checked AuthenticatorLargeBlobs p token
    (LargeBlobs fips_enabled transport emit p (Some token) get set offset length) w.
Proof using Type*.
  intros Ho. unfold LargeBlobs.
  destruct (authenticate_total fips_enabled p token
    (padding ++ [0x0c; 0x00] ++ put_le 4 (u32 offset) ++ sha256 (bytes_of set)) Hv) as (param & Ha & _).
  rewrite Hv, Ha. apply (checked_marshal _ (MLargeBlobs (MkLargeBlobsRequest _ _ _ _ _ _))).
  intros b Hb. eapply checked_send; [exact Hb| |exact Ha|].
  - unfold u32. by rewrite Z.mod_small.
  - intros resp w'. by destruct (bool_decide _ || negb _).
Qed.

Lemma all_checked preview c w :
  arguments_present c -> checked (command_of preview c) p token (run preview p token c) w.
Proof using Type*.
  intros Hargs.
  destruct c; first
    [ by apply (bio_checked preview) | by apply (cm_checked preview)
    | by apply (config_checked preview) | by apply checked_discard, large_blobs_checked ].
Qed.
End Authenticated.

Section Properties.
Context `{PrimitiveLaws} `{CodecLaws} {W : Type}.
Context (fips_enabled : bool).
Context (transport : option (list Z -> M W CBORResponse)).
Context (emit : option (list Z -> CBORResponse + error -> M W unit)).

Lemma invalid_token_rejected preview p token c w e :
  ValidateUvAuthToken fips_enabled p token = Some e ->
  exists e', run fips_enabled transport emit preview p token c w = (Err e', w).
Proof using Type*.
  intros Hv. destruct c; cbn [run];
    unfold discard, EnrollBegin, EnrollCaptureNextSample, EnumerateEnrollments, SetFriendlyName,
      RemoveEnrollment, GetCredsMetadata, DeleteCredential, UpdateUserInformation, LargeBlobs,
      EnableEnterpriseAttestation, ToggleAlwaysUV, SetMinPINLength, EnableLongTouchForReset,
      config_authenticate;
    rewrite ?Hv; try by exists e.
  destruct (Marshal_returns (MConfigParams params)) as [[b ->]|[e' ->]]; by eexists.
Qed.

(** C8. Every management call with a valid token sends exactly one request,
    of its command, whose PIN/UV auth parameter the authenticator accepts:
    it is the token's over the message the authenticator computes from the
    request it receives - the modality, subcommand and parameters of a
    biometric or credential management request, the padded command, offset
    and digest of a large-blob write, the padded command, subcommand and
    parameters of a configuration request - or returns an error with
    nothing sent. An invalid token is rejected before anything is sent. *)
Theorem management_authenticated preview p token c w :
  arguments_present c ->
  match ValidateUvAuthToken fips_enabled p token with
  | None => checked transport emit (command_of preview c) p token
              (run fips_enabled transport emit preview p token c) w
  | Some _ => exists e, run fips_enabled transport emit preview p token c w = (Err e, w)
  end.
Proof using Type*.
  intros Hargs. destruct (ValidateUvAuthToken fips_enabled p token) as [e|] eqn:Hv.
  - by eapply invalid_token_rejected.
  - by apply (all_checked fips_enabled).
Qed.
End Properties.

(** *** A sample codec

    Every message is encoded by its first members, every response decodes to
    a fixed one: enough to run the calls on. *)
Definition sample_message_bytes (m : message) : list Z :=
  match m with
  | MClientPIN r => [6; cp_SubCommand r; cp_PinUvAuthProtocol r]
  | MBio r => [9; be_SubCommand r] ++ be_PinUvAuthParam r
  | MBioParams q => 9 :: bytes_of (bp_TemplateID q)
  | MCredMgmt r => [10; cm_SubCommand r] ++ cm_PinUvAuthParam r
  | MCredMgmtParams q => 10 :: bytes_of (cmp_RPIDHash q)
  | MLargeBlobs r => [12; lb_Offset r; lb_Length r] ++ bytes_of (lb_Set r)
  | MConfig r => [13; cfg_SubCommand r] ++ cfg_PinUvAuthParam r
  | MConfigParams q => [13; default 0 (NewMinPINLength q)]
  | MMakeCredential r => 1 :: mc_ClientDataHash r
  | MGetAssertion r => 2 :: ga_ClientDataHash r
  end.

Definition sample_cm_response (rps : Z) : CredentialManagementResponse :=
  MkCMResponse None None (MkRpEntity "" "") [] rps zero_user zero_descriptor None rps 0 [] None.

#[export] Instance sample_codec : Codec := {|
  Any := Z;
  Marshal m := Ok (sample_message_bytes m);
  Unmarshal_ClientPIN b := Ok (Some (MkClientPINResponse None b (head b) None (head b)));
  Unmarshal_Bio b := Ok (MkBioEnrollmentResponse 1 1 None b None None [] None);
  Unmarshal_CredMgmt b := Ok (sample_cm_response (nth 0 b 0));
  Unmarshal_LargeBlobs b := Ok b;
  Unmarshal_Info b := Ok (sample_info [] ∅ b);
  Unmarshal_MakeCredential b := Ok (MkMakeCredentialResponse "none" b None ∅ false [] ∅);
  Unmarshal_GetAssertion b :=
    Ok (MkGetAssertionResponse zero_descriptor (zeros 37) None [] None (nth 0 b 0) false [] ∅);
  decode_cose_key b := Err io_EOF;
  decode_any_map b := Err io_EOF;
  Decode_CreateExtensionOutputs b := Err io_EOF;
  Decode_GetExtensionOutputs b := Err io_EOF;
  remarshal_supported a := Ok (a =? 1);
  remarshal_GetLargeBlobOutput a := Err io_EOF;
  remarshal_AttestationObject a := Ok None;
  Marshal_LargeBlobArray l := Ok [0x80];
  Unmarshal_LargeBlobArray b := Ok [] |}.

#[export] Instance sample_codec_laws : CodecLaws.
Proof. split. intros m. left. by eexists. Qed.

(** A transport that records what is sent and answers with fixed bytes. *)
Definition recording (answer : list Z) : list Z -> M (list (list Z)) CBORResponse :=
  fun data log => (Ok (MkCBORResponse CTAP2_OK answer), log ++ [data]).

Lemma management_authenticated_witness :
  checked (H1 := sample_codec) (Some (recording [])) None AuthenticatorCredentialManagement 2 (zeros 32)
    (run (H1 := sample_codec) true (Some (recording [])) None false 2 (zeros 32) CGetCredsMetadata) [].
Proof.
  exact (management_authenticated true (Some (recording [])) None false 2 (zeros 32)
    CGetCredsMetadata [] I).
Defined.
