(* ===== verification/PinSession.v ===== *)
(** * The PIN commands against an authenticator (CTAP 2.1, section 6.5.5)

    A specification of what an authenticator does with the ClientPIN
    commands the client sends - decapsulate, verify, decrypt, compare the
    PIN hash - as a transport function over the authenticator's state, and
    the theorem that the client's [SetPIN], [ChangePIN], [GetPinToken] and
    [GetPinUvAuthTokenUsingPinWithPermissions] are understood by it: the PIN
    set is the PIN asked for, and the token obtained is the authenticator's. *)
From S2P Require Import Prelude GoError Transport Protocol Pin Preflight Cose Crypto Messages Client.

(** ** The authenticator *)

(** The authenticator's side of the codec. *)
Class WireLaws `{Codec} := {
  read_request : list Z -> option message;
  write_ClientPIN : ClientPINResponse -> list Z;
  Marshal_total r : exists b, Marshal (MClientPIN r) = Ok b /\
    read_request b = Some (MClientPIN r);
  Unmarshal_write r : Unmarshal_ClientPIN (write_ClientPIN r) = Ok (Some r) }.

Definition CTAP2_ERR_PIN_INVALID : Z := 0x31.
Definition CTAP2_ERR_PIN_NOT_SET : Z := 0x35.
Definition CTAP2_ERR_MISSING_PARAMETER : Z := 0x14.

Section Authenticator.
Context `{Primitives} `{WireLaws}.

Record authenticator := Authenticator {
  au_key : PrivateKey;
  au_pin : option (list Z);   (* the stored PIN hash *)
  au_token : list Z;
  au_iv : list Z;             (* the IV of its next encryption *)
  au_retries : Z }.

Definition with_pin (st : authenticator) (pin : option (list Z)) : authenticator :=
  Authenticator (au_key st) pin (au_token st) (au_iv st) (au_retries st).
Definition with_retries (st : authenticator) (n : Z) : authenticator :=
  Authenticator (au_key st) (au_pin st) (au_token st) (au_iv st) n.

(** A PIN without its padding. *)
Fixpoint drop_zeros (l : list Z) : list Z :=
  match l with
  | b :: l' => if b =? 0 then drop_zeros l' else l
  | [] => []
  end.
Definition strip_zeros (l : list Z) : list Z := reverse (drop_zeros (reverse l)).

Definition pin_hash (pin : list Z) : list Z := take 16 (sha256 pin).

(** A command's answer: a status and a new state; [None] where a
    cryptographic step fails. *)
Definition answer : Type := option (Z * list Z * authenticator).

Definition get_ok {A} (r : result A) : option A :=
  match r with Ok a => Some a | _ => None end.

Definition authenticator_protocol (st : authenticator) (r : ClientPINRequest)
    : PinUvAuthProtocol :=
  PinUvAuth (cp_PinUvAuthProtocol r) (au_key st) None.

(** decapsulate and verify, then the command. *)
Definition decapsulate (st : authenticator) (r : ClientPINRequest) : option (list Z) :=
  get_ok (ECDH (authenticator_protocol st r) (cp_KeyAgreement r)).

Definition verified (r : ClientPINRequest) (ss msg : list Z) : bool :=
  match Authenticate (cp_PinUvAuthProtocol r) ss msg with
  | Ok param => bool_decide (param = cp_PinUvAuthParam r)
  | _ => false
  end.

Definition store_new_pin (st : authenticator) (r : ClientPINRequest) (ss : list Z) : answer :=
  padded ← get_ok (Decrypt (authenticator_protocol st r) ss (cp_NewPinEnc r));
  if negb (len padded =? 64) then Some (CTAP1_ERR_INVALID_PARAMETER, [], st)
  else
    let pin := strip_zeros padded in
    if RuneCountInString pin <? 4 then Some (CTAP2_ERR_PIN_POLICY_VIOLATION, [], st)
    else Some (CTAP2_OK, [], with_pin st (Some (pin_hash pin))).

Definition matches_pin (st : authenticator) (r : ClientPINRequest) (ss : list Z) : option bool :=
  h ← get_ok (Decrypt (authenticator_protocol st r) ss (cp_PinHashEnc r));
  Some (bool_decide (au_pin st = Some h)).

Definition handle_client_pin (r : ClientPINRequest) (st : authenticator) : answer :=
  ss ← decapsulate st r;
  if cp_SubCommand r =? ClientPINSubCommandSetPIN then
    if bool_decide (is_Some (au_pin st)) || negb (verified r ss (cp_NewPinEnc r)) then
      Some (CTAP2_ERR_PIN_AUTH_INVALID, [], st)
    else store_new_pin st r ss
  else
    match au_pin st with
    | None => Some (CTAP2_ERR_PIN_NOT_SET, [], st)
    | Some _ =>
        if cp_SubCommand r =? ClientPINSubCommandChangePIN then
          if negb (verified r ss (cp_NewPinEnc r ++ cp_PinHashEnc r)) then
            Some (CTAP2_ERR_PIN_AUTH_INVALID, [], st)
          else
            ok ← matches_pin st r ss;
            if negb ok then Some (CTAP2_ERR_PIN_INVALID, [], with_retries st (au_retries st - 1))
            else store_new_pin st r ss
        else if bool_decide (cp_SubCommand r ∈
            [ClientPINSubCommandGetPinToken;
             ClientPINSubCommandGetPinUvAuthTokenUsingPinWithPermissions]) then
          ok ← matches_pin st r ss;
          if negb ok then Some (CTAP2_ERR_PIN_INVALID, [], with_retries st (au_retries st - 1))
          else
            token ← get_ok (Encrypt (authenticator_protocol st r) (au_iv st) ss (au_token st));
            Some (CTAP2_OK, write_ClientPIN (MkClientPINResponse None token None None None), st)
        else Some (CTAP1_ERR_INVALID_COMMAND, [], st)
    end.

(** The transport: requests that are not ClientPIN commands, and failed
    decryptions, get an error status. *)
Definition authenticator_transport (data : list Z) : M authenticator CBORResponse := fun st =>
  let '(status, body, st') :=
    match data with
    | command :: b =>
        match read_request b with
        | Some (MClientPIN r) =>
            if command =? AuthenticatorClientPIN then
              default (CTAP1_ERR_INVALID_PARAMETER, [], st) (handle_client_pin r st)
            else (CTAP1_ERR_INVALID_COMMAND, [], st)
        | _ => (CTAP2_ERR_MISSING_PARAMETER, [], st)
        end
    | [] => (CTAP1_ERR_INVALID_COMMAND, [], st)
    end in
  (ValidateCBORResponse AuthenticatorClientPIN (MkCBORResponse status body), st').
End Authenticator.

(** ** Padding *)

Lemma drop_zeros_app n l : drop_zeros (zeros n ++ l) = drop_zeros l.
Proof. unfold zeros. induction n as [|n IH]; [done|]. exact IH. Qed.

Lemma strip_zeros_pad pin n : last pin <> Some 0 -> strip_zeros (pin ++ zeros n) = pin.
Proof.
  intros Hl. unfold strip_zeros. rewrite reverse_app.
  assert (Hz : reverse (zeros n) = zeros n) by apply reverse_replicate.
  rewrite Hz, drop_zeros_app. destruct pin as [|b pin _] using rev_ind; [done|].
  rewrite last_snoc in Hl. assert (Hb : (b =? 0) = false) by (apply Z.eqb_neq; congruence).
  rewrite reverse_snoc. cbn [drop_zeros]. by rewrite Hb, <- reverse_snoc, reverse_involutive.
Qed.

(** ** The session *)

Section Session.
Context `{PrimitiveLaws} `{WireLaws}.
Context (fips_enabled : bool) (NFC : list Z -> list Z).
Context (NFC_bytes : forall s, Forall is_byte (NFC s)).

#[local] Abbreviation transport := (Some authenticator_transport).

(** What a client call is given: the authenticator's key agreement key,
    fresh random bytes and a protocol the policy accepts. *)
Context (number : Z) (Hnumber : acceptable fips_enabled number).
Context (key : PrivateKey) (iv iv2 : list Z) (Hiv : block iv) (Hiv2 : block iv2).

Definition well_formed_state (st : authenticator) : Prop :=
  au_token st <> [] /\ len (au_token st) mod 16 = 0 /\ Forall is_byte (au_token st) /\
  block (au_iv st).

Definition agreement_key (st : authenticator) : Key := KeyFromP256PublicKey (public_key (au_key st)).

Definition accepted (pin v : list Z) : Prop :=
  NormalizeAndValidate NFC pin DefaultMinPINCodePoints = Ok v.

Lemma accepted_spec pin v : accepted pin v ->
  Forall is_byte v /\ 4 <= RuneCountInString v /\ len v <= 63 /\ last v <> Some 0.
Proof using NFC_bytes.
  intros Ha. apply (proj2 (NormalizeAndValidate_spec NFC pin DefaultMinPINCodePoints)) in Ha
    as (-> & Hr & Hl & Hz). unfold DefaultMinPINCodePoints, maxUTF8Bytes in *. by split_and!.
Qed.

Lemma number_cases : number = PinUvAuthProtocolOne \/ number = PinUvAuthProtocolTwo.
Proof using Hnumber. destruct Hnumber as [->|[-> _]]; auto. Qed.

Definition platform : PinUvAuthProtocol :=
  PinUvAuth number key (KeyFromP256PublicKey (public_key key)).

Lemma NewPinUvAuthProtocol_ok : NewPinUvAuthProtocol fips_enabled key number = Ok platform.
Proof using Hnumber.
  assert (Hv : ValidateFIPS140UvAuthProtocol fips_enabled number = None).
  { unfold ValidateFIPS140UvAuthProtocol. destruct Hnumber as [Hn|[_ Hf]].
    - rewrite Hn, Z.eqb_refl. by rewrite orb_true_r.
    - by rewrite Hf. }
  unfold NewPinUvAuthProtocol. by rewrite Hv.
Qed.

(** The padded PIN. *)
Definition padded_pin (v : list Z) : list Z := take 64 v ++ zeros (64 - length v).

Lemma padded_pin_spec v : Forall is_byte v -> len v <= 63 ->
  padded_pin v = v ++ zeros (64 - length v) /\ len (padded_pin v) = 64 /\
  Forall is_byte (padded_pin v) /\ padded_pin v <> [].
Proof using.
  intros Hb Hl. unfold padded_pin. assert (length v <= 63)%nat by (unfold len in Hl; lia).
  rewrite take_ge by lia.
  assert (Hlen : len (v ++ zeros (64 - length v)) = 64).
  { unfold len. rewrite length_app. unfold zeros. rewrite length_replicate. lia. }
  split_and!; try done.
  - apply Forall_app. split; [done|apply zeros_bytes].
  - intros He. by rewrite He in Hlen.
Qed.

Lemma pin_hash_spec v : len (pin_hash v) = 16 /\ Forall is_byte (pin_hash v) /\ pin_hash v <> [].
Proof using Type*.
  unfold pin_hash. destruct (sha256_bytes v) as [Hl Hb].
  assert (Hlen : len (take 16 (sha256 v)) = 16) by (rewrite len_take, Hl; done).
  split_and!; [done|by apply Forall_take|]. intros He. by rewrite He in Hlen.
Qed.

(** The authenticator's protocol object for a request of the platform. *)
Definition peer (st : authenticator) : PinUvAuthProtocol := PinUvAuth number (au_key st) None.

(** The secret both sides share. *)
Lemma session_secret st :
  exists ss, Encapsulate platform (agreement_key st) = Ok (KeyFromP256PublicKey (public_key key), ss) /\
    ECDH (peer st) (KeyFromP256PublicKey (public_key key)) = Ok ss /\
    len ss = secret_length number.
Proof using Type*.
  exact (shared_secret_agrees fips_enabled key (au_key st) number platform (peer st)
    NewPinUvAuthProtocol_ok number_cases eq_refl eq_refl).
Qed.

Lemma session_encrypt st iv' ss pt :
  block iv' -> len ss = secret_length number -> pt <> [] -> len pt mod 16 = 0 ->
  Forall is_byte pt ->
  exists ct, Encrypt platform iv' ss pt = Ok ct /\ Decrypt (peer st) ss ct = Ok pt.
Proof using Type*.
  intros Hi Hs Hne Hm Hb.
  destruct (encrypt_decrypt platform (peer st) iv' ss pt number_cases eq_refl Hs Hi Hne Hm Hb)
    as (ct & He & Hd & _). by exists ct.
Qed.

Lemma session_authenticate ss msg :
  len ss = secret_length number -> exists param, Authenticate number ss msg = Ok param.
Proof using Hnumber.
  unfold Authenticate, secret_length. destruct number_cases as [-> | ->]; cbn; [eauto|].
  intros Hs. unfold ProtocolTwo.Authenticate. rewrite Hs. eauto.
Qed.

(** A request read back by the authenticator. *)
Lemma transport_request r b st :
  read_request b = Some (MClientPIN r) ->
  authenticator_transport (AuthenticatorClientPIN :: b) st =
    let '(status, body, st') := default (CTAP1_ERR_INVALID_PARAMETER, [], st) (handle_client_pin r st) in
    (ValidateCBORResponse AuthenticatorClientPIN (MkCBORResponse status body), st').
Proof using. intros Hr. unfold authenticator_transport. by rewrite Hr. Qed.

(** Storing a padded PIN the client accepted. *)
Lemma store_accepted st r ss pin v :
  accepted pin v -> authenticator_protocol st r = peer st ->
  Decrypt (peer st) ss (cp_NewPinEnc r) = Ok (padded_pin v) ->
  store_new_pin st r ss = Some (CTAP2_OK, [], with_pin st (Some (pin_hash v))).
Proof using NFC_bytes.
  intros Ha Hp Hd. destruct (accepted_spec _ _ Ha) as (Hb & Hr & Hl & Hz).
  destruct (padded_pin_spec v Hb Hl) as (He & Hlen & _ & _).
  unfold store_new_pin. rewrite Hp, Hd. cbn [get_ok mbind option_bind]. rewrite Hlen.
  cbn [Z.eqb Pos.eqb negb]. rewrite He, strip_zeros_pad by done.
  by rewrite (proj2 (Z.ltb_ge _ _)) by lia.
Qed.

Lemma verified_true r ss msg :
  Authenticate (cp_PinUvAuthProtocol r) ss msg = Ok (cp_PinUvAuthParam r) ->
  verified r ss msg = true.
Proof using. unfold verified. intros ->. by apply bool_decide_eq_true. Qed.

Lemma set_pin_session st pin v :
  accepted pin v -> au_pin st = None ->
  SetPIN fips_enabled NFC transport None key iv number (agreement_key st) pin st =
    (Ok tt, with_pin st (Some (pin_hash v))).
Proof using Type*.
  intros Ha Hnone. destruct (accepted_spec _ _ Ha) as (Hb & _ & Hl & _).
  destruct (padded_pin_spec v Hb Hl) as (_ & Hlen & Hpb & Hpne).
  destruct (session_secret st) as (ss & Henc & Hdec & Hss).
  destruct (session_encrypt st iv ss (padded_pin v)) as (ct & Hct & Hpt); try done.
  { by rewrite Hlen. }
  destruct (session_authenticate ss ct Hss) as (param & Hparam).
  pose (r := MkClientPINRequest number ClientPINSubCommandSetPIN
    (KeyFromP256PublicKey (public_key key)) param ct [] 0 "").
  destruct (Marshal_total r) as (b & Hmar & Hread).
  assert (Hh : handle_client_pin r st = Some (CTAP2_OK, [], with_pin st (Some (pin_hash v)))).
  { unfold handle_client_pin, decapsulate. change (authenticator_protocol st r) with (peer st).
    change (cp_KeyAgreement r) with (KeyFromP256PublicKey (public_key key)). rewrite Hdec, Hnone.
    cbn [get_ok mbind option_bind]. rewrite (verified_true r ss (cp_NewPinEnc r)) by exact Hparam.
    by apply (store_accepted _ _ _ _ _ Ha). }
  unfold SetPIN. rewrite (lift_bind _ _ _ _ Ha), (lift_bind _ _ _ _ NewPinUvAuthProtocol_ok).
  rewrite (lift_bind _ _ _ _ Henc). cbv beta iota.
  unfold encryptNewPIN. rewrite (lift_bind _ _ _ _ Hct), (lift_bind _ _ _ _ Hparam).
  change (Number platform) with number. rewrite (lift_bind _ _ _ _ Hmar).
  pose proof (transport_request r b st Hread) as Ht. rewrite Hh in Ht.
  unfold command_cbor, cbor, exchange. by rewrite (M_bind_Ok _ _ _ _ _ Ht).
Qed.

(** The PIN hash as the authenticator decrypts it. *)
Lemma session_pin_hash st ss v :
  len ss = secret_length number ->
  exists ct, encryptPINHash platform iv ss v = Ok ct /\
    Decrypt (peer st) ss ct = Ok (pin_hash v).
Proof using Type*.
  intros Hss. destruct (pin_hash_spec v) as (Hl & Hb & Hne).
  apply session_encrypt; try done. by rewrite Hl.
Qed.

Lemma matches_pin_hash st r ss h :
  authenticator_protocol st r = peer st -> Decrypt (peer st) ss (cp_PinHashEnc r) = Ok h ->
  matches_pin st r ss = Some (bool_decide (au_pin st = Some h)).
Proof using. unfold matches_pin. by intros -> ->. Qed.

(** The token request the two token commands send. *)
Definition token_request (subCommand : Z) (ct : list Z) (permissions : Z) (rpID : string)
    : ClientPINRequest :=
  MkClientPINRequest number subCommand (KeyFromP256PublicKey (public_key key)) [] [] ct permissions rpID.

Definition token_subcommand (c : Z) : Prop :=
  c = ClientPINSubCommandGetPinToken \/
  c = ClientPINSubCommandGetPinUvAuthTokenUsingPinWithPermissions.

Lemma handle_token st ss ct h stored c permissions rpID :
  token_subcommand c ->
  ECDH (peer st) (KeyFromP256PublicKey (public_key key)) = Ok ss ->
  Decrypt (peer st) ss ct = Ok h -> au_pin st = Some stored ->
  handle_client_pin (token_request c ct permissions rpID) st =
    if bool_decide (stored = h) then
      token ← get_ok (Encrypt (peer st) (au_iv st) ss (au_token st));
      Some (CTAP2_OK, write_ClientPIN (MkClientPINResponse None token None None None), st)
    else Some (CTAP2_ERR_PIN_INVALID, [], with_retries st (au_retries st - 1)).
Proof using.
  intros Hc Hdec Hd Hst. unfold handle_client_pin, decapsulate.
  set (r := token_request c ct permissions rpID).
  change (authenticator_protocol st r) with (peer st).
  change (cp_KeyAgreement r) with (KeyFromP256PublicKey (public_key key)). rewrite Hdec, Hst.
  cbn [get_ok mbind option_bind]. rewrite (matches_pin_hash st r ss h) by done.
  rewrite Hst. change (cp_SubCommand r) with c.
  assert (Hb : bool_decide (Some stored = Some h) = bool_decide (stored = h))
    by (apply bool_decide_ext; naive_solver).
  rewrite Hb. by destruct Hc as [-> | ->]; cbn; destruct (bool_decide (stored = h)).
Qed.

(** The common end of the two token commands: request, response, token. *)
Lemma token_exchange st ss ct v stored c permissions rpID :
  well_formed_state st -> token_subcommand c -> len ss = secret_length number ->
  ECDH (peer st) (KeyFromP256PublicKey (public_key key)) = Ok ss ->
  Decrypt (peer st) ss ct = Ok (pin_hash v) -> au_pin st = Some stored ->
  (b ← lift (Marshal (MClientPIN (token_request c ct permissions rpID)));
   respRaw ← command_cbor transport None AuthenticatorClientPIN b;
   resp ← lift (Unmarshal_ClientPIN (Data respRaw));
   resp ← deref resp;
   lift (Decrypt platform ss (r_PinUvAuthToken resp))) st =
  if bool_decide (stored = pin_hash v) then (Ok (au_token st), st)
  else (Err (ECTAP AuthenticatorClientPIN CTAP2_ERR_PIN_INVALID),
        with_retries st (au_retries st - 1)).
Proof using Type*.
  intros (Hne & Hm & Hb & Hi) Hc Hss Hdec Hd Hst.
  destruct (Marshal_total (token_request c ct permissions rpID)) as (b & Hmar & Hread).
  rewrite (lift_bind _ _ _ _ Hmar).
  pose proof (transport_request _ _ st Hread) as Ht.
  rewrite (handle_token st ss ct (pin_hash v) stored) in Ht by done.
  unfold command_cbor, cbor, exchange. case_bool_decide.
  - destruct (encrypt_decrypt (peer st) platform (au_iv st) ss (au_token st) number_cases eq_refl Hss
      Hi Hne Hm Hb) as (et & He & Hdt & _).
    rewrite He in Ht. rewrite (M_bind_Ok _ _ _ _ _ Ht). cbn [Data].
    rewrite (lift_bind _ _ _ _ (Unmarshal_write _)). unfold mbind, M_bind, deref, mret, M_ret. cbn.
    by rewrite Hdt.
  - by rewrite (M_bind_Err _ _ _ _ _ Ht).
Qed.

Lemma token_session st pin v stored permissions rpID (legacy : bool) :
  well_formed_state st -> accepted pin v -> au_pin st = Some stored ->
  (if legacy then GetPinToken fips_enabled NFC transport None key iv number (agreement_key st) pin
   else GetPinUvAuthTokenUsingPinWithPermissions fips_enabled NFC transport None key iv number
          (agreement_key st) pin permissions rpID) st =
  if bool_decide (stored = pin_hash v) then (Ok (au_token st), st)
  else (Err (ECTAP AuthenticatorClientPIN CTAP2_ERR_PIN_INVALID),
        with_retries st (au_retries st - 1)).
Proof using Type*.
  intros Hw Ha Hst. destruct (session_secret st) as (ss & Henc & Hdec & Hss).
  destruct (session_pin_hash st ss v Hss) as (ct & Hct & Hd).
  destruct legacy.
  - unfold GetPinToken. rewrite (lift_bind _ _ _ _ Ha), (lift_bind _ _ _ _ NewPinUvAuthProtocol_ok).
    rewrite (lift_bind _ _ _ _ Henc). cbv beta iota. rewrite (lift_bind _ _ _ _ Hct).
    apply (token_exchange st ss ct v stored _ 0 "" Hw); try done. by left.
  - unfold GetPinUvAuthTokenUsingPinWithPermissions.
    rewrite (lift_bind _ _ _ _ Ha), (lift_bind _ _ _ _ NewPinUvAuthProtocol_ok).
    rewrite (lift_bind _ _ _ _ Henc). cbv beta iota. rewrite (lift_bind _ _ _ _ Hct).
    apply (token_exchange st ss ct v stored _ permissions rpID Hw); try done. by right.
Qed.

(** The change request of the platform. *)
Definition change_request (param new_ct hash_ct : list Z) : ClientPINRequest :=
  MkClientPINRequest number ClientPINSubCommandChangePIN
    (KeyFromP256PublicKey (public_key key)) param new_ct hash_ct 0 "".

Lemma handle_change st ss param new_ct hash_ct h stored pin v :
  accepted pin v ->
  ECDH (peer st) (KeyFromP256PublicKey (public_key key)) = Ok ss ->
  Authenticate number ss (new_ct ++ hash_ct) = Ok param ->
  Decrypt (peer st) ss hash_ct = Ok h -> Decrypt (peer st) ss new_ct = Ok (padded_pin v) ->
  au_pin st = Some stored ->
  handle_client_pin (change_request param new_ct hash_ct) st =
    if bool_decide (stored = h) then Some (CTAP2_OK, [], with_pin st (Some (pin_hash v)))
    else Some (CTAP2_ERR_PIN_INVALID, [], with_retries st (au_retries st - 1)).
Proof using NFC_bytes.
  intros Ha Hdec Hauth Hh Hd Hst. unfold handle_client_pin, decapsulate.
  set (r := change_request param new_ct hash_ct).
  change (authenticator_protocol st r) with (peer st).
  change (cp_KeyAgreement r) with (KeyFromP256PublicKey (public_key key)). rewrite Hdec, Hst.
  cbn [get_ok mbind option_bind].
  rewrite (verified_true r ss (cp_NewPinEnc r ++ cp_PinHashEnc r)) by exact Hauth.
  rewrite (matches_pin_hash st r ss h) by done. rewrite Hst.
  rewrite (store_accepted st r ss pin v Ha) by done.
  assert (Hb : bool_decide (Some stored = Some h) = bool_decide (stored = h))
    by (apply bool_decide_ext; naive_solver).
  rewrite Hb. by destruct (bool_decide (stored = h)).
Qed.

Lemma change_pin_session st current new v w stored :
  accepted current v -> accepted new w -> au_pin st = Some stored ->
  ChangePIN fips_enabled NFC transport None key iv iv2 number (agreement_key st) current new st =
    if bool_decide (stored = pin_hash v) then (Ok tt, with_pin st (Some (pin_hash w)))
    else (Err (ECTAP AuthenticatorClientPIN CTAP2_ERR_PIN_INVALID),
          with_retries st (au_retries st - 1)).
Proof using Type*.
  intros Hv Hw Hst. destruct (accepted_spec _ _ Hw) as (Hb & _ & Hl & _).
  destruct (padded_pin_spec w Hb Hl) as (_ & Hlen & Hpb & Hpne).
  destruct (session_secret st) as (ss & Henc & Hdec & Hss).
  destruct (session_pin_hash st ss v Hss) as (hash_ct & Hhct & Hh).
  destruct (session_encrypt st iv2 ss (padded_pin w)) as (new_ct & Hct & Hpt); try done.
  { by rewrite Hlen. }
  destruct (session_authenticate ss (new_ct ++ hash_ct) Hss) as (param & Hparam).
  destruct (Marshal_total (change_request param new_ct hash_ct)) as (b & Hmar & Hread).
  unfold ChangePIN.
  rewrite (lift_bind _ _ _ _ Hv), (lift_bind _ _ _ _ Hw), (lift_bind _ _ _ _ NewPinUvAuthProtocol_ok).
  rewrite (lift_bind _ _ _ _ Henc). cbv beta iota. rewrite (lift_bind _ _ _ _ Hhct).
  unfold encryptNewPIN. rewrite (lift_bind _ _ _ _ Hct), (lift_bind _ _ _ _ Hparam).
  change (Number platform) with number.
  rewrite (lift_bind (Marshal (MClientPIN (change_request param new_ct hash_ct))) _ _ _ Hmar).
  pose proof (transport_request _ _ st Hread) as Ht.
  rewrite (handle_change st ss param new_ct hash_ct (pin_hash v) stored new w) in Ht by done.
  unfold command_cbor, cbor, exchange. destruct (bool_decide (stored = pin_hash v)).
  - by rewrite (M_bind_Ok _ _ _ _ _ Ht).
  - by rewrite (M_bind_Err _ _ _ _ _ Ht).
Qed.

(** C2. The PIN commands reach their goal against an authenticator that
    follows the specification, under either protocol the policy allows and
    for every PIN the client accepts: setting a PIN stores the hash of its
    NFC form; changing it with the right current PIN stores the new one's;
    both token commands return the authenticator's token exactly when the
    PIN's hash is the stored one, and otherwise the status PIN_INVALID at
    the cost of one retry. *)
Theorem pin_lifecycle st pin v :
  well_formed_state st -> accepted pin v ->
  (au_pin st = None ->
   SetPIN fips_enabled NFC transport None key iv number (agreement_key st) pin st =
     (Ok tt, with_pin st (Some (pin_hash v)))) /\
  (forall stored, au_pin st = Some stored ->
   let wrong {A} : result A * authenticator :=
     (Err (ECTAP AuthenticatorClientPIN CTAP2_ERR_PIN_INVALID),
      with_retries st (au_retries st - 1)) in
   (forall new w, accepted new w ->
    ChangePIN fips_enabled NFC transport None key iv iv2 number (agreement_key st) pin new st =
      if bool_decide (stored = pin_hash v) then (Ok tt, with_pin st (Some (pin_hash w)))
      else wrong) /\
   GetPinToken fips_enabled NFC transport None key iv number (agreement_key st) pin st =
     (if bool_decide (stored = pin_hash v) then (Ok (au_token st), st) else wrong) /\
   (forall permissions rpID,
    GetPinUvAuthTokenUsingPinWithPermissions fips_enabled NFC transport None key iv number
      (agreement_key st) pin permissions rpID st =
      if bool_decide (stored = pin_hash v) then (Ok (au_token st), st) else wrong)).
Proof using Type*.
  intros Hw Ha. split; [by apply set_pin_session|]. intros stored Hst. split_and!.
  - intros new w Hn. by apply change_pin_session.
  - exact (token_session st pin v stored 0 "" true Hw Ha Hst).
  - intros permissions rpID. exact (token_session st pin v stored permissions rpID false Hw Ha Hst).
Qed.
End Session.

(** *** A session with the sample primitives *)

(** A codec for the ClientPIN messages that loses nothing: the number
    stdpp's [Countable] gives the tuple of the members. *)
#[export] Instance any_countable : Countable any.
Proof.
  refine (inj_countable
    (fun a => match a with
     | VAlgorithm v => inl (0%nat, v) | VInt v => inl (1%nat, v) | VInt8 v => inl (2%nat, v)
     | VInt16 v => inl (3%nat, v) | VInt32 v => inl (4%nat, v) | VInt64 v => inl (5%nat, v)
     | VUint v => inl (6%nat, v) | VUint8 v => inl (7%nat, v) | VUint16 v => inl (8%nat, v)
     | VUint32 v => inl (9%nat, v) | VUint64 v => inl (10%nat, v)
     | VOther => inl (11%nat, 0) | VBytes b => inr b
     end)
    (fun x => match x with
     | inl (0%nat, v) => Some (VAlgorithm v) | inl (1%nat, v) => Some (VInt v)
     | inl (2%nat, v) => Some (VInt8 v) | inl (3%nat, v) => Some (VInt16 v)
     | inl (4%nat, v) => Some (VInt32 v) | inl (5%nat, v) => Some (VInt64 v)
     | inl (6%nat, v) => Some (VUint v) | inl (7%nat, v) => Some (VUint8 v)
     | inl (8%nat, v) => Some (VUint16 v) | inl (9%nat, v) => Some (VUint32 v)
     | inl (10%nat, v) => Some (VUint64 v) | inl (_, _) => Some VOther
     | inr b => Some (VBytes b)
     end) _).
  by intros [].
Defined.

Definition request_tuple (r : ClientPINRequest)
    : Z * Z * Key * list Z * list Z * list Z * Z * string :=
  (cp_PinUvAuthProtocol r, cp_SubCommand r, cp_KeyAgreement r, cp_PinUvAuthParam r,
   cp_NewPinEnc r, cp_PinHashEnc r, cp_Permissions r, cp_RPID r).
Definition request_of_tuple (t : Z * Z * Key * list Z * list Z * list Z * Z * string)
    : ClientPINRequest :=
  let '(a, b, c, d, e, f, g, h) := t in MkClientPINRequest a b c d e f g h.

Definition response_tuple (r : ClientPINResponse)
    : Key * list Z * option Z * option bool * option Z :=
  (r_KeyAgreement r, r_PinUvAuthToken r, r_PinRetries r, r_PowerCycleState r, r_UvRetries r).
Definition response_of_tuple (t : Key * list Z * option Z * option bool * option Z)
    : ClientPINResponse :=
  let '(a, b, c, d, e) := t in MkClientPINResponse a b c d e.

Definition pin_codec : Codec := {|
  Any := Z;
  Marshal m := match m with
               | MClientPIN r => Ok (number_bytes (request_tuple r))
               | _ => Err io_EOF
               end;
  Unmarshal_ClientPIN b := match read_number b with
                           | Some t => Ok (Some (response_of_tuple t))
                           | None => Err io_EOF
                           end;
  Unmarshal_Bio b := Err io_EOF;
  Unmarshal_CredMgmt b := Err io_EOF;
  Unmarshal_LargeBlobs b := Err io_EOF;
  Unmarshal_Info b := Err io_EOF;
  Unmarshal_MakeCredential b := Err io_EOF;
  Unmarshal_GetAssertion b := Err io_EOF;
  decode_cose_key b := Err io_EOF;
  decode_any_map b := Err io_EOF;
  Decode_CreateExtensionOutputs b := Err io_EOF;
  Decode_GetExtensionOutputs b := Err io_EOF;
  remarshal_supported a := Err io_EOF;
  remarshal_GetLargeBlobOutput a := Err io_EOF;
  remarshal_AttestationObject a := Err io_EOF;
  Marshal_LargeBlobArray l := Err io_EOF;
  Unmarshal_LargeBlobArray b := Err io_EOF |}.

Definition pin_wire : @WireLaws pin_codec.
Proof.
  refine {| read_request := fun b => MClientPIN ∘ request_of_tuple <$> read_number b;
            write_ClientPIN := fun r => number_bytes (response_tuple r) |}.
  - intros r. eexists. split; [reflexivity|]. unfold read_number, number_bytes.
    rewrite decode_encode. by destruct r.
  - intros r. change (match read_number (number_bytes (response_tuple r)) with
      | Some t => Ok (Some (response_of_tuple t)) | None => Err io_EOF end = Ok (Some r)).
    unfold read_number, number_bytes. rewrite decode_encode. by destruct r.
Defined.

Definition sample_NFC (s : list Z) : list Z := u8 <$> s.

Definition sample_state (pin : option (list Z)) : @authenticator sample_primitives :=
  @Authenticator sample_primitives true pin (zeros 32) (zeros 16) 8.

Lemma pin_lifecycle_witness :
  @SetPIN sample_primitives pin_codec _ true sample_NFC
    (Some (@authenticator_transport sample_primitives pin_codec pin_wire)) None
    false (zeros 16) 2 (KeyFromP256PublicKey (sample_public true)) [49; 50; 51; 52] (sample_state None) =
  (Ok tt, sample_state (Some (@pin_hash sample_primitives [49; 50; 51; 52]))).
Proof.
  assert (Hb : forall s, Forall is_byte (sample_NFC s)).
  { intros s. apply Forall_fmap, Forall_true. intros x. apply u8_range. }
  assert (Hz : block (zeros 16)) by (split; [reflexivity | apply zeros_bytes]).
  destruct (@pin_lifecycle sample_primitives sample_laws pin_codec pin_wire true sample_NFC Hb 2
    (or_introl eq_refl) false (zeros 16) (zeros 16) Hz Hz (sample_state None)
    [49; 50; 51; 52] [49; 50; 51; 52]) as [H _].
  - split; [discriminate | split; [reflexivity | split; [apply zeros_bytes | exact Hz]]].
  - reflexivity.
  - exact (H eq_refl).
Defined.
