(* ===== verification/Sequences.v ===== *)
(** * The sequences of the client

    [GetAssertion], [EnumerateRPs] and [EnumerateCredentials] run against a
    tape: the answers the authenticator will give, the requests sent and the
    values yielded so far. The theorem says which requests are sent and
    which values yielded, for a caller that stops after [limit] values and an
    authenticator that may fail on the way. *)
From S2P Require Import Prelude GoError Transport Protocol Pin Cose Crypto Messages Client Management.

Record tape (A : Type) := Tape {
  answers : list (result (list Z));
  sent : list (list Z);
  out : list (A + error) }.
Arguments Tape {A}. Arguments answers {A}. Arguments sent {A}. Arguments out {A}.

Section Tape.
Context {A : Type}.

(** The transport takes the next answer; none left is an answer that has
    not come. *)
Definition tape_transport (data : list Z) : M (tape A) CBORResponse := fun t =>
  match answers t with
  | [] => (Blocked, Tape [] (sent t ++ [data]) (out t))
  | a :: rest => (MkCBORResponse CTAP2_OK <$> a, Tape rest (sent t ++ [data]) (out t))
  end.

(** A caller that takes [limit] values. *)
Definition yield_for (limit : nat) (r : A + error) : M (tape A) bool := fun t =>
  let out' := out t ++ [r] in
  (Ok (bool_decide (length out' < limit)%nat), Tape (answers t) (sent t) out').

(** What follows the values of a sequence: an answer that is an error, or
    that does not decode; after the last value announced, anything, since it
    is not asked for. *)
Definition ending (dec : list Z -> result A) (fail : option error) (tail : list (result (list Z))) : Prop :=
  match fail with
  | Some e => exists a rest, tail = a :: rest /\ a ≫= dec = Err e
  | None => True
  end.
Definition failed (fail : option error) : list (A + error) :=
  match fail with Some e => [inr e] | None => [] end.
(** The count an authenticator announced is reached, or not. *)
Definition announced (n : nat) (got : nat) (fail : option error) : Prop :=
  match fail with Some _ => (got < n)%nat | None => n = got end.

Context (fetch : M (tape A) A) (request : list Z) (dec : list Z -> result A).

(** The fetch sends one request and decodes its answer. *)
Definition fetches : Prop := forall t,
  fetch t = (response ← tape_transport request; lift (dec (Data response))) t.

Lemma fetch_value d r rest s o :
  fetches -> dec d = Ok r -> fetch (Tape (Ok d :: rest) s o) = (Ok r, Tape rest (s ++ [request]) o).
Proof. intros Hf Hd. rewrite Hf. unfold mbind, M_bind, tape_transport, lift. cbn. by rewrite Hd. Qed.

Lemma fetch_error a e rest s o :
  fetches -> a ≫= dec = Err e -> fetch (Tape (a :: rest) s o) = (Err e, Tape rest (s ++ [request]) o).
Proof.
  intros Hf Ha. rewrite Hf. unfold mbind, M_bind, tape_transport, lift.
  destruct a as [d|e'| |]; cbn in *; [by rewrite Ha|by injection Ha as ->|done..].
Qed.

Lemma yield_step limit r a s o :
  yield_for limit r (Tape a s o) =
    (Ok (bool_decide (length o + 1 < limit)%nat), Tape a s (o ++ [r])).
Proof. unfold yield_for. cbn [out answers sent]. by rewrite length_app. Qed.

Lemma iterate_tape limit n ds rs fail tail s o :
  fetches -> Forall2 (fun d r => dec d = Ok r) ds rs -> announced n (length rs) fail ->
  ending dec fail tail -> (length o < limit)%nat ->
  exists t, iterate n fetch (yield_for limit) (Tape ((Ok <$> ds) ++ tail) s o) = (Ok tt, t) /\
    out t = o ++ take (limit - length o) ((inl <$> rs) ++ failed fail) /\
    sent t = s ++ take (limit - length o) (replicate (length rs + length (failed fail)) request).
Proof.
  intros Hf Hds. revert n s o. induction Hds as [|d r ds rs Hd Hds IH]; intros n s o Hn Hend Hl.
  - destruct fail as [e|]; unfold announced in Hn; cbn in Hn.
    + destruct Hend as (a & rest & -> & Ha). destruct n as [|n]; [lia|]. cbn [fmap list_fmap app iterate].
      rewrite (M_bind_Ok _ _ _ _ _ (try_Err _ _ _ _ (fetch_error a e rest s o Hf Ha))).
      eexists. split; [reflexivity|]. cbn.
      destruct (limit - length o)%nat as [|k] eqn:Hk; [lia|]. cbn. by rewrite !take_nil.
    + subst n. eexists. split; [reflexivity|]. cbn. by rewrite !take_nil, !app_nil_r.
  - destruct n as [|n]; [destruct fail; cbn in Hn; lia|].
    cbn [fmap list_fmap app iterate].
    rewrite (M_bind_Ok _ _ _ _ _ (try_Ok _ _ _ _ (fetch_value d r _ s o Hf Hd))).
    rewrite (M_bind_Ok _ _ _ _ _ (yield_step _ _ _ _ _)).
    destruct (limit - length o)%nat as [|k] eqn:Hk; [lia|].
    case_bool_decide as Hlim; cbn [negb].
    + destruct (IH n (s ++ [request]) (o ++ [inl r])) as (t & Ht & Ho & Hs);
        [destruct fail; cbn in *; lia|done|rewrite length_app; cbn; lia|].
      exists t. split; [exact Ht|]. rewrite Ho, Hs, length_app. cbn [length].
      replace (limit - (length o + 1))%nat with k by lia. by rewrite <- !(assoc_L (++)).
    + eexists. split; [reflexivity|]. cbn. assert (k = 0)%nat as -> by lia. by rewrite !take_0.
Qed.
End Tape.
Arguments fetches {A}.

(** A sequence whose first exchange fails yields the error and ends. *)
Lemma sequence_refused {A} (begin fetch : M (tape A) A) rest first dec_begin limit a tail e :
  fetches begin first dec_begin -> a ≫= dec_begin = Err e ->
  exists t, sequence begin rest fetch (yield_for limit) (Tape (a :: tail) [] []) = (Ok tt, t) /\
    out t = [inr e] /\ sent t = [first].
Proof.
  intros Hb Ha. unfold sequence.
  rewrite (M_bind_Ok _ _ _ _ _ (try_Err _ _ _ _ (fetch_error begin first dec_begin a e tail [] [] Hb Ha))).
  by eexists.
Qed.

(** A whole sequence: the first exchange, then the others. *)
Lemma sequence_tape {A} (begin fetch : M (tape A) A) rest first next dec_begin dec limit d r ds rs fail tail :
  fetches begin first dec_begin -> fetches fetch next dec ->
  dec_begin d = Ok r -> Forall2 (fun d r => dec d = Ok r) ds rs ->
  announced (rest r) (length rs) fail -> ending dec fail tail -> (0 < limit)%nat ->
  exists t, sequence begin rest fetch (yield_for limit)
      (Tape ((Ok <$> d :: ds) ++ tail) [] []) = (Ok tt, t) /\
    out t = take limit ((inl <$> r :: rs) ++ failed fail) /\
    sent t = take limit (first :: replicate (length rs + length (failed (A := A) fail)) next).
Proof.
  intros Hb Hf Hd Hds Hn Hend Hl. unfold sequence.
  cbn [fmap list_fmap app].
  rewrite (M_bind_Ok _ _ _ _ _ (try_Ok _ _ _ _ (fetch_value begin first dec_begin d r _ [] [] Hb Hd))).
  rewrite (M_bind_Ok _ _ _ _ _ (yield_step _ _ _ _ _)). cbn [app length].
  destruct limit as [|limit]; [lia|]. case_bool_decide as Hlim; cbn [negb].
  - destruct (iterate_tape fetch next dec (S limit) (rest r) ds rs fail tail [first] [inl r])
      as (t & Ht & Ho & Hs); [done..|].
    exists t. split; [exact Ht|]. rewrite Ho, Hs. cbn [length app]. by rewrite Nat.sub_succ, Nat.sub_0_r.
  - eexists. split; [reflexivity|]. assert (limit = 0)%nat as -> by lia. cbn. by rewrite !take_0.
Qed.

Section Sequences.
Context `{PrimitiveLaws} `{CodecLaws}.
Context (fips_enabled : bool) (NFC : list Z -> list Z).

Lemma check_none {W A} (f : unit -> M W A) w : (check_err None ≫= f) w = f tt w.
Proof. done. Qed.

(** A begin exchange whose request could be built: it is a fetch. *)
Lemma begin_fetches {A} (first : list Z) (decode : list Z -> result A) (m : M (tape A) A) :
  (forall t, m t = (response ← tape_transport first; lift (decode (Data response))) t) ->
  fetches m first decode.
Proof. done. Qed.

Definition decode_rps (d : list Z) : result CredentialManagementResponse :=
  Unmarshal_CredMgmt d ≫= fun r =>
  if TotalRPs r =? 0 then
    Err (EText "spec violation: totalRPs is missing or zero in enumerateRPsBegin response")
  else Ok r.

Definition decode_credentials (d : list Z) : result CredentialManagementResponse :=
  Unmarshal_CredMgmt d ≫= fun r =>
  if TotalCredentials r =? 0 then
    Err (EText "spec violation: totalCredentials is missing or zero in enumerateCredentialsBegin response")
  else Ok r.

Definition decode_assertion (d : list Z) : result (GetAssertionResponse Any) :=
  Unmarshal_GetAssertion d ≫= fun r =>
  ParseGetAssertionAuthData (gr_AuthDataRaw r) ≫= fun authData =>
  Ok (set_gr_AuthData r authData).

(** What a run of a sequence did. *)
Definition yields {A} (limit : nat) (first next : list Z) (r : A) (rs : list A)
    (fail : option error) (t : tape A) : Prop :=
  out t = take limit ((inl <$> r :: rs) ++ failed fail) /\
  sent t = take limit (first :: replicate (length rs + length (failed (A := A) fail)) next).

Lemma lift_then {W B C} (r : result B) (f : B -> result C) (w : W) :
  (x ← lift r; lift (f x)) w = lift (r ≫= f) w.
Proof. by destruct r. Qed.

(** The codec encodes every request. *)
Context (Marshal_ok : forall m, exists b, Marshal m = Ok b).

(** The count announced: [n] responses in all, the first one included. *)
Definition announces (n : Z) (got : nat) (fail : option error) : Prop :=
  announced (Z.to_nat n) (S got) fail.

Lemma announces_rest n got fail :
  announces n got fail -> announced (Z.to_nat (n - 1)) got fail.
Proof. unfold announces, announced. destruct fail; lia. Qed.

Lemma next_fetches preview subCommand b :
  Marshal (MCredMgmt (MkCMRequest subCommand zero_cm_params 0 [])) = Ok b ->
  fetches (enumerate_next (Some tape_transport) None preview subCommand)
    (cm_command preview :: b) Unmarshal_CredMgmt.
Proof. intros Hb t. unfold enumerate_next. by rewrite Hb. Qed.

(** The first exchange of an enumeration, after its checks. *)
Lemma begin_check {A} (r : CredentialManagementResponse) (b : bool) e (w : A) :
  (if b then fail e else mret r) w = lift (if b then Err e else Ok r) w.
Proof. by destruct b. Qed.

Definition rps_request (p : Z) (param : list Z) : message :=
  MCredMgmt (MkCMRequest CredentialManagementSubCommandEnumerateRPsBegin zero_cm_params p param).
Definition credentials_request (p : Z) (param : list Z) (rpIDHash : slice) : message :=
  MCredMgmt (MkCMRequest CredentialManagementSubCommandEnumerateCredentialsBegin
    (MkCMParams rpIDHash zero_descriptor zero_user) p param).
Definition next_request (subCommand : Z) : message :=
  MCredMgmt (MkCMRequest subCommand zero_cm_params 0 []).

(** A sequence as its caller sees it: whatever the authenticator answers -
    as many values as it announced, or an error before, at the first request
    or a later one - the caller gets the values in order, then the error, up
    to the number it takes, and one request is sent for each of them: [first],
    then [next] repeated. *)
Definition sequence_run {A} (decode_first decode_next : list Z -> result A) (total : A -> Z)
    (run : Seq (tape A) A) (first next : list Z -> Prop) : Prop :=
  (forall limit d r ds rs fail tail,
    (0 < limit)%nat -> decode_first d = Ok r ->
    Forall2 (fun d r => decode_next d = Ok r) ds rs -> announces (total r) (length rs) fail ->
    ending decode_next fail tail ->
    exists f n t, first f /\ next n /\
      run (yield_for limit) (Tape ((Ok <$> d :: ds) ++ tail) [] []) = (Ok tt, t) /\
      yields limit f n r rs fail t) /\
  (forall limit a tail e, a ≫= decode_first = Err e ->
    exists f t, first f /\ run (yield_for limit) (Tape (a :: tail) [] []) = (Ok tt, t) /\
      out t = [inr e] /\ sent t = [f]).

(** The shape of the three: a first exchange and the fetch of the others. *)
Lemma sequence_runs {A} (begin fetch : M (tape A) A) rest f n dec_begin dec total (first next : list Z -> Prop) :
  fetches begin f dec_begin -> fetches fetch n dec -> first f -> next n ->
  (forall r got fail, announces (total r) got fail -> announced (rest r) got fail) ->
  sequence_run dec_begin dec total (sequence begin rest fetch) first next.
Proof using.
  intros Hb Hf Hfirst Hnext Hrest. split.
  - intros limit d r ds rs fail tail Hl Hd Hds Hn Hend.
    destruct (sequence_tape begin fetch rest f n dec_begin dec limit d r ds rs fail tail)
      as (t & Ht & Ho & Hs); try done; [by apply Hrest|].
    exists f, n, t. by split_and!.
  - intros limit a tail e Ha.
    destruct (sequence_refused begin fetch rest f dec_begin limit a tail e Hb Ha) as (t & Ht & Ho & Hs).
    by exists f, t.
Qed.

(** The bytes of a begin request authenticated with the token. *)
Definition begin_bytes (command : Z) (p : Z) (token msg : list Z) (request : list Z -> message)
    (f : list Z) : Prop :=
  exists param b, Authenticate p token msg = Ok param /\ Marshal (request param) = Ok b /\
    f = command :: b.
Definition next_bytes (command subCommand : Z) (n : list Z) : Prop :=
  exists b, Marshal (next_request subCommand) = Ok b /\ n = command :: b.

Lemma rps_sequence preview p token :
  ValidateUvAuthToken fips_enabled p token = None ->
  sequence_run decode_rps Unmarshal_CredMgmt TotalRPs
    (EnumerateRPs fips_enabled (Some tape_transport) None preview p token)
    (begin_bytes (cm_command preview) p token [CredentialManagementSubCommandEnumerateRPsBegin]
       (rps_request p))
    (next_bytes (cm_command preview) CredentialManagementSubCommandEnumerateRPsGetNextRP).
Proof using Type*.
  intros Hv.
  destruct (authenticate_total fips_enabled p token
    [CredentialManagementSubCommandEnumerateRPsBegin] Hv) as (param & Ha & _).
  destruct (Marshal_ok (rps_request p param)) as [b Hb].
  destruct (Marshal_ok (next_request CredentialManagementSubCommandEnumerateRPsGetNextRP)) as [nb Hnb].
  unfold EnumerateRPs. eapply (sequence_runs _ _ _ (cm_command preview :: b) (cm_command preview :: nb)).
  2: by apply next_fetches, Hnb. 2: by exists param, b. 2: by exists nb. 2: intros; by apply announces_rest.
  - intros t. rewrite Hv, Ha. unfold rps_request in Hb. cbv beta.
    unfold check_err, lift at 1, mbind at 1, M_bind at 1, mret, M_ret. cbv beta iota.
    rewrite (lift_bind _ _ _ _ eq_refl), (lift_bind _ _ _ _ Hb).
    unfold command_cbor, cbor, exchange, decode_rps, mbind, M_bind, lift.
    destruct (tape_transport (cm_command preview :: b) t) as [[] t']; try done.
    destruct (Unmarshal_CredMgmt (Data a)) as [u| | |]; try done. cbn. by destruct (TotalRPs u =? 0).
Qed.

Lemma credentials_sequence preview p token rpIDHash ps :
  ValidateUvAuthToken fips_enabled p token = None ->
  Marshal (MCredMgmtParams (MkCMParams rpIDHash zero_descriptor zero_user)) = Ok ps ->
  sequence_run decode_credentials Unmarshal_CredMgmt TotalCredentials
    (EnumerateCredentials fips_enabled (Some tape_transport) None preview p token rpIDHash)
    (begin_bytes (cm_command preview) p token
       ([CredentialManagementSubCommandEnumerateCredentialsBegin] ++ ps)
       (fun param => credentials_request p param rpIDHash))
    (next_bytes (cm_command preview) CredentialManagementSubCommandEnumerateCredentialsGetNextCredential).
Proof using Type*.
  intros Hv Hps.
  destruct (authenticate_total fips_enabled p token
    ([CredentialManagementSubCommandEnumerateCredentialsBegin] ++ ps) Hv) as (param & Ha & _).
  destruct (Marshal_ok (credentials_request p param rpIDHash)) as [b Hb].
  destruct (Marshal_ok (next_request CredentialManagementSubCommandEnumerateCredentialsGetNextCredential))
    as [nb Hnb].
  unfold EnumerateCredentials.
  eapply (sequence_runs _ _ _ (cm_command preview :: b) (cm_command preview :: nb)).
  2: by apply next_fetches, Hnb. 2: by exists param, b. 2: by exists nb. 2: intros; by apply announces_rest.
  - intros t. rewrite Hv, Hps. unfold credentials_request in Hb. cbv beta.
    unfold check_err, lift at 1, mbind at 1, M_bind at 1, mret, M_ret. cbv beta iota.
    rewrite (lift_bind _ _ _ _ eq_refl), (lift_bind _ _ _ _ Ha), (lift_bind _ _ _ _ Hb).
    unfold command_cbor, cbor, exchange, decode_credentials, mbind, M_bind, lift.
    destruct (tape_transport (cm_command preview :: b) t) as [[] t']; try done.
    destruct (Unmarshal_CredMgmt (Data a)) as [u| | |]; try done. cbn.
    by destruct (TotalCredentials u =? 0).
Qed.

(** The authentication of an assertion request, with or without a token. *)
Definition assertion_param (p : Z) (token : slice) (hash : list Z) (param : slice) (p' : Z) : Prop :=
  match token with
  | None => param = None /\ p' = 0
  | Some t => ValidateUvAuthToken fips_enabled p t = None /\
      exists m, Authenticate p t hash = Ok m /\ param = Some m /\ p' = p
  end.

Lemma assertion_param_step p token hash param p' (t : tape (GetAssertionResponse Any)) :
  assertion_param p token hash param p' ->
  (match token with
   | None => mret (None, 0)
   | Some token =>
       check_err (ValidateUvAuthToken fips_enabled p token);;
       pinUvAuthParamBegin ← lift (Authenticate p token hash);
       mret (Some pinUvAuthParamBegin, p)
   end) t = (Ok (param, p'), t).
Proof using.
  unfold assertion_param. destruct token as [u|]; [|by intros [-> ->]].
  intros (Hv & m & Ha & -> & ->). rewrite Hv. unfold check_err. rewrite Ha. done.
Qed.

Lemma assertion_fetches :
  fetches (next_assertion (Some tape_transport) None) [AuthenticatorGetNextAssertion]
    decode_assertion.
Proof using.
  intros t. unfold next_assertion, cbor, exchange, decode_assertion, mbind, M_bind, lift.
  destruct (tape_transport [AuthenticatorGetNextAssertion] t) as [[] t']; try done.
  destruct (Unmarshal_GetAssertion (Data a)) as [u| | |]; try done. cbn.
  by destruct (ParseGetAssertionAuthData (gr_AuthDataRaw u)).
Qed.

Lemma assertion_sequence p token rpID hash allowList options param p' (first : list Z -> Prop) :
  len hash = 32 -> assertion_param p token hash param p' ->
  (forall b, Marshal (MGetAssertion
     (MkGetAssertionRequest rpID hash allowList zero_get_inputs options param p')) = Ok b ->
     first (AuthenticatorGetAssertion :: b)) ->
  sequence_run decode_assertion decode_assertion (fun r => Z.max 1 (gr_NumberOfCredentials r))
    (GetAssertion fips_enabled (Some tape_transport) None p token rpID hash allowList None options)
    first (eq [AuthenticatorGetNextAssertion]).
Proof using Type*.
  intros Hh Hp Hfirst.
  destruct (Marshal_ok (MGetAssertion
    (MkGetAssertionRequest rpID hash allowList zero_get_inputs options param p'))) as [b Hb].
  unfold GetAssertion. eapply (sequence_runs _ _ _ (AuthenticatorGetAssertion :: b)).
  2: apply assertion_fetches. 2: by apply Hfirst. 2: done.
  - intros t. unfold validateClientDataHash, clientDataHashSize. rewrite Hh. cbn [Z.eqb Pos.eqb negb check].
    rewrite !check_none. cbv beta iota zeta. change (default zero_get_inputs None) with zero_get_inputs.
    rewrite (M_bind_Ok _ _ _ _ _ (assertion_param_step p token hash param p' t Hp)).
    cbv beta iota. rewrite (lift_bind _ _ _ _ Hb).
    unfold command_cbor, cbor, exchange, decode_assertion, mbind, M_bind, lift.
    destruct (tape_transport (AuthenticatorGetAssertion :: b) t) as [[] t']; try done.
    destruct (Unmarshal_GetAssertion (Data a)) as [u| | |]; try done. cbn.
    by destruct (ParseGetAssertionAuthData (gr_AuthDataRaw u)).
  - intros r got fail Hn. cbv beta. destruct (Z.eqb_spec (gr_NumberOfCredentials r) 0) as [H0'|H0'].
    + rewrite H0' in Hn. unfold announces, announced in *. destruct fail; cbn in *; lia.
    + apply announces_rest in Hn. unfold announced in *. destruct fail; lia.
Qed.

(** C12. The three sequences of the client - relying parties, credentials,
    assertions - yield exactly the responses the authenticator announces,
    in order, and send one request for each: the authenticated begin
    request, then the get-next requests; they stop when the caller stops. An
    answer that is an error or does not decode, to the begin request or to a
    later one, is yielded as the last value, and nothing is sent after it. *)
Theorem client_sequences p token preview rpIDHash ps rpID hash allowList options :
  ValidateUvAuthToken fips_enabled p token = None ->
  Marshal (MCredMgmtParams (MkCMParams rpIDHash zero_descriptor zero_user)) = Ok ps ->
  len hash = 32 ->
  sequence_run decode_rps Unmarshal_CredMgmt TotalRPs
    (EnumerateRPs fips_enabled (Some tape_transport) None preview p token)
    (begin_bytes (cm_command preview) p token [CredentialManagementSubCommandEnumerateRPsBegin]
       (rps_request p))
    (next_bytes (cm_command preview) CredentialManagementSubCommandEnumerateRPsGetNextRP) /\
  sequence_run decode_credentials Unmarshal_CredMgmt TotalCredentials
    (EnumerateCredentials fips_enabled (Some tape_transport) None preview p token rpIDHash)
    (begin_bytes (cm_command preview) p token
       ([CredentialManagementSubCommandEnumerateCredentialsBegin] ++ ps)
       (fun param => credentials_request p param rpIDHash))
    (next_bytes (cm_command preview) CredentialManagementSubCommandEnumerateCredentialsGetNextCredential) /\
  sequence_run decode_assertion decode_assertion (fun r => Z.max 1 (gr_NumberOfCredentials r))
    (GetAssertion fips_enabled (Some tape_transport) None p (Some token) rpID hash allowList None options)
    (begin_bytes AuthenticatorGetAssertion p token hash (fun param => MGetAssertion
       (MkGetAssertionRequest rpID hash allowList zero_get_inputs options (Some param) p)))
    (eq [AuthenticatorGetNextAssertion]).
Proof using Type*.
  intros Hv Hps Hh. split_and!; [by apply rps_sequence|by apply credentials_sequence|].
  destruct (authenticate_total fips_enabled p token hash Hv) as (param & Ha & _).
  apply (assertion_sequence p (Some token) rpID hash allowList options (Some param) p); [done| |].
  - split; [done|]. by exists param.
  - intros b Hb. by exists param, b.
Qed.
End Sequences.

Lemma client_sequences_witness :
  sequence_run decode_rps Unmarshal_CredMgmt TotalRPs
    (EnumerateRPs true (Some tape_transport) None false 2 (zeros 32))
    (begin_bytes (cm_command false) 2 (zeros 32) [CredentialManagementSubCommandEnumerateRPsBegin]
       (rps_request 2))
    (next_bytes (cm_command false) CredentialManagementSubCommandEnumerateRPsGetNextRP).
Proof.
  assert (Hm : forall m, exists b, Marshal m = Ok b) by (intros m; by eexists).
  exact (proj1 (client_sequences true Hm 2 (zeros 32) false None [10] "example.com"
    (zeros 32) [] ∅ eq_refl eq_refl eq_refl)).
Defined.
