(* ===== verification/Device.v ===== *)
(** * The authenticator device (src/authenticator/authenticator.go)

    [Device] owns a transport and the client over it, and caches the
    authenticator's getInfo response. Every operation checks the cached
    response, refreshed first when an earlier operation invalidated it, then
    calls the client. The client runs in the world of the device, so that the
    cache and the connection are one state. [Device.mu] makes an operation
    one step; the operations that run a credential through the extensions,
    [MakeCredential] and [GetAssertion], are in Credentials. *)
From S2P Require Import Prelude GoError Transport Protocol Pin Preflight Cose Crypto Messages.
From S2P Require Import Client Management.

(** [transport.Device] and the CTAPHID methods found by type assertion, which
    other transports lack. *)
Record transport_ops (W : Type) := MkTransportOps {
  tr_CBOR : list Z -> M W CBORResponse;
  tr_Close : M W (option error);
  tr_Ping : option (list Z -> M W (list Z));
  tr_Wink : option (M W unit);
  tr_Lock : option (Z -> M W unit);
  tr_Vendor : option (Z -> list Z -> M W (list Z)) }.
Arguments MkTransportOps {W}.
Arguments tr_CBOR {W}.
Arguments tr_Close {W}.
Arguments tr_Ping {W}.
Arguments tr_Wink {W}.
Arguments tr_Lock {W}.
Arguments tr_Vendor {W}.

Record device (W : Type) := MkDevice {
  dv_world : W;
  dv_info : AuthenticatorGetInfoResponse;
  dv_infoValid : bool }.
Arguments MkDevice {W}.
Arguments dv_world {W}.
Arguments dv_info {W}.
Arguments dv_infoValid {W}.

(** A call of the transport leaves the cache alone. *)
Definition on_world {W A} (m : M W A) : M (device W) A := fun d =>
  let '(r, w) := m (dv_world d) in (r, MkDevice w (dv_info d) (dv_infoValid d)).

(** [slices.Chunk(l, n)] for an [int] [n], which panics below one. *)
Definition slices_Chunk (l : list Z) (n : Z) : result (list (list Z)) :=
  if n <? 1 then Panic else Ok (chunk (Z.to_nat n) l).

(** [int(x)] of a [uint]. *)
Definition int_of_uint (x : Z) : Z := if x <? 2 ^ 63 then x else x - 2 ^ 64.

(** The first blob that [marshalLargeBlobArray] refuses. *)
Fixpoint check_blobs (i : Z) (blobs : list LargeBlob) : option error :=
  match blobs with
  | [] => None
  | blob :: rest =>
      if len (Ciphertext blob) <? 16 then
        Some (newErrorMessage SyntaxError ("large blob " +:+ pretty i +:+
          " ciphertext must contain at least a 16-byte authentication tag"))
      else if negb (len (Nonce blob) =? 12) then
        Some (newErrorMessage SyntaxError ("large blob " +:+ pretty i +:+
          " nonce must be exactly 12 bytes"))
      else check_blobs (i + 1) rest
  end.

Section Device.
Context `{Primitives} `{Codec} {W : Type}.
Context (fips_enabled : bool) (NFC : list Z -> list Z).
Context (transport : transport_ops W).
Context (emit : option (list Z -> CBORResponse + error -> M W unit)).

(** The client [New] builds: its transport is not nil. *)
Definition client_transport : option (list Z -> M (device W) CBORResponse) :=
  Some (fun data => on_world (tr_CBOR transport data)).
Definition client_emit : option (list Z -> CBORResponse + error -> M (device W) unit) :=
  (fun f data r => on_world (f data r)) <$> emit.
#[local] Abbreviation T := client_transport.
#[local] Abbreviation E := client_emit.

(** ** The cache *)

Definition cached_info : M (device W) AuthenticatorGetInfoResponse := fun d => (Ok (dv_info d), d).

Definition refreshInfoLocked : M (device W) AuthenticatorGetInfoResponse :=
  info ← Client.GetInfo T E;
  modify (fun d => MkDevice (dv_world d) info true);;
  mret info.

Definition ensureInfoLocked : M (device W) unit := fun d =>
  if dv_infoValid d then (Ok tt, d) else (refreshInfoLocked;; mret tt) d.

Definition invalidateInfoLocked : M (device W) unit :=
  modify (fun d => MkDevice (dv_world d) (dv_info d) false).

Definition maxFragmentLength (info : AuthenticatorGetInfoResponse) : Z :=
  u64 (EffectiveMaxMsgSize info - 64).

(** [New] on the world of a fresh transport. *)
Definition New : M W (device W) := fun w =>
  match Client.GetInfo (Some (tr_CBOR transport)) emit w with
  | (Ok info, w') => (Ok (MkDevice w' info true), w')
  | (Err err, w') => (Err err, w')
  | (Panic, w') => (Panic, w')
  | (Blocked, w') => (Blocked, w')
  end.

Definition Close : M (device W) (option error) := on_world (tr_Close transport).

Definition GetInfo : M (device W) AuthenticatorGetInfoResponse := refreshInfoLocked.

Definition GetInfoCached : M (device W) (AuthenticatorGetInfoResponse * bool) := fun d =>
  (Ok (dv_info d, dv_infoValid d), d).

(** ** CTAPHID commands *)

Definition Ping (ping : list Z) : M (device W) unit :=
  match tr_Ping transport with
  | None => fail (newErrorMessage ErrNotSupported "ping requires CTAPHID")
  | Some f =>
      pong ← on_world (f ping);
      if negb (bool_decide (ping = pong)) then fail ErrPingPongMismatch else mret tt
  end.

Definition Wink : M (device W) unit :=
  match tr_Wink transport with
  | None => fail (newErrorMessage ErrNotSupported "wink requires CTAPHID")
  | Some f => on_world f
  end.

Definition Lock (seconds : Z) : M (device W) unit :=
  match tr_Lock transport with
  | None => fail (newErrorMessage ErrNotSupported "lock requires CTAPHID")
  | Some f =>
      if 10 <? seconds then
        fail (newErrorMessage SyntaxError "lock seconds must be between 0 and 10")
      else on_world (f (u8 seconds))
  end.

Definition Vendor (command : Z) (data : list Z) : M (device W) (list Z) :=
  match tr_Vendor transport with
  | None => fail (newErrorMessage ErrNotSupported "vendor commands require CTAPHID")
  | Some f => on_world (f command data)
  end.

(** ** authenticatorClientPIN *)

Definition pinUvAuthProtocolWithKeyAgreement : M (device W) (Z * Key) :=
  info ← cached_info;
  pinUvAuthProtocol ← lift (requirePinUvAuthProtocol fips_enabled info);
  keyAgreement ← Client.GetKeyAgreement fips_enabled T E pinUvAuthProtocol;
  mret (pinUvAuthProtocol, keyAgreement).

(** [if err != nil { return d.pinPolicyError(err) }; d.invalidateInfoLocked()] *)
Definition then_invalidate {A} (m : M (device W) A) : M (device W) unit :=
  m;; invalidateInfoLocked.
Definition with_pin_policy {A} (m : M (device W) A) : M (device W) A :=
  r ← try_ m;
  match r with
  | inl a => mret a
  | inr err =>
      info ← cached_info;
      fail (default err (pinPolicyError info (Some err)))
  end.

Definition GetPINRetries : M (device W) (Z * option bool) :=
  ensureInfoLocked;;
  info ← cached_info;
  match Options info !! OptionClientPIN with
  | None => fail (newErrorMessage ErrNotSupported "device doesn't support clientPin option")
  | Some _ =>
      pinUvAuthProtocol ← lift (requirePinUvAuthProtocol fips_enabled info);
      Client.GetPINRetries fips_enabled T E pinUvAuthProtocol
  end.

Definition GetUVRetries : M (device W) Z :=
  ensureInfoLocked;;
  info ← cached_info;
  if isFIDO20Only (Versions info) then
    fail (newErrorMessage ErrNotSupported "getUVRetries requires CTAP 2.1 or later")
  else match Options info !! OptionUserVerification with
  | None => fail (newErrorMessage ErrNotSupported "device doesn't support user verification")
  | Some _ =>
      pinUvAuthProtocol ← lift (if 0 <? len (PinUvAuthProtocols info)
                                then requirePinUvAuthProtocol fips_enabled info else Ok 0);
      Client.GetUVRetries fips_enabled T E pinUvAuthProtocol
  end.

(** The platform key and the IVs the client draws are arguments. *)
Definition SetPIN (random_key : PrivateKey) (iv pin : list Z) : M (device W) unit :=
  ensureInfoLocked;;
  info ← cached_info;
  match Options info !! OptionClientPIN with
  | None => fail (newErrorMessage ErrNotSupported "device doesn't support clientPin option")
  | Some true => fail (newErrorMessage ErrPinAlreadySet "pin already set, use changePin instead")
  | Some false =>
      pin ← lift (normalizeAndValidateNewPIN NFC info pin);
      '(pinUvAuthProtocol, keyAgreement) ← pinUvAuthProtocolWithKeyAgreement;
      then_invalidate (with_pin_policy (Client.SetPIN fips_enabled NFC T E random_key iv
        pinUvAuthProtocol keyAgreement pin))
  end.

Definition ChangePIN (random_key : PrivateKey) (iv1 iv2 currentPin newPin : list Z)
    : M (device W) unit :=
  ensureInfoLocked;;
  info ← cached_info;
  match Options info !! OptionClientPIN with
  | None => fail (newErrorMessage ErrNotSupported "device doesn't support clientPin option")
  | Some false => fail (newErrorMessage ErrPinNotSet "please set PIN first")
  | Some true =>
      currentPin ← lift (normalizeAndValidateCurrentPIN NFC currentPin);
      newPin ← lift (normalizeAndValidateNewPIN NFC info newPin);
      '(pinUvAuthProtocol, keyAgreement) ← pinUvAuthProtocolWithKeyAgreement;
      then_invalidate (with_pin_policy (Client.ChangePIN fips_enabled NFC T E random_key iv1 iv2
        pinUvAuthProtocol keyAgreement currentPin newPin))
  end.

Definition GetPinUvAuthTokenUsingPIN (random_key : PrivateKey) (iv pin : list Z)
    (permission : Z) (rpID : string) : M (device W) (list Z) :=
  ensureInfoLocked;;
  info ← cached_info;
  if ForcePINChange info then
    let message := "change PIN before obtaining a pinUvAuthToken" in
    fail (newErrorMessage ErrPinChangeRequired
      (if negb (len (PinComplexityPolicyURL info) =? 0)
       then message +:+ "; PIN policy details: " +:+ PinComplexityPolicyURLString info
       else message))
  else
    pin ← lift (normalizeAndValidateCurrentPIN NFC pin);
    flow ← lift (selectPinTokenFlowUsingPIN info permission rpID);
    '(pinUvAuthProtocol, keyAgreement) ← pinUvAuthProtocolWithKeyAgreement;
    match flow with
    | pinTokenFlowLegacy =>
        Client.GetPinToken fips_enabled NFC T E random_key iv pinUvAuthProtocol keyAgreement pin
    | pinTokenFlowWithPermissions =>
        Client.GetPinUvAuthTokenUsingPinWithPermissions fips_enabled NFC T E random_key iv
          pinUvAuthProtocol keyAgreement pin permission rpID
    end.

Definition GetPinUvAuthTokenUsingUV (random_key : PrivateKey) (permission : Z) (rpID : string)
    : M (device W) (list Z) :=
  ensureInfoLocked;;
  info ← cached_info;
  flow ← lift (selectPinUvAuthTokenFlowUsingUV info permission rpID);
  match flow with
  | uvTokenFlowPreview =>
      keyAgreement ← Client.GetKeyAgreement fips_enabled T E PinUvAuthProtocolOne;
      Client.GetPinUvAuthTokenUsingUv fips_enabled T E random_key keyAgreement
  | uvTokenFlowWithPermissions =>
      '(pinUvAuthProtocol, keyAgreement) ← pinUvAuthProtocolWithKeyAgreement;
      Client.GetPinUvAuthTokenUsingUvWithPermissions fips_enabled T E random_key
        pinUvAuthProtocol keyAgreement permission rpID
  end.

Definition Reset : M (device W) unit := then_invalidate (Client.Reset T E).

Definition Selection : M (device W) unit :=
  ensureInfoLocked;;
  info ← cached_info;
  if isFIDO20Only (Versions info) then
    fail (newErrorMessage ErrNotSupported "authenticatorSelection requires CTAP 2.1 or later")
  else Client.Selection T E.

(** ** authenticatorBioEnrollment *)

(** The preview flag of the biometric commands, and the PIN/UV auth protocol
    of a request that needs the token. *)
Definition bio_mode : M (device W) bool :=
  ensureInfoLocked;;
  info ← cached_info;
  lift (bioEnrollmentMode info).
Definition token_protocol (pinUvAuthToken : slice) : M (device W) Z :=
  info ← cached_info;
  lift (pinUvAuthProtocolForRequest fips_enabled info pinUvAuthToken true).

Definition GetBioModality : M (device W) BioEnrollmentResponse :=
  preview ← bio_mode;
  Management.GetBioModality T E preview.

Definition GetFingerprintSensorInfo : M (device W) BioEnrollmentResponse :=
  preview ← bio_mode;
  Management.GetFingerprintSensorInfo T E preview.

(** What both enrollment calls do with the response: a completed enrollment
    invalidates the cache. *)
Definition enrolled (resp : BioEnrollmentResponse) : M (device W) BioEnrollmentResponse :=
  match RemainingSamples resp with
  | None => fail (newErrorMessage ErrSpecViolation "device must return remaining samples")
  | Some remaining =>
      (if (0 <? len (br_TemplateID resp)) && (remaining =? 0)
       then invalidateInfoLocked else mret tt);;
      mret resp
  end.

Definition EnrollBegin (pinUvAuthToken : slice) (timeoutMilliseconds : Z)
    : M (device W) BioEnrollmentResponse :=
  preview ← bio_mode;
  pinUvAuthProtocol ← token_protocol pinUvAuthToken;
  Management.EnrollBegin fips_enabled T E preview pinUvAuthProtocol
    (bytes_of pinUvAuthToken) timeoutMilliseconds ≫= enrolled.

Definition EnrollCaptureNextSample (pinUvAuthToken templateID : slice) (timeoutMilliseconds : Z)
    : M (device W) BioEnrollmentResponse :=
  preview ← bio_mode;
  pinUvAuthProtocol ← token_protocol pinUvAuthToken;
  Management.EnrollCaptureNextSample fips_enabled T E preview pinUvAuthProtocol
    (bytes_of pinUvAuthToken) templateID timeoutMilliseconds ≫= enrolled.

Definition CancelCurrentEnrollment : M (device W) unit :=
  preview ← bio_mode;
  Management.CancelCurrentEnrollment T E preview.

Definition EnumerateEnrollments (pinUvAuthToken : slice) : M (device W) BioEnrollmentResponse :=
  preview ← bio_mode;
  pinUvAuthProtocol ← token_protocol pinUvAuthToken;
  Management.EnumerateEnrollments fips_enabled T E preview pinUvAuthProtocol
    (bytes_of pinUvAuthToken).

Definition SetFriendlyName (pinUvAuthToken templateID : slice) (friendlyName : string)
    : M (device W) unit :=
  preview ← bio_mode;
  pinUvAuthProtocol ← token_protocol pinUvAuthToken;
  Management.SetFriendlyName fips_enabled T E preview pinUvAuthProtocol
    (bytes_of pinUvAuthToken) templateID friendlyName.

Definition RemoveEnrollment (pinUvAuthToken templateID : slice) : M (device W) unit :=
  preview ← bio_mode;
  pinUvAuthProtocol ← token_protocol pinUvAuthToken;
  then_invalidate (Management.RemoveEnrollment fips_enabled T E preview pinUvAuthProtocol
    (bytes_of pinUvAuthToken) templateID).

(** ** authenticatorCredentialManagement *)

Definition cm_mode : M (device W) bool :=
  ensureInfoLocked;;
  info ← cached_info;
  lift (credentialManagementMode info).

Definition GetCredsMetadata (pinUvAuthToken : slice) : M (device W) CredentialManagementResponse :=
  preview ← cm_mode;
  pinUvAuthProtocol ← token_protocol pinUvAuthToken;
  Management.GetCredsMetadata fips_enabled T E preview pinUvAuthProtocol
    (bytes_of pinUvAuthToken).

(** The checks before an enumeration yield their error as its only value;
    then every value of the client's sequence is passed on. *)
Definition enumeration (pinUvAuthToken : slice)
    (seq : bool -> Z -> Seq (device W) CredentialManagementResponse)
    : Seq (device W) CredentialManagementResponse := fun yield =>
  r ← try_ (preview ← cm_mode;
            pinUvAuthProtocol ← token_protocol pinUvAuthToken;
            mret (preview, pinUvAuthProtocol));
  match r with
  | inr err => yield (inr err);; mret tt
  | inl (preview, pinUvAuthProtocol) => seq preview pinUvAuthProtocol yield
  end.

Definition EnumerateRPs (pinUvAuthToken : slice) : Seq (device W) CredentialManagementResponse :=
  enumeration pinUvAuthToken (fun preview pinUvAuthProtocol =>
    Management.EnumerateRPs fips_enabled T E preview pinUvAuthProtocol (bytes_of pinUvAuthToken)).

Definition EnumerateCredentials (pinUvAuthToken rpIDHash : slice)
    : Seq (device W) CredentialManagementResponse :=
  enumeration pinUvAuthToken (fun preview pinUvAuthProtocol =>
    Management.EnumerateCredentials fips_enabled T E preview pinUvAuthProtocol
      (bytes_of pinUvAuthToken) rpIDHash).

Definition DeleteCredential (pinUvAuthToken : slice) (credentialID : Descriptor)
    : M (device W) unit :=
  preview ← cm_mode;
  pinUvAuthProtocol ← token_protocol pinUvAuthToken;
  then_invalidate (Management.DeleteCredential fips_enabled T E preview pinUvAuthProtocol
    (bytes_of pinUvAuthToken) credentialID).

Definition UpdateUserInformation (pinUvAuthToken : slice) (credentialID : Descriptor)
    (user : UserEntity) : M (device W) unit :=
  preview ← cm_mode;
  pinUvAuthProtocol ← token_protocol pinUvAuthToken;
  then_invalidate (Management.UpdateUserInformation fips_enabled T E preview pinUvAuthProtocol
    (bytes_of pinUvAuthToken) credentialID user).

(** ** authenticatorConfig *)

(** The shape of the four: the subcommand is supported, a check of its own,
    the protocol of the token, the call, the cache invalidated. *)
Definition config_protocol (pinUvAuthToken : slice) (subCommand : Z) (unsupported : option error)
    : M (device W) Z :=
  info ← cached_info;
  check_err unsupported;;
  lift (pinUvAuthProtocolForRequest fips_enabled info pinUvAuthToken
    (configAuthorizationRequired info subCommand)).

Definition EnableEnterpriseAttestation (pinUvAuthToken : slice) : M (device W) unit :=
  ensureInfoLocked;;
  info ← cached_info;
  check_err (validateAuthenticatorConfigCommand info ConfigSubCommandEnableEnterpriseAttestation);;
  pinUvAuthProtocol ← config_protocol pinUvAuthToken ConfigSubCommandEnableEnterpriseAttestation
    (check (bool_decide (Options info !! OptionEnterpriseAttestation = None))
       (newErrorMessage ErrNotSupported "device doesn't support ep"));
  then_invalidate (Management.EnableEnterpriseAttestation fips_enabled T E pinUvAuthProtocol
    pinUvAuthToken).

Definition ToggleAlwaysUV (pinUvAuthToken : slice) : M (device W) unit :=
  ensureInfoLocked;;
  info ← cached_info;
  check_err (validateAuthenticatorConfigCommand info ConfigSubCommandToggleAlwaysUv);;
  pinUvAuthProtocol ← config_protocol pinUvAuthToken ConfigSubCommandToggleAlwaysUv
    (check (bool_decide (Options info !! OptionAlwaysUv = None))
       (newErrorMessage ErrNotSupported "device doesn't support alwaysUv"));
  then_invalidate (Management.ToggleAlwaysUV fips_enabled T E pinUvAuthProtocol pinUvAuthToken).

Definition SetMinPINLength (pinUvAuthToken : slice) (params : SetMinPINLengthParams)
    : M (device W) unit :=
  ensureInfoLocked;;
  info ← cached_info;
  check_err (validateAuthenticatorConfigCommand info ConfigSubCommandSetMinPINLength);;
  pinUvAuthProtocol ← config_protocol pinUvAuthToken ConfigSubCommandSetMinPINLength
    (first_error [
       check (negb (flag (Options info) OptionSetMinPINLength))
         (newErrorMessage ErrNotSupported "device doesn't support setMinPINLength");
       validateSetMinPINLength info params]);
  then_invalidate (with_pin_policy (Management.SetMinPINLength fips_enabled T E
    pinUvAuthProtocol pinUvAuthToken params)).

Definition EnableLongTouchForReset (pinUvAuthToken : slice) : M (device W) unit :=
  ensureInfoLocked;;
  info ← cached_info;
  check_err (validateAuthenticatorConfigCommand info ConfigSubCommandEnableLongTouchForReset);;
  pinUvAuthProtocol ← config_protocol pinUvAuthToken ConfigSubCommandEnableLongTouchForReset
    (check (bool_decide (LongTouchForReset info = None))
       (newErrorMessage ErrNotSupported "device doesn't support longTouchForReset"));
  then_invalidate (Management.EnableLongTouchForReset fips_enabled T E pinUvAuthProtocol
    pinUvAuthToken).

(** ** The large-blob array *)

Definition marshalLargeBlobArray (blobs : list LargeBlob) : result (list Z) :=
  match check_blobs 0 blobs with
  | Some err => Err err
  | None => Marshal_LargeBlobArray blobs
  end.

(** The loop that reads on while a fragment comes back full. The
    authenticator may send full fragments for ever: [fuel] bounds the reads,
    and running out of it is not having returned. *)
Fixpoint read_fragments (fuel : nat) (maxFragmentLength : Z) (fragment config : list Z)
    (offset : Z) : M (device W) (list Z) :=
  if len fragment =? maxFragmentLength then
    match fuel with
    | O => blocked
    | S fuel' =>
        fragment ← Management.LargeBlobs fips_enabled T E 0 None maxFragmentLength None offset 0;
        read_fragments fuel' maxFragmentLength fragment (config ++ fragment)
          (offset + len fragment)
    end
  else mret config.

Definition getLargeBlobsLocked (fuel : nat) : M (device W) (list LargeBlob) :=
  info ← cached_info;
  if negb (flag (Options info) OptionLargeBlobs) then
    fail (newErrorMessage ErrNotSupported "device doesn't support largeBlobs")
  else
    let maxFragmentLength := maxFragmentLength info in
    fragment ← Management.LargeBlobs fips_enabled T E 0 None maxFragmentLength None 0 0;
    config ← read_fragments fuel maxFragmentLength fragment fragment (len fragment);
    if len config <? 16 then
      fail (newErrorMessage ErrLargeBlobsIntegrityCheck "invalid large blobs response length")
    else
      let bLargeBlobs := take (length config - 16) config in
      let hash := drop (length config - 16) config in
      if negb (bool_decide (hash = take 16 (sha256 bLargeBlobs))) then
        fail (newErrorMessage ErrLargeBlobsIntegrityCheck "large blobs checksum mismatch")
      else
        match Unmarshal_LargeBlobArray bLargeBlobs with
        | Err _ => fail SyntaxError
        | r => lift r
        end.

Definition GetLargeBlobs (fuel : nat) : M (device W) (list LargeBlob) :=
  ensureInfoLocked;; getLargeBlobsLocked fuel.

(** The loop over the chunks: only the first carries the length. *)
Fixpoint write_fragments (pinUvAuthProtocol : Z) (pinUvAuthToken : slice)
    (chunks : list (list Z)) (offset length : Z) : M (device W) unit :=
  match chunks with
  | [] => mret tt
  | chunk :: rest =>
      let length := if 0 <? offset then 0 else length in
      Management.LargeBlobs fips_enabled T E pinUvAuthProtocol pinUvAuthToken 0 (Some chunk)
        offset length;;
      write_fragments pinUvAuthProtocol pinUvAuthToken rest (offset + len chunk) length
  end.

Definition setLargeBlobsLocked (pinUvAuthToken : slice) (blobs : list LargeBlob)
    : M (device W) unit :=
  info ← cached_info;
  if negb (flag (Options info) OptionLargeBlobs) then
    fail (newErrorMessage ErrNotSupported "device doesn't support largeBlobs")
  else
    set ← lift (marshalLargeBlobArray blobs);
    pinUvAuthProtocol ← lift (pinUvAuthProtocolForRequest fips_enabled info pinUvAuthToken
      (largeBlobsAuthorizationRequired info));
    let set := set ++ take 16 (sha256 set) in
    match MaxSerializedLargeBlobArrayValue info with
    | None => fail (newErrorMessage ErrNotSupported
        "device reports largeBlobs without maxSerializedLargeBlobArray")
    | Some maxSerializedLargeBlobArray =>
        if maxSerializedLargeBlobArray <? len set then
          fail (newErrorMessage ErrLargeBlobsTooBig
            ("this device max serialized large blob size is " +:+
             pretty maxSerializedLargeBlobArray +:+ "db while you are trying to save " +:+
             pretty (len set) +:+ "db"))
        else
          chunks ← lift (slices_Chunk set (int_of_uint (maxFragmentLength info)));
          write_fragments pinUvAuthProtocol pinUvAuthToken chunks 0 (len set)
    end.

Definition SetLargeBlobs (pinUvAuthToken : slice) (blobs : list LargeBlob) : M (device W) unit :=
  ensureInfoLocked;; setLargeBlobsLocked pinUvAuthToken blobs.
End Device.
