(* ===== verification/LargeBlobStore.v ===== *)
(** * The large-blob array against an authenticator (CTAP 2.1, section 6.10)

    A specification of authenticatorLargeBlobs - fragments, the checks of a
    write in progress, the integrity hash - as a transport over the stored
    array, and the theorem that what [Device.SetLargeBlobs] writes in
    fragments is what [Device.GetLargeBlobs] reads back. *)
From S2P Require Import Prelude GoError Transport Protocol Pin Preflight Cose Crypto Messages.
From S2P Require Import Client Management Device.

(** The authenticator's side of the codec, and the array's own round trip. *)
Class BlobWire `{Codec} := {
  read_blobs_request : list Z -> option LargeBlobsRequest;
  write_blobs_response : list Z -> list Z;
  Marshal_blobs r : exists b, Marshal (MLargeBlobs r) = Ok b /\ read_blobs_request b = Some r;
  Unmarshal_blobs l : Unmarshal_LargeBlobs (write_blobs_response l) = Ok l;
  array_roundtrip blobs b : Marshal_LargeBlobArray blobs = Ok b ->
    b <> [] /\ Unmarshal_LargeBlobArray b = Ok blobs }.

Definition CTAP1_ERR_INVALID_LENGTH : Z := 0x03.
Definition CTAP1_ERR_INVALID_SEQ : Z := 0x04.
Definition CTAP2_ERR_INTEGRITY_FAILURE : Z := 0x3D.
Definition CTAP2_ERR_LARGE_BLOB_STORAGE_FULL : Z := 0x18.

Section Store.
Context `{Primitives} `{BlobWire}.

(** ** The authenticator *)

Record blob_store := Store {
  bs_stored : list Z;                       (* the serialized array *)
  bs_pending : option (Z * list Z);         (* the expected length and what was received *)
  bs_fragment : Z;                          (* maxFragmentLength *)
  bs_capacity : Z;
  bs_token : option (Z * list Z) }.         (* protocol and token, when writes are protected *)

Definition with_pending (st : blob_store) (pending : option (Z * list Z)) : blob_store :=
  Store (bs_stored st) pending (bs_fragment st) (bs_capacity st) (bs_token st).
Definition with_stored (st : blob_store) (l : list Z) : blob_store :=
  Store l None (bs_fragment st) (bs_capacity st) (bs_token st).

Definition without_hash (l : list Z) : list Z := take (length l - 16) l.
Definition hash_matches (l : list Z) : bool :=
  bool_decide (drop (length l - 16) l = take 16 (sha256 (without_hash l))).

Definition write_message (offset : Z) (set : list Z) : list Z :=
  replicate 32 0xff ++ [0x0c; 0x00] ++ put_le 4 offset ++ sha256 set.

Definition write_verified (st : blob_store) (r : LargeBlobsRequest) (set : list Z) : bool :=
  match bs_token st with
  | None => true
  | Some (number, token) =>
      (lb_PinUvAuthProtocol r =? number) &&
      match Authenticate number token (write_message (lb_Offset r) set) with
      | Ok param => bool_decide (param = lb_PinUvAuthParam r)
      | _ => false
      end
  end.

Definition handle_get (r : LargeBlobsRequest) (n : Z) (st : blob_store) : Z * list Z * blob_store :=
  if negb (lb_Length r =? 0) then (CTAP1_ERR_INVALID_PARAMETER, [], st)
  else if bs_fragment st <? n then (CTAP1_ERR_INVALID_LENGTH, [], st)
  else if len (bs_stored st) <? lb_Offset r then (CTAP1_ERR_INVALID_PARAMETER, [], st)
  else (CTAP2_OK,
        write_blobs_response (take (Z.to_nat n) (drop (Z.to_nat (lb_Offset r)) (bs_stored st))), st).

(** The write in progress that a fragment continues, or starts at offset 0. *)
Definition begin_write (offset length : Z) (st : blob_store) : Z + (Z * list Z) :=
  if offset =? 0 then
    if length =? 0 then inl CTAP1_ERR_INVALID_PARAMETER
    else if bs_capacity st <? length then inl CTAP2_ERR_LARGE_BLOB_STORAGE_FULL
    else if length <? 17 then inl CTAP1_ERR_INVALID_PARAMETER
    else inr (length, [])
  else if negb (length =? 0) then inl CTAP1_ERR_INVALID_PARAMETER
  else match bs_pending st with
  | None => inl CTAP1_ERR_INVALID_SEQ
  | Some (expected, received) =>
      if negb (offset =? len received) then inl CTAP1_ERR_INVALID_SEQ
      else inr (expected, received)
  end.

Definition handle_set (r : LargeBlobsRequest) (set : list Z) (st : blob_store)
    : Z * list Z * blob_store :=
  if bs_fragment st <? len set then (CTAP1_ERR_INVALID_LENGTH, [], st)
  else match begin_write (lb_Offset r) (lb_Length r) st with
  | inl status => (status, [], st)
  | inr (expected, received) =>
      if negb (write_verified st r set) then (CTAP2_ERR_PIN_AUTH_INVALID, [], st)
      else if expected <? len received + len set then (CTAP1_ERR_INVALID_PARAMETER, [], st)
      else
        let received := received ++ set in
        if negb (len received =? expected) then
          (CTAP2_OK, [], with_pending st (Some (expected, received)))
        else if hash_matches received then (CTAP2_OK, [], with_stored st received)
        else (CTAP2_ERR_INTEGRITY_FAILURE, [], with_pending st None)
  end.

Definition handle_blobs (r : LargeBlobsRequest) (st : blob_store) : Z * list Z * blob_store :=
  match lb_Get r, lb_Set r with
  | Some n, None => handle_get r n st
  | None, Some set => handle_set r set st
  | _, _ => (CTAP1_ERR_INVALID_PARAMETER, [], st)
  end.

Definition store_transport : transport_ops blob_store := MkTransportOps
  (fun data st =>
     let '(status, body, st') :=
       match data with
       | command :: b =>
           match read_blobs_request b with
           | Some r =>
               if command =? AuthenticatorLargeBlobs then handle_blobs r st
               else (CTAP1_ERR_INVALID_COMMAND, [], st)
           | None => (CTAP1_ERR_INVALID_COMMAND, [], st)
           end
       | [] => (CTAP1_ERR_INVALID_COMMAND, [], st)
       end in
     (ValidateCBORResponse AuthenticatorLargeBlobs (MkCBORResponse status body), st'))
  (mret None) None None None None.
End Store.

(** ** Fragments *)

Section RoundTrip.
Context `{PrimitiveLaws} `{BlobWire}.
Context (fips_enabled : bool).

#[local] Abbreviation T := (client_transport store_transport).
#[local] Abbreviation E := (client_emit (W := blob_store) None).

(** The token a caller writes with: one the policy accepts, the
    authenticator's own when writes are protected. *)
Definition authorised (st : blob_store) (p : Z) (token : slice) : Prop :=
  match token with
  | None => bs_token st = None
  | Some t => ValidateUvAuthToken fips_enabled p t = None /\
      (bs_token st = None \/ bs_token st = Some (p, t))
  end.

Lemma store_call r b d :
  read_blobs_request b = Some r ->
  command_cbor T E AuthenticatorLargeBlobs b d =
    let '(status, body, st) := handle_blobs r (dv_world d) in
    (ValidateCBORResponse AuthenticatorLargeBlobs (MkCBORResponse status body),
     MkDevice st (dv_info d) (dv_infoValid d)).
Proof.
  intros Hr. unfold command_cbor, cbor, exchange, client_transport, on_world. cbn. rewrite Hr.
  by destruct (handle_blobs r (dv_world d)) as [[status body] st].
Qed.

Lemma get_call d n offset :
  n <= bs_fragment (dv_world d) -> 0 <= offset <= len (bs_stored (dv_world d)) ->
  Management.LargeBlobs fips_enabled T E 0 None n None offset 0 d =
    (Ok (take (Z.to_nat n) (drop (Z.to_nat offset) (bs_stored (dv_world d)))), d).
Proof.
  intros Hn Ho. unfold Management.LargeBlobs. rewrite bool_decide_eq_true_2 by done. cbn [orb].
  destruct (Marshal_blobs (MkLargeBlobsRequest (Some n) None offset 0 [] 0)) as (b & Hb & Hr).
  change ((mret ([], 0) : M (device blob_store) _) ≫= ?f) with (f ([], 0)). cbv beta iota.
  rewrite (lift_bind _ _ _ _ Hb).
  assert (Hh : command_cbor T E AuthenticatorLargeBlobs b d =
    (Ok (MkCBORResponse CTAP2_OK (write_blobs_response
       (take (Z.to_nat n) (drop (Z.to_nat offset) (bs_stored (dv_world d)))))), d)).
  { rewrite (store_call _ _ _ Hr). unfold handle_blobs, handle_get. cbn [lb_Get lb_Set lb_Length lb_Offset].
    destruct (Z.ltb_spec (bs_fragment (dv_world d)) n); [lia|].
    destruct (Z.ltb_spec (len (bs_stored (dv_world d))) offset); [lia|]. by destruct d. }
  rewrite (M_bind_Ok _ _ _ _ _ Hh). cbn [Data]. by rewrite Unmarshal_blobs.
Qed.

(** The state a written fragment leaves. *)
Definition received_state (st : blob_store) (expected : Z) (received : list Z) : blob_store :=
  if len received =? expected then with_stored st received
  else with_pending st (Some (expected, received)).

Lemma handle_set_ok st r c expected received :
  lb_Get r = None -> lb_Set r = Some c ->
  len c <= bs_fragment st -> begin_write (lb_Offset r) (lb_Length r) st = inr (expected, received) ->
  write_verified st r c = true -> len (received ++ c) <= expected ->
  (len (received ++ c) = expected -> hash_matches (received ++ c) = true) ->
  handle_blobs r st = (CTAP2_OK, [], received_state st expected (received ++ c)).
Proof.
  intros Hg Hs Hc Hb Hv Hl Hh. unfold handle_blobs, handle_set. rewrite Hg, Hs.
  destruct (Z.ltb_spec (bs_fragment st) (len c)); [lia|]. rewrite Hb, Hv. cbn [negb].
  rewrite len_app in Hl. destruct (Z.ltb_spec expected (len received + len c)); [lia|].
  unfold received_state. destruct (Z.eqb_spec (len (received ++ c)) expected); cbn [negb]; [|done].
  by rewrite Hh.
Qed.

Lemma authorised_param st p token offset c :
  authorised st p token -> 0 <= offset < 2 ^ 32 ->
  exists param q, (match token with
    | None => mret ([], 0)
    | Some t =>
        check_err (ValidateUvAuthToken fips_enabled p t);;
        pinUvAuthParam ← lift (Authenticate p t
          (padding ++ [0x0c; 0x00] ++ put_le 4 (u32 offset) ++ sha256 c));
        mret (pinUvAuthParam, p)
    end : M (device blob_store) (list Z * Z)) = mret (param, q) /\
    forall get length, write_verified st (MkLargeBlobsRequest get (Some c) offset length param q) c = true.
Proof using Type*.
  intros Ha Ho. unfold write_verified. destruct token as [t|]; cbn [authorised] in Ha.
  - destruct Ha as [Hv Ht]. destruct (authenticate_total _ p t (write_message offset c) Hv)
      as (param & Hp & _).
    exists param, p. assert (Hu : u32 offset = offset) by (unfold u32; by rewrite Z.mod_small).
    change (padding ++ [0x0c; 0x00] ++ put_le 4 (u32 offset) ++ sha256 c)
      with (replicate 32 0xff ++ [0x0c; 0x00] ++ put_le 4 (u32 offset) ++ sha256 c).
    rewrite Hu, Hv. fold (write_message offset c). rewrite Hp.
    split; [done|]. intros get length. destruct Ht as [->| ->]; [done|].
    cbn [lb_PinUvAuthProtocol lb_Offset lb_PinUvAuthParam].
    rewrite Z.eqb_refl, Hp. by apply bool_decide_eq_true_2.
  - exists [], 0. split; [done|]. intros get length. by rewrite Ha.
Qed.

Lemma set_call d p token c offset length expected received :
  authorised (dv_world d) p token -> 0 <= offset < 2 ^ 32 ->
  len c <= bs_fragment (dv_world d) ->
  begin_write offset length (dv_world d) = inr (expected, received) ->
  len (received ++ c) <= expected ->
  (len (received ++ c) = expected -> hash_matches (received ++ c) = true) ->
  Management.LargeBlobs fips_enabled T E p token 0 (Some c) offset length d =
    (Ok [], MkDevice (received_state (dv_world d) expected (received ++ c)) (dv_info d) (dv_infoValid d)).
Proof using Type*.
  intros Ha Ho Hc Hb Hl Hh. unfold Management.LargeBlobs.
  rewrite bool_decide_eq_false_2 by done. cbn [orb negb Z.eqb].
  destruct (authorised_param _ p token offset c Ha Ho) as (param & q & Hp & Hv).
  change (bytes_of (Some c)) with c. rewrite Hp.
  change ((mret (param, q) : M (device blob_store) _) ≫= ?f) with (f (param, q)). cbv beta iota.
  destruct (Marshal_blobs (MkLargeBlobsRequest None (Some c) offset length param q))
    as (b & Hm & Hr).
  rewrite (lift_bind _ _ _ _ Hm).
  pose proof (store_call _ b d Hr) as Hs.
  rewrite (handle_set_ok (dv_world d) _ c expected received) in Hs by (done || apply Hv).
  by rewrite (M_bind_Ok _ _ _ _ _ Hs).
Qed.

(** A write goes on from what was received: the first fragment carries the
    whole length, the others none. *)
Definition continues (st : blob_store) (full received : list Z) : Prop :=
  begin_write (len received) (if 0 <? len received then 0 else len full) st = inr (len full, received).

Lemma continues_pending st full received :
  received <> [] -> bs_pending st = Some (len full, received) -> continues st full received.
Proof using.
  intros Hne Hp. apply len_pos in Hne. unfold continues, begin_write.
  destruct (Z.ltb_spec 0 (len received)); [|lia].
  destruct (Z.eqb_spec (len received) 0); [lia|]. cbn [negb Z.eqb]. rewrite Hp.
  by rewrite Z.eqb_refl.
Qed.

Lemma continues_start st full :
  17 <= len full <= bs_capacity st -> continues st full [].
Proof using.
  intros Hf. unfold continues, begin_write. cbn [Z.eqb].
  change (len (@nil Z)) with 0. cbn [Z.ltb Z.compare Z.eqb].
  destruct (Z.eqb_spec (len full) 0); [lia|].
  destruct (Z.ltb_spec (bs_capacity st) (len full)); [lia|].
  by destruct (Z.ltb_spec (len full) 17); [lia|].
Qed.

Lemma write_store full p token info valid chunks received st :
  chunks <> [] -> Forall (fun c => c <> [] /\ len c <= bs_fragment st) chunks ->
  received ++ concat chunks = full -> len full < 2 ^ 32 -> hash_matches full = true ->
  authorised st p token -> continues st full received -> forall length,
  (len received = 0 -> length = len full) ->
  write_fragments fips_enabled store_transport None p token chunks (len received) length
      (MkDevice st info valid) =
    (Ok tt, MkDevice (with_stored st full) info valid).
Proof using Type*.
  intros Hne Hcs. revert received st Hne Hcs.
  induction chunks as [|c chunks IH]; intros received st Hne Hcs Hfull Hlen Hh Ha Hb length Hl; [done|].
  apply Forall_cons in Hcs as [[Hc Hcl] Hcs]. cbn [write_fragments].
  assert (Hlen' : (if 0 <? len received then 0 else length)
                  = (if 0 <? len received then 0 else len full)).
  { destruct (Z.ltb_spec 0 (len received)); [done|]. apply Hl. pose proof (len_nonneg received). lia. }
  rewrite Hlen'. cbn [concat] in Hfull.
  assert (Hsum : len (received ++ c) + len (concat chunks) = len full).
  { rewrite <- Hfull. len_lia. }
  assert (Hcall := set_call (MkDevice st info valid) p token c (len received) _ (len full) received
    Ha ltac:(len_lia) Hcl Hb).
  assert (Hrec : received_state st (len full) (received ++ c) =
    if decide (chunks = []) then with_stored st full
    else with_pending st (Some (len full, received ++ c))).
  { unfold received_state. destruct (decide (chunks = [])) as [->|Hch].
    - cbn [concat] in *. rewrite app_nil_r in Hfull. rewrite Hfull. by rewrite Z.eqb_refl.
    - destruct chunks as [|c' chunks]; [done|]. apply Forall_cons in Hcs as [[Hc' _] _].
      apply len_pos in Hc'. cbn [concat] in Hsum.
      destruct (Z.eqb_spec (len (received ++ c)) (len full)); [len_lia|done]. }
  rewrite (M_bind_Ok _ _ _ _ _ (Hcall ltac:(len_lia) ltac:(intros Heq; rewrite <- Hfull in Hh;
    assert (concat chunks = []) as Hz by (apply len_0; lia); by rewrite Hz, app_nil_r in Hh))).
  cbn [dv_world dv_info dv_infoValid]. rewrite Hrec.
  destruct (decide (chunks = [])) as [->|Hch]; [done|].
  rewrite <- len_app. rewrite IH; try done.
  - by rewrite <- (assoc_L (++)).
  - apply continues_pending; [|done]. by destruct received, c.
  - intros Hz. apply len_pos in Hc. len_lia.
Qed.

Lemma read_store d n :
  0 < n <= bs_fragment (dv_world d) -> forall fuel fragment config rest,
  bs_stored (dv_world d) = config ++ rest -> (len fragment <> n -> rest = []) ->
  (len fragment = n -> len rest < Z.of_nat fuel * n) ->
  read_fragments fips_enabled store_transport None fuel n fragment config (len config) d =
    (Ok (bs_stored (dv_world d)), d).
Proof using Type*.
  intros Hn fuel. induction fuel as [|fuel IH]; intros fragment config rest Hst Hfr Hfuel;
    cbn [read_fragments]; destruct (Z.eqb_spec (len fragment) n) as [Hf|Hf].
  - specialize (Hfuel Hf). pose proof (len_nonneg rest). lia.
  - by rewrite Hst, (Hfr Hf), app_nil_r.
  - specialize (Hfuel Hf). rewrite Nat2Z.inj_succ, Z.mul_succ_l in Hfuel.
    assert (Hget := get_call d n (len config) ltac:(lia) ltac:(rewrite Hst; len_lia)).
    assert (Hd : drop (Z.to_nat (len config)) (bs_stored (dv_world d)) = rest).
    { rewrite Hst. unfold len. by rewrite Nat2Z.id, drop_app_length. }
    rewrite Hd in Hget. rewrite (M_bind_Ok _ _ _ _ _ Hget).
    rewrite <- len_app. apply (IH _ _ (drop (Z.to_nat n) rest)).
    + by rewrite <- (assoc_L (++)), take_drop.
    + intros Hl. apply len_0. len_lia.
    + intros Hl. len_lia.
  - by rewrite Hst, (Hfr Hf), app_nil_r.
Qed.

(** The serialized array ends in its hash. *)
Lemma hash_appended set :
  let full := set ++ take 16 (sha256 set) in
  len full = len set + 16 /\ without_hash full = set /\
  drop (length full - 16) full = take 16 (sha256 set) /\ hash_matches full = true.
Proof using Type*.
  intros full. destruct (sha256_bytes set) as [Hs _].
  assert (Hl : len full = len set + 16) by (unfold full; len_lia).
  assert (Hn : (length full - 16 = length set)%nat) by (unfold len in Hl; lia).
  assert (Hw : without_hash full = set) by (unfold without_hash; rewrite Hn; by apply take_app_length).
  assert (Hd : drop (length full - 16) full = take 16 (sha256 set))
    by (rewrite Hn; by apply drop_app_length).
  split_and!; [done..|]. unfold hash_matches. rewrite Hw, Hd. by apply bool_decide_eq_true_2.
Qed.

Lemma request_authorised info token required p :
  pinUvAuthProtocolForRequest fips_enabled info token required = Ok p ->
  match token with None => p = 0 | Some t => ValidateUvAuthToken fips_enabled p t = None end.
Proof using.
  unfold pinUvAuthProtocolForRequest. destruct token as [t|].
  - destruct (requirePinUvAuthProtocol fips_enabled info) as [q| | |]; cbn; try done.
    destruct (_ && _); [done|]. destruct (ValidateUvAuthToken fips_enabled q t) eqn:Hv; [done|].
    by intros [= <-].
  - destruct required; [done|]. by intros [= <-].
Qed.

Lemma get_store d fuel :
  flag (Options (dv_info d)) OptionLargeBlobs = true -> dv_infoValid d = true ->
  let n := maxFragmentLength (dv_info d) in
  0 < n <= bs_fragment (dv_world d) -> len (bs_stored (dv_world d)) < Z.of_nat fuel * n ->
  forall set blobs, bs_stored (dv_world d) = set ++ take 16 (sha256 set) ->
  Unmarshal_LargeBlobArray set = Ok blobs ->
  GetLargeBlobs fips_enabled store_transport None fuel d = (Ok blobs, d).
Proof using Type*.
  intros Hflag Hvalid n Hn Hfuel set blobs Hst Hun.
  unfold GetLargeBlobs, ensureInfoLocked. rewrite (M_bind_Ok _ _ _ tt d) by (by rewrite Hvalid).
  unfold getLargeBlobsLocked. rewrite (M_bind_Ok _ _ _ (dv_info d) d) by done.
  rewrite Hflag. cbn [negb]. fold n. clearbody n.
  assert (Hget := get_call d n 0 ltac:(lia) ltac:(pose proof (len_nonneg (bs_stored (dv_world d))); lia)).
  change (drop (Z.to_nat 0) ?l) with l in Hget.
  rewrite (M_bind_Ok _ _ _ _ _ Hget).
  set (fragment := take (Z.to_nat n) (bs_stored (dv_world d))) in *.
  assert (Hread := read_store d n Hn fuel fragment fragment (drop (Z.to_nat n) (bs_stored (dv_world d)))).
  assert (Hlen : len fragment = Z.min n (len (bs_stored (dv_world d)))) by (unfold fragment; len_lia).
  rewrite (M_bind_Ok _ _ _ _ _ (Hread ltac:(by unfold fragment; rewrite take_drop)
    ltac:(intros Hl; apply len_0; len_lia) ltac:(intros _; len_lia))).
  destruct (hash_appended set) as (Hl & Hw & Hd & _). rewrite <- Hst in Hl, Hw, Hd.
  destruct (Z.ltb_spec (len (bs_stored (dv_world d))) 16); [pose proof (len_nonneg set); lia|].
  fold (without_hash (bs_stored (dv_world d))). rewrite Hw, Hd.
  rewrite bool_decide_eq_true_2 by done. cbn [negb]. by rewrite Hun.
Qed.

Lemma set_store info st token set p :
  let full := set ++ take 16 (sha256 set) in
  let n := maxFragmentLength info in
  0 < n < 2 ^ 63 -> n <= bs_fragment st -> set <> [] -> len full <= bs_capacity st ->
  bs_capacity st < 2 ^ 32 -> authorised st p token ->
  (chunks ← lift (slices_Chunk full (int_of_uint n));
   write_fragments fips_enabled store_transport None p token chunks 0 (len full))
    (MkDevice st info true) = (Ok tt, MkDevice (with_stored st full) info true).
Proof using Type*.
  intros full n Hn Hf Hset Hcap H32 Ha. destruct (hash_appended set) as (Hl & _ & _ & Hh).
  fold full in Hl, Hh. apply len_pos in Hset. clearbody n.
  unfold int_of_uint, slices_Chunk. destruct (Z.ltb_spec n (2 ^ 63)); [|lia].
  destruct (Z.ltb_spec n 1); [lia|]. rewrite (lift_bind _ _ (chunk (Z.to_nat n) full) _ eq_refl).
  change 0 with (len (@nil Z)). eapply (write_store full p token info true); try done.
  - intros Hc. pose proof (concat_chunk (Z.to_nat n) ltac:(lia) full) as Hcc. rewrite Hc in Hcc.
    assert (len full = 0) by by rewrite <- Hcc. lia.
  - eapply Forall_impl; [apply chunk_bounds; lia|]. cbn. intros c [Hc Hcl].
    split; [done|]. unfold len. lia.
  - by rewrite concat_chunk by lia.
  - lia.
  - apply continues_start. lia.
Qed.

Lemma small_fragment info l :
  0 < EffectiveMaxMsgSize info <= 64 ->
  slices_Chunk l (int_of_uint (maxFragmentLength info)) = Panic.
Proof using.
  intros Hs. unfold slices_Chunk, int_of_uint, maxFragmentLength, u64.
  assert (Hu : (EffectiveMaxMsgSize info - 64) mod 2 ^ 64 =
    if EffectiveMaxMsgSize info =? 64 then 0 else EffectiveMaxMsgSize info - 64 + 2 ^ 64).
  { destruct (Z.eqb_spec (EffectiveMaxMsgSize info) 64) as [->|]; [done|].
    rewrite <- (Z.mod_add _ 1) by lia. rewrite Z.mod_small by lia. lia. }
  rewrite Hu. destruct (Z.eqb_spec (EffectiveMaxMsgSize info) 64); [done|].
  destruct (Z.ltb_spec (EffectiveMaxMsgSize info - 64 + 2 ^ 64) (2 ^ 63)); [lia|].
  by destruct (Z.ltb_spec (EffectiveMaxMsgSize info - 64 + 2 ^ 64 - 2 ^ 64) 1); [|lia].
Qed.

(** What a write does once its checks are passed. *)
Lemma setLargeBlobsLocked_eq info st token blobs set p :
  let full := set ++ take 16 (sha256 set) in
  flag (Options info) OptionLargeBlobs = true ->
  MaxSerializedLargeBlobArrayValue info = Some (bs_capacity st) ->
  marshalLargeBlobArray blobs = Ok set ->
  pinUvAuthProtocolForRequest fips_enabled info token (largeBlobsAuthorizationRequired info) = Ok p ->
  exists msg, setLargeBlobsLocked fips_enabled store_transport None token blobs (MkDevice st info true) =
    (if bs_capacity st <? len full then fail (newErrorMessage ErrLargeBlobsTooBig msg) else
     chunks ← lift (slices_Chunk full (int_of_uint (maxFragmentLength info)));
     write_fragments fips_enabled store_transport None p token chunks 0 (len full))
      (MkDevice st info true).
Proof using Type*.
  intros full Hflag Hmax Hm Hp. unfold setLargeBlobsLocked.
  rewrite (M_bind_Ok _ _ _ info (MkDevice st info true)) by done.
  rewrite Hflag. cbn [negb]. rewrite (lift_bind _ _ _ _ Hm), (lift_bind _ _ _ _ Hp).
  fold full. rewrite Hmax. by eexists.
Qed.

Lemma token_authorised info st token p required :
  pinUvAuthProtocolForRequest fips_enabled info token required = Ok p ->
  (bs_token st = None \/ exists t, token = Some t /\ bs_token st = Some (p, t)) ->
  authorised st p token.
Proof using.
  intros Hp Ht. pose proof (request_authorised _ _ _ _ Hp) as Hv. destruct token as [t|]; cbn.
  - split; [done|]. destruct Ht as [?|(t' & [= <-] & ?)]; auto.
  - by destruct Ht as [?|(t' & ? & ?)].
Qed.

Lemma marshal_array blobs set : marshalLargeBlobArray blobs = Ok set ->
  set <> [] /\ Unmarshal_LargeBlobArray set = Ok blobs.
Proof using Type*.
  intros Hm. apply array_roundtrip. revert Hm. unfold marshalLargeBlobArray. by case_match.
Qed.

(** C14. What [SetLargeBlobs] writes is what [GetLargeBlobs] reads: for every
    maxMsgSize above 64 that the authenticator allows, an array within its
    capacity goes out in fragments the authenticator accepts - in order,
    authenticated when writes are protected, the integrity hash matching -
    it is stored whole, and reading it, in as many fragments as it takes,
    returns the blobs written. A larger array is refused before anything is
    sent. With a maxMsgSize of 64 or less the fragment length wraps around or
    is zero, and writing panics. *)
Theorem large_blob_array_roundtrip info st token blobs set p :
  let full := set ++ take 16 (sha256 set) in
  let n := maxFragmentLength info in
  let d := MkDevice st info true in
  let d' := MkDevice (with_stored st full) info true in
  flag (Options info) OptionLargeBlobs = true ->
  MaxSerializedLargeBlobArrayValue info = Some (bs_capacity st) -> bs_capacity st < 2 ^ 32 ->
  marshalLargeBlobArray blobs = Ok set ->
  pinUvAuthProtocolForRequest fips_enabled info token (largeBlobsAuthorizationRequired info) = Ok p ->
  (bs_token st = None \/ exists t, token = Some t /\ bs_token st = Some (p, t)) ->
  (0 < n < 2 ^ 63 -> n <= bs_fragment st -> len full <= bs_capacity st ->
     SetLargeBlobs fips_enabled store_transport None token blobs d = (Ok tt, d') /\
     forall fuel, len full < Z.of_nat fuel * n ->
       GetLargeBlobs fips_enabled store_transport None fuel d' = (Ok blobs, d')) /\
  (bs_capacity st < len full -> exists msg,
     SetLargeBlobs fips_enabled store_transport None token blobs d =
       (Err (newErrorMessage ErrLargeBlobsTooBig msg), d)) /\
  (0 < EffectiveMaxMsgSize info <= 64 -> len full <= bs_capacity st ->
     SetLargeBlobs fips_enabled store_transport None token blobs d = (Panic, d)).
Proof using Type*.
  intros full n d d' Hflag Hmax H32 Hm Hp Ht.
  destruct (marshal_array _ _ Hm) as [Hset Hun].
  pose proof (token_authorised _ _ _ _ _ Hp Ht) as Ha.
  assert (Hgo : exists msg, SetLargeBlobs fips_enabled store_transport None token blobs d =
    (if bs_capacity st <? len full then fail (newErrorMessage ErrLargeBlobsTooBig msg) else
     chunks ← lift (slices_Chunk full (int_of_uint n));
     write_fragments fips_enabled store_transport None p token chunks 0 (len full)) d).
  { unfold SetLargeBlobs, ensureInfoLocked. rewrite (M_bind_Ok _ _ _ tt d) by done.
    by apply setLargeBlobsLocked_eq. }
  destruct Hgo as [msg ->].
  split_and!; [intros Hn Hf Hcap|intros Hcap|intros Hsmall Hcap];
    destruct (Z.ltb_spec (bs_capacity st) (len full)); try lia.
  - split; [by apply set_store|]. intros fuel Hfuel.
    by apply (get_store d' fuel Hflag eq_refl ltac:(cbn; lia) Hfuel set blobs).
  - by eexists.
  - unfold n. by rewrite small_fragment.
Qed.
End RoundTrip.

(** ** A store with a protected array, written in three fragments *)

Definition blobs_request_tuple (r : LargeBlobsRequest) : option Z * slice * Z * Z * list Z * Z :=
  (lb_Get r, lb_Set r, lb_Offset r, lb_Length r, lb_PinUvAuthParam r, lb_PinUvAuthProtocol r).
Definition blobs_request_of (t : option Z * slice * Z * Z * list Z * Z) : LargeBlobsRequest :=
  let '(a, b, c, d, e, f) := t in MkLargeBlobsRequest a b c d e f.

Definition blob_tuple (b : LargeBlob) : list Z * list Z * Z := (Ciphertext b, Nonce b, OrigSize b).
Definition blob_of (t : list Z * list Z * Z) : LargeBlob :=
  let '(a, b, c) := t in MkLargeBlob a b c.

Definition read_or_fail {A B} (r : option A) (f : A -> B) : result B :=
  match r with Some a => Ok (f a) | None => Err io_EOF end.

Definition blob_codec : Codec := {|
  Any := Z;
  Marshal m := match m with
               | MLargeBlobs r => Ok (number_bytes (blobs_request_tuple r))
               | _ => Err io_EOF
               end;
  Unmarshal_ClientPIN b := Err io_EOF;
  Unmarshal_Bio b := Err io_EOF;
  Unmarshal_CredMgmt b := Err io_EOF;
  Unmarshal_LargeBlobs b := read_or_fail (read_number (A := list Z) b) id;
  Unmarshal_Info b := Err io_EOF;
  Unmarshal_MakeCredential b := Err io_EOF;
  Unmarshal_GetAssertion b := Err io_EOF;
  decode_cose_key b := Err io_EOF;
  decode_any_map b := Err io_EOF;
  Decode_CreateExtensionOutputs b := Err io_EOF;
  Decode_GetExtensionOutputs b := Err io_EOF;
  remarshal_supported a := Err io_EOF;
  remarshal_GetLargeBlobOutput a := Err io_EOF;
  remarshal_AttestationObject a := Err io_EOF;
  Marshal_LargeBlobArray l := Ok (number_bytes (blob_tuple <$> l));
  Unmarshal_LargeBlobArray b := read_or_fail (read_number b) (fmap blob_of) |}.

Definition blob_wire : @BlobWire blob_codec.
Proof.
  refine {| read_blobs_request := fun b => blobs_request_of <$> read_number b;
            write_blobs_response := fun l => number_bytes l |}.
  - intros r. eexists. split; [reflexivity|]. rewrite read_number_bytes. by destruct r.
  - intros l. change (read_or_fail (read_number (A := list Z) (number_bytes l)) id = Ok l).
    by rewrite read_number_bytes.
  - intros blobs b [= <-]. split; [done|].
    change (read_or_fail (read_number (number_bytes (blob_tuple <$> blobs))) (fmap blob_of) = Ok blobs).
    rewrite read_number_bytes. cbn [read_or_fail]. f_equal. rewrite <- list_fmap_compose.
    induction blobs as [|[] blobs IH]; [done|]. rewrite fmap_cons, IH. done.
Defined.

Definition sample_blob_info : AuthenticatorGetInfoResponse :=
  GetInfoResponse [FIDO_2_1] [] [] {[OptionLargeBlobs := true; OptionClientPIN := true]} 70 [2]
    0 0 [] [] 64 false 0 None 0 None 0 None ∅ None [] [] None None [] [] None [] 0 [] [].

Definition sample_blob : LargeBlob := MkLargeBlob (zeros 20) (zeros 12) 4.

Definition sample_store (l : list Z) : blob_store := Store l None 6 64 (Some (2, zeros 32)).

Lemma large_blob_array_roundtrip_witness :
  exists d, @SetLargeBlobs sample_primitives blob_codec _ true
      (@store_transport sample_primitives blob_codec blob_wire) None (Some (zeros 32)) [sample_blob]
      (MkDevice (sample_store []) sample_blob_info true) = (Ok tt, d) /\
    @GetLargeBlobs sample_primitives blob_codec _ true
      (@store_transport sample_primitives blob_codec blob_wire) None 4 d = (Ok [sample_blob], d).
Proof.
  pose proof (@large_blob_array_roundtrip sample_primitives sample_laws blob_codec blob_wire true
    sample_blob_info (sample_store []) (Some (zeros 32)) [sample_blob]
    (number_bytes [blob_tuple sample_blob]) 2) as Hw.
  destruct Hw as [Hw _].
  - by vm_compute.
  - by vm_compute.
  - by vm_compute.
  - by vm_compute.
  - by vm_compute.
  - right. by exists (zeros 32).
  - destruct Hw as [Hset Hget]; [by vm_compute..|].
    eexists. split; [exact Hset|]. apply Hget. by vm_compute.
Defined.
