(* ===== verification/Prf.v ===== *)
(** * The PRF extension (src/authenticator/prf.go)

    Which PRF inputs a CTAP request carries: WebAuthn chooses them per
    credential, by base64url credential ID, while one request evaluates one
    pair of salts for whichever allowed credential the authenticator picks.
    [encoding/base64]'s raw URL encoding is modelled with its strict decoder,
    which skips line breaks; the order in which Go ranges over a map is a
    parameter. *)
From S2P Require Import Prelude GoError Protocol Pin Preflight Cose Crypto Messages.

(** ** base64.RawURLEncoding *)

Definition alphabet : list Ascii.ascii :=
  String.list_ascii_of_string "ABCDEFGHIJKLMNOPQRSTUVWXYZabcdefghijklmnopqrstuvwxyz0123456789-_".

Definition digit_char (d : Z) : Ascii.ascii := nth (Z.to_nat d) alphabet (Ascii.ascii_of_nat 65).

Fixpoint index_of (c : Ascii.ascii) (l : list Ascii.ascii) (i : Z) : option Z :=
  match l with
  | [] => None
  | c' :: l' => if Ascii.eqb c c' then Some i else index_of c l' (i + 1)
  end.
Definition char_digit (c : Ascii.ascii) : option Z := index_of c alphabet 0.

(** The 6-bit digits of whole and partial groups of three bytes. *)
Fixpoint digits_of (b : list Z) : list Z :=
  match b with
  | [] => []
  | [x] => let v := x * 2 ^ 16 in [v / 2 ^ 18; v / 2 ^ 12 mod 64]
  | [x; y] => let v := x * 2 ^ 16 + y * 2 ^ 8 in [v / 2 ^ 18; v / 2 ^ 12 mod 64; v / 2 ^ 6 mod 64]
  | x :: y :: z :: rest =>
      let v := x * 2 ^ 16 + y * 2 ^ 8 + z in
      v / 2 ^ 18 :: v / 2 ^ 12 mod 64 :: v / 2 ^ 6 mod 64 :: v mod 64 :: digits_of rest
  end.

Definition EncodeToString (b : list Z) : string :=
  String.string_of_list_ascii (digit_char <$> digits_of b).

(** The strict decoder refuses a single left-over digit and left-over bits. *)
Fixpoint bytes_of_digits (ds : list Z) : option (list Z) :=
  match ds with
  | [] => Some []
  | [_] => None
  | [a; b] =>
      let v := a * 2 ^ 18 + b * 2 ^ 12 in
      if negb (v mod 2 ^ 16 =? 0) then None else Some [v / 2 ^ 16]
  | [a; b; c] =>
      let v := a * 2 ^ 18 + b * 2 ^ 12 + c * 2 ^ 6 in
      if negb (v mod 2 ^ 8 =? 0) then None else Some [v / 2 ^ 16; v / 2 ^ 8 mod 256]
  | a :: b :: c :: d :: rest =>
      let v := a * 2 ^ 18 + b * 2 ^ 12 + c * 2 ^ 6 + d in
      l ← bytes_of_digits rest;
      Some (v / 2 ^ 16 :: v / 2 ^ 8 mod 256 :: v mod 256 :: l)
  end.

Definition line_break (c : Ascii.ascii) : bool :=
  Ascii.eqb c (Ascii.ascii_of_nat 10) || Ascii.eqb c (Ascii.ascii_of_nat 13).

Definition StrictDecodeString (s : string) : option (list Z) :=
  ds ← mapM char_digit (filter (fun c => line_break c = false) (String.list_ascii_of_string s));
  bytes_of_digits ds.

(** ** Inputs *)

Record PRFValues := MkPRFValues { First : slice; Second : slice }.

#[export] Instance PRFValues_eq_dec : EqDecision PRFValues.
Proof. solve_decision. Defined.

Record PRFInputs := MkPRFInputs {
  Eval : PRFValues;
  EvalByCredential : option (gmap string PRFValues) }.   (* a nil map is [None] *)

Definition eval_map (inputs : PRFInputs) : gmap string PRFValues := default ∅ (EvalByCredential inputs).

Definition ExtensionIdentifierHMACSecret : string := "hmac-secret".
Definition ExtensionIdentifierHMACSecretMC : string := "hmac-secret-mc".

Definition userVerificationWillBePerformed (info : AuthenticatorGetInfoResponse)
    (pinUvAuthToken : slice) (options : gmap string bool) : bool :=
  has_token pinUvAuthToken || flag options OptionUserVerification ||
  alwaysUVEnabled info && flag (Options info) OptionUserVerification.

Definition prfCapabilities (info : AuthenticatorGetInfoResponse) : result (bool * bool) :=
  let supportsHMACSecret := contains (Extensions info) ExtensionIdentifierHMACSecret in
  let supportsHMACSecretMC := contains (Extensions info) ExtensionIdentifierHMACSecretMC in
  if supportsHMACSecretMC && negb supportsHMACSecret then
    Err (newErrorMessage ErrSpecViolation
      "device reports hmac-secret-mc without dependent hmac-secret extension")
  else Ok (supportsHMACSecret, supportsHMACSecretMC).

Definition validateOptionalPRFValues (name : string) (values : PRFValues) : result bool :=
  match First values, Second values with
  | Some _, _ => Ok true
  | None, Some _ => Err (newErrorMessage SyntaxError (name +:+ ".second requires " +:+ name +:+ ".first"))
  | None, None => Ok false
  end.

Definition validateRequiredPRFValues (name : string) (values : PRFValues) : option error :=
  check (bool_decide (First values = None))
    (newErrorMessage SyntaxError (name +:+ ".first is required")).

(** A key that is the one encoding of a non-empty credential ID. *)
Definition canonical_id (encodedID : string) : bool :=
  negb (bool_decide (encodedID = "")) &&
  match StrictDecodeString encodedID with
  | Some credentialID => bool_decide (EncodeToString credentialID = encodedID)
  | None => false
  end.

(** One entry of the loop over evalByCredential. *)
Definition check_entry (allowedCredentialIDs : list string) (entry : string * PRFValues) : option error :=
  let '(encodedID, values) := entry in
  first_error [
    check (negb (canonical_id encodedID))
      (newErrorMessage SyntaxError "evalByCredential contains an invalid base64url credential ID");
    check (negb (contains allowedCredentialIDs encodedID))
      (newErrorMessage SyntaxError "evalByCredential credential ID is not present in allowList");
    validateRequiredPRFValues "evalByCredential" values].

Section Range.
(** The order of [for encodedID, values := range inputs.EvalByCredential]. *)
Context (range : gmap string PRFValues -> list (string * PRFValues)).

Definition validateGetPRFInputs (inputs : PRFInputs) (allowList : list Descriptor) : option error :=
  match validateOptionalPRFValues "eval" (Eval inputs) with
  | Err err => Some err
  | _ =>
      if bool_decide (eval_map inputs = ∅) then None
      else if bool_decide (allowList = []) then
        Some (newErrorMessage ErrNotSupported "non-empty evalByCredential requires a non-empty allowList")
      else
        let allowedCredentialIDs := (fun descriptor => EncodeToString (bytes_of (cred_ID descriptor))) <$> allowList in
        first_error (check_entry allowedCredentialIDs <$> range (eval_map inputs))
  end.

(** ** The inputs of one request *)

Definition selectPRFEvaluationForCredential (inputs : PRFInputs) (credentialID : slice)
    : option PRFValues :=
  match eval_map inputs !! EncodeToString (bytes_of credentialID) with
  | Some values => Some values
  | None => if bool_decide (First (Eval inputs) = None) then None else Some (Eval inputs)
  end.

Definition equalOptionalPRFValues (a b : option PRFValues) : bool :=
  match a, b with
  | Some a, Some b =>
      Bool.eqb (bool_decide (First a = None)) (bool_decide (First b = None)) &&
      bool_decide (bytes_of (First a) = bytes_of (First b)) &&
      Bool.eqb (bool_decide (Second a = None)) (bool_decide (Second b = None)) &&
      bool_decide (bytes_of (Second a) = bytes_of (Second b))
  | None, None => true
  | _, _ => false
  end.

Definition different_inputs : string := "Device.GetAssertion cannot apply different credential-specific PRF inputs in one CTAP request; issue one request per credential".

(** The loop over the allow list; [reference] is set by its first turn. *)
Fixpoint common_evaluation (inputs : PRFInputs) (allowList : list Descriptor) (seen : list string)
    (reference : option (option PRFValues)) : result (option PRFValues) :=
  match allowList with
  | [] => Ok (default None reference)
  | descriptor :: rest =>
      let encodedID := EncodeToString (bytes_of (cred_ID descriptor)) in
      if contains seen encodedID then common_evaluation inputs rest seen reference
      else
        let effective := selectPRFEvaluationForCredential inputs (cred_ID descriptor) in
        match reference with
        | None => common_evaluation inputs rest (encodedID :: seen) (Some effective)
        | Some r =>
            if negb (equalOptionalPRFValues r effective) then
              Err (newErrorMessage ErrNotSupported different_inputs)
            else common_evaluation inputs rest (encodedID :: seen) reference
        end
  end.

Definition selectCTAPGetPRFEvaluation (inputs : PRFInputs) (allowList : list Descriptor)
    : result (option PRFValues) :=
  match validateGetPRFInputs inputs allowList with
  | Some err => Err err
  | None =>
      if bool_decide (eval_map inputs = ∅) then Ok (selectPRFEvaluationForCredential inputs None)
      else common_evaluation inputs allowList [] None
  end.

Definition validateHMACSecretUserPresence (options : gmap string bool) : option error :=
  check (bool_decide (options !! OptionUserPresence = Some false))
    (newErrorMessage ErrNotSupported "hmac-secret requires user presence").

Definition prfUserVerificationRequiredError (info : AuthenticatorGetInfoResponse) : error :=
  if flag (Options info) OptionUserVerification then
    newErrorMessage ErrBuiltInUVRequired "PRF evaluation requires options[uv]=true or a pinUvAuthToken"
  else if flag (Options info) OptionClientPIN
          && negb (flag (Options info) OptionNoMcGaPermissionsWithClientPin) then
    newErrorMessage ErrPinUvAuthTokenRequired "PRF evaluation requires user verification"
  else if bool_decide (Options info !! OptionUserVerification = Some false) then
    newErrorMessage ErrUvNotConfigured "PRF evaluation requires configured user verification"
  else newErrorMessage ErrNotSupported
         "device cannot perform the user verification required for PRF evaluation".

(** [inputs] is the request's PRFInputs pointer. *)
Definition validateCreatePRF (info : AuthenticatorGetInfoResponse) (pinUvAuthToken : slice)
    (inputs : option PRFInputs) (options : gmap string bool) : result (option PRFValues) :=
  match inputs with
  | None => Ok None
  | Some prf =>
      if bool_decide (is_Some (EvalByCredential prf)) then
        Err (newErrorMessage ErrNotSupported "evalByCredential is not supported during registration")
      else
        validateOptionalPRFValues "eval" (Eval prf) ≫= fun evalPresent =>
        prfCapabilities info ≫= fun '(supportsHMACSecret, supportsHMACSecretMC) =>
        if negb evalPresent || negb supportsHMACSecret || negb supportsHMACSecretMC then Ok None
        else if negb (userVerificationWillBePerformed info pinUvAuthToken options) then Ok None
        else Ok (Some (Eval prf))
  end.

Definition validateGetPRF (info : AuthenticatorGetInfoResponse) (pinUvAuthToken : slice)
    (allowList : list Descriptor) (inputs : option PRFInputs) (options : gmap string bool)
    : result (option PRFValues) :=
  match inputs with
  | None => Ok None
  | Some prf =>
      selectCTAPGetPRFEvaluation prf allowList ≫= fun evaluation =>
      prfCapabilities info ≫= fun '(supportsHMACSecret, _) =>
      if bool_decide (evaluation = None) || negb supportsHMACSecret then Ok None
      else match validateHMACSecretUserPresence options with
      | Some err => Err err
      | None =>
          if negb (userVerificationWillBePerformed info pinUvAuthToken options) then
            Err (prfUserVerificationRequiredError info)
          else Ok evaluation
      end
  end.
End Range.

(** ** Salts and results *)

Definition hashPRFInput `{Primitives} (input : slice) : list Z :=
  sha256 (bytes_of_string "WebAuthn PRF" ++ [0x00] ++ bytes_of input).

Definition prfSalts `{Primitives} (values : PRFValues) : list Z :=
  match Second values with
  | None => hashPRFInput (First values)
  | Some second => hashPRFInput (First values) ++ hashPRFInput (Some second)
  end.

Definition validatePRFResultLength (values : PRFValues) (res : list Z) : option error :=
  let want := match Second values with Some _ => 64 | None => 32 end in
  check (negb (len res =? want))
    (newErrorMessage ErrSpecViolation
       ("device returned " +:+ pretty (len res) +:+ " PRF result bytes, want " +:+ pretty want)).

(** ** Base64 *)

Lemma char_digit_char d : 0 <= d < 64 -> char_digit (digit_char d) = Some d /\
  line_break (digit_char d) = false.
Proof.
  intros Hd. assert (Ha : Forall (fun i => char_digit (digit_char i) = Some i /\
    line_break (digit_char i) = false) (seqZ 0 64)).
  { vm_compute. repeat constructor. }
  rewrite Forall_forall in Ha. apply Ha, elem_of_seqZ. lia.
Qed.

(** Induction along the groups of three bytes. *)
Lemma triples_ind (P : list Z -> Prop) :
  P [] -> (forall x, P [x]) -> (forall x y, P [x; y]) ->
  (forall x y z rest, P rest -> P (x :: y :: z :: rest)) -> forall b, P b.
Proof.
  intros H0 H1 H2 H3. fix IH 1. intros [|x [|y [|z rest]]]; [done|by auto..|]. apply H3, IH.
Qed.

(** A group of three bytes as a 24-bit number, and its digits. *)
Definition group (x y z : Z) : Z := x * 2 ^ 16 + y * 2 ^ 8 + z.

Lemma group_digits v : 0 <= v < 2 ^ 24 ->
  0 <= v / 2 ^ 18 < 64 /\ v / 2 ^ 18 * 2 ^ 18 + v / 2 ^ 12 mod 64 * 2 ^ 12 + v / 2 ^ 6 mod 64 * 2 ^ 6 + v mod 64 = v.
Proof.
  assert (H12 : v / 2 ^ 12 = v / 64 / 64) by (rewrite Z.div_div; [done|lia..]).
  assert (H18 : v / 2 ^ 18 = v / 64 / 64 / 64) by (rewrite !Z.div_div; [done|lia..]).
  rewrite H12, H18. change (2 ^ 6) with 64.
  pose proof (Z.div_mod v 64 ltac:(done)). set (a := v / 64) in *.
  pose proof (Z.div_mod a 64 ltac:(done)). set (b := a / 64) in *.
  pose proof (Z.div_mod b 64 ltac:(done)).
  pose proof (Z.mod_pos_bound v 64 ltac:(done)). pose proof (Z.mod_pos_bound a 64 ltac:(done)).
  pose proof (Z.mod_pos_bound b 64 ltac:(done)).
  change (2 ^ 24) with 16777216. change (2 ^ 18) with 262144. change (2 ^ 12) with 4096.
  generalize dependent (b / 64). generalize dependent (v mod 64). generalize dependent (a mod 64).
  generalize dependent (b mod 64). lia.
Qed.

Lemma group_bytes x y z : is_byte x -> is_byte y -> is_byte z ->
  0 <= group x y z < 2 ^ 24 /\ group x y z / 2 ^ 16 = x /\
  group x y z / 2 ^ 8 mod 256 = y /\ group x y z mod 256 = z.
Proof.
  unfold is_byte, group. intros Hx Hy Hz. change (2 ^ 24) with 16777216. change (2 ^ 16) with 65536.
  change (2 ^ 8) with 256. split_and!; [lia|lia| | |].
  - symmetry. apply Z.div_unique with (y * 256 + z); lia.
  - replace ((_ + z) / 256) with (x * 256 + y) by (apply Z.div_unique with z; lia).
    symmetry. apply Z.mod_unique with x; lia.
  - symmetry. apply Z.mod_unique with (x * 256 + y); lia.
Qed.

Lemma group_aligned x y : is_byte x -> is_byte y ->
  group x y 0 mod 64 = 0 /\ group x y 0 mod 2 ^ 8 = 0 /\
  group x 0 0 / 2 ^ 6 mod 64 = 0 /\ group x 0 0 mod 2 ^ 16 = 0.
Proof.
  unfold is_byte, group. intros Hx Hy. change (2 ^ 16) with 65536. change (2 ^ 8) with 256.
  change (2 ^ 6) with 64. split_and!.
  - symmetry. apply Z.mod_unique with (x * 1024 + y * 4); lia.
  - symmetry. apply Z.mod_unique with (x * 256 + y); lia.
  - replace ((_ + 0) / 64) with (x * 1024) by (apply Z.div_unique with 0; lia).
    symmetry. apply Z.mod_unique with (x * 16); lia.
  - symmetry. apply Z.mod_unique with x; lia.
Qed.

Lemma digits_of_spec b : Forall is_byte b ->
  Forall (fun d => 0 <= d < 64) (digits_of b) /\ bytes_of_digits (digits_of b) = Some b.
Proof.
  assert (H0 : is_byte 0) by done.
  assert (Hm : forall v, 0 <= v mod 64 < 64) by (intros; by apply Z.mod_pos_bound).
  induction b as [|x|x y|x y z rest IH] using triples_ind; intros Hb; [done|..].
  - apply Forall_cons in Hb as [Hx _].
    destruct (group_bytes x 0 0) as (Hv & Hx' & _); [done..|].
    destruct (group_digits _ Hv) as [Hd Hs]. destruct (group_aligned x 0) as (Ha & _ & Hb & Hc); [done..|].
    rewrite Ha, Hb in Hs.
    assert (E : x * 2 ^ 16 = group x 0 0) by (unfold group; lia).
    cbn [digits_of bytes_of_digits]. rewrite E. split; [repeat (apply Forall_cons_2; [apply Hd || apply Hm|]); done|].
    replace (_ + _) with (group x 0 0) by lia. by rewrite Hc, Hx'.
  - apply Forall_cons in Hb as [Hx Hb]. apply Forall_cons in Hb as [Hy _].
    destruct (group_bytes x y 0) as (Hv & Hx' & Hy' & _); [done..|].
    destruct (group_digits _ Hv) as [Hd Hs]. destruct (group_aligned x y) as (Ha & Hc & _); [done..|].
    rewrite Ha in Hs.
    assert (E : x * 2 ^ 16 + y * 2 ^ 8 = group x y 0) by (unfold group; lia).
    cbn [digits_of bytes_of_digits]. rewrite E. split; [repeat (apply Forall_cons_2; [apply Hd || apply Hm|]); done|].
    replace (_ + _ + _) with (group x y 0) by lia. by rewrite Hc, Hx', Hy'.
  - apply Forall_cons in Hb as [Hx Hb]. apply Forall_cons in Hb as [Hy Hb].
    apply Forall_cons in Hb as [Hz Hb]. destruct (IH Hb) as [Hr Hr'].
    destruct (group_bytes x y z) as (Hv & Hx' & Hy' & Hz'); [done..|].
    destruct (group_digits _ Hv) as [Hd Hs].
    cbn [digits_of bytes_of_digits]. fold (group x y z).
    split; [repeat (apply Forall_cons_2; [apply Hd || apply Hm|]); done|].
    rewrite Hs, Hr'. cbn [mbind option_bind]. by rewrite Hx', Hy', Hz'.
Qed.

(** What is encoded decodes to itself. *)
Lemma Decode_Encode b : Forall is_byte b -> StrictDecodeString (EncodeToString b) = Some b.
Proof.
  intros Hb. destruct (digits_of_spec b Hb) as [Hd Hr].
  unfold StrictDecodeString, EncodeToString. rewrite String.list_ascii_of_string_of_list_ascii.
  rewrite filter_all.
  - replace (mapM char_digit (digit_char <$> digits_of b)) with (Some (digits_of b)); [done|].
    symmetry. apply mapM_Some, Forall2_fmap_l, Forall_Forall2_diag.
    eapply Forall_impl; [exact Hd|]. intros d Hd'. by apply char_digit_char.
  - apply Forall_fmap. eapply Forall_impl; [exact Hd|]. intros d Hd'. by apply char_digit_char.
Qed.

Lemma Encode_inj b b' : Forall is_byte b -> Forall is_byte b' ->
  EncodeToString b = EncodeToString b' -> b = b'.
Proof. intros Hb Hb' E. apply Decode_Encode in Hb, Hb'. congruence. Qed.

(** ** Which inputs are evaluated *)

(** The dictionaries WebAuthn admits for these allowed credentials. *)
Definition valid_inputs (inputs : PRFInputs) (allowList : list Descriptor) : Prop :=
  (First (Eval inputs) = None -> Second (Eval inputs) = None) /\
  forall key values, eval_map inputs !! key = Some values ->
    First values <> None /\
    exists d, d ∈ allowList /\ bytes_of (cred_ID d) <> [] /\ key = EncodeToString (bytes_of (cred_ID d)).

(** The credentials the authenticator may answer with. *)
Definition may_answer (allowList : list Descriptor) (id : slice) : Prop :=
  allowList = [] \/ id ∈ cred_ID <$> allowList.

Definition byte_ids (allowList : list Descriptor) : Prop :=
  Forall (fun d => Forall is_byte (bytes_of (cred_ID d))) allowList.

Lemma validateOptionalPRFValues_spec name values :
  if decide (First values = None -> Second values = None)
  then validateOptionalPRFValues name values = Ok (bool_decide (First values <> None))
  else exists err, validateOptionalPRFValues name values = Err err.
Proof.
  unfold validateOptionalPRFValues. destruct values as [[f|] [s|]]; cbn; case_decide; naive_solver.
Qed.

Lemma Encode_empty b : EncodeToString b = "" <-> b = [].
Proof.
  split; [|by intros ->]. destruct b as [|x [|y [|z rest]]]; [done|intros E; by inversion E..].
Qed.

Lemma equalOptionalPRFValues_spec a b : equalOptionalPRFValues a b = bool_decide (a = b).
Proof.
  destruct a as [[[?|] [?|]]|], b as [[[?|] [?|]]|]; cbn; unfold bytes_of; cbn;
    repeat case_bool_decide; naive_solver.
Qed.

Lemma canonical_id_Encode b : Forall is_byte b ->
  canonical_id (EncodeToString b) = bool_decide (b <> []).
Proof.
  intros Hb. unfold canonical_id. rewrite Decode_Encode by done.
  rewrite (bool_decide_true (_ = EncodeToString b)), andb_true_r by done.
  rewrite <- bool_decide_not. apply bool_decide_ext. by rewrite Encode_empty.
Qed.

(** Every key admitted is the encoding of an allowed, non-empty ID. *)
Lemma allowed_id allowList key : byte_ids allowList ->
  canonical_id key = true /\
    contains ((fun d => EncodeToString (bytes_of (cred_ID d))) <$> allowList) key = true <->
  exists d, d ∈ allowList /\ bytes_of (cred_ID d) <> [] /\ key = EncodeToString (bytes_of (cred_ID d)).
Proof.
  unfold byte_ids. rewrite Forall_forall, contains_true, list_elem_of_fmap. intros Hb. split.
  - intros (Hc & d & -> & Hd). rewrite canonical_id_Encode in Hc by auto.
    apply bool_decide_eq_true in Hc. eauto.
  - intros (d & Hd & Hne & ->). rewrite canonical_id_Encode by auto.
    split; [by apply bool_decide_eq_true|eauto].
Qed.

Section Range.
Context (range : gmap string PRFValues -> list (string * PRFValues)).
Hypothesis range_spec : forall m, range m ≡ₚ map_to_list m.

Lemma elem_of_range m key values : (key, values) ∈ range m <-> m !! key = Some values.
Proof. rewrite range_spec. apply elem_of_map_to_list. Qed.

Lemma check_entry_spec allowList key values : byte_ids allowList ->
  check_entry ((fun d => EncodeToString (bytes_of (cred_ID d))) <$> allowList) (key, values) = None <->
  First values <> None /\
  exists d, d ∈ allowList /\ bytes_of (cred_ID d) <> [] /\ key = EncodeToString (bytes_of (cred_ID d)).
Proof.
  intros Hb. unfold check_entry, validateRequiredPRFValues. rewrite <- (allowed_id allowList key Hb).
  rewrite first_error_None, !Forall_cons, !check_None, !negb_false_iff, bool_decide_eq_false.
  split; [by intros (? & ? & ? & _)|by intros [? [? ?]]].
Qed.

Lemma validateGetPRFInputs_spec inputs allowList : byte_ids allowList ->
  validateGetPRFInputs range inputs allowList = None <-> valid_inputs inputs allowList.
Proof.
  intros Hb. unfold validateGetPRFInputs, valid_inputs.
  pose proof (validateOptionalPRFValues_spec "eval" (Eval inputs)) as He. case_decide.
  2: { destruct He as [err ->]. naive_solver. }
  rewrite He. clear He. case_bool_decide as Hm.
  { rewrite Hm. split; [|done]. intros _. split; [done|]. intros key values E.
    by rewrite lookup_empty in E. }
  case_bool_decide as Hl.
  { split; [done|]. intros [_ Hv]. destruct (map_choose _ Hm) as (key & values & E).
    destruct (Hv _ _ E) as [_ (d & Hd & _)]. subst. by apply elem_of_nil in Hd. }
  rewrite first_error_None, Forall_fmap, Forall_forall. split.
  - intros Hc. split; [done|]. intros key values E.
    apply check_entry_spec; [done|]. by apply Hc, elem_of_range.
  - intros [_ Hv] [key values] E. apply check_entry_spec, Hv, elem_of_range; done.
Qed.

Lemma common_evaluation_spec inputs l seen r :
  (forall d, EncodeToString (bytes_of (cred_ID d)) ∈ seen ->
     selectPRFEvaluationForCredential inputs (cred_ID d) = r) ->
  common_evaluation inputs l seen (Some r) =
    if decide (Forall (fun d => selectPRFEvaluationForCredential inputs (cred_ID d) = r) l)
    then Ok r else Err (newErrorMessage ErrNotSupported different_inputs).
Proof.
  revert seen. induction l as [|d l IH]; intros seen Hs; cbn [common_evaluation].
  { rewrite decide_True; [done|by apply Forall_nil]. }
  destruct (contains seen _) eqn:Hc.
  - apply contains_true in Hc. rewrite IH by done. apply decide_ext.
    rewrite Forall_cons. naive_solver.
  - rewrite equalOptionalPRFValues_spec. case_bool_decide as Hr; cbn [negb].
    + rewrite IH; [apply decide_ext; rewrite Forall_cons; naive_solver|].
      intros d' Hd'. apply list_elem_of_In in Hd' as [E|Hd']; [|by apply Hs, list_elem_of_In].
      unfold selectPRFEvaluationForCredential in *. by rewrite <- E, Hr.
    + rewrite decide_False; [done|]. rewrite Forall_cons. naive_solver.
Qed.

(** What WebAuthn evaluates for a credential: the entry of evalByCredential
    under its ID before anything else, [eval] if there is no such entry, and
    nothing without both. *)
Inductive webauthn_evaluates (inputs : PRFInputs) (id : slice) : option PRFValues -> Prop :=
  | evaluates_entry values :
      (EncodeToString (bytes_of id), values) ∈ map_to_list (eval_map inputs) ->
      webauthn_evaluates inputs id (Some values)
  | evaluates_eval :
      EncodeToString (bytes_of id) ∉ (map_to_list (eval_map inputs)).*1 ->
      First (Eval inputs) <> None ->
      webauthn_evaluates inputs id (Some (Eval inputs))
  | evaluates_nothing :
      EncodeToString (bytes_of id) ∉ (map_to_list (eval_map inputs)).*1 ->
      First (Eval inputs) = None ->
      webauthn_evaluates inputs id None.

(** The choice of WebAuthn is one for every credential that may answer. *)
Definition chosen (inputs : PRFInputs) (allowList : list Descriptor) (ev : option PRFValues) : Prop :=
  forall id, may_answer allowList id -> webauthn_evaluates inputs id ev.

Lemma selected_evaluates inputs id ev :
  webauthn_evaluates inputs id ev <-> selectPRFEvaluationForCredential inputs id = ev.
Proof.
  assert (Hk : forall key, key ∉ (map_to_list (eval_map inputs)).*1 <-> eval_map inputs !! key = None).
  { intros key. rewrite list_elem_of_fmap. split.
    - intros Hn. destruct (_ !! key) as [v|] eqn:E; [|done]. contradict Hn. exists (key, v).
      by rewrite elem_of_map_to_list.
    - intros E ([key' v] & -> & Hv%elem_of_map_to_list). cbn in E. congruence. }
  unfold selectPRFEvaluationForCredential. split.
  - intros [values Hv%elem_of_map_to_list|Hn%Hk Hf|Hn%Hk Hf].
    + by rewrite Hv.
    + rewrite Hn. by rewrite bool_decide_false.
    + rewrite Hn. by rewrite bool_decide_true.
  - intros <-. destruct (_ !! _) as [values|] eqn:E.
    + by apply evaluates_entry, elem_of_map_to_list.
    + apply Hk in E. case_bool_decide; [by apply evaluates_nothing|by apply evaluates_eval].
Qed.

Lemma chosen_selected inputs allowList ev :
  chosen inputs allowList ev <->
  forall id, may_answer allowList id -> selectPRFEvaluationForCredential inputs id = ev.
Proof. split; intros Hc id Hid; by apply selected_evaluates, Hc. Qed.

Lemma selectCTAPGetPRFEvaluation_spec inputs allowList ev : byte_ids allowList ->
  selectCTAPGetPRFEvaluation range inputs allowList = Ok ev <->
  valid_inputs inputs allowList /\ chosen inputs allowList ev.
Proof.
  intros Hb. rewrite chosen_selected. unfold selectCTAPGetPRFEvaluation, may_answer.
  pose proof (validateGetPRFInputs_spec inputs allowList Hb) as Hv.
  destruct (validateGetPRFInputs range inputs allowList) as [err|].
  { naive_solver. }
  destruct Hv as [Hv _]. specialize (Hv eq_refl). case_bool_decide as Hm.
  - assert (Hs : forall id, selectPRFEvaluationForCredential inputs id =
        selectPRFEvaluationForCredential inputs None).
    { intros id. unfold selectPRFEvaluationForCredential. by rewrite Hm, !lookup_empty. }
    split.
    + intros [= <-]. split; [done|]. intros id _. apply Hs.
    + intros [_ Hc]. destruct allowList as [|d l].
      * rewrite <- (Hc None); [done|by left].
      * rewrite <- (Hc (cred_ID d)); [by rewrite (Hs (cred_ID d))|right; left].
  - destruct allowList as [|d l].
    { destruct Hv as [_ Hv]. destruct (map_choose _ Hm) as (key & values & E).
      destruct (Hv _ _ E) as [_ (d & Hd & _)]. by apply elem_of_nil in Hd. }
    cbn [common_evaluation]. change (contains [] _) with false. cbn iota.
    rewrite common_evaluation_spec.
    2: { intros d' Hd'. apply list_elem_of_singleton in Hd'.
         unfold selectPRFEvaluationForCredential. by rewrite Hd'. }
    case_decide as Hf; rewrite Forall_forall in Hf.
    + split.
      * intros [= <-]. split; [done|]. intros id [|Hid]; [done|].
        apply list_elem_of_fmap in Hid as (d' & -> & Hd').
        apply elem_of_cons in Hd' as [->|Hd']; [done|by apply Hf].
      * intros [_ Hc]. f_equal. apply Hc. right. left.
    + split; [done|]. intros [_ Hc]. contradict Hf. intros d' Hd'.
      rewrite (Hc (cred_ID d')), (Hc (cred_ID d)); [done|right; left|right].
      rewrite list_elem_of_fmap. exists d'. split; [done|by right].
Qed.

Lemma selectCTAPGetPRFEvaluation_total inputs allowList :
  (exists ev, selectCTAPGetPRFEvaluation range inputs allowList = Ok ev) \/
  exists err, selectCTAPGetPRFEvaluation range inputs allowList = Err err.
Proof.
  unfold selectCTAPGetPRFEvaluation. destruct (validateGetPRFInputs _ _ _); [by right; eexists|].
  case_bool_decide; [by left; eexists|]. generalize (@nil string) (@None (option PRFValues)).
  induction allowList as [|d l IH]; intros seen r; cbn [common_evaluation]; [by left; eexists|].
  destruct (contains _ _); [apply IH|]. destruct r as [r|]; [|apply IH].
  destruct (negb _); [by right; eexists|apply IH].
Qed.

Lemma prfCapabilities_spec info :
  if decide (ExtensionIdentifierHMACSecretMC ∈ Extensions info -> ExtensionIdentifierHMACSecret ∈ Extensions info)
  then prfCapabilities info = Ok (bool_decide (ExtensionIdentifierHMACSecret ∈ Extensions info),
                                  bool_decide (ExtensionIdentifierHMACSecretMC ∈ Extensions info))
  else exists err, prfCapabilities info = Err err.
Proof.
  unfold prfCapabilities, contains.
  case_decide; repeat case_bool_decide; cbn; naive_solver.
Qed.

(** C21. GetAssertion sends one pair of PRF salts and the authenticator
    answers with a credential it picks. [validateGetPRF] accepts values
    exactly when the dictionaries are those WebAuthn admits for the allow
    list (every key of evalByCredential is the base64url encoding of the
    non-empty ID of an allowed credential, and first is present wherever it
    is required), the values WebAuthn would choose are the same for every
    credential that may answer - the entry under its ID before eval - and the
    authenticator can evaluate them with user presence and verification. An error is returned, whatever the order
    in which Go ranges over the map, when the dictionaries are not admitted
    or two credentials would need different values. During registration only
    [eval] is evaluated, and never without user verification. *)
Theorem prf_evaluation_selected info token allowList inputs options : byte_ids allowList ->
  (forall ev, validateGetPRF range info token allowList (Some inputs) options = Ok (Some ev) <->
     valid_inputs inputs allowList /\ chosen inputs allowList (Some ev) /\
     ExtensionIdentifierHMACSecret ∈ Extensions info /\
     options !! OptionUserPresence <> Some false /\
     userVerificationWillBePerformed info token options = true) /\
  (~ (valid_inputs inputs allowList /\ exists ev, chosen inputs allowList ev) ->
     exists err, validateGetPRF range info token allowList (Some inputs) options = Err err) /\
  (forall ev, validateCreatePRF info token (Some inputs) options = Ok (Some ev) <->
     EvalByCredential inputs = None /\ ev = Eval inputs /\ First ev <> None /\
     ExtensionIdentifierHMACSecret ∈ Extensions info /\
     ExtensionIdentifierHMACSecretMC ∈ Extensions info /\
     userVerificationWillBePerformed info token options = true).
Proof.
  intros Hb. pose proof (fun ev => selectCTAPGetPRFEvaluation_spec inputs allowList ev Hb) as Hs.
  pose proof (selectCTAPGetPRFEvaluation_total inputs allowList) as Ht.
  pose proof (prfCapabilities_spec info) as Hp.
  unfold validateGetPRF, validateCreatePRF, validateHMACSecretUserPresence.
  split_and!.
  - intros ev. rewrite (and_assoc (valid_inputs _ _)).
    rewrite <- (Hs (Some ev)). clear Hs. destruct Ht as [[ev' ->]|[err ->]]; cbn [mbind result_bind].
    2: { split; [done|by intros [? _]]. }
    case_decide as Hmc; [rewrite Hp|destruct Hp as [err ->]; split; [done|]]; cbn [mbind result_bind].
    2: { intros (_ & Hh & _). by destruct Hmc. }
    clear Hp. unfold check. destruct (userVerificationWillBePerformed _ _ _); repeat case_bool_decide;
      cbn; split; intros; destruct_and?; split_and?; congruence.
  - intros Hn. destruct Ht as [[ev' E]|[err E]]; rewrite E; [|by eexists].
    contradict Hn. apply Hs in E as [Hv Hc]. by split; [|eexists].
  - intros ev. destruct (EvalByCredential inputs) as [m|] eqn:He.
    { rewrite bool_decide_true by by eexists. naive_solver. }
    rewrite bool_decide_false by by intros [? ?].
    pose proof (validateOptionalPRFValues_spec "eval" (Eval inputs)) as Ho.
    case_decide as Hf; [|destruct Ho as [err ->]; cbn; split; [done|]].
    2: { intros (_ & -> & Hev & _). naive_solver. }
    rewrite Ho. cbn. case_decide as Hmc; [rewrite Hp|destruct Hp as [err ->]; split; [done|]];
      cbn [mbind result_bind].
    2: { intros (_ & _ & _ & Hh & _). by destruct Hmc. }
    clear Hp Ho. destruct (userVerificationWillBePerformed _ _ _); repeat case_bool_decide;
      cbn; split; intros; destruct_and?; split_and?; congruence.
Qed.
End Range.

(** A range that goes through the map in the order of [map_to_list], and a
    request for one credential. *)
Definition sample_inputs : PRFInputs :=
  MkPRFInputs (MkPRFValues (Some [9]) None)
    (Some {[ EncodeToString [1; 2; 250] := MkPRFValues (Some [7]) None ]}).
Definition sample_allow : list Descriptor := [MkDescriptor "public-key" (Some [1; 2; 250]) []].
Definition sample_prf_info : AuthenticatorGetInfoResponse :=
  GetInfoResponse [FIDO_2_1] [ExtensionIdentifierHMACSecret] [] ∅ 0 [] 0 0 [] [] 0 false 0 None 0
    None 0 None ∅ None [] [] None None [] [] None [] 0 [] [].

Lemma prf_evaluation_selected_witness :
  validateGetPRF map_to_list sample_prf_info (Some [0]) sample_allow (Some sample_inputs) ∅ =
    Ok (Some (MkPRFValues (Some [7]) None)) /\
  valid_inputs sample_inputs sample_allow.
Proof.
  destruct (prf_evaluation_selected map_to_list (fun m => reflexivity _) sample_prf_info (Some [0])
    sample_allow sample_inputs ∅) as [Hget _].
  - repeat constructor; done.
  - split; [by vm_compute|]. eapply Hget. by vm_compute.
Defined.
