(* ===== verification/Extensions.v ===== *)
(** * WebAuthn extension inputs and outputs (src/webauthn, src/extension)

    What a caller of [MakeCredential] and [GetAssertion] asks of the
    extensions and what it gets back, the checks of
    src/authenticator/extension_validation.go, and the pure part of
    src/authenticator/large_blob.go: which large-blob backend serves a
    request and what its answer may hold. An embedded pointer of Go is an
    option. Of the payment members only [IsPayment] is read by the library. *)
From S2P Require Import Prelude GoError Protocol Pin Preflight Cose Crypto Messages Prf.

(** ** Identifiers *)

Definition ExtensionIdentifierCredentialProtection : string := "credProtect".
Definition ExtensionIdentifierCredentialBlob : string := "credBlob".
Definition ExtensionIdentifierThirdPartyPayment : string := "thirdPartyPayment".

Definition CredentialProtectionPolicyUserVerificationOptional : string := "userVerificationOptional".
Definition CredentialProtectionPolicyUserVerificationOptionalWithCredentialIDList : string :=
  "userVerificationOptionalWithCredentialIDList".
Definition CredentialProtectionPolicyUserVerificationRequired : string := "userVerificationRequired".

Definition LargeBlobSupportRequired : string := "required".
Definition LargeBlobSupportPreferred : string := "preferred".

(** ** Inputs *)

Record CredentialProtectionInputs := MkCredentialProtectionInputs {
  CredentialProtectionPolicy : string;
  EnforceCredentialProtectionPolicy : bool }.

Record LargeBlobInputs := MkLargeBlobInputs {
  lbi_Support : string;
  lbi_Read : option bool;
  lbi_Write : slice }.

Record PreviewSignSignInputs := MkPreviewSignSignInputs {
  psi_KeyHandle : slice;
  psi_ToBeSigned : slice;
  psi_AdditionalArguments : slice }.

(** [psg_GenerateKey] is the pointer with its one member, the algorithms. *)
Record PreviewSignInputs := MkPreviewSignInputs {
  psg_GenerateKey : option (list Z);
  psg_SignByCredential : option (gmap string PreviewSignSignInputs) }.

Record CreateClientInputs := MkCreateClientInputs {
  in_CredBlob : option slice;
  in_CredentialProperties : option bool;
  in_CredentialProtection : option CredentialProtectionInputs;
  in_HMACCreateSecret : option bool;
  in_HMACSecretMC : option HMACGetSecretInput;
  in_LargeBlob : option LargeBlobInputs;
  in_MinPinLength : option bool;
  in_PinComplexityPolicy : option bool;
  in_Payment : option bool;
  in_PRF : option PRFInputs;
  in_PreviewSign : option PreviewSignInputs }.

Definition zero_create_client_inputs : CreateClientInputs :=
  MkCreateClientInputs None None None None None None None None None None None.

Record GetClientInputs := MkGetClientInputs {
  gin_CredBlob : option bool;
  gin_HMACSecret : option HMACGetSecretInput;
  gin_LargeBlob : option LargeBlobInputs;
  gin_Payment : option bool;
  gin_PRF : option PRFInputs;
  gin_PreviewSign : option PreviewSignInputs }.

Definition zero_get_client_inputs : GetClientInputs :=
  MkGetClientInputs None None None None None None.

(** ** Outputs *)

Record HMACGetSecretOutput := MkHMACGetSecretOutput { Output1 : slice; Output2 : slice }.

Record LargeBlobOutputs := MkLargeBlobOutputs {
  lb_Supported : option bool;
  lb_Blob : slice;
  lb_Written : option bool }.

Definition zero_large_blob_outputs : LargeBlobOutputs := MkLargeBlobOutputs None None None.

Record CreatePRFOutputs := MkCreatePRFOutputs { Enabled : bool; Results : PRFValues }.

Definition zero_prf_values : PRFValues := MkPRFValues None None.

Record PreviewSignGeneratedKey := MkPreviewSignGeneratedKey {
  gk_KeyHandle : list Z;
  gk_PublicKey : list Z;
  gk_Algorithm : Z;
  gk_AttestationObject : list Z }.

Record PreviewSignOutputs := MkPreviewSignOutputs {
  pso_GeneratedKey : option PreviewSignGeneratedKey;
  pso_ClientSignature : slice }.

Record CreateClientOutputs := MkCreateClientOutputs {
  out_CredBlob : option bool;
  out_CredentialProperties : option bool;     (* its ResidentKey *)
  out_HMACCreateSecret : option bool;
  out_HMACSecretMC : option HMACGetSecretOutput;
  out_LargeBlob : option LargeBlobOutputs;
  out_PRF : option CreatePRFOutputs;
  out_PreviewSign : option PreviewSignOutputs }.

Record GetClientOutputs := MkGetClientOutputs {
  gout_CredBlob : slice;
  gout_HMACSecret : option HMACGetSecretOutput;
  gout_LargeBlob : option LargeBlobOutputs;
  gout_PRF : option PRFValues;
  gout_PreviewSign : option PreviewSignOutputs }.

(** ** extension_validation.go *)

Definition credentialProtectionValue (policy : string) : result Z :=
  if bool_decide (policy = CredentialProtectionPolicyUserVerificationOptional) then Ok 0x01
  else if bool_decide (policy = CredentialProtectionPolicyUserVerificationOptionalWithCredentialIDList)
  then Ok 0x02
  else if bool_decide (policy = CredentialProtectionPolicyUserVerificationRequired) then Ok 0x03
  else Err (newErrorMessage SyntaxError "invalid credential protection policy").

Definition validateCredentialBlobSupport (info : AuthenticatorGetInfoResponse) : result Z :=
  if negb (contains (Extensions info) ExtensionIdentifierCredentialBlob) then
    Err (newErrorMessage ErrNotSupported "device doesn't support credBlob extension")
  else if negb (contains (Extensions info) ExtensionIdentifierCredentialProtection) then
    Err (newErrorMessage ErrSpecViolation
      "device reports credBlob without dependent credProtect extension")
  else match MaxCredBlobLengthValue info with
  | None => Err (newErrorMessage ErrSpecViolation
      "device reports credBlob extension without maxCredBlobLength")
  | Some maxCredBlobLength =>
      if maxCredBlobLength <? 32 then
        Err (newErrorMessage ErrSpecViolation
          ("device reports maxCredBlobLength " +:+ pretty maxCredBlobLength +:+ ", want at least 32"))
      else Ok maxCredBlobLength
  end.

Definition validateHMACSecretMCSupport (info : AuthenticatorGetInfoResponse) : option error :=
  first_error [
    check (negb (contains (Extensions info) ExtensionIdentifierHMACSecretMC))
      (newErrorMessage ErrNotSupported "device doesn't support hmac-secret-mc extension");
    check (negb (contains (Extensions info) ExtensionIdentifierHMACSecret))
      (newErrorMessage ErrSpecViolation
         "device reports hmac-secret-mc without dependent hmac-secret extension")].

Definition unexpectedExtensionOutput (name : string) : error :=
  newErrorMessage ErrSpecViolation ("device returned unsolicited " +:+ name +:+ " extension output").

Definition not_nil {A} (o : option A) : bool := bool_decide (o <> None).

Definition missing_output (name : string) : error :=
  newErrorMessage ErrSpecViolation ("device did not return " +:+ name +:+ " extension output").

(** The last part of the make-credential check: an enforced policy. *)
Definition validate_enforced_policy (inputs : CreateClientInputs)
    (outputs : option CreateExtensionOutputs) : option error :=
  match in_CredentialProtection inputs with
  | None => None
  | Some protection =>
      if negb (EnforceCredentialProtectionPolicy protection)
         || bool_decide (CredentialProtectionPolicy protection =
                         CredentialProtectionPolicyUserVerificationOptional) then None
      else match credentialProtectionValue (CredentialProtectionPolicy protection) with
      | Ok requested =>
          let level := match outputs with Some o => co_CredProtect o | None => 0 end in
          first_error [
            check (level =? 0)
              (newErrorMessage ErrSpecViolation "device did not confirm enforced credProtect policy");
            check (level <? requested)
              (newErrorMessage ErrSpecViolation
                 ("device returned credProtect policy " +:+ pretty level +:+
                  ", weaker than enforced policy " +:+ pretty requested))]
      | Err err => Some err
      | _ => None
      end
  end.

Definition validateMakeCredentialExtensionOutputs (request : CreateExtensionInputs)
    (clientInputs : CreateClientInputs) (outputs : option CreateExtensionOutputs) : option error :=
  let mc_requested := not_nil (hs_KeyAgreement (ci_HMACSecretMC request)) in
  first_error [
    match outputs with
    | None => None
    | Some o => first_error [
        if negb (co_CredProtect o =? 0) then first_error [
          check (ci_CredProtect request =? 0) (unexpectedExtensionOutput "credProtect");
          check ((co_CredProtect o <? 0x01) || (0x03 <? co_CredProtect o))
            (newErrorMessage ErrSpecViolation "device returned invalid credProtect extension output")]
        else None;
        check (not_nil (co_CredBlob o) && negb (not_nil (ci_CredBlob request)))
          (unexpectedExtensionOutput "credBlob");
        check (negb (co_MinPinLength o =? 0) && negb (ci_MinPinLength request))
          (unexpectedExtensionOutput "minPinLength");
        check (not_nil (co_PinComplexityPolicy o) && negb (ci_PinComplexityPolicy request))
          (unexpectedExtensionOutput "pinComplexityPolicy");
        check (not_nil (co_HMACSecret o) && negb (ci_HMACSecret request))
          (unexpectedExtensionOutput "hmac-secret");
        check (not_nil (co_HMACSecretMC o) && negb mc_requested)
          (unexpectedExtensionOutput "hmac-secret-mc")]
    end;
    check (not_nil (ci_CredBlob request) && negb (not_nil (outputs ≫= co_CredBlob)))
      (missing_output "credBlob");
    check (ci_HMACSecret request && negb (not_nil (outputs ≫= co_HMACSecret)))
      (missing_output "hmac-secret");
    check (mc_requested && negb (not_nil (outputs ≫= co_HMACSecretMC)))
      (missing_output "hmac-secret-mc");
    validate_enforced_policy clientInputs outputs].

Definition validateGetAssertionExtensionOutputs (request : GetExtensionInputs)
    (outputs : option GetExtensionOutputs) : option error :=
  first_error [
    check (not_nil (outputs ≫= go_CredBlob) && negb (gi_CredBlob request))
      (unexpectedExtensionOutput "credBlob");
    check (not_nil (outputs ≫= go_HMACSecret)
           && negb (not_nil (hs_KeyAgreement (gi_HMACSecret request))))
      (unexpectedExtensionOutput "hmac-secret");
    check (not_nil (outputs ≫= go_ThirdPartyPayment) && negb (gi_ThirdPartyPayment request))
      (unexpectedExtensionOutput "thirdPartyPayment");
    check (gi_CredBlob request && negb (not_nil (outputs ≫= go_CredBlob)))
      (missing_output "credBlob");
    check (gi_ThirdPartyPayment request && negb (not_nil (outputs ≫= go_ThirdPartyPayment)))
      (missing_output "thirdPartyPayment")].

(** ** large_blob.go *)

Inductive largeBlobBackend := largeBlobBackendNone | largeBlobBackendDirect | largeBlobBackendLegacy.

#[export] Instance largeBlobBackend_eq_dec : EqDecision largeBlobBackend.
Proof. solve_decision. Defined.

Definition largeBlobBackendForInfo (info : AuthenticatorGetInfoResponse) : result largeBlobBackend :=
  let direct := contains (Extensions info) ExtensionIdentifierLargeBlob in
  let legacyKey := contains (Extensions info) ExtensionIdentifierLargeBlobKey in
  let legacyArray := flag (Options info) OptionLargeBlobs in
  if direct && (legacyKey || legacyArray) then
    Err (newErrorMessage ErrSpecViolation
      "device reports mutually exclusive largeBlob and largeBlobKey/largeBlobs capabilities")
  else if direct then Ok largeBlobBackendDirect
  else if legacyKey && legacyArray then Ok largeBlobBackendLegacy
  else Ok largeBlobBackendNone.

Definition validateCreateLargeBlob (info : AuthenticatorGetInfoResponse)
    (inputs : option LargeBlobInputs) (requestOptions : gmap string bool)
    : result (largeBlobBackend * string * bool) :=
  match inputs with
  | None => Ok (largeBlobBackendNone, "", false)
  | Some inputs =>
      if not_nil (lbi_Read inputs) || not_nil (lbi_Write inputs) then
        Err (newErrorMessage SyntaxError "largeBlob read and write are only valid for GetAssertion")
      else
        let support := if bool_decide (lbi_Support inputs = "") then LargeBlobSupportPreferred
                       else lbi_Support inputs in
        if negb (bool_decide (support = LargeBlobSupportPreferred))
           && negb (bool_decide (support = LargeBlobSupportRequired)) then
          Err (newErrorMessage SyntaxError "largeBlob support must be preferred or required")
        else
          largeBlobBackendForInfo info ≫= fun backend =>
          let required := bool_decide (support = LargeBlobSupportRequired) in
          match backend with
          | largeBlobBackendLegacy =>
              if flag requestOptions OptionResidentKeys then Ok (backend, support, true)
              else if required then
                Err (newErrorMessage ErrNotSupported
                  "legacy large blobs require a discoverable credential")
              else Ok (backend, support, false)
          | largeBlobBackendNone =>
              if required then
                Err (newErrorMessage ErrNotSupported "device doesn't support large blobs")
              else Ok (backend, support, false)
          | largeBlobBackendDirect => Ok (backend, support, false)
          end
  end.

Definition validateGetLargeBlob (info : AuthenticatorGetInfoResponse)
    (inputs : option LargeBlobInputs) (allowList : list Descriptor)
    : result (largeBlobBackend * bool * slice) :=
  let nothing := Ok (largeBlobBackendNone, false, None) in
  match inputs with
  | None => nothing
  | Some inputs =>
      if negb (bool_decide (lbi_Support inputs = "")) then
        Err (newErrorMessage SyntaxError "largeBlob support is only valid for MakeCredential")
      else if not_nil (lbi_Read inputs) && not_nil (lbi_Write inputs) then
        Err (newErrorMessage SyntaxError "largeBlob read and write cannot be requested together")
      else if negb (not_nil (lbi_Read inputs)) && negb (not_nil (lbi_Write inputs)) then nothing
      else if bool_decide (lbi_Read inputs = Some false) then nothing
      else if not_nil (lbi_Write inputs) && negb (len allowList =? 1) then
        Err (newErrorMessage SyntaxError "largeBlob write requires exactly one allowed credential")
      else
        largeBlobBackendForInfo info ≫= fun backend =>
        if bool_decide (backend = largeBlobBackendNone) then
          Err (newErrorMessage ErrNotSupported "device doesn't support large blobs")
        else Ok (backend, not_nil (lbi_Read inputs), lbi_Write inputs)
  end.

Section LargeBlob.
Context `{Primitives} `{Codec}.

Definition unsolicited_key : error :=
  newErrorMessage ErrSpecViolation "device returned an unsolicited largeBlobKey".
Definition invalid_key_length : error :=
  newErrorMessage ErrSpecViolation "device returned a largeBlobKey with an invalid length".

(** Whether the credential created has large-blob support. *)
Definition created_support (backend : largeBlobBackend) (legacyKeyRequested : bool)
    (directOutput : option bool) (largeBlobKey : list Z) : result bool :=
  match backend with
  | largeBlobBackendDirect =>
      match directOutput with
      | None => Ok false
      | Some false => Err (newErrorMessage ErrSpecViolation
          "device returned an invalid largeBlob MakeCredential output")
      | Some true => Ok true
      end
  | largeBlobBackendLegacy =>
      if negb legacyKeyRequested then Ok false
      else if len largeBlobKey =? 0 then
        Err (newErrorMessage ErrSpecViolation "device omitted the requested largeBlobKey")
      else if len largeBlobKey =? 32 then Ok true
      else Err invalid_key_length
  | largeBlobBackendNone => Ok false
  end.

Definition createLargeBlobOutput (backend : largeBlobBackend) (support : string)
    (legacyKeyRequested : bool) (response : MakeCredentialResponse Any)
    : result (option LargeBlobOutputs) :=
  create_LargeBlobUnsignedExtensionOutput response ≫= fun directOutput =>
  let keyed := negb (len (mr_LargeBlobKey response) =? 0) in
  if bool_decide (support = "") then
    if not_nil directOutput then Err (unexpectedExtensionOutput "largeBlob")
    else if keyed then Err unsolicited_key
    else Ok None
  else if negb (bool_decide (backend = largeBlobBackendDirect)) && not_nil directOutput then
    Err (unexpectedExtensionOutput "largeBlob")
  else if negb legacyKeyRequested && keyed then Err unsolicited_key
  else
    created_support backend legacyKeyRequested directOutput (mr_LargeBlobKey response)
      ≫= fun supported =>
    if bool_decide (support = LargeBlobSupportRequired) && negb supported then
      Err (newErrorMessage ErrSpecViolation
        "device created a credential without required large-blob support")
    else Ok (Some (MkLargeBlobOutputs (Some supported) None None)).

(** The answer of a direct read or write. *)
Definition direct_read_output (authenticatorOutput : option GetLargeBlobOutput)
    : result LargeBlobOutputs :=
  match authenticatorOutput with
  | None => Ok zero_large_blob_outputs
  | Some o =>
      if not_nil (lbo_Written o) then
        Err (newErrorMessage ErrSpecViolation "device returned written for a largeBlob read")
      else match lbo_Blob o, lbo_OriginalSize o with
      | None, Some _ => Err (newErrorMessage ErrSpecViolation
          "device returned largeBlob originalSize without blob")
      | None, None => Ok zero_large_blob_outputs
      | Some _, None => Err (newErrorMessage ErrSpecViolation
          "device returned a largeBlob without originalSize")
      | Some blob, Some originalSize =>
          DecompressLargeBlobData blob originalSize ≫= fun blob =>
          Ok (MkLargeBlobOutputs None (Some blob) None)
      end
  end.

Definition direct_write_output (authenticatorOutput : option GetLargeBlobOutput)
    : result LargeBlobOutputs :=
  match authenticatorOutput with
  | Some (MkGetLargeBlobOutput (Some written) blob originalSize) =>
      if not_nil blob || not_nil originalSize then
        Err (newErrorMessage ErrSpecViolation "device returned blob data for a largeBlob write")
      else Ok (MkLargeBlobOutputs None None (Some written))
  | _ => Err (newErrorMessage ErrSpecViolation "device omitted written from a largeBlob write output")
  end.

Definition getLargeBlobOutput (backend : largeBlobBackend) (read : bool) (write : slice)
    (response : GetAssertionResponse Any) : result (option LargeBlobOutputs) :=
  get_LargeBlobUnsignedExtensionOutput response ≫= fun authenticatorOutput =>
  let requested := read || not_nil write in
  let keyed := negb (len (gr_LargeBlobKey response) =? 0) in
  if not_nil authenticatorOutput
     && (negb requested || negb (bool_decide (backend = largeBlobBackendDirect))) then
    Err (unexpectedExtensionOutput "largeBlob")
  else if keyed && (negb requested || negb (bool_decide (backend = largeBlobBackendLegacy))) then
    Err unsolicited_key
  else if bool_decide (backend = largeBlobBackendLegacy) && keyed
          && negb (len (gr_LargeBlobKey response) =? 32) then Err invalid_key_length
  else if negb requested || negb (bool_decide (backend = largeBlobBackendDirect)) then Ok None
  else Some <$> (if read then direct_read_output authenticatorOutput
                 else direct_write_output authenticatorOutput).
End LargeBlob.
