(* ===== verification/PreviewSign.v ===== *)
(** * The previewSign extension (src/authenticator/preview_sign.go)

    Which signing-key or signing request a CTAP command carries, and the
    checks of the answer: a generated key comes with an attestation object of
    its own, whose authenticator data must agree with that of the credential.
    The decoders this file calls beside those of the messages are the class
    [PreviewSignCodec]. The encoding options are constants the codec accepts,
    so the error of building the encoder does not occur. *)
From S2P Require Import Prelude GoError Protocol Pin Preflight Cose Crypto Messages Prf Extensions.

(** The dynamic values the code tells apart. *)
Inductive label := LUint (n : Z) | LInt (n : Z) | LString (s : string) | LOther.

(** The credential response a signing-key attestation is decoded into; the
    members tested against nil are options. *)
Record SigningKeyAttestation (Any : Type) := MkSigningKeyAttestation {
  ska_Format : string;
  ska_AuthDataRaw : slice;
  ska_AttestationStatement : option (gmap string Any) }.
Arguments MkSigningKeyAttestation {Any}.
Arguments ska_Format {Any}.
Arguments ska_AuthDataRaw {Any}.
Arguments ska_AttestationStatement {Any}.

Class PreviewSignCodec `{Codec} := {
  (* into a map with duplicate keys refused: its entries as they are ranged
     over, nil for a CBOR null *)
  Unmarshal_arguments : list Z -> result (option (list (label * list Z)));
  Unmarshal_value : list Z -> result label;
  Unmarshal_SigningKeyAttestation : list Z -> result (SigningKeyAttestation Any);
  Marshal_public_key : Key -> result (list Z);
  Marshal_attestation_object : string -> list Z -> gmap string Any -> result (list Z) }.

(** ** Registration *)

Definition validateCreatePreviewSign (fips_enabled : bool) (info : AuthenticatorGetInfoResponse)
    (pinUvAuthToken : slice) (inputs : option PreviewSignInputs) (options : gmap string bool)
    : result (option PreviewSignGenerateKeyInput) :=
  match inputs with
  | None => Ok None
  | Some inputs =>
      match psg_GenerateKey inputs with
      | None => Err (newErrorMessage ErrNotSupported
          "previewSign generateKey is required for MakeCredential")
      | Some requested =>
          if not_nil (psg_SignByCredential inputs) then
            Err (newErrorMessage ErrNotSupported
              "previewSign signByCredential is not supported by MakeCredential")
          else if len requested =? 0 then
            Err (newErrorMessage SyntaxError
              "previewSign generateKey.algorithms must not be empty")
          else
            FilterPreviewSignAlgorithms fips_enabled requested ≫= fun algorithms =>
            if negb (contains (Extensions info) ExtensionIdentifierPreviewSign) then
              Err (newErrorMessage ErrNotSupported "device doesn't support previewSign extension")
            else
              let flags :=
                if userVerificationWillBePerformed info pinUvAuthToken options
                then Z.lor AuthDataFlagUserPresent AuthDataFlagUserVerified
                else AuthDataFlagUserPresent in
              Ok (Some (MkPreviewSignGenerateKeyInput (Some algorithms) (Some flags)))
      end
  end.

(** ** Authentication *)

Section Codec.
Context `{PreviewSignCodec}.

(** The loop over the COSE signing arguments: the value of label 3, unless
    a label is neither an integer nor a string. *)
Fixpoint algorithm_argument (arguments : list (label * list Z)) (algorithm : slice) : result slice :=
  match arguments with
  | [] => Ok algorithm
  | (LUint n, value) :: rest | (LInt n, value) :: rest =>
      algorithm_argument rest (if n =? 3 then Some value else algorithm)
  | (LString _, _) :: rest => algorithm_argument rest algorithm
  | (LOther, _) :: _ => Err (newErrorMessage SyntaxError
      "previewSign signByCredential.additionalArgs contains a non-COSE label")
  end.

Definition validateCOSESignArguments (encoded : list Z) : option error :=
  match Unmarshal_arguments encoded with
  | Ok (Some arguments) =>
      match algorithm_argument arguments None with
      | Ok (Some algorithm) =>
          match Unmarshal_value algorithm with
          | Ok (LUint _) | Ok (LInt _) | Ok (LString _) => None
          | Ok LOther => Some (newErrorMessage SyntaxError
              "previewSign signByCredential.additionalArgs alg must be an integer or text string")
          | _ => Some (newErrorMessage SyntaxError
              "previewSign signByCredential.additionalArgs contains an invalid alg")
          end
      | Ok None => Some (newErrorMessage SyntaxError
          "previewSign signByCredential.additionalArgs is missing alg")
      | Err err => Some err
      | _ => None
      end
  | _ => Some (newErrorMessage SyntaxError
      "previewSign signByCredential.additionalArgs must contain a CBOR map")
  end.

Definition validatePreviewSignSignInputs (signInputs : PreviewSignSignInputs) : option error :=
  first_error [
    check (negb (not_nil (psi_KeyHandle signInputs)))
      (newErrorMessage SyntaxError "previewSign signByCredential.keyHandle is required");
    check (negb (not_nil (psi_ToBeSigned signInputs)))
      (newErrorMessage SyntaxError "previewSign signByCredential.tbs is required");
    check (bool_decide (psi_AdditionalArguments signInputs = Some []))
      (newErrorMessage SyntaxError
         "previewSign signByCredential.additionalArgs must contain a CBOR map");
    psi_AdditionalArguments signInputs ≫= validateCOSESignArguments].

Definition equalPreviewSignSignInputs (a b : PreviewSignSignInputs) : bool :=
  bool_decide (bytes_of (psi_KeyHandle a) = bytes_of (psi_KeyHandle b)) &&
  bool_decide (bytes_of (psi_ToBeSigned a) = bytes_of (psi_ToBeSigned b)) &&
  bool_decide (bytes_of (psi_AdditionalArguments a) = bytes_of (psi_AdditionalArguments b)).

Definition zero_sign_inputs : PreviewSignSignInputs := MkPreviewSignSignInputs None None None.

(** The loop over the allow list. *)
Fixpoint common_sign_inputs (signByCredential : gmap string PreviewSignSignInputs)
    (allowList : list Descriptor) (signInputs : option PreviewSignSignInputs)
    : result (option PreviewSignSignInputs) :=
  match allowList with
  | [] => Ok signInputs
  | descriptor :: rest =>
      let encodedID := EncodeToString (bytes_of (cred_ID descriptor)) in
      let candidate := default zero_sign_inputs (signByCredential !! encodedID) in
      match validatePreviewSignSignInputs candidate with
      | Some err => Err err
      | None =>
          match signInputs with
          | None => common_sign_inputs signByCredential rest (Some candidate)
          | Some s =>
              if negb (equalPreviewSignSignInputs s candidate) then
                Err (newErrorMessage ErrNotSupported "Device.GetAssertion cannot apply different credential-specific previewSign inputs in one CTAP request; issue one request per credential")
              else common_sign_inputs signByCredential rest signInputs
          end
      end
  end.

Definition check_sign_key (allowedCredentialIDs : list string) (encodedID : string) : option error :=
  first_error [
    check (negb (canonical_id encodedID))
      (newErrorMessage SyntaxError
         "previewSign signByCredential contains an invalid base64url credential ID");
    check (negb (contains allowedCredentialIDs encodedID))
      (newErrorMessage SyntaxError
         "previewSign signByCredential credential ID is not present in allowList")].

(** [range] is the order in which Go ranges over the keys of the map. *)
Definition validateGetPreviewSign (range : gmap string PreviewSignSignInputs -> list string)
    (info : AuthenticatorGetInfoResponse) (allowList : list Descriptor)
    (inputs : option PreviewSignInputs) : result (option PreviewSignSignInput) :=
  match inputs with
  | None => Ok None
  | Some inputs =>
      if not_nil (psg_GenerateKey inputs) then
        Err (newErrorMessage ErrNotSupported
          "previewSign generateKey is not supported by GetAssertion")
      else match psg_SignByCredential inputs with
      | None => Err (newErrorMessage ErrNotSupported
          "previewSign signByCredential is required for GetAssertion")
      | Some signByCredential =>
          if negb (contains (Extensions info) ExtensionIdentifierPreviewSign) then
            Err (newErrorMessage ErrNotSupported "device doesn't support previewSign extension")
          else if len allowList =? 0 then
            Err (newErrorMessage ErrNotSupported "previewSign requires a non-empty allowList")
          else if negb (Z.of_nat (size signByCredential) =? len allowList) then
            Err (newErrorMessage ErrNotSupported "previewSign signByCredential must contain exactly one entry for each allowed credential")
          else
            let allowedCredentialIDs :=
              (fun descriptor => EncodeToString (bytes_of (cred_ID descriptor))) <$> allowList in
            match first_error (check_sign_key allowedCredentialIDs <$> range signByCredential) with
            | Some err => Err err
            | None =>
                common_sign_inputs signByCredential allowList None ≫= fun signInputs =>
                match signInputs with
                | None => Panic
                | Some s => Ok (Some (MkPreviewSignSignInput (psi_KeyHandle s) (psi_ToBeSigned s)
                                        (psi_AdditionalArguments s)))
                end
            end
      end
  end.

(** ** Answers *)

Definition violation {A} (text : string) : result A := Err (newErrorMessage ErrSpecViolation text).

(** [if err != nil { return violation(...%v, err) }]: the text of the inner
    error is abbreviated. *)
Definition or_violation {A} (text : string) (r : result A) : result A :=
  match r with Err _ => violation text | r => r end.

(** The checks of the signed output and its unsigned companion. *)
Definition signing_algorithm (request : PreviewSignGenerateKeyInput)
    (signedOutput : option PreviewSignOutput) (unsignedOutput : option slice)
    : result (Z * list Z) :=
  match signedOutput, mjoin unsignedOutput with
  | None, _ => violation "device did not return previewSign MakeCredential output"
  | Some _, None => violation "device did not return previewSign signing-key attestation"
  | Some (MkPreviewSignOutput (Some algorithm) None None), Some attestationObject =>
      if negb (contains (default [] (Algorithms request)) algorithm) then
        violation "device returned a previewSign algorithm that was not requested"
      else Ok (algorithm, attestationObject)
  | Some _, Some _ => violation "device returned invalid previewSign MakeCredential output"
  end.

(** The decoded attestation of the signing key, complete. *)
Definition signing_key_attestation (attestationObject : list Z)
    : result (string * list Z * gmap string Any * MakeCredentialAuthData) :=
  or_violation "device returned malformed previewSign signing-key attestation"
    (Unmarshal_SigningKeyAttestation attestationObject) ≫= fun a =>
  match ska_AuthDataRaw a, ska_AttestationStatement a with
  | Some authDataRaw, Some statement =>
      if bool_decide (ska_Format a = "") then
        violation "device returned incomplete previewSign signing-key attestation"
      else
        or_violation "device returned malformed previewSign signing-key authData"
          (ParseMakeCredentialAuthData authDataRaw) ≫= fun innerAuthData =>
        Ok (ska_Format a, authDataRaw, statement, innerAuthData)
  | _, _ => violation "device returned incomplete previewSign signing-key attestation"
  end.

(** What the inner authenticator data must share with the outer one; its
    result is the attested signing key. *)
Definition check_signing_key (request : PreviewSignGenerateKeyInput)
    (outer : option MakeCredentialAuthData) (inner : MakeCredentialAuthData)
    : result (@AttestedCredentialData Key) :=
  match mad_AttestedCredentialData inner, mad_Extensions inner ≫= co_PreviewSign with
  | Some signingKey, Some innerOutput =>
      if negb (not_nil (pso_Flags innerOutput)) || not_nil (pso_Algorithm innerOutput)
         || not_nil (pso_Signature innerOutput) || negb (not_nil (ps_Flags request))
         || negb (bool_decide (pso_Flags innerOutput = ps_Flags request)) then
        violation "device returned invalid previewSign signing-key flags"
      else match outer with
      | None => violation "device returned previewSign output without outer authData"
      | Some outer =>
          if negb (bool_decide (mad_RPIDHash inner = mad_RPIDHash outer)) then
            violation "device returned a mismatched previewSign signing-key RP ID hash"
          else if negb (mad_Flags inner =? mad_Flags outer) then
            violation "device returned mismatched previewSign signing-key authData flags"
          else if negb (mad_SignCount inner =? 0) then
            violation "device returned a non-zero previewSign signing-key signature counter"
          else match mad_AttestedCredentialData outer with
          | Some credential =>
              if bool_decide (ac_AAGUID signingKey = ac_AAGUID credential) then Ok signingKey
              else violation "device returned a mismatched previewSign signing-key AAGUID"
          | None => violation "device returned a mismatched previewSign signing-key AAGUID"
          end
      end
  | _, _ => violation "device returned incomplete previewSign signing-key authData"
  end.

(** The signed output of the authenticator data, if extension data is there. *)
Definition create_signed_output (response : MakeCredentialResponse Any) : option PreviewSignOutput :=
  authData ← mr_AuthData response;
  if ExtensionDataIncluded (mad_Flags authData) then mad_Extensions authData ≫= co_PreviewSign
  else None.

Definition createPreviewSignOutput (request : option PreviewSignGenerateKeyInput)
    (response : MakeCredentialResponse Any) : result (option PreviewSignOutputs) :=
  or_violation "device returned malformed previewSign unsigned output"
    (PreviewSignUnsignedExtensionOutput response) ≫= fun unsignedOutput =>
  let signedOutput := create_signed_output response in
  match request with
  | None =>
      if not_nil signedOutput || not_nil unsignedOutput then
        Err (unexpectedExtensionOutput "previewSign")
      else Ok None
  | Some request =>
      signing_algorithm request signedOutput unsignedOutput ≫= fun '(algorithm, object) =>
      signing_key_attestation object ≫= fun '(format, authDataRaw, statement, inner) =>
      check_signing_key request (mr_AuthData response) inner ≫= fun signingKey =>
      wrap_err "marshal previewSign public key" (Marshal_public_key (CredentialPublicKey signingKey))
        ≫= fun publicKey =>
      wrap_err "marshal previewSign attestation object"
        (Marshal_attestation_object format authDataRaw statement) ≫= fun attestationObject =>
      Ok (Some (MkPreviewSignOutputs
        (Some (MkPreviewSignGeneratedKey (CredentialID signingKey) publicKey algorithm
                 attestationObject)) None))
  end.

Definition get_signed_output (response : GetAssertionResponse Any) : option PreviewSignOutput :=
  authData ← gr_AuthData response;
  if ExtensionDataIncluded (gad_Flags authData) then gad_Extensions authData ≫= go_PreviewSign
  else None.

Definition getPreviewSignOutput (request : option PreviewSignSignInput)
    (response : GetAssertionResponse Any) : result (option PreviewSignOutputs) :=
  let unsignedOutput :=
    bool_decide (is_Some (gr_UnsignedExtensionOutputs response !! ExtensionIdentifierPreviewSign)) in
  let signedOutput := get_signed_output response in
  match request with
  | None =>
      if not_nil signedOutput || unsignedOutput then Err (unexpectedExtensionOutput "previewSign")
      else Ok None
  | Some _ =>
      if unsignedOutput then
        violation "device returned previewSign unsigned output for GetAssertion"
      else match signedOutput with
      | None => violation "device did not return previewSign GetAssertion output"
      | Some (MkPreviewSignOutput None None (Some signature)) =>
          Ok (Some (MkPreviewSignOutputs None (Some signature)))
      | Some _ => violation "device returned invalid previewSign GetAssertion output"
      end
  end.
End Codec.
