(* ===== verification/Credentials.v ===== *)
(** * Creating and using credentials (src/authenticator/authenticator.go)

    [Device.MakeCredential] and [Device.GetAssertion]: the extension inputs
    of a request, the request, and the extension outputs of its answer; with
    the part of src/authenticator/large_blob.go that reads and writes the
    large-blob array for a credential. The response of the client and the
    client extension outputs, a member of the response in Go, are a pair.
    Random choices (the platform's key, IVs, the nonce of a blob) and the
    order of ranging over maps are arguments. *)
From S2P Require Import Prelude GoError Transport Protocol Pin Preflight Cose Crypto Messages.
From S2P Require Import Prf Extensions PreviewSign Client Management Device.

(** [newHMACSecretInput]. *)
Definition newHMACSecretInput (keyAgreement : Key) (saltEnc saltAuth : list Z)
    (pinUvAuthProtocol : Z) : HMACSecret :=
  MkHMACSecret keyAgreement (Some saltEnc) (Some saltAuth)
    (if negb (pinUvAuthProtocol =? PinUvAuthProtocolOne) then pinUvAuthProtocol else 0).

(** The two outputs of a decrypted hmac-secret result. *)
Definition split_outputs (salt : list Z) : result HMACGetSecretOutput :=
  if len salt =? 32 then Ok (MkHMACGetSecretOutput (Some salt) None)
  else if len salt =? 64 then
    Ok (MkHMACGetSecretOutput (Some (take 32 salt)) (Some (drop 32 salt)))
  else Err (newErrorMessage ErrInvalidSaltSize "salt must be 32 or 64 bytes").

Definition as_prf (o : HMACGetSecretOutput) : PRFValues := MkPRFValues (Output1 o) (Output2 o).

(** [slices.Concat(salt1, salt2)]. *)
Definition concat_salts (input : HMACGetSecretInput) : list Z := Salt1 input ++ bytes_of (Salt2 input).

Section Credentials.
Context `{Primitives} `{PreviewSignCodec} {W : Type}.
Context (fips_enabled : bool).
Context (transport : transport_ops W).
Context (emit : option (list Z -> CBORResponse + error -> M W unit)).

#[local] Abbreviation T := (client_transport transport).
#[local] Abbreviation E := (client_emit emit).

(** The protocol object of a request and the secret it shares with the
    authenticator. *)
Definition session : Type := PinUvAuthProtocol * list Z.

(** The four places that send salts do the same: agree on a secret, encrypt
    the salts, authenticate them. *)
Definition send_salts (random_key : PrivateKey) (iv salt : list Z)
    : M (device W) (Z * session * HMACSecret) :=
  '(pinUvAuthProtocol, keyAgreement) ← pinUvAuthProtocolWithKeyAgreement fips_enabled transport emit;
  pinProtocol ← lift (NewPinUvAuthProtocol fips_enabled random_key pinUvAuthProtocol);
  '(platformCoseKey, sharedSecret) ← lift (Encapsulate pinProtocol keyAgreement);
  saltEnc ← lift (Encrypt pinProtocol iv sharedSecret salt);
  saltAuth ← lift (Authenticate pinUvAuthProtocol sharedSecret saltEnc);
  mret (pinUvAuthProtocol, (pinProtocol, sharedSecret),
        newHMACSecretInput platformCoseKey saltEnc saltAuth pinUvAuthProtocol).

Definition supports (info : AuthenticatorGetInfoResponse) (name : string) : option error :=
  check (negb (contains (Extensions info) name))
    (newErrorMessage ErrNotSupported ("device doesn't support " +:+ name +:+ " extension")).

(** The protocol of the token, when there is one. *)
Definition request_protocol (pinUvAuthToken : slice) : M (device W) Z :=
  match pinUvAuthToken with
  | None => mret 0
  | Some _ => token_protocol fips_enabled pinUvAuthToken
  end.

(** [b != nil && *b] of a boolean extension input. *)
Definition asked (b : option bool) : bool := default false b.

(** ** MakeCredential *)

(** hmac-secret, hmac-secret-mc and prf of a registration: the protocol of
    the request, the session, and the two inputs. *)
Definition create_hmac_secret (random_key : PrivateKey) (iv : list Z)
    (info : AuthenticatorGetInfoResponse) (extInputs : CreateClientInputs)
    (createPRFEvaluation : option PRFValues) (pinUvAuthProtocol : Z)
    : M (device W) (Z * option session * bool * HMACSecret) :=
  let wanted := asked (in_HMACCreateSecret extInputs) in
  check_err (if wanted then supports info ExtensionIdentifierHMACSecret else None);;
  mc ← match in_HMACSecretMC extInputs with
    | None => mret (pinUvAuthProtocol, None, wanted, zero_hmac_secret)
    | Some salts =>
        check_err (validateHMACSecretMCSupport info);;
        check_err (validateHMACGetSecretSalts salts);;
        '(protocol, session, input) ← send_salts random_key iv (concat_salts salts);
        mret (protocol, Some session, true, input)
    end;
  if not_nil (in_PRF extInputs) && contains (Extensions info) ExtensionIdentifierHMACSecret then
    match createPRFEvaluation with
    | None => let '(protocol, session, _, input) := mc in mret (protocol, session, true, input)
    | Some evaluation =>
        '(protocol, session, input) ← send_salts random_key iv (prfSalts evaluation);
        mret (protocol, Some session, true, input)
    end
  else mret mc.

Definition create_cred_protect (info : AuthenticatorGetInfoResponse)
    (extInputs : CreateClientInputs) : result Z :=
  match in_CredentialProtection extInputs with
  | None => Ok 0
  | Some protection =>
      credentialProtectionValue (CredentialProtectionPolicy protection) ≫= fun credProtect =>
      if EnforceCredentialProtectionPolicy protection
         && negb (bool_decide (CredentialProtectionPolicy protection =
                               CredentialProtectionPolicyUserVerificationOptional))
         && negb (contains (Extensions info) ExtensionIdentifierCredentialProtection) then
        Err (newErrorMessage ErrNotSupported "device doesn't support credProtect extension")
      else Ok credProtect
  end.

(** A blob longer than the authenticator takes is left out. *)
Definition create_cred_blob (info : AuthenticatorGetInfoResponse) (extInputs : CreateClientInputs)
    : result slice :=
  match in_CredBlob extInputs with
  | None => Ok None
  | Some credBlob =>
      validateCredentialBlobSupport info ≫= fun maxCredBlobLength =>
      Ok (if len (bytes_of credBlob) <=? maxCredBlobLength then Some (bytes_of credBlob) else None)
  end.

(** The extensions of the request, in the order of the source. *)
Definition create_extensions (random_key : PrivateKey) (iv : list Z)
    (info : AuthenticatorGetInfoResponse) (pinUvAuthToken : slice)
    (extInputs : CreateClientInputs) (options : gmap string bool)
    (createPRFEvaluation : option PRFValues) (pinUvAuthProtocol : Z)
    : M (device W) (Z * option session * CreateExtensionInputs * (largeBlobBackend * string * bool)
                    * option PreviewSignGenerateKeyInput) :=
  '(backend, largeBlobSupport, largeBlobKeyRequested) ←
    lift (validateCreateLargeBlob info (in_LargeBlob extInputs) options);
  '(pinUvAuthProtocol, session, hmacSecret, hmacSecretMC) ←
    create_hmac_secret random_key iv info extInputs createPRFEvaluation pinUvAuthProtocol;
  credProtect ← lift (create_cred_protect info extInputs);
  credBlob ← lift (create_cred_blob info extInputs);
  let minPinLength := asked (in_MinPinLength extInputs) in
  check_err (if minPinLength then supports info ExtensionIdentifierMinPinLength else None);;
  let pinComplexityPolicy := asked (in_PinComplexityPolicy extInputs) in
  check_err (if pinComplexityPolicy then supports info ExtensionIdentifierPinComplexityPolicy
             else None);;
  let thirdPartyPayment := asked (in_Payment extInputs) in
  check_err (if thirdPartyPayment then supports info ExtensionIdentifierThirdPartyPayment
             else None);;
  previewSign ← lift (validateCreatePreviewSign fips_enabled info pinUvAuthToken
    (in_PreviewSign extInputs) options);
  let extensions := MkCreateExtensionInputs credProtect credBlob
    (bool_decide (backend = largeBlobBackendLegacy) && largeBlobKeyRequested)
    (if bool_decide (backend = largeBlobBackendDirect) then largeBlobSupport else "")
    minPinLength pinComplexityPolicy hmacSecret hmacSecretMC thirdPartyPayment
    (default (ci_PreviewSign zero_create_inputs) previewSign) in
  mret (pinUvAuthProtocol, session, extensions, (backend, largeBlobSupport, largeBlobKeyRequested),
        previewSign).

(** The decrypted outputs of hmac-secret-mc. *)
Definition create_secret_outputs (session : option session) (extInputs : CreateClientInputs)
    (createPRFEvaluation : option PRFValues) (flags : Z) (outputs : CreateExtensionOutputs)
    (encrypted : list Z) : result HMACGetSecretOutput :=
  let prf := not_nil (in_PRF extInputs) in
  if prf && negb (UserVerified flags) then
    violation "device returned PRF results without user verification"
  else if prf && negb (bool_decide (co_HMACSecret outputs = Some true)) then
    violation "device returned PRF results for a credential without enabled hmac-secret"
  else match session with
  | None => violation
      "device returned hmac-secret-mc output without an established shared secret"
  | Some (pinProtocol, sharedSecret) =>
      Decrypt pinProtocol sharedSecret encrypted ≫= fun salt =>
      match createPRFEvaluation ≫= fun evaluation => validatePRFResultLength evaluation salt with
      | Some err => Err err
      | None => split_outputs salt
      end
  end.

(** The outputs that need the extension data of the authenticator. *)
Definition create_extension_data_outputs (session : option session)
    (extInputs : CreateClientInputs) (createPRFEvaluation : option PRFValues) (flags : Z)
    (o : CreateExtensionOutputs) (credProps : option bool) (largeBlob : option LargeBlobOutputs)
    (previewSign : option PreviewSignOutputs) : result CreateClientOutputs :=
  let hmacCreateSecret := if asked (in_HMACCreateSecret extInputs) then co_HMACSecret o else None in
  let enabled := default false (co_HMACSecret o) in
  let prf results := if not_nil (in_PRF extInputs) then Some (MkCreatePRFOutputs enabled results)
                     else None in
  match co_HMACSecretMC o with
  | None => Ok (MkCreateClientOutputs (co_CredBlob o) credProps hmacCreateSecret None largeBlob
                  (prf zero_prf_values) previewSign)
  | Some encrypted =>
      create_secret_outputs session extInputs createPRFEvaluation flags o encrypted ≫= fun out =>
      Ok (MkCreateClientOutputs (co_CredBlob o) credProps hmacCreateSecret
            (if not_nil (in_PRF extInputs) then None else Some out) largeBlob
            (prf (as_prf out)) previewSign)
  end.

(** The client outputs of a response. *)
Definition create_outputs (session : option session) (extensions : CreateExtensionInputs)
    (largeBlob : largeBlobBackend * string * bool)
    (createPreviewSignInput : option PreviewSignGenerateKeyInput)
    (extInputs : CreateClientInputs) (options : gmap string bool)
    (createPRFEvaluation : option PRFValues) (resp : MakeCredentialResponse Any)
    : result CreateClientOutputs :=
  let '(backend, largeBlobSupport, largeBlobKeyRequested) := largeBlob in
  createLargeBlobOutput backend largeBlobSupport largeBlobKeyRequested resp ≫= fun largeBlobOutput =>
  let credProps := if asked (in_CredentialProperties extInputs)
                   then Some (flag options OptionResidentKeys) else None in
  match mr_AuthData resp with
  | None => Panic
  | Some authData =>
      let authenticatorExtensions :=
        if ExtensionDataIncluded (mad_Flags authData) then mad_Extensions authData else None in
      match validateMakeCredentialExtensionOutputs extensions extInputs authenticatorExtensions with
      | Some err => Err err
      | None =>
          createPreviewSignOutput createPreviewSignInput resp ≫= fun previewSignOutput =>
          match authenticatorExtensions with
          | None => Ok (MkCreateClientOutputs None credProps None None largeBlobOutput
                (if not_nil (in_PRF extInputs) then Some (MkCreatePRFOutputs false zero_prf_values)
                 else None) previewSignOutput)
          | Some o => create_extension_data_outputs session extInputs createPRFEvaluation
                        (mad_Flags authData) o credProps largeBlobOutput previewSignOutput
          end
      end
  end.

Definition MakeCredential (random_key : PrivateKey) (iv : list Z) (pinUvAuthToken : slice)
    (clientData : list Z) (rp : RpEntity) (user : UserEntity)
    (pubKeyCredParams : list (string * Z)) (excludeList : list Descriptor)
    (extInputs : option CreateClientInputs) (options : gmap string bool)
    (enterpriseAttestation : Z) (attestationFormatsPreference : list string)
    : M (device W) (MakeCredentialResponse Any * CreateClientOutputs) :=
  pubKeyCredParams ← lift (FilterCredentialParameters fips_enabled pubKeyCredParams);
  ensureInfoLocked transport emit;;
  info ← cached_info;
  let extInputs := default zero_create_client_inputs extInputs in
  check_err (check (not_nil (in_HMACSecretMC extInputs) && not_nil (in_PRF extInputs))
    (newErrorMessage SyntaxError
       "you cannot use hmac-secret-mc and prf extensions at the same time"));;
  createPRFEvaluation ← lift (validateCreatePRF info pinUvAuthToken (in_PRF extInputs) options);
  check_err (validateMakeCredentialAuthorization info pinUvAuthToken options);;
  pinUvAuthProtocol ← request_protocol pinUvAuthToken;
  '(pinUvAuthProtocol, session, extensions, largeBlob, createPreviewSignInput) ←
    create_extensions random_key iv info pinUvAuthToken extInputs options createPRFEvaluation
      pinUvAuthProtocol;
  let clientDataHash := sha256 clientData in
  resp ← Client.MakeCredential fips_enabled T E pinUvAuthProtocol pinUvAuthToken clientDataHash rp
    user pubKeyCredParams excludeList (Some extensions) options enterpriseAttestation
    attestationFormatsPreference;
  (if flag options OptionResidentKeys then invalidateInfoLocked else mret tt);;
  extOutputs ← lift (create_outputs session extensions largeBlob createPreviewSignInput extInputs
    options createPRFEvaluation resp);
  mret (resp, extOutputs).

(** ** GetAssertion *)

(** largeBlob: the backend and what is asked of it, and the two inputs. *)
Definition get_large_blob (info : AuthenticatorGetInfoResponse) (inputs : option LargeBlobInputs)
    (allowList : list Descriptor)
    : result (largeBlobBackend * bool * slice * (GetLargeBlobParams * bool)) :=
  validateGetLargeBlob info inputs allowList ≫= fun '(backend, read, write) =>
  match backend with
  | largeBlobBackendNone => Ok (backend, read, write, (gi_LargeBlob zero_get_inputs, false))
  | largeBlobBackendLegacy => Ok (backend, read, write, (gi_LargeBlob zero_get_inputs, true))
  | largeBlobBackendDirect =>
      match write with
      | None => Ok (backend, read, write, (MkGetLargeBlobParams read None None, false))
      | Some data =>
          CompressLargeBlobData data ≫= fun compressed =>
          Ok (backend, read, write,
              (MkGetLargeBlobParams read (Some compressed) (Some (len data)), false))
      end
  end.

(** hmac-secret and prf. *)
Definition get_hmac_secret (random_key : PrivateKey) (iv : list Z)
    (info : AuthenticatorGetInfoResponse) (extInputs : GetClientInputs)
    (getPRFEvaluation : option PRFValues) (options : gmap string bool) (pinUvAuthProtocol : Z)
    : M (device W) (Z * option session * HMACSecret) :=
  secret ← match gin_HMACSecret extInputs with
    | None => mret (pinUvAuthProtocol, None, zero_hmac_secret)
    | Some salts =>
        check_err (validateHMACSecretUserPresence options);;
        check_err (supports info ExtensionIdentifierHMACSecret);;
        check_err (validateHMACGetSecretSalts salts);;
        '(protocol, session, input) ← send_salts random_key iv (concat_salts salts);
        mret (protocol, Some session, input)
    end;
  match getPRFEvaluation with
  | None => mret secret
  | Some evaluation =>
      '(protocol, session, input) ← send_salts random_key iv (prfSalts evaluation);
      mret (protocol, Some session, input)
  end.

(** What is known when the request is sent. *)
Record get_request := MkGetRequest {
  gq_protocol : Z;
  gq_session : option session;
  gq_extensions : GetExtensionInputs;
  gq_backend : largeBlobBackend;
  gq_read : bool;
  gq_write : slice;
  gq_previewSign : option PreviewSignSignInput;
  gq_evaluation : option PRFValues }.

Section Range.
(** The orders in which Go ranges over the maps of the inputs. *)
Context (range : gmap string PRFValues -> list (string * PRFValues)).
Context (range_sign : gmap string PreviewSignSignInputs -> list string).

(** Everything before the request is sent. *)
Definition get_prepare (random_key : PrivateKey) (iv : list Z) (pinUvAuthToken : slice)
    (allowList : list Descriptor) (extInputs : GetClientInputs) (options : gmap string bool)
    : M (device W) get_request :=
  ensureInfoLocked transport emit;;
  info ← cached_info;
  check_err (check (not_nil (gin_PRF extInputs) && not_nil (gin_HMACSecret extInputs))
    (newErrorMessage SyntaxError "you cannot use hmac-secret and prf extensions at the same time"));;
  getPRFEvaluation ← lift (validateGetPRF range info pinUvAuthToken allowList (gin_PRF extInputs)
    options);
  check_err (validateGetAssertionAuthorization info pinUvAuthToken options);;
  pinUvAuthProtocol ← request_protocol pinUvAuthToken;
  '(backend, read, write, (largeBlob, largeBlobKey)) ←
    lift (get_large_blob info (gin_LargeBlob extInputs) allowList);
  '(pinUvAuthProtocol, session, hmacSecret) ←
    get_hmac_secret random_key iv info extInputs getPRFEvaluation options pinUvAuthProtocol;
  let credBlob := asked (gin_CredBlob extInputs) in
  check_err (if credBlob
             then match validateCredentialBlobSupport info with Err err => Some err | _ => None end
             else None);;
  let thirdPartyPayment := asked (gin_Payment extInputs) in
  check_err (if thirdPartyPayment then supports info ExtensionIdentifierThirdPartyPayment
             else None);;
  previewSign ← lift (validateGetPreviewSign range_sign info allowList (gin_PreviewSign extInputs));
  mret (MkGetRequest pinUvAuthProtocol session
    (MkGetExtensionInputs credBlob largeBlobKey largeBlob hmacSecret thirdPartyPayment
       (default (gi_PreviewSign zero_get_inputs) previewSign))
    backend read write previewSign getPRFEvaluation).

(** The decrypted hmac-secret output. *)
Definition get_secret_outputs (q : get_request) (extInputs : GetClientInputs) (flags : Z)
    (encrypted : list Z) : result HMACGetSecretOutput :=
  if not_nil (gin_PRF extInputs) && negb (UserVerified flags) then
    violation "device returned PRF results without user verification"
  else match gq_session q with
  | None => violation "device returned hmac-secret output without an established shared secret"
  | Some (pinProtocol, sharedSecret) =>
      Decrypt pinProtocol sharedSecret encrypted ≫= fun salt =>
      match gq_evaluation q ≫= fun evaluation => validatePRFResultLength evaluation salt with
      | Some err => Err err
      | None => split_outputs salt
      end
  end.

(** The client outputs of one assertion. *)
Definition get_outputs (q : get_request) (extInputs : GetClientInputs)
    (assertion : GetAssertionResponse Any) : result GetClientOutputs :=
  getLargeBlobOutput (gq_backend q) (gq_read q) (gq_write q) assertion ≫= fun largeBlobOutput =>
  match gr_AuthData assertion with
  | None => Panic
  | Some authData =>
      let authenticatorExtensions :=
        if ExtensionDataIncluded (gad_Flags authData) then gad_Extensions authData else None in
      match validateGetAssertionExtensionOutputs (gq_extensions q) authenticatorExtensions with
      | Some err => Err err
      | None =>
          getPreviewSignOutput (gq_previewSign q) assertion ≫= fun previewSignOutput =>
          let prf results := if not_nil (gin_PRF extInputs) then Some results else None in
          match authenticatorExtensions with
          | None => Ok (MkGetClientOutputs None None largeBlobOutput (prf zero_prf_values)
                          previewSignOutput)
          | Some o =>
              match go_HMACSecret o with
              | None => Ok (MkGetClientOutputs (go_CredBlob o) None largeBlobOutput
                              (prf zero_prf_values) previewSignOutput)
              | Some encrypted =>
                  get_secret_outputs q extInputs (gad_Flags authData) encrypted ≫= fun out =>
                  Ok (MkGetClientOutputs (go_CredBlob o)
                        (if not_nil (gin_HMACSecret extInputs) then Some out else None)
                        largeBlobOutput (prf (as_prf out)) previewSignOutput)
              end
          end
      end
  end.

(** ** The large-blob array of a credential *)

(** The first blob the key opens, decompressed. *)
Fixpoint find_blob (key : list Z) (blobs : list LargeBlob) : result (option (list Z)) :=
  match blobs with
  | [] => Ok None
  | encrypted :: rest =>
      match OpenLargeBlob key encrypted with
      | Ok compressed => Some <$> DecompressLargeBlobData compressed (OrigSize encrypted)
      | Err _ => find_blob key rest
      | Panic => Panic
      | Blocked => Blocked
      end
  end.

(** [None] is a credential without a key, or without a blob. *)
Definition read_blob (blobs : list LargeBlob) (key : list Z) : result LargeBlobOutputs :=
  if len key =? 0 then Ok zero_large_blob_outputs
  else if negb (len key =? 32) then Err invalid_key_length
  else find_blob key blobs ≫= fun blob => Ok (MkLargeBlobOutputs None blob None).

Fixpoint read_blobs (blobs : list LargeBlob) (keys : list (list Z)) : result (list LargeBlobOutputs) :=
  match keys with
  | [] => Ok []
  | key :: rest =>
      read_blob blobs key ≫= fun output =>
      read_blobs blobs rest ≫= fun outputs => Ok (output :: outputs)
  end.

(** The first blob the key opens replaced, or the new one appended. *)
Fixpoint replace_blob (key : list Z) (replacement : LargeBlob) (blobs : list LargeBlob)
    : result (list LargeBlob) :=
  match blobs with
  | [] => Ok [replacement]
  | encrypted :: rest =>
      match OpenLargeBlob key encrypted with
      | Ok _ => Ok (replacement :: rest)
      | Err _ => (fun rest => encrypted :: rest) <$> replace_blob key replacement rest
      | Panic => Panic
      | Blocked => Blocked
      end
  end.

Definition written (b : bool) : LargeBlobOutputs := MkLargeBlobOutputs None None (Some b).

(** [keys] are the large-blob keys of the assertions; the write is for the
    first. [fuel] bounds the reads of the array. *)
Definition resolveLegacyLargeBlobOutputs (fuel : nat) (nonce : list Z) (pinUvAuthToken : slice)
    (backend : largeBlobBackend) (read : bool) (write : slice) (keys : list (list Z))
    : M (device W) (option (list LargeBlobOutputs)) :=
  if negb (bool_decide (backend = largeBlobBackendLegacy)) || negb read && negb (not_nil write)
  then mret None
  else match keys with
  | [] => mret (Some [])
  | key :: rest =>
      let empty := replicate (length keys) zero_large_blob_outputs in
      if read then
        r ← try_ (getLargeBlobsLocked fips_enabled transport emit fuel);
        match r with
        | inr _ => mret (Some empty)
        | inl blobs => outputs ← lift (read_blobs blobs keys); mret (Some outputs)
        end
      else
        let outputs b := Some (written b :: replicate (length rest) zero_large_blob_outputs) in
        if len key =? 0 then mret (outputs false)
        else if negb (len key =? 32) then fail invalid_key_length
        else
          r ← try_ (getLargeBlobsLocked fips_enabled transport emit fuel);
          match r with
          | inr _ => mret (outputs false)
          | inl blobs =>
              replacement ← lift (EncryptLargeBlob nonce key (bytes_of write));
              blobs ← lift (replace_blob key replacement blobs);
              r ← try_ (setLargeBlobsLocked fips_enabled transport emit pinUvAuthToken blobs);
              mret (outputs (match r with inl _ => true | inr _ => false end))
          end
  end.

(** ** The sequence of assertions *)

Definition assertion : Type := GetAssertionResponse Any * GetClientOutputs.

(** The variables of the loop: the assertions kept back for the large-blob
    array, and whether the body has returned from the function. *)
Record loop := MkLoop { legacyAssertions : list assertion; returned : bool }.

(** A computation of the device inside the loop. *)
Definition inside {A} (m : M (device W) A) : M (device W * loop) A := fun dl =>
  let '(r, d) := m dl.1 in (r, (d, dl.2)).

Definition loop_transport : option (list Z -> M (device W * loop) CBORResponse) :=
  (fun f data => inside (f data)) <$> T.
Definition loop_emit : option (list Z -> CBORResponse + error -> M (device W * loop) unit) :=
  (fun f data r => inside (f data r)) <$> E.

(** [return] in the body of the range loop, with or without a value yielded
    first. *)
Definition return_from_loop : M (device W * loop) bool := fun dl =>
  (Ok false, (dl.1, MkLoop (legacyAssertions dl.2) true)).

Definition emitAssertion (backend : largeBlobBackend) (yield : assertion + error -> M (device W) bool)
    (a : assertion) : M (device W * loop) bool :=
  if bool_decide (backend = largeBlobBackendLegacy) then fun dl =>
    (Ok true, (dl.1, MkLoop (legacyAssertions dl.2 ++ [a]) (returned dl.2)))
  else
    go_on ← inside (yield (inl a));
    if negb go_on then return_from_loop else mret true.

Definition get_body (q : get_request) (extInputs : GetClientInputs)
    (yield : assertion + error -> M (device W) bool)
    (r : GetAssertionResponse Any + error) : M (device W * loop) bool :=
  match r with
  | inr err => inside (yield (inr err));; return_from_loop
  | inl resp =>
      match get_outputs q extInputs resp with
      | Err err => inside (yield (inr err));; return_from_loop
      | Ok outputs => emitAssertion (gq_backend q) yield (resp, outputs)
      | Panic => panic
      | Blocked => blocked
      end
  end.

(** The assertions kept back, with their outputs, until the caller stops.
    An output list that is too short is an index out of range. *)
Fixpoint yield_legacy (yield : assertion + error -> M (device W) bool)
    (assertions : list assertion) (outputs : list LargeBlobOutputs) : M (device W) unit :=
  match assertions with
  | [] => mret tt
  | (resp, o) :: rest =>
      match outputs with
      | [] => panic
      | lb :: outputs' =>
          go_on ← yield (inl (resp, MkGetClientOutputs (gout_CredBlob o) (gout_HMACSecret o)
                                      (Some lb) (gout_PRF o) (gout_PreviewSign o)));
          if negb go_on then mret tt else yield_legacy yield rest outputs'
      end
  end.

Definition get_legacy (fuel : nat) (nonce : list Z) (pinUvAuthToken : slice) (q : get_request)
    (assertions : list assertion) (yield : assertion + error -> M (device W) bool)
    : M (device W) unit :=
  if bool_decide (gq_backend q = largeBlobBackendLegacy) then
    r ← try_ (resolveLegacyLargeBlobOutputs fuel nonce pinUvAuthToken (gq_backend q) (gq_read q)
      (gq_write q) ((fun a => gr_LargeBlobKey a.1) <$> assertions));
    match r with
    | inr err => yield (inr err);; mret tt
    | inl outputs => yield_legacy yield assertions (default [] outputs)
    end
  else mret tt.

(** The range loop over the client's sequence, then the legacy part. *)
Definition get_loop (fuel : nat) (nonce : list Z) (pinUvAuthToken : slice) (rpID : string)
    (clientDataHash : list Z) (allowList : list Descriptor) (extInputs : GetClientInputs)
    (options : gmap string bool) (q : get_request) (yield : assertion + error -> M (device W) bool)
    : M (device W) unit := fun d =>
  match Client.GetAssertion fips_enabled loop_transport loop_emit (gq_protocol q)
          pinUvAuthToken rpID clientDataHash allowList (Some (gq_extensions q)) options
          (get_body q extInputs yield) (d, MkLoop [] false) with
  | (Ok _, (d', l)) =>
      if returned l then (Ok tt, d')
      else get_legacy fuel nonce pinUvAuthToken q (legacyAssertions l) yield d'
  | (Err err, (d', _)) => (Err err, d')
  | (Panic, (d', _)) => (Panic, d')
  | (Blocked, (d', _)) => (Blocked, d')
  end.

Definition GetAssertion (fuel : nat) (random_key : PrivateKey) (iv nonce : list Z)
    (pinUvAuthToken : slice) (rpID : string) (clientData : list Z) (allowList : list Descriptor)
    (extInputs : option GetClientInputs) (options : gmap string bool)
    : Seq (device W) assertion := fun yield =>
  let extInputs := default zero_get_client_inputs extInputs in
  r ← try_ (get_prepare random_key iv pinUvAuthToken allowList extInputs options);
  match r with
  | inr err => yield (inr err);; mret tt
  | inl q => get_loop fuel nonce pinUvAuthToken rpID (sha256 clientData) allowList extInputs options
               q yield
  end.
End Range.
End Credentials.
