(* ===== verification/DeviceCache.v ===== *)
(** * The getInfo cache of the device

    An authenticator's getInfo response changes when a PIN is set or changed,
    when the authenticator is reset or configured, when an enrollment
    completes or is removed, when a discoverable credential is created, changed
    or deleted. [reporting] states that for a transport; the theorem is that
    the cached response of a [Device] is then never stale: while it is valid,
    and whenever a check reads it, it is what the authenticator reports. *)
From S2P Require Import Prelude GoError Transport Protocol Pin Preflight Cose Crypto Messages.
From S2P Require Import Client Management Device Prf Extensions PreviewSign Credentials.

Section Cache.
Context `{Primitives} `{PC : PreviewSignCodec} {W : Type}.
Context (fips_enabled : bool) (NFC : list Z -> list Z).
(** The orders in which Go ranges over the maps of the extension inputs. *)
Context (range : gmap string PRFValues -> list (string * PRFValues)).
Context (range_sign : gmap string PreviewSignSignInputs -> list string).
Context (transport : transport_ops W).
Context (emit : option (list Z -> CBORResponse + error -> M W unit)).
(** The getInfo response of the authenticator in each state. *)
Context (report : W -> AuthenticatorGetInfoResponse).

#[local] Abbreviation T := (client_transport transport).
#[local] Abbreviation E := (client_emit emit).

(** ** What changes the report *)

(** A response that completes an enrollment. *)
Definition completes_enrollment (b : BioEnrollmentResponse) : bool :=
  (0 <? len (br_TemplateID b)) && bool_decide (RemainingSamples b = Some 0).

(** A new credential, in an answer that the client reads: it refuses one that
    does not decode or, under FIPS 140, one with a key of another algorithm. *)
Definition creates_credential (resp : CBORResponse) : bool :=
  match Unmarshal_MakeCredential (Data resp) with
  | Ok r =>
      match ParseMakeCredentialAuthData (mr_AuthDataRaw r) with
      | Ok authData =>
          match mad_AttestedCredentialData authData with
          | None => true
          | Some c => match ValidateCredentialKey fips_enabled (CredentialPublicKey c) with
                      | Ok _ => true
                      | _ => false
                      end
          end
      | _ => false
      end
  | _ => false
  end.

(** The requests that change it, when they succeed. *)
Definition changes (m : message) (resp : CBORResponse) : bool :=
  match m with
  | MClientPIN r =>
      contains [ClientPINSubCommandSetPIN; ClientPINSubCommandChangePIN] (cp_SubCommand r)
  | MBio r =>
      (be_SubCommand r =? BioEnrollmentSubCommandRemoveEnrollment) ||
      (contains [BioEnrollmentSubCommandEnrollBegin;
                 BioEnrollmentSubCommandEnrollCaptureNextSample] (be_SubCommand r) &&
       match Unmarshal_Bio (Data resp) with Ok b => completes_enrollment b | _ => false end)
  | MCredMgmt r =>
      contains [CredentialManagementSubCommandDeleteCredential;
                CredentialManagementSubCommandUpdateUserInformation] (cm_SubCommand r)
  | MMakeCredential r => flag (mc_Options r) OptionResidentKeys && creates_credential resp
  | MConfig _ => true
  | _ => false
  end.

(** A call of the transport that leaves the report alone. *)
Definition keeps_report {A} (m : M W A) : Prop := forall w r w', m w = (r, w') -> report w' = report w.

Record reporting : Prop := {
  info_reported w r w' info :
    tr_CBOR transport [AuthenticatorGetInfo] w = (Ok r, w') ->
    Unmarshal_Info (Data r) = Ok info -> info = report w';
  bare_keeps command w r w' :
    tr_CBOR transport [command] w = (r, w') ->
    (command = AuthenticatorReset -> forall resp, r <> Ok resp) -> report w' = report w;
  message_keeps m b command w r w' :
    Marshal m = Ok b -> tr_CBOR transport (command :: b) w = (r, w') ->
    (forall resp, r = Ok resp -> changes m resp = false) -> report w' = report w;
  emit_keeps f data r w :
    emit = Some f -> exists w', f data r w = (Ok tt, w') /\ report w' = report w;
  close_keeps : keeps_report (tr_Close transport);
  ping_keeps f data : tr_Ping transport = Some f -> keeps_report (f data);
  wink_keeps f : tr_Wink transport = Some f -> keeps_report f;
  lock_keeps f n : tr_Lock transport = Some f -> keeps_report (f n);
  vendor_keeps f c data : tr_Vendor transport = Some f -> keeps_report (f c data) }.

(** ** The calls of a device *)

(** A sequence is run with the caller's yield. *)
Inductive call :=
  | CClose | CGetInfo | CGetInfoCached | CPing (data : list Z) | CWink | CLock (seconds : Z)
  | CVendor (command : Z) (data : list Z) | CGetPINRetries | CGetUVRetries
  | CSetPIN (key : PrivateKey) (iv pin : list Z)
  | CChangePIN (key : PrivateKey) (iv1 iv2 currentPin newPin : list Z)
  | CTokenUsingPIN (key : PrivateKey) (iv pin : list Z) (permission : Z) (rpID : string)
  | CTokenUsingUV (key : PrivateKey) (permission : Z) (rpID : string)
  | CReset | CSelection | CGetBioModality | CGetFingerprintSensorInfo
  | CEnrollBegin (token : slice) (timeout : Z)
  | CEnrollCaptureNextSample (token templateID : slice) (timeout : Z)
  | CCancelCurrentEnrollment | CEnumerateEnrollments (token : slice)
  | CSetFriendlyName (token templateID : slice) (name : string)
  | CRemoveEnrollment (token templateID : slice)
  | CGetCredsMetadata (token : slice)
  | CEnumerateRPs (token : slice) (yield : CredentialManagementResponse + error -> M (device W) bool)
  | CEnumerateCredentials (token rpIDHash : slice)
      (yield : CredentialManagementResponse + error -> M (device W) bool)
  | CDeleteCredential (token : slice) (credentialID : Descriptor)
  | CUpdateUserInformation (token : slice) (credentialID : Descriptor) (user : UserEntity)
  | CEnableEnterpriseAttestation (token : slice) | CToggleAlwaysUV (token : slice)
  | CSetMinPINLength (token : slice) (params : SetMinPINLengthParams)
  | CEnableLongTouchForReset (token : slice)
  | CGetLargeBlobs (fuel : nat) | CSetLargeBlobs (token : slice) (blobs : list LargeBlob)
  | CMakeCredential (key : PrivateKey) (iv : list Z) (token : slice) (clientData : list Z)
      (rp : RpEntity) (user : UserEntity) (pubKeyCredParams : list (string * Z))
      (excludeList : list Descriptor) (extInputs : option CreateClientInputs)
      (options : gmap string bool) (enterprise : Z) (formats : list string)
  | CGetAssertion (fuel : nat) (key : PrivateKey) (iv nonce : list Z) (token : slice)
      (rpID : string) (clientData : list Z) (allowList : list Descriptor)
      (extInputs : option GetClientInputs) (options : gmap string bool)
      (yield : assertion + error -> M (device W) bool).

#[local] Abbreviation drop_result m := (m;; mret tt).

Definition run (c : call) : M (device W) unit :=
  match c with
  | CClose => drop_result (Device.Close transport)
  | CGetInfo => drop_result (Device.GetInfo transport emit)
  | CGetInfoCached => drop_result Device.GetInfoCached
  | CPing data => Device.Ping transport data
  | CWink => Device.Wink transport
  | CLock n => Device.Lock transport n
  | CVendor command data => drop_result (Device.Vendor transport command data)
  | CGetPINRetries => drop_result (Device.GetPINRetries fips_enabled transport emit)
  | CGetUVRetries => drop_result (Device.GetUVRetries fips_enabled transport emit)
  | CSetPIN key iv pin => Device.SetPIN fips_enabled NFC transport emit key iv pin
  | CChangePIN key iv1 iv2 currentPin newPin =>
      Device.ChangePIN fips_enabled NFC transport emit key iv1 iv2 currentPin newPin
  | CTokenUsingPIN key iv pin permission rpID => drop_result
      (Device.GetPinUvAuthTokenUsingPIN fips_enabled NFC transport emit key iv pin permission rpID)
  | CTokenUsingUV key permission rpID => drop_result
      (Device.GetPinUvAuthTokenUsingUV fips_enabled transport emit key permission rpID)
  | CReset => Device.Reset transport emit
  | CSelection => Device.Selection transport emit
  | CGetBioModality => drop_result (Device.GetBioModality transport emit)
  | CGetFingerprintSensorInfo => drop_result (Device.GetFingerprintSensorInfo transport emit)
  | CEnrollBegin token timeout =>
      drop_result (Device.EnrollBegin fips_enabled transport emit token timeout)
  | CEnrollCaptureNextSample token templateID timeout => drop_result
      (Device.EnrollCaptureNextSample fips_enabled transport emit token templateID timeout)
  | CCancelCurrentEnrollment => Device.CancelCurrentEnrollment transport emit
  | CEnumerateEnrollments token =>
      drop_result (Device.EnumerateEnrollments fips_enabled transport emit token)
  | CSetFriendlyName token templateID name =>
      Device.SetFriendlyName fips_enabled transport emit token templateID name
  | CRemoveEnrollment token templateID =>
      Device.RemoveEnrollment fips_enabled transport emit token templateID
  | CGetCredsMetadata token =>
      drop_result (Device.GetCredsMetadata fips_enabled transport emit token)
  | CEnumerateRPs token yield => Device.EnumerateRPs fips_enabled transport emit token yield
  | CEnumerateCredentials token rpIDHash yield =>
      Device.EnumerateCredentials fips_enabled transport emit token rpIDHash yield
  | CDeleteCredential token credentialID =>
      Device.DeleteCredential fips_enabled transport emit token credentialID
  | CUpdateUserInformation token credentialID user =>
      Device.UpdateUserInformation fips_enabled transport emit token credentialID user
  | CEnableEnterpriseAttestation token =>
      Device.EnableEnterpriseAttestation fips_enabled transport emit token
  | CToggleAlwaysUV token => Device.ToggleAlwaysUV fips_enabled transport emit token
  | CSetMinPINLength token params =>
      Device.SetMinPINLength fips_enabled transport emit token params
  | CEnableLongTouchForReset token =>
      Device.EnableLongTouchForReset fips_enabled transport emit token
  | CGetLargeBlobs fuel => drop_result (Device.GetLargeBlobs fips_enabled transport emit fuel)
  | CSetLargeBlobs token blobs => Device.SetLargeBlobs fips_enabled transport emit token blobs
  | CMakeCredential key iv token clientData rp user params exclude ext options enterprise formats =>
      drop_result (Credentials.MakeCredential fips_enabled transport emit key iv token clientData rp
        user params exclude ext options enterprise formats)
  | CGetAssertion fuel key iv nonce token rpID clientData allowList ext options yield =>
      Credentials.GetAssertion fips_enabled transport emit range range_sign fuel key iv nonce token
        rpID clientData allowList ext options yield
  end.

(** A history of calls, whatever each returned. *)
Definition runs (cs : list call) (d : device W) : device W :=
  foldl (fun d c => snd (run c d)) d cs.

(** ** Invariants *)

(** While the cached response is valid, it is the authenticator's. *)
Definition coherent (d : device W) : Prop :=
  dv_infoValid d = true -> dv_info d = report (dv_world d).

(** A program that leaves the cache alone, one that leaves the report alone
    too, and one that does unless it succeeds. *)
Definition same_cache (d d' : device W) : Prop :=
  dv_info d' = dv_info d /\ dv_infoValid d' = dv_infoValid d.
Definition same_report (d d' : device W) : Prop := report (dv_world d') = report (dv_world d).
Definition steady {A} (m : M (device W) A) : Prop := forall d r d',
  m d = (r, d') -> same_cache d d' /\ same_report d d'.
Definition commits {A} (m : M (device W) A) : Prop := forall d r d',
  m d = (r, d') -> same_cache d d' /\ ((exists a, r = Ok a) \/ same_report d d').
Definition keeps {A} (m : M (device W) A) : Prop := forall d r d',
  coherent d -> m d = (r, d') -> coherent d'.

(** The yield of a sequence runs while the device is locked: it may read
    the cache, and use the connection without changing the report. *)
Definition quiet (c : call) : Prop :=
  match c with
  | CEnumerateRPs _ yield | CEnumerateCredentials _ _ yield => forall x, steady (yield x)
  | CGetAssertion _ _ _ _ _ _ _ _ _ _ yield => forall x, steady (yield x)
  | _ => True
  end.

Lemma steady_keeps {A} (m : M (device W) A) : steady m -> keeps m.
Proof.
  intros Hm d r d' Hd Hr. destruct (Hm _ _ _ Hr) as [[Hi Hv] Hw].
  unfold coherent, same_report in *. rewrite Hi, Hv, Hw. exact Hd.
Qed.

Lemma steady_commits {A} (m : M (device W) A) : steady m -> commits m.
Proof. intros Hm d r d' Hr. destruct (Hm _ _ _ Hr). auto. Qed.

Lemma steady_lift {A} (r : result A) : steady (lift r).
Proof. intros d r' d' [= <- <-]. done. Qed.

Lemma steady_ret {A} (a : A) : steady (mret a : M (device W) A).
Proof. intros d r' d' [= <- <-]. done. Qed.

Lemma steady_check_err c : steady (check_err c : M (device W) unit).
Proof. destruct c; apply steady_lift. Qed.

Lemma steady_cached : steady (@cached_info W).
Proof. intros d r' d' [= <- <-]. done. Qed.

Lemma same_trans d d1 d2 : same_cache d d1 -> same_cache d1 d2 -> same_cache d d2.
Proof. unfold same_cache. intros [-> ->] [-> ->]. done. Qed.

(** What a first call returned is known to the rest. *)
Lemma bind_cases {A B} (m : M (device W) A) (f : A -> M (device W) B) d r d' :
  (m ≫= f) d = (r, d') ->
  (exists a d1, m d = (Ok a, d1) /\ f a d1 = (r, d')) \/
  (exists r1, m d = (r1, d') /\ (forall a, r1 <> Ok a) /\ (forall b, r <> Ok b)).
Proof.
  unfold mbind, M_bind. destruct (m d) as [[] d1]; intros Hr; [left; eauto|right..];
    injection Hr as <- <-; eexists; done.
Qed.

Lemma steady_bind {A B} (m : M (device W) A) (f : A -> M (device W) B) :
  steady m -> (forall a d d', m d = (Ok a, d') -> steady (f a)) -> steady (m ≫= f).
Proof.
  intros Hm Hf d r d' [(a & d1 & H1 & H2)|(r1 & H1 & _)]%bind_cases.
  - destruct (Hm _ _ _ H1) as [Hc1 Hr1]. destruct (Hf _ _ _ H1 _ _ _ H2) as [Hc2 Hr2].
    split; [by eapply same_trans|]. unfold same_report in *. congruence.
  - by eapply Hm.
Qed.

Lemma commits_bind {A B} (m : M (device W) A) (f : A -> M (device W) B) :
  steady m -> (forall a d d', m d = (Ok a, d') -> commits (f a)) -> commits (m ≫= f).
Proof.
  intros Hm Hf d r d' [(a & d1 & H1 & H2)|(r1 & H1 & _)]%bind_cases.
  - destruct (Hm _ _ _ H1) as [Hc1 Hr1]. destruct (Hf _ _ _ H1 _ _ _ H2) as [Hc2 Hr2].
    split; [by eapply same_trans|]. unfold same_report in *. destruct Hr2; [by left|right; congruence].
  - destruct (Hm _ _ _ H1). auto.
Qed.

Lemma commits_ret {A B} (m : M (device W) A) (f : A -> B) :
  commits m -> commits (m ≫= fun a => mret (f a)).
Proof.
  intros Hm d r d' [(a & d1 & H1 & [= <- <-])|(r1 & H1 & Hn & _)]%bind_cases;
    destruct (Hm _ _ _ H1) as [Hc Hr]; (split; [done|]); [left; eauto|].
  destruct Hr as [[a ->]|Hr]; [by destruct (Hn a)|auto].
Qed.

Lemma keeps_bind {A B} (m : M (device W) A) (f : A -> M (device W) B) :
  keeps m -> (forall a, keeps (f a)) -> keeps (m ≫= f).
Proof.
  intros Hm Hf d r d' Hd [(a & d1 & H1 & H2)|(r1 & H1 & _)]%bind_cases; [|by eapply Hm].
  eapply Hf; [by eapply Hm|done].
Qed.

Lemma steady_try {A} (m : M (device W) A) : steady m -> steady (try_ m).
Proof.
  intros Hm d r d'. unfold try_. destruct (m d) as [r1 d1] eqn:H1.
  destruct r1; intros [= <- <-]; by eapply Hm.
Qed.

Lemma keeps_try {A} (m : M (device W) A) : keeps m -> keeps (try_ m).
Proof.
  intros Hm d r d' Hd. unfold try_. destruct (m d) as [r1 d1] eqn:H1.
  destruct r1; intros [= <- <-]; by eapply Hm.
Qed.

Lemma keeps_invalidate : keeps (@invalidateInfoLocked W).
Proof. intros d r d' Hd [= <- <-]. done. Qed.

(** A success of a committing call is followed by the invalidation. *)
Lemma keeps_then_invalidate {A} (m : M (device W) A) : commits m -> keeps (then_invalidate m).
Proof.
  intros Hm d r d' Hd [(a & d1 & H1 & H2)|(r1 & H1 & Hn & _)]%bind_cases.
  - injection H2 as <- <-. done.
  - destruct (Hm _ _ _ H1) as [[Hi Hv] [[a ->]|Hr]]; [by destruct (Hn a)|].
    unfold coherent, same_report in *. by rewrite Hi, Hv, Hr.
Qed.

Lemma commits_pin_policy {A} (m : M (device W) A) : commits m -> commits (with_pin_policy m).
Proof.
  intros Hm d r d'. unfold with_pin_policy, mbind, M_bind, try_.
  destruct (m d) as [r1 d1] eqn:H1. destruct (Hm _ _ _ H1) as [Hc Hr].
  destruct r1 as [a|err| |]; cbn; intros [= <- <-]; (split; [done|]); [by left; exists a|right..];
    by destruct Hr as [[a' Ha]|Hr].
Qed.

(** ** The client on a reporting transport *)

Section Reporting.
Context (Hrep : reporting).

Lemma steady_on_world {A} (m : M W A) : keeps_report m -> steady (on_world m).
Proof using.
  intros Hm d r d'. unfold on_world. destruct (m (dv_world d)) as [r1 w1] eqn:H1.
  intros [= <- <-]. split; [done|]. by apply Hm in H1.
Qed.

(** An exchange leaves the cache alone and returns what the transport
    returned; the report is the one the transport leaves. *)
Lemma cbor_world data d r d' :
  cbor T E data d = (r, d') ->
  same_cache d d' /\ exists w, tr_CBOR transport data (dv_world d) = (r, w) /\
    report (dv_world d') = report w.
Proof using Hrep.
  unfold cbor, T, exchange, E. destruct emit as [f|] eqn:He; cbn [fmap option_fmap option_map].
  - unfold mbind, M_bind, try_, on_world.
    destruct (tr_CBOR transport data (dv_world d)) as [r1 w1] eqn:H1. cbn.
    destruct r1 as [resp|err| |]; cbn; intros Hr;
      [..|by injection Hr as <- <-; split; [done|exists w1]
         |by injection Hr as <- <-; split; [done|exists w1]].
    + destruct (emit_keeps Hrep f data (inl resp) w1 He) as (w2 & H2 & Hk). rewrite H2 in Hr.
      injection Hr as <- <-. split; [done|]. by exists w1.
    + destruct (emit_keeps Hrep f data (inr err) w1 He) as (w2 & H2 & Hk). rewrite H2 in Hr.
      injection Hr as <- <-. split; [done|]. by exists w1.
  - unfold on_world. destruct (tr_CBOR transport data (dv_world d)) as [r1 w1] eqn:H1.
    intros [= <- <-]. split; [done|]. by exists w1.
Qed.

Lemma steady_bare command : command <> AuthenticatorReset -> steady (cbor T E [command]).
Proof using Hrep.
  intros Hc d r d' Hr. destruct (cbor_world _ _ _ _ Hr) as (Hs & w & Hw & Hrw).
  split; [done|]. unfold same_report. rewrite Hrw.
  eapply (bare_keeps Hrep); [exact Hw|done].
Qed.

Lemma steady_send m b command :
  Marshal m = Ok b -> (forall resp, changes m resp = false) -> steady (command_cbor T E command b).
Proof using Hrep.
  intros Hb Hm d r d' Hr. destruct (cbor_world _ _ _ _ Hr) as (Hs & w & Hw & Hrw).
  split; [done|]. unfold same_report. rewrite Hrw. eapply (message_keeps Hrep); [exact Hb|exact Hw|auto].
Qed.

Lemma commits_send m b command : Marshal m = Ok b -> commits (command_cbor T E command b).
Proof using Hrep.
  intros Hb d r d' Hr. destruct (cbor_world _ _ _ _ Hr) as (Hs & w & Hw & Hrw).
  split; [done|]. destruct r as [resp|err| |]; [left; eauto|right; unfold same_report; rewrite Hrw..];
    by eapply (message_keeps Hrep).
Qed.

Lemma lift_returns {A} (r : result A) a (d d' : device W) : lift r d = (Ok a, d') -> r = Ok a.
Proof using. by intros [= ->]. Qed.

Lemma wrapping_returns {A} msg (m : M (device W) A) a d d' :
  wrapping msg m d = (Ok a, d') -> m d = (Ok a, d').
Proof using.
  unfold wrapping, mbind, M_bind, try_. destruct (m d) as [[] d1]; cbn; by intros [= <- <-].
Qed.

Lemma wrap_err_returns {A} msg (r : result A) a : wrap_err msg r = Ok a -> r = Ok a.
Proof using. by destruct r. Qed.

Lemma steady_wrapping {A} msg (m : M (device W) A) : steady m -> steady (wrapping msg m).
Proof using.
  intros Hm. apply steady_bind; [by apply steady_try|]. intros [] _ _ _; apply steady_lift.
Qed.

Lemma steady_deref {A} (p : option A) : steady (deref p : M (device W) A).
Proof using. destruct p; apply steady_lift. Qed.

(** The bytes of a request that was marshalled. *)
Ltac marshalled :=
  first [eapply lift_returns; eassumption
        |eapply lift_returns, wrapping_returns; eassumption].

(** One step through the code of a client call. *)
Ltac steady_step :=
  lazymatch goal with
  | |- forall _, _ => intro
  | |- steady (wrapping _ _) => apply steady_wrapping
  | |- steady (try_ _) => apply steady_try
  | |- steady (deref _) => apply steady_deref
  | |- steady (check_err _) => apply steady_check_err
  | |- steady (command_cbor _ _ _ _) => eapply steady_send; [marshalled|done]
  | |- steady (cbor _ _ [_]) => by apply steady_bare
  | |- steady (_ ≫= _) => apply steady_bind; [|intros ? ? ? ?]
  | |- steady (match ?x with _ => _ end) => destruct x
  | |- steady cached_info => apply steady_cached
  | |- steady (mret _) => apply steady_ret
  | |- steady _ => apply steady_lift
  end.
Ltac steady := repeat steady_step.

Lemma steady_GetKeyAgreement p : steady (Client.GetKeyAgreement fips_enabled T E p).
Proof using Hrep. unfold Client.GetKeyAgreement. steady. Qed.

Lemma steady_GetPINRetries p : steady (Client.GetPINRetries fips_enabled T E p).
Proof using Hrep. unfold Client.GetPINRetries. steady. Qed.

Lemma steady_GetUVRetries p : steady (Client.GetUVRetries fips_enabled T E p).
Proof using Hrep. unfold Client.GetUVRetries. steady. Qed.

Lemma steady_GetPinToken key iv p ka pin :
  steady (Client.GetPinToken fips_enabled NFC T E key iv p ka pin).
Proof using Hrep. unfold Client.GetPinToken. steady. Qed.

Lemma steady_TokenUsingPin key iv p ka pin perm rpID :
  steady (Client.GetPinUvAuthTokenUsingPinWithPermissions fips_enabled NFC T E key iv p ka pin perm rpID).
Proof using Hrep. unfold Client.GetPinUvAuthTokenUsingPinWithPermissions. steady. Qed.

Lemma steady_TokenUsingUv key p ka perm rpID :
  steady (Client.getPinUvAuthTokenUsingUv fips_enabled T E key p ka perm rpID).
Proof using Hrep. unfold Client.getPinUvAuthTokenUsingUv. steady. Qed.

Lemma steady_Selection : steady (Client.Selection T E).
Proof using Hrep. unfold Client.Selection. steady. Qed.

(** The management commands that change nothing. *)
Definition enumeration_steady (seq : Seq (device W) CredentialManagementResponse) : Prop :=
  forall yield, (forall x, steady (yield x)) -> steady (seq yield).

Lemma steady_iterate {A} n (fetch : M (device W) A) yield :
  steady fetch -> (forall x, steady (yield x)) -> steady (iterate n fetch yield).
Proof using. intros Hf Hy. induction n as [|n IH]; cbn [iterate]; steady; done. Qed.

Lemma steady_sequence {A} begin rest (fetch : M (device W) A) yield :
  steady begin -> steady fetch -> (forall x, steady (yield x)) ->
  steady (sequence begin rest fetch yield).
Proof using.
  intros Hb Hf Hy. unfold sequence. steady; try done. by apply steady_iterate.
Qed.

Lemma steady_EnumerateRPs preview p token :
  enumeration_steady (Management.EnumerateRPs fips_enabled T E preview p token).
Proof using Hrep.
  intros yield Hy. apply steady_sequence; [..|done]; unfold enumerate_next; steady.
Qed.

Lemma steady_EnumerateCredentials preview p token rpIDHash :
  enumeration_steady (Management.EnumerateCredentials fips_enabled T E preview p token rpIDHash).
Proof using Hrep.
  intros yield Hy. apply steady_sequence; [..|done]; unfold enumerate_next; steady.
Qed.

Lemma steady_LargeBlobs p token get set offset length :
  steady (Management.LargeBlobs fips_enabled T E p token get set offset length).
Proof using Hrep. unfold Management.LargeBlobs. steady. Qed.

Lemma steady_bio preview :
  steady (Management.GetBioModality T E preview) /\
  steady (Management.GetFingerprintSensorInfo T E preview) /\
  steady (Management.CancelCurrentEnrollment T E preview) /\
  (forall p token, steady (Management.EnumerateEnrollments fips_enabled T E preview p token)) /\
  (forall p token id name,
     steady (Management.SetFriendlyName fips_enabled T E preview p token id name)).
Proof using Hrep.
  unfold Management.GetBioModality, Management.GetFingerprintSensorInfo,
    Management.CancelCurrentEnrollment, Management.EnumerateEnrollments,
    Management.SetFriendlyName.
  split_and!; steady.
Qed.

Lemma steady_GetCredsMetadata preview p token :
  steady (Management.GetCredsMetadata fips_enabled T E preview p token).
Proof using Hrep. unfold Management.GetCredsMetadata. steady. Qed.

(** The requests that change the report when they succeed. *)
Ltac commits :=
  repeat lazymatch goal with
  | |- forall _, _ => intro
  | |- commits (command_cbor _ _ _ _) => eapply commits_send; marshalled
  | |- commits (command_cbor _ _ _ _ ≫= _) => apply commits_ret
  | |- commits (_ ≫= _) => apply commits_bind; [unfold config_authenticate; steady|intros ? ? ? ?]
  | |- commits (match ?x with _ => _ end) => destruct x
  end.

Lemma commits_Reset : commits (Client.Reset T E).
Proof using Hrep.
  apply commits_ret. intros d r d' Hr. destruct (cbor_world _ _ _ _ Hr) as (Hs & w & Hw & Hrw).
  split; [done|]. destruct r as [resp|err| |]; [left; eauto|right; unfold same_report; rewrite Hrw..];
    by eapply (bare_keeps Hrep).
Qed.

Lemma commits_SetPIN key iv p ka pin :
  commits (Client.SetPIN fips_enabled NFC T E key iv p ka pin).
Proof using Hrep. unfold Client.SetPIN. commits. Qed.

Lemma commits_ChangePIN key iv1 iv2 p ka pin newPin :
  commits (Client.ChangePIN fips_enabled NFC T E key iv1 iv2 p ka pin newPin).
Proof using Hrep. unfold Client.ChangePIN. commits. Qed.

Lemma commits_RemoveEnrollment preview p token id :
  commits (Management.RemoveEnrollment fips_enabled T E preview p token id).
Proof using Hrep. unfold Management.RemoveEnrollment. commits. Qed.

Lemma commits_DeleteCredential preview p token id :
  commits (Management.DeleteCredential fips_enabled T E preview p token id).
Proof using Hrep. unfold Management.DeleteCredential. commits. Qed.

Lemma commits_UpdateUserInformation preview p token id user :
  commits (Management.UpdateUserInformation fips_enabled T E preview p token id user).
Proof using Hrep. unfold Management.UpdateUserInformation. commits. Qed.

Lemma commits_config p token :
  commits (Management.EnableEnterpriseAttestation fips_enabled T E p token) /\
  commits (Management.ToggleAlwaysUV fips_enabled T E p token) /\
  commits (Management.EnableLongTouchForReset fips_enabled T E p token) /\
  forall params, commits (Management.SetMinPINLength fips_enabled T E p token params).
Proof using Hrep.
  unfold Management.EnableEnterpriseAttestation, Management.ToggleAlwaysUV,
    Management.EnableLongTouchForReset, Management.SetMinPINLength.
  split_and!; commits.
Qed.

(** An enrollment call changes the report only with the answer that
    completes the enrollment. *)
Definition enrolls (m : M (device W) BioEnrollmentResponse) : Prop := forall d r d',
  m d = (r, d') ->
  same_cache d d' /\ (same_report d d' \/ exists b, r = Ok b /\ completes_enrollment b = true).

Lemma enrolls_bind {A} (m : M (device W) A) f :
  steady m -> (forall a d d', m d = (Ok a, d') -> enrolls (f a)) -> enrolls (m ≫= f).
Proof using.
  intros Hm Hf d r d' [(a & d1 & H1 & H2)|(r1 & H1 & _)]%bind_cases.
  - destruct (Hm _ _ _ H1) as [Hc1 Hr1]. destruct (Hf _ _ _ H1 _ _ _ H2) as [Hc2 Hr2].
    split; [by eapply same_trans|]. unfold same_report in *. destruct Hr2; [left; congruence|by right].
  - destruct (Hm _ _ _ H1). auto.
Qed.

Lemma enrolls_send req b command :
  Marshal (MBio req) = Ok b ->
  (be_SubCommand req =? BioEnrollmentSubCommandRemoveEnrollment) = false ->
  enrolls (command_cbor T E command b ≫= fun resp => lift (Unmarshal_Bio (Data resp))).
Proof using Hrep.
  intros Hb Hs d r d' [(resp & d1 & H1 & [= <- <-])|(r1 & H1 & Hn & _)]%bind_cases;
    destruct (cbor_world _ _ _ _ H1) as (Hc & w & Hw & Hrw); (split; [done|]);
    unfold same_report; rewrite Hrw.
  - destruct (changes (MBio req) resp) eqn:Hch.
    + cbn [changes] in Hch. rewrite Hs in Hch. cbn [orb] in Hch.
      apply andb_prop in Hch as [_ Hch]. destruct (Unmarshal_Bio (Data resp)); eauto; done.
    + left. eapply (message_keeps Hrep); [exact Hb|exact Hw|]. by intros ? [= ->].
  - left. eapply (message_keeps Hrep); [exact Hb|exact Hw|]. intros ? ->. by destruct (Hn resp).
Qed.

Ltac enrolls :=
  repeat lazymatch goal with
  | |- forall _, _ => intro
  | |- enrolls (command_cbor _ _ _ _ ≫= _) => eapply enrolls_send; [marshalled|done]
  | |- enrolls (_ ≫= _) => apply enrolls_bind; [steady|intros ? ? ? ?]
  end.

Lemma enrolls_EnrollBegin preview p token timeout :
  enrolls (Management.EnrollBegin fips_enabled T E preview p token timeout).
Proof using Hrep. unfold Management.EnrollBegin. enrolls. Qed.

Lemma enrolls_EnrollCaptureNextSample preview p token id timeout :
  enrolls (Management.EnrollCaptureNextSample fips_enabled T E preview p token id timeout).
Proof using Hrep. unfold Management.EnrollCaptureNextSample. enrolls. Qed.

Lemma keeps_enrolled m : enrolls m -> keeps (m ≫= enrolled).
Proof using.
  intros Hm d r d' Hd [(b & d1 & H1 & H2)|(r1 & H1 & Hn & _)]%bind_cases;
    destruct (Hm _ _ _ H1) as [[Hi Hv] Hr].
  - destruct Hr as [Hr|(b' & [= <-] & Hb)].
    + assert (Hd1 : coherent d1) by (unfold coherent, same_report in *; by rewrite Hi, Hv, Hr).
      revert H2. unfold enrolled. destruct (RemainingSamples b); [|by intros [= <- <-]].
      case_match; intros [= <- <-]; [|done]. by intros ?.
    + apply andb_prop in Hb as [Hb1 Hb2]. apply bool_decide_eq_true in Hb2.
      revert H2. unfold enrolled. rewrite Hb2, Hb1. intros [= <- <-]. by intros ?.
  - destruct Hr as [Hr|(b' & -> & _)]; [|by destruct (Hn b')].
    unfold coherent, same_report in *. by rewrite Hi, Hv, Hr.
Qed.

(** A refreshed cache is valid and current. *)
Lemma refresh_current d r d' :
  refreshInfoLocked transport emit d = (r, d') ->
  (coherent d -> coherent d') /\
  forall info, r = Ok info -> dv_info d' = info /\ info = report (dv_world d').
Proof using Hrep.
  unfold refreshInfoLocked, Client.GetInfo.
  intros [(info & d1 & H1 & [= <- <-])|(r1 & H1 & Hn & Hn')]%bind_cases.
  - apply bind_cases in H1 as [(resp & d2 & H1 & [= Hu <-])|(r1 & H1 & Hn & Hn')]; [|by destruct (Hn' info)].
    destruct (cbor_world _ _ _ _ H1) as (Hc & w & Hw & Hrw).
    assert (Hi : info = report (dv_world d2)) by (rewrite Hrw; by eapply (info_reported Hrep)).
    split; [intros _ _; exact Hi|]. intros ? [= <-]. done.
  - assert (Hs : steady (respRaw ← cbor T E [AuthenticatorGetInfo];
                         lift (Unmarshal_Info (Data respRaw)))) by steady.
    split; [intros Hd; by eapply (steady_keeps _ Hs)|].
    intros info ->. by destruct (Hn' info).
Qed.

Lemma ensure_current d d' :
  coherent d -> ensureInfoLocked transport emit d = (Ok tt, d') ->
  dv_info d' = report (dv_world d').
Proof using Hrep.
  intros Hd. unfold ensureInfoLocked. destruct (dv_infoValid d) eqn:Hv; [intros [= <-]; by apply Hd|].
  intros [(info & d1 & H1 & [= <-])|(r1 & H1 & Hn & Hn')]%bind_cases; [|by destruct (Hn' tt)].
  destruct (refresh_current _ _ _ H1) as [_ Hi]. destruct (Hi info eq_refl) as [-> Hr]. exact Hr.
Qed.

Lemma keeps_refresh : keeps (refreshInfoLocked transport emit).
Proof using Hrep. intros d r d' Hd Hr. by apply (refresh_current _ _ _ Hr). Qed.

Lemma keeps_ensure : keeps (ensureInfoLocked transport emit).
Proof using Hrep.
  intros d r d' Hd. unfold ensureInfoLocked. case_match; [by intros [= <- <-]|].
  apply keeps_bind; [apply keeps_refresh|intros ?; apply steady_keeps, steady_ret|done].
Qed.

(** ** The calls keep the cache coherent *)

Lemma steady_read_fragments fuel n fragment config offset :
  steady (read_fragments fips_enabled transport emit fuel n fragment config offset).
Proof using Hrep.
  revert fragment config offset. induction fuel as [|fuel IH]; intros fragment config offset;
    cbn [read_fragments]; case_match; try apply steady_lift; try apply steady_ret.
  apply steady_bind; [apply steady_LargeBlobs|]. intros. apply IH.
Qed.

Lemma steady_write_fragments p token chunks offset length :
  steady (write_fragments fips_enabled transport emit p token chunks offset length).
Proof using Hrep.
  revert offset length. induction chunks as [|c chunks IH]; intros offset length;
    cbn [write_fragments]; [apply steady_ret|].
  apply steady_bind; [apply steady_LargeBlobs|]. intros. apply IH.
Qed.

Lemma steady_on_transport {A} (m : M W A) : keeps_report m -> keeps (on_world m).
Proof using. intros Hm. by apply steady_keeps, steady_on_world. Qed.

Lemma steady_device_client :
  (forall token seq, (forall preview p, enumeration_steady (seq preview p)) -> forall yield,
     (forall x, steady (yield x)) ->
     keeps (enumeration fips_enabled transport emit token seq yield)) /\
  keeps (pinUvAuthProtocolWithKeyAgreement fips_enabled transport emit) /\
  keeps (bio_mode transport emit) /\ keeps (cm_mode transport emit) /\
  (forall token, keeps (token_protocol (W := W) fips_enabled token)) /\
  (forall token sub c, keeps (config_protocol (W := W) fips_enabled token sub c)).
Proof using Hrep.
  assert (Hka : keeps (pinUvAuthProtocolWithKeyAgreement fips_enabled transport emit)).
  { apply steady_keeps. unfold pinUvAuthProtocolWithKeyAgreement.
    steady; apply steady_GetKeyAgreement. }
  assert (Hmode : forall f, keeps (ensureInfoLocked transport emit;;
                     info ← cached_info; lift (f info : result bool))).
  { intros f. apply keeps_bind; [apply keeps_ensure|]. intros _. apply steady_keeps. steady. }
  assert (Htp : forall token, keeps (token_protocol (W := W) fips_enabled token)).
  { intros token. apply steady_keeps. unfold token_protocol. steady. }
  split_and!; [|done|apply Hmode|apply Hmode|done|].
  - intros token seq Hseq yield Hy. unfold enumeration.
    apply keeps_bind; [apply keeps_try, keeps_bind; [apply Hmode|]|].
    + intros preview. apply keeps_bind; [apply Htp|]. intros p. by apply steady_keeps, steady_ret.
    + intros [[preview p]|err]; apply steady_keeps; [by apply Hseq|]. steady; done.
  - intros token sub c. apply steady_keeps. unfold config_protocol. steady.
Qed.

Create HintDb cache_db.
#[local] Hint Resolve steady_GetKeyAgreement steady_GetPINRetries steady_GetUVRetries
  steady_GetPinToken steady_TokenUsingPin steady_TokenUsingUv steady_Selection
  steady_GetCredsMetadata steady_EnumerateRPs steady_EnumerateCredentials steady_LargeBlobs steady_read_fragments
  steady_write_fragments commits_Reset commits_SetPIN commits_ChangePIN commits_RemoveEnrollment
  commits_DeleteCredential commits_UpdateUserInformation enrolls_EnrollBegin
  enrolls_EnrollCaptureNextSample keeps_ensure keeps_refresh steady_cached
  close_keeps ping_keeps wink_keeps lock_keeps vendor_keeps : cache_db.

(** One step through the code of a device method. *)
Ltac keeps_step :=
  lazymatch goal with
  | |- forall _, _ => intro
  | |- keeps (then_invalidate (with_pin_policy _)) =>
      apply keeps_then_invalidate, commits_pin_policy
  | |- keeps (then_invalidate _) => apply keeps_then_invalidate
  | |- keeps (ensureInfoLocked _ _) => apply keeps_ensure
  | |- keeps (refreshInfoLocked _ _) => apply keeps_refresh
  | |- keeps (pinUvAuthProtocolWithKeyAgreement _ _ _) => apply steady_device_client
  | |- keeps (bio_mode _ _) => apply steady_device_client
  | |- keeps (cm_mode _ _) => apply steady_device_client
  | |- keeps (token_protocol _ _) => apply steady_device_client
  | |- keeps (config_protocol _ _ _ _) => apply steady_device_client
  | |- keeps (enumeration _ _ _ _ _ _) => apply steady_device_client; eauto with cache_db
  | |- keeps (on_world _) => apply steady_on_transport; eauto with cache_db
  | |- keeps (_ ≫= enrolled) => apply keeps_enrolled; auto with cache_db
  | |- keeps (_ ≫= _) => apply keeps_bind
  | |- keeps (match ?x with _ => _ end) => destruct x eqn:?
  | |- keeps _ => apply steady_keeps; steady; auto with cache_db
  | |- commits _ => auto with cache_db
  end.
Ltac keeps := repeat keeps_step.

Lemma keeps_hid :
  keeps (run CClose) /\ (forall data, keeps (run (CPing data))) /\ keeps (run CWink) /\
  (forall n, keeps (run (CLock n))) /\
  (forall command data, keeps (run (CVendor command data))) /\ keeps (run CGetInfoCached).
Proof using Hrep.
  cbn [run]. unfold Device.Close, Device.Ping, Device.Wink, Device.Lock, Device.Vendor.
  split_and!; keeps. intros d r d' [= <- <-]. done.
Qed.

Lemma keeps_pin :
  (forall key iv pin, keeps (run (CSetPIN key iv pin))) /\
  (forall key iv iv2 pin pin2, keeps (run (CChangePIN key iv iv2 pin pin2))) /\
  (forall key iv pin permission rpID, keeps (run (CTokenUsingPIN key iv pin permission rpID))) /\
  (forall key permission rpID, keeps (run (CTokenUsingUV key permission rpID))) /\
  keeps (run CGetPINRetries) /\ keeps (run CGetUVRetries) /\ keeps (run CReset) /\
  keeps (run CSelection) /\ keeps (run CGetInfo).
Proof using Hrep.
  cbn [run]. unfold Device.SetPIN, Device.ChangePIN, Device.GetPinUvAuthTokenUsingPIN,
    Device.GetPinUvAuthTokenUsingUV, Device.GetPINRetries, Device.GetUVRetries, Device.Reset,
    Device.Selection, Device.GetInfo, Client.GetPinUvAuthTokenUsingUv,
    Client.GetPinUvAuthTokenUsingUvWithPermissions.
  split_and!; keeps.
Qed.

Lemma keeps_bio :
  keeps (run CGetBioModality) /\ keeps (run CGetFingerprintSensorInfo) /\
  (forall token timeout, keeps (run (CEnrollBegin token timeout))) /\
  (forall token id timeout, keeps (run (CEnrollCaptureNextSample token id timeout))) /\
  keeps (run CCancelCurrentEnrollment) /\
  (forall token, keeps (run (CEnumerateEnrollments token))) /\
  (forall token id name, keeps (run (CSetFriendlyName token id name))) /\
  (forall token id, keeps (run (CRemoveEnrollment token id))).
Proof using Hrep.
  cbn [run]. unfold Device.GetBioModality, Device.GetFingerprintSensorInfo, Device.EnrollBegin,
    Device.EnrollCaptureNextSample, Device.CancelCurrentEnrollment, Device.EnumerateEnrollments,
    Device.SetFriendlyName, Device.RemoveEnrollment.
  split_and!; keeps; by apply steady_bio.
Qed.

Lemma keeps_credentials token :
  keeps (run (CGetCredsMetadata token)) /\ (forall id, keeps (run (CDeleteCredential token id))) /\
  (forall id user, keeps (run (CUpdateUserInformation token id user))) /\
  (forall yield, (forall x, steady (yield x)) -> keeps (run (CEnumerateRPs token yield))) /\
  (forall rpIDHash yield, (forall x, steady (yield x)) ->
     keeps (run (CEnumerateCredentials token rpIDHash yield))).
Proof using Hrep.
  cbn [run]. unfold Device.GetCredsMetadata, Device.DeleteCredential,
    Device.UpdateUserInformation, Device.EnumerateRPs, Device.EnumerateCredentials.
  split_and!; keeps.
Qed.

(** *** MakeCredential *)

(** A registration changes the report only when it returns a response. *)
Definition registers {A} (rk : bool) (m : M (device W) A) : Prop := forall d r d',
  m d = (r, d') -> same_cache d d' /\ (same_report d d' \/ rk = true /\ exists a, r = Ok a).

Lemma registers_bind {A B} rk (m : M (device W) A) (f : A -> M (device W) B) :
  steady m -> (forall a d d', m d = (Ok a, d') -> registers rk (f a)) -> registers rk (m ≫= f).
Proof using.
  intros Hm Hf d r d' [(a & d1 & H1 & H2)|(r1 & H1 & _)]%bind_cases.
  - destruct (Hm _ _ _ H1) as [Hc1 Hr1]. destruct (Hf _ _ _ H1 _ _ _ H2) as [Hc2 Hr2].
    split; [by eapply same_trans|]. unfold same_report in *. destruct Hr2; [left; congruence|by right].
  - destruct (Hm _ _ _ H1). auto.
Qed.

(** The end of [Client.MakeCredential]: the answer is read. *)
Lemma registers_send req b command :
  Marshal (MMakeCredential req) = Ok b ->
  registers (flag (mc_Options req) OptionResidentKeys) (
    respRaw ← command_cbor T E command b;
    resp ← lift (Unmarshal_MakeCredential (Data respRaw));
    authData ← lift (ParseMakeCredentialAuthData (mr_AuthDataRaw resp));
    match mad_AttestedCredentialData authData with
    | None => mret tt
    | Some c => lift (ValidateCredentialKey fips_enabled (CredentialPublicKey c))
    end;;
    mret (set_mr_AuthData resp authData)).
Proof using Hrep.
  intros Hb d r d' [(resp & d1 & H1 & H2)|(r1 & H1 & Hn & _)]%bind_cases;
    destruct (cbor_world _ _ _ _ H1) as (Hc & w & Hw & Hrw).
  - assert (Hd : d' = d1 /\ (creates_credential resp = true -> exists a, r = Ok a)).
    { revert H2. unfold creates_credential, mbind, M_bind, lift, mret, M_ret.
      repeat case_match; intros; simplify_eq; by eauto. }
    destruct Hd as [-> Hr]. split; [done|]. unfold same_report. rewrite Hrw.
    destruct (changes (MMakeCredential req) resp) eqn:Hch.
    + right. cbn [changes] in Hch. apply andb_prop in Hch as [? ?]. auto.
    + left. eapply (message_keeps Hrep); [exact Hb|exact Hw|]. by intros ? [= ->].
  - split; [done|]. left. unfold same_report. rewrite Hrw.
    eapply (message_keeps Hrep); [exact Hb|exact Hw|]. intros ? ->. by destruct (Hn resp).
Qed.

Lemma registers_MakeCredential p token hash rp user params exclude ext options enterprise formats :
  registers (flag options OptionResidentKeys)
    (Client.MakeCredential fips_enabled T E p token hash rp user params exclude ext options
       enterprise formats).
Proof using Hrep.
  unfold Client.MakeCredential.
  repeat lazymatch goal with
  | |- registers _ (command_cbor _ _ _ _ ≫= _) => fail
  | |- registers _ (match ?x with _ => _ end) => destruct x
  | |- registers _ (_ ≫= _) => apply registers_bind; [steady|intros ? ? ? ?]
  end.
  match goal with Hb : lift (wrap_err _ (Marshal _)) _ = _ |- _ =>
    apply lift_returns, wrap_err_returns in Hb; exact (registers_send _ _ _ Hb) end.
Qed.

Lemma keeps_registered {A B} rk (m : M (device W) A) (f : A -> M (device W) B) :
  registers rk m -> (forall a, steady (f a)) ->
  keeps (a ← m; (if rk then invalidateInfoLocked else mret tt);; f a).
Proof using.
  intros Hm Hf d r d' Hd [(a & d1 & H1 & H2)|(r1 & H1 & Hn & _)]%bind_cases;
    destruct (Hm _ _ _ H1) as [[Hi Hv] Hr].
  - assert (Hd1 : rk = false -> coherent d1).
    { intros ->. destruct Hr as [Hr|[? _]]; [|done].
      unfold coherent, same_report in *. by rewrite Hi, Hv, Hr. }
    destruct rk.
    + eapply (steady_keeps _ (Hf a)); [|exact H2]. done.
    + eapply (steady_keeps _ (Hf a)); [|exact H2]. by apply Hd1.
  - destruct Hr as [Hr|(_ & a & ->)]; [|by destruct (Hn a)].
    unfold coherent, same_report in *. by rewrite Hi, Hv, Hr.
Qed.

Lemma steady_send_salts key iv salt : steady (send_salts fips_enabled transport emit key iv salt).
Proof using Hrep.
  unfold send_salts, pinUvAuthProtocolWithKeyAgreement. steady; apply steady_GetKeyAgreement.
Qed.
#[local] Hint Resolve steady_send_salts : cache_db.

Lemma keeps_MakeCredential key iv token clientData rp user params exclude ext options enterprise formats :
  keeps (run (CMakeCredential key iv token clientData rp user params exclude ext options enterprise
    formats)).
Proof using Hrep.
  cbn [run]. unfold Credentials.MakeCredential, request_protocol, create_extensions, create_hmac_secret.
  repeat first [apply keeps_registered; [apply registers_MakeCredential|steady]|keeps_step].
Qed.

(** *** GetAssertion *)

(** The loop over the assertions keeps its own variables beside the device. *)
Definition inside_steady {A} (m : M (device W * loop) A) : Prop := forall dl r dl',
  m dl = (r, dl') -> same_cache dl.1 dl'.1 /\ same_report dl.1 dl'.1.

Lemma inside_steady_lift {A} (r : result A) : inside_steady (lift r).
Proof using. intros dl r' dl' [= <- <-]. done. Qed.

Lemma inside_steady_device {A} (m : M (device W) A) : steady m -> inside_steady (inside m).
Proof using.
  intros Hm dl r dl'. unfold inside. destruct (m dl.1) as [r1 d1] eqn:H1. intros [= <- <-].
  by eapply Hm.
Qed.

Lemma inside_steady_bind {A B} (m : M (device W * loop) A) (f : A -> M (device W * loop) B) :
  inside_steady m -> (forall a dl dl', m dl = (Ok a, dl') -> inside_steady (f a)) ->
  inside_steady (m ≫= f).
Proof using.
  intros Hm Hf dl r dl'. unfold mbind, M_bind. destruct (m dl) as [r1 dl1] eqn:H1.
  destruct (Hm _ _ _ H1) as [Hc1 Hr1].
  destruct r1 as [a|err| |]; [|by intros [= <- <-]..].
  intros H2. destruct (Hf _ _ _ H1 _ _ _ H2) as [Hc2 Hr2].
  split; [by eapply same_trans|]. unfold same_report in *. congruence.
Qed.

Lemma inside_steady_try {A} (m : M (device W * loop) A) : inside_steady m -> inside_steady (try_ m).
Proof using.
  intros Hm dl r dl'. unfold try_. destruct (m dl) as [r1 dl1] eqn:H1.
  destruct r1; intros [= <- <-]; by eapply Hm.
Qed.

(** An exchange of the loop is the device's. *)
Lemma inside_steady_cbor data :
  steady (cbor T E data) -> inside_steady (cbor (loop_transport transport) (loop_emit emit) data).
Proof using.
  intros Hs dl r dl' Hr. apply (inside_steady_device _ Hs dl r dl'). rewrite <- Hr.
  unfold cbor, loop_transport, loop_emit, client_transport, client_emit, exchange, inside.
  cbn [fmap option_fmap option_map]. destruct emit as [f|]; [|done].
  cbn [fmap option_fmap option_map]. unfold mbind, M_bind, try_, on_world. cbn.
  destruct (tr_CBOR transport data (dv_world dl.1)) as [[resp|err| |] w1]; try done; cbn;
    destruct (f data _ w1) as [[] w2]; done.
Qed.

Lemma inside_returns {A} (r : result A) a (dl dl' : device W * loop) : lift r dl = (Ok a, dl') -> r = Ok a.
Proof using. by intros [= ->]. Qed.

Ltac inside_step :=
  lazymatch goal with
  | |- forall _, _ => intro
  | |- inside_steady (try_ _) => apply inside_steady_try
  | |- inside_steady (inside _) => apply inside_steady_device
  | |- inside_steady (check_err ?c) => destruct c; apply inside_steady_lift
  | |- inside_steady (command_cbor _ _ _ _) => apply inside_steady_cbor;
      eapply steady_send; [eapply inside_returns; eassumption|done]
  | |- inside_steady (cbor _ _ [_]) => apply inside_steady_cbor; by apply steady_bare
  | |- inside_steady (_ ≫= _) => apply inside_steady_bind; [|intros ? ? ? ?]
  | |- inside_steady (match ?x with _ => _ end) => destruct x
  | |- inside_steady return_from_loop => intros ? ? ? [= <- <-]; done
  | |- inside_steady (fun _ => (Ok _, (_.1, _))) => intros ? ? ? [= <- <-]; done
  | |- inside_steady _ => apply inside_steady_lift
  end.
Ltac inside_steady := repeat inside_step.

Lemma inside_steady_body q ext (yield : assertion + error -> M (device W) bool) x :
  (forall x, steady (yield x)) -> inside_steady (get_body q ext yield x).
Proof using. intros Hy. unfold get_body, emitAssertion. inside_steady; apply Hy. Qed.

Lemma inside_steady_iterate {A} n (fetch : M (device W * loop) A) yield :
  inside_steady fetch -> (forall x, inside_steady (yield x)) -> inside_steady (iterate n fetch yield).
Proof using. intros Hf Hy. induction n as [|n IH]; cbn [iterate]; inside_steady; done. Qed.

Lemma inside_steady_GetAssertion p token rpID hash allowList ext options yield :
  (forall x, inside_steady (yield x)) ->
  inside_steady (Client.GetAssertion fips_enabled (loop_transport transport) (loop_emit emit) p token rpID
    hash allowList ext options yield).
Proof using Hrep.
  intros Hy. unfold Client.GetAssertion, sequence. inside_steady; try apply Hy.
  apply inside_steady_iterate; [|done]. unfold next_assertion. inside_steady.
Qed.

Lemma steady_yield_legacy yield assertions :
  (forall x, steady (yield x)) -> forall outputs, steady (yield_legacy (W := W) yield assertions outputs).
Proof using.
  intros Hy. induction assertions as [|[resp o] rest IH]; intros outputs; cbn [yield_legacy]; steady;
    [apply Hy|apply IH].
Qed.

Lemma steady_large_blob_array :
  (forall fuel, steady (getLargeBlobsLocked fips_enabled transport emit fuel)) /\
  (forall token blobs, steady (setLargeBlobsLocked fips_enabled transport emit token blobs)).
Proof using Hrep.
  unfold getLargeBlobsLocked, setLargeBlobsLocked, token_protocol.
  split; steady; auto with cache_db.
Qed.

Lemma steady_get_legacy fuel nonce token q assertions yield :
  (forall x, steady (yield x)) ->
  steady (get_legacy fips_enabled transport emit fuel nonce token q assertions yield).
Proof using Hrep.
  intros Hy. unfold get_legacy, resolveLegacyLargeBlobOutputs. steady;
    try apply Hy; try apply steady_large_blob_array. by apply steady_yield_legacy.
Qed.

Lemma steady_get_loop fuel nonce token rpID hash allowList ext options q yield :
  (forall x, steady (yield x)) ->
  steady (get_loop fips_enabled transport emit fuel nonce token rpID hash allowList ext options q yield).
Proof using Hrep.
  intros Hy d r d'. unfold get_loop.
  destruct (Client.GetAssertion _ _ _ _ _ _ _ _ _ _ _ _) as [r1 [d1 l]] eqn:H1.
  apply inside_steady_GetAssertion in H1 as [Hc1 Hr1]; [|intros x; by apply inside_steady_body].
  cbn in Hc1, Hr1. destruct r1; [|by intros [= <- <-]..].
  destruct (returned l); [by intros [= <- <-]|]. intros H2.
  destruct (steady_get_legacy _ _ _ _ _ _ Hy _ _ _ H2) as [Hc2 Hr2].
  split; [by eapply same_trans|]. unfold same_report in *. congruence.
Qed.

Lemma keeps_GetAssertion fuel key iv nonce token rpID clientData allowList ext options yield :
  (forall x, steady (yield x)) ->
  keeps (run (CGetAssertion fuel key iv nonce token rpID clientData allowList ext options yield)).
Proof using Hrep.
  intros Hy. cbn [run]. unfold Credentials.GetAssertion. apply keeps_bind.
  - apply keeps_try. unfold get_prepare, get_hmac_secret, request_protocol. keeps.
  - intros [q|err]; apply steady_keeps; [by apply steady_get_loop|]. steady. apply Hy.
Qed.

Lemma keeps_config :
  (forall token, keeps (run (CEnableEnterpriseAttestation token))) /\
  (forall token, keeps (run (CToggleAlwaysUV token))) /\
  (forall token params, keeps (run (CSetMinPINLength token params))) /\
  (forall token, keeps (run (CEnableLongTouchForReset token))) /\
  (forall fuel, keeps (run (CGetLargeBlobs fuel))) /\
  (forall token blobs, keeps (run (CSetLargeBlobs token blobs))).
Proof using Hrep.
  cbn [run]. unfold Device.EnableEnterpriseAttestation, Device.ToggleAlwaysUV,
    Device.SetMinPINLength, Device.EnableLongTouchForReset, Device.GetLargeBlobs,
    Device.SetLargeBlobs, getLargeBlobsLocked, setLargeBlobsLocked.
  split_and!; keeps; apply commits_config.
Qed.

#[local] Opaque run.
Lemma keeps_run c : quiet c -> keeps (run c).
Proof using Hrep.
  destruct c; cbn [quiet]; intros Hq;
    first [by apply keeps_hid|by apply keeps_pin|by apply keeps_bio|by apply keeps_config
          |by apply keeps_credentials|apply keeps_MakeCredential|by apply keeps_GetAssertion].
Qed.
#[local] Transparent run.

Lemma new_coherent w d w' :
  New transport emit w = (Ok d, w') -> coherent d.
Proof using Hrep.
  unfold New, Client.GetInfo, cbor, exchange, mbind, M_bind, try_. intros Hn _.
  destruct emit as [f|] eqn:He;
    destruct (tr_CBOR transport [AuthenticatorGetInfo] w) as [r1 w1] eqn:H1;
    destruct r1 as [resp|err| |]; cbn in Hn; try done.
  - destruct (emit_keeps Hrep f [AuthenticatorGetInfo] (inl resp) w1 He) as (w2 & H2 & Hk).
    rewrite H2 in Hn. cbn in Hn. destruct (Unmarshal_Info (Data resp)) eqn:Hu; try done.
    injection Hn as <- <-. cbn. rewrite Hk. by eapply (info_reported Hrep).
  - destruct (emit_keeps Hrep f [AuthenticatorGetInfo] (inr err) w1 He) as (w2 & H2 & Hk).
    by rewrite H2 in Hn.
  - destruct (Unmarshal_Info (Data resp)) eqn:Hu; try done.
    injection Hn as <- <-. cbn. by eapply (info_reported Hrep).
Qed.

Lemma runs_coherent cs d : Forall quiet cs -> coherent d -> coherent (runs cs d).
Proof using Hrep.
  intros Hq. revert d. induction Hq as [|c cs Hc Hq IH]; intros d Hd; [done|].
  apply IH. destruct (run c d) as [r d'] eqn:Hr. by apply (keeps_run c Hc d r d').
Qed.

End Reporting.
End Cache.

(** ** A device on a toy authenticator

    It reports one of two responses: a reset makes it the second, a new
    discoverable credential the first. *)
Definition sample_report (w : bool) : AuthenticatorGetInfoResponse :=
  sample_info [] ∅ [if w then 1 else 2].

(** A request for a discoverable credential is told from the others. *)
Definition cache_codec : Codec := {|
  Any := Z;
  Marshal m :=
    match m with
    | MMakeCredential r => Ok [if flag (mc_Options r) OptionResidentKeys then 1 else 0]
    | _ => Ok [0]
    end;
  Unmarshal_ClientPIN _ := Err io_EOF;
  Unmarshal_Bio _ := Err io_EOF;
  Unmarshal_CredMgmt _ := Err io_EOF;
  Unmarshal_LargeBlobs _ := Err io_EOF;
  Unmarshal_Info b := Ok (sample_report (bool_decide (b = [1])));
  Unmarshal_MakeCredential _ := Ok (MkMakeCredentialResponse "none" (zeros 37) None ∅ false [] ∅);
  Unmarshal_GetAssertion _ := Err io_EOF;
  decode_cose_key _ := Err io_EOF;
  decode_any_map _ := Err io_EOF;
  Decode_CreateExtensionOutputs _ := Err io_EOF;
  Decode_GetExtensionOutputs _ := Err io_EOF;
  remarshal_supported _ := Err io_EOF;
  remarshal_GetLargeBlobOutput _ := Err io_EOF;
  remarshal_AttestationObject _ := Err io_EOF;
  Marshal_LargeBlobArray _ := Err io_EOF;
  Unmarshal_LargeBlobArray _ := Err io_EOF |}.

Definition cache_preview : @PreviewSignCodec cache_codec :=
  @Build_PreviewSignCodec cache_codec (fun _ => Err io_EOF) (fun _ => Err io_EOF)
    (fun _ => Err io_EOF) (fun _ => Err io_EOF) (fun _ _ _ => Err io_EOF).

Definition sample_device_transport : transport_ops bool := MkTransportOps
  (fun data w =>
     match data with
     | [4] => (Ok (MkCBORResponse 0 [if w then 1 else 2]), w)
     | [7] => (Ok (MkCBORResponse 0 []), false)
     | [_; 1] => (Ok (MkCBORResponse 0 []), true)
     | _ => (Ok (MkCBORResponse 0 []), w)
     end)
  (mret None) None None None None.

Lemma sample_reporting :
  reporting (H0 := cache_codec) false sample_device_transport None sample_report.
Proof.
  split; try done.
  - intros w r w' info [= <- <-] [= <-]. by destruct w.
  - intros command w r w' Hr Hc.
    destruct (decide (command = 7)) as [->|Hn].
    + injection Hr as <- <-. by destruct (Hc eq_refl (MkCBORResponse 0 [])).
    + destruct (decide (command = 4)) as [->|H4]; [by injection Hr as <- <-|].
      assert (Hw : w' = w); [|by rewrite Hw]. cbn [tr_CBOR sample_device_transport] in Hr.
      repeat case_match; simplify_eq; done.
  - intros m b command w r w' Hm Hr Hc.
    assert (Hb : b = [0] \/ b = [1] /\ forall resp, changes (H0 := cache_codec) false m resp = true).
    { destruct m; cbn in Hm; simplify_eq; auto. cbn [changes].
      destruct (flag _ _); simplify_eq; [right; by split|by left]. }
    cbn [tr_CBOR sample_device_transport] in Hr. destruct Hb as [->|[-> Hch]].
    + assert (Hw : w' = w); [|by rewrite Hw]. repeat case_match; simplify_eq; done.
    + specialize (Hc (MkCBORResponse 0 [])). rewrite Hch in Hc.
      exfalso. repeat case_match; simplify_eq; by discriminate Hc.
  - intros w r w' [= <- <-]. done.
Qed.

(** A discoverable credential, then a fresh response. *)
Definition sample_history : list (@call sample_primitives cache_codec bool) :=
  [CMakeCredential (H := sample_primitives) (H0 := cache_codec) false [] None [] (MkRpEntity "" "")
     (MkUserEntity None "" "" "") [] [] None {[ OptionResidentKeys := true ]} 0 []; CGetInfo].

