(* ===== verification/Relational.v ===== *)
(** * Relations between runs in two worlds

    A program over a transport does not look inside the transport's world: it
    sees answers only. [MonadRel] is the interface of the relations between
    calls in one world and calls in another that the operations of the monad
    keep; whatever is built with them from related transports is related
    (ClientRel, DeviceRel). Two instances are used in Stack: [traced], between
    an authenticator that is called and the script of its answers, and [sim],
    between the script and a connection that carries it. *)
From S2P Require Import Prelude GoError.

(** ** The interface *)

Section MonadRel.
Context {W1 W2 : Type}.

Class MonadRel (Rel : forall A, M W1 A -> M W2 A -> Prop) : Prop := {
  rel_proper A : Proper ((≡) ==> (≡) ==> iff) (Rel A);
  rel_lift A (r : result A) : Rel A (lift r) (lift r);
  rel_bind A B (m1 : M W1 A) m2 (f1 : A -> M W1 B) f2 :
    Rel A m1 m2 -> (forall a, Rel B (f1 a) (f2 a)) -> Rel B (m1 ≫= f1) (m2 ≫= f2);
  rel_attempt A (m1 : M W1 A) m2 : Rel A m1 m2 -> Rel _ (attempt m1) (attempt m2) }.
#[export] Existing Instance rel_proper.

Context (Rel : forall A, M W1 A -> M W2 A -> Prop) `{HR : MonadRel Rel}.

(** Two calls are related; and the laws again, for the proofs about
    programs. *)
Definition related {A} (m1 : M W1 A) (m2 : M W2 A) : Prop := Rel A m1 m2.

#[export] Instance related_proper {A} : Proper ((≡) ==> (≡) ==> iff) (@related A).
Proof using HR. apply rel_proper. Qed.

Lemma related_lift {A} (r : result A) : related (lift r) (lift r).
Proof using HR. apply rel_lift. Qed.

Lemma related_ret {A} (a : A) : related (mret a) (mret a).
Proof using HR. apply (rel_lift _ (Ok a)). Qed.

Lemma related_bind {A B} (m1 : M W1 A) m2 (f1 : A -> M W1 B) f2 :
  related m1 m2 -> (forall a, related (f1 a) (f2 a)) -> related (m1 ≫= f1) (m2 ≫= f2).
Proof using HR. apply rel_bind. Qed.

Lemma related_attempt {A} (m1 : M W1 A) m2 : related m1 m2 -> related (attempt m1) (attempt m2).
Proof using HR. apply rel_attempt. Qed.

Lemma related_try {A} (m1 : M W1 A) m2 : related m1 m2 -> related (try_ m1) (try_ m2).
Proof using HR.
  intros Hm. rewrite !try_attempt. apply related_bind; [by apply related_attempt|].
  intros r. apply related_lift.
Qed.
End MonadRel.
Arguments rel_bind {W1 W2 Rel _ A B}.
Arguments rel_lift {W1 W2 Rel _ A}.
Arguments rel_attempt {W1 W2 Rel _ A}.

(** ** State around a world

    The worlds of the upper layers are a world of the layer below with state
    of their own around it. *)
Record wrapper (W S V : Type) := Wrapper {
  pack : W -> S -> V;
  inner : V -> W;
  outer : V -> S;
  inner_pack w s : inner (pack w s) = w;
  outer_pack w s : outer (pack w s) = s;
  pack_eta v : pack (inner v) (outer v) = v }.
Arguments pack {W S V}.
Arguments inner {W S V}.
Arguments outer {W S V}.
Arguments inner_pack {W S V}.
Arguments outer_pack {W S V}.
Arguments pack_eta {W S V}.

Section Wrapper.
Context {W S V : Type} (wr : wrapper W S V).

(** A call of the layer below. *)
Definition within {A} (m : M W A) : M V A := fun v =>
  let '(r, w) := m (inner wr v) in (r, pack wr w (outer wr v)).

(** What a call does to the state around, and below. *)
Definition kept {A} (r : result A) (s : S) : result (result A * S) :=
  match r with Blocked => Blocked | _ => Ok (r, s) end.
Definition unwrap {A} (m : M V A) (s : S) : M W (result A * S) := fun w =>
  let '(r, v) := m (pack wr w s) in (kept r (outer wr v), inner wr v).

#[export] Instance unwrap_proper {A} : Proper ((≡) ==> (=) ==> (≡)) (@unwrap A).
Proof. intros m m' Hm s ? <- w. unfold unwrap. by rewrite (Hm _). Qed.

Lemma unwrap_local {A} (m : M V A) s (r : result A) s' :
  (forall w, m (pack wr w s) = (r, pack wr w s')) -> unwrap m s ≡ lift (kept r s').
Proof. intros Hm w. unfold unwrap. rewrite Hm, outer_pack, inner_pack. done. Qed.

(** A run that ends is read off the unwrapped one. *)
Lemma unwrap_ends {A} (m : M V A) s w r s' w' :
  unwrap m s w = (kept r s', w') -> r <> Blocked -> m (pack wr w s) = (r, pack wr w' s').
Proof.
  unfold unwrap. destruct (m (pack wr w s)) as [r0 v]. intros [= Hk <-] Hr.
  assert (r0 = r /\ outer wr v = s') as [-> <-]; [|by rewrite pack_eta].
  by destruct r0, r; simplify_eq/=.
Qed.

Lemma unwrap_blocked {A} (m : M V A) s w r v :
  m (pack wr w s) = (r, v) -> r <> Blocked -> (unwrap m s w).1 = Blocked -> False.
Proof. unfold unwrap. intros ->. by destruct r. Qed.

Lemma unwrap_lift {A} (r : result A) s : unwrap (lift r) s ≡ lift (kept r s).
Proof. by apply unwrap_local. Qed.

Lemma unwrap_bind {A B} (m : M V A) (f : A -> M V B) s :
  unwrap (m ≫= f) s ≡ unwrap m s ≫= fun '(r, s') =>
    match r with Ok a => unwrap (f a) s' | Err e => lift (kept (Err e) s')
               | Panic => lift (kept Panic s') | Blocked => lift Blocked end.
Proof.
  intros w. unfold unwrap, mbind, M_bind. destruct (m (pack wr w s)) as [[a|e| |] v]; cbn; [|done..].
  by rewrite pack_eta.
Qed.

Lemma unwrap_attempt {A} (m : M V A) s :
  unwrap (attempt m) s ≡ unwrap m s ≫= fun '(r, s') => lift (kept (Ok r) s').
Proof.
  intros w. unfold unwrap, attempt, mbind, M_bind. by destruct (m (pack wr w s)) as [[a|e| |] v].
Qed.

Lemma unwrap_within {A} (m : M W A) s :
  unwrap (within m) s ≡ attempt m ≫= fun r => lift (kept r s).
Proof.
  intros w. unfold unwrap, within, attempt, mbind, M_bind. rewrite inner_pack, outer_pack.
  destruct (m w) as [[a|e| |] w']; cbn; by rewrite ?inner_pack, ?outer_pack.
Qed.
End Wrapper.

Section Wrapped.
Context {W1 W2 S V1 V2 : Type} (wr1 : wrapper W1 S V1) (wr2 : wrapper W2 S V2).
Context (Rel : forall A, M W1 A -> M W2 A -> Prop) `{HR : MonadRel _ _ Rel}.

(** Related at every state around. *)
Definition wrapped (A : Type) (m1 : M V1 A) (m2 : M V2 A) : Prop :=
  forall s, Rel _ (unwrap wr1 m1 s) (unwrap wr2 m2 s).

Lemma wrapped_local {A} (m1 : M V1 A) (m2 : M V2 A) (r : S -> result A) (f : S -> S) :
  (forall w s, m1 (pack wr1 w s) = (r s, pack wr1 w (f s))) ->
  (forall w s, m2 (pack wr2 w s) = (r s, pack wr2 w (f s))) -> wrapped A m1 m2.
Proof using HR.
  intros H1 H2 s. rewrite (unwrap_local wr1 m1 s (r s) (f s)), (unwrap_local wr2 m2 s (r s) (f s)) by done.
  apply rel_lift.
Qed.

Lemma wrapped_within {A} (m1 : M W1 A) m2 : Rel A m1 m2 -> wrapped A (within wr1 m1) (within wr2 m2).
Proof using HR.
  intros Hm s. rewrite !unwrap_within. apply rel_bind; [by apply rel_attempt|]. intros r. apply rel_lift.
Qed.

#[export] Instance wrapped_MonadRel : MonadRel wrapped.
Proof using HR.
  split.
  - intros A m1 m1' H1 m2 m2' H2. unfold wrapped.
    split; intros Hm s; specialize (Hm s); by rewrite H1, H2 in Hm || by rewrite <- H1, <- H2 in Hm.
  - intros A r s. rewrite !unwrap_lift. apply rel_lift.
  - intros A B m1 m2 f1 f2 Hm Hf s. rewrite !unwrap_bind. apply rel_bind; [apply Hm|].
    intros [[a|e| |] s']; [apply Hf|apply rel_lift..].
  - intros A m1 m2 Hm s. rewrite !unwrap_attempt. apply rel_bind; [apply Hm|]. intros [r s']. apply rel_lift.
Qed.
End Wrapped.

(** ** Simulation

    From related worlds, whatever the first call returns the second returns
    too, in worlds related again; a first call that waits for what its history
    does not hold promises nothing. *)
Section Sim.
Context {W1 W2 : Type} (R : W1 -> W2 -> Prop).

Definition sim (A : Type) (m1 : M W1 A) (m2 : M W2 A) : Prop :=
  forall w1 w2, R w1 w2 ->
    (m1 w1).1 = Blocked \/ exists w2', m2 w2 = ((m1 w1).1, w2') /\ R (m1 w1).2 w2'.

#[export] Instance sim_MonadRel : MonadRel sim.
Proof.
  split.
  - intros A m1 m1' H1 m2 m2' H2. unfold sim.
    split; intros Hs w1 w2 Hw; specialize (Hs w1 w2 Hw); by rewrite H1, H2 in Hs || by rewrite <- H1, <- H2 in Hs.
  - intros A r w1 w2 Hw. right. by exists w2.
  - intros A B m1 m2 f1 f2 Hm Hf w1 w2 Hw. unfold mbind, M_bind.
    destruct (Hm w1 w2 Hw) as [Hb|(w2' & H2 & Hw')]; destruct (m1 w1) as [r w1']; cbn in *; [by subst; left|].
    rewrite H2. destruct r as [a|e| |]; [by apply Hf|right; by exists w2'..].
  - intros A m1 m2 Hm w1 w2 Hw. unfold attempt.
    destruct (Hm w1 w2 Hw) as [Hb|(w2' & H2 & Hw')]; destruct (m1 w1) as [r w1']; cbn in *; [by subst; left|].
    rewrite H2. destruct r as [a|e| |]; cbn; right; by exists w2'.
Qed.
End Sim.

(** ** Programs

    [rel] proves that one program over related calls is related to itself: it
    follows the text, and splits the matches both sides share. *)
Create HintDb rel discriminated.
#[export] Hint Resolve related_lift related_ret : rel.
#[export] Hint Extern 1 (MonadRel _) => typeclasses eauto : rel.

Ltac rel_step :=
  lazymatch goal with
  | |- forall _, _ => intro
  | |- MonadRel _ => typeclasses eauto
  | |- related _ (fail ?e) (fail ?e) => apply (related_lift _ (Err e))
  | |- related _ panic panic => apply (related_lift _ Panic)
  | |- related _ blocked blocked => apply (related_lift _ Blocked)
  | |- related _ (_ ≫= _) (_ ≫= _) => apply related_bind
  | |- related _ (try_ _) (try_ _) => apply related_try
  | |- _ => first [ solve [auto with rel nocore]
                  | match goal with
                    | |- related _ (match ?x with _ => _ end) (match ?x with _ => _ end) => destruct x
                    end ]
  end.
Ltac rel := repeat (cbv beta zeta; rel_step).
