(* ===== verification/ClientRel.v ===== *)
(** * The client, relationally (src/client/commands.go)

    Every command of the client is a program over its transport: run over two
    transports whose calls are related, it is related to itself. *)
From S2P Require Import Prelude GoError Transport Protocol Pin Cose Crypto Messages Client Management Relational.

Section ClientRel.
Context `{Primitives} `{Codec} {W1 W2 : Type}.
Context (fips_enabled : bool) (NFC : list Z -> list Z).
Context (Rel : forall A, M W1 A -> M W2 A -> Prop) `{HR : MonadRel _ _ Rel}.
Context (T1 : option (list Z -> M W1 CBORResponse)) (T2 : option (list Z -> M W2 CBORResponse)).
Context (E1 : option (list Z -> CBORResponse + error -> M W1 unit)).
Context (E2 : option (list Z -> CBORResponse + error -> M W2 unit)).

(** Related transports, and related diagnostics. *)
Definition rel_transport : Prop :=
  match T1, T2 with
  | Some f1, Some f2 => forall data, related Rel (f1 data) (f2 data)
  | None, None => True
  | _, _ => False
  end.
Definition rel_emit : Prop :=
  match E1, E2 with
  | Some f1, Some f2 => forall data r, related Rel (f1 data r) (f2 data r)
  | None, None => True
  | _, _ => False
  end.
Context (HT : rel_transport) (HE : rel_emit).

Lemma rel_cbor data : related Rel (cbor T1 E1 data) (cbor T2 E2 data).
Proof using HR HT HE.
  unfold rel_transport, rel_emit in *. unfold cbor, exchange. destruct T1, T2, E1, E2; try done; rel.
Qed.
#[local] Hint Resolve rel_cbor : rel.

Lemma rel_check_err c : related Rel (check_err c) (check_err c).
Proof using HR. unfold check_err. rel. Qed.
Lemma rel_deref {A} (p : option A) : related Rel (deref p) (deref p).
Proof using HR. unfold deref. rel. Qed.
Lemma rel_wrapping {A} msg (m1 : M W1 A) m2 : related Rel m1 m2 -> related Rel (wrapping msg m1) (wrapping msg m2).
Proof using HR. intros Hm. unfold wrapping. rel. Qed.
Lemma rel_command_cbor command b : related Rel (command_cbor T1 E1 command b) (command_cbor T2 E2 command b).
Proof using HR HT HE. apply rel_cbor. Qed.
#[local] Hint Resolve rel_check_err rel_deref rel_wrapping rel_command_cbor : rel.

(** Sequences: run with related yields. *)
Definition rel_seq {A} (seq1 : Seq W1 A) (seq2 : Seq W2 A) : Prop :=
  forall yield1 yield2, (forall item, related Rel (yield1 item) (yield2 item)) -> related Rel (seq1 yield1) (seq2 yield2).

Lemma rel_iterate {A} n (fetch1 : M W1 A) fetch2 yield1 yield2 :
  related Rel fetch1 fetch2 -> (forall item, related Rel (yield1 item) (yield2 item)) ->
  related Rel (iterate n fetch1 yield1) (iterate n fetch2 yield2).
Proof using HR. intros Hf Hy. induction n as [|n IH]; cbn [iterate]; rel. Qed.
#[local] Hint Resolve rel_iterate : rel.

Lemma rel_sequence {A} (begin1 : M W1 A) begin2 rest fetch1 fetch2 :
  related Rel begin1 begin2 -> related Rel fetch1 fetch2 -> rel_seq (sequence begin1 rest fetch1) (sequence begin2 rest fetch2).
Proof using HR. intros Hb Hf yield1 yield2 Hy. unfold sequence. rel. Qed.

(** *** Commands *)

Lemma rel_MakeCredential pinUvAuthProtocol pinUvAuthToken clientDataHash rp user pubKeyCredParams excludeList extensions options enterpriseAttestation attestationFormatsPreference :
  related Rel (Client.MakeCredential fips_enabled T1 E1 pinUvAuthProtocol pinUvAuthToken clientDataHash rp user pubKeyCredParams excludeList extensions options enterpriseAttestation attestationFormatsPreference)
        (Client.MakeCredential fips_enabled T2 E2 pinUvAuthProtocol pinUvAuthToken clientDataHash rp user pubKeyCredParams excludeList extensions options enterpriseAttestation attestationFormatsPreference).
Proof using HR HT HE. unfold Client.MakeCredential. rel. Qed.
#[local] Hint Resolve rel_MakeCredential : rel.
Lemma rel_next_assertion :
  related Rel (Client.next_assertion T1 E1)
        (Client.next_assertion T2 E2).
Proof using HR HT HE. unfold Client.next_assertion. rel. Qed.
#[local] Hint Resolve rel_next_assertion : rel.
Lemma rel_GetAssertion pinUvAuthProtocol pinUvAuthToken rpID clientDataHash allowList extensions options : rel_seq (Client.GetAssertion fips_enabled T1 E1 pinUvAuthProtocol pinUvAuthToken rpID clientDataHash allowList extensions options) (Client.GetAssertion fips_enabled T2 E2 pinUvAuthProtocol pinUvAuthToken rpID clientDataHash allowList extensions options).
Proof using HR HT HE. unfold Client.GetAssertion. apply rel_sequence; rel. Qed.
#[local] Hint Resolve rel_GetAssertion : rel.
Lemma rel_GetInfo :
  related Rel (Client.GetInfo T1 E1)
        (Client.GetInfo T2 E2).
Proof using HR HT HE. unfold Client.GetInfo. rel. Qed.
#[local] Hint Resolve rel_GetInfo : rel.
Lemma rel_GetPINRetries pinUvAuthProtocol :
  related Rel (Client.GetPINRetries fips_enabled T1 E1 pinUvAuthProtocol)
        (Client.GetPINRetries fips_enabled T2 E2 pinUvAuthProtocol).
Proof using HR HT HE. unfold Client.GetPINRetries. rel. Qed.
#[local] Hint Resolve rel_GetPINRetries : rel.
Lemma rel_GetUVRetries pinUvAuthProtocol :
  related Rel (Client.GetUVRetries fips_enabled T1 E1 pinUvAuthProtocol)
        (Client.GetUVRetries fips_enabled T2 E2 pinUvAuthProtocol).
Proof using HR HT HE. unfold Client.GetUVRetries. rel. Qed.
#[local] Hint Resolve rel_GetUVRetries : rel.
Lemma rel_GetKeyAgreement pinUvAuthProtocol :
  related Rel (Client.GetKeyAgreement fips_enabled T1 E1 pinUvAuthProtocol)
        (Client.GetKeyAgreement fips_enabled T2 E2 pinUvAuthProtocol).
Proof using HR HT HE. unfold Client.GetKeyAgreement. rel. Qed.
#[local] Hint Resolve rel_GetKeyAgreement : rel.
Lemma rel_SetPIN random_key iv pinUvAuthProtocol keyAgreement pin :
  related Rel (Client.SetPIN fips_enabled NFC T1 E1 random_key iv pinUvAuthProtocol keyAgreement pin)
        (Client.SetPIN fips_enabled NFC T2 E2 random_key iv pinUvAuthProtocol keyAgreement pin).
Proof using HR HT HE. unfold Client.SetPIN. rel. Qed.
#[local] Hint Resolve rel_SetPIN : rel.
Lemma rel_ChangePIN random_key iv1 iv2 pinUvAuthProtocol keyAgreement currentPin newPin :
  related Rel (Client.ChangePIN fips_enabled NFC T1 E1 random_key iv1 iv2 pinUvAuthProtocol keyAgreement currentPin newPin)
        (Client.ChangePIN fips_enabled NFC T2 E2 random_key iv1 iv2 pinUvAuthProtocol keyAgreement currentPin newPin).
Proof using HR HT HE. unfold Client.ChangePIN. rel. Qed.
#[local] Hint Resolve rel_ChangePIN : rel.
Lemma rel_GetPinToken random_key iv pinUvAuthProtocol keyAgreement pin :
  related Rel (Client.GetPinToken fips_enabled NFC T1 E1 random_key iv pinUvAuthProtocol keyAgreement pin)
        (Client.GetPinToken fips_enabled NFC T2 E2 random_key iv pinUvAuthProtocol keyAgreement pin).
Proof using HR HT HE. unfold Client.GetPinToken. rel. Qed.
#[local] Hint Resolve rel_GetPinToken : rel.
Lemma rel_GetPinUvAuthTokenUsingPinWithPermissions random_key iv pinUvAuthProtocol keyAgreement pin permissions rpID :
  related Rel (Client.GetPinUvAuthTokenUsingPinWithPermissions fips_enabled NFC T1 E1 random_key iv pinUvAuthProtocol keyAgreement pin permissions rpID)
        (Client.GetPinUvAuthTokenUsingPinWithPermissions fips_enabled NFC T2 E2 random_key iv pinUvAuthProtocol keyAgreement pin permissions rpID).
Proof using HR HT HE. unfold Client.GetPinUvAuthTokenUsingPinWithPermissions. rel. Qed.
#[local] Hint Resolve rel_GetPinUvAuthTokenUsingPinWithPermissions : rel.
Lemma rel_getPinUvAuthTokenUsingUv random_key pinUvAuthProtocol keyAgreement permissions rpID :
  related Rel (Client.getPinUvAuthTokenUsingUv fips_enabled T1 E1 random_key pinUvAuthProtocol keyAgreement permissions rpID)
        (Client.getPinUvAuthTokenUsingUv fips_enabled T2 E2 random_key pinUvAuthProtocol keyAgreement permissions rpID).
Proof using HR HT HE. unfold Client.getPinUvAuthTokenUsingUv. rel. Qed.
#[local] Hint Resolve rel_getPinUvAuthTokenUsingUv : rel.
Lemma rel_GetPinUvAuthTokenUsingUv random_key keyAgreement :
  related Rel (Client.GetPinUvAuthTokenUsingUv fips_enabled T1 E1 random_key keyAgreement)
        (Client.GetPinUvAuthTokenUsingUv fips_enabled T2 E2 random_key keyAgreement).
Proof using HR HT HE. unfold Client.GetPinUvAuthTokenUsingUv. rel. Qed.
#[local] Hint Resolve rel_GetPinUvAuthTokenUsingUv : rel.
Lemma rel_GetPinUvAuthTokenUsingUvWithPermissions random_key pinUvAuthProtocol keyAgreement permissions rpID :
  related Rel (Client.GetPinUvAuthTokenUsingUvWithPermissions fips_enabled T1 E1 random_key pinUvAuthProtocol keyAgreement permissions rpID)
        (Client.GetPinUvAuthTokenUsingUvWithPermissions fips_enabled T2 E2 random_key pinUvAuthProtocol keyAgreement permissions rpID).
Proof using HR HT HE. unfold Client.GetPinUvAuthTokenUsingUvWithPermissions. rel. Qed.
#[local] Hint Resolve rel_GetPinUvAuthTokenUsingUvWithPermissions : rel.
Lemma rel_Reset :
  related Rel (Client.Reset T1 E1)
        (Client.Reset T2 E2).
Proof using HR HT HE. unfold Client.Reset. rel. Qed.
#[local] Hint Resolve rel_Reset : rel.
Lemma rel_Selection :
  related Rel (Client.Selection T1 E1)
        (Client.Selection T2 E2).
Proof using HR HT HE. unfold Client.Selection. rel. Qed.
#[local] Hint Resolve rel_Selection : rel.

(** *** Management *)

Lemma rel_GetBioModality preview :
  related Rel (Management.GetBioModality T1 E1 preview)
        (Management.GetBioModality T2 E2 preview).
Proof using HR HT HE. unfold Management.GetBioModality. rel. Qed.
#[local] Hint Resolve rel_GetBioModality : rel.
Lemma rel_GetFingerprintSensorInfo preview :
  related Rel (Management.GetFingerprintSensorInfo T1 E1 preview)
        (Management.GetFingerprintSensorInfo T2 E2 preview).
Proof using HR HT HE. unfold Management.GetFingerprintSensorInfo. rel. Qed.
#[local] Hint Resolve rel_GetFingerprintSensorInfo : rel.
Lemma rel_EnrollBegin preview pinUvAuthProtocol pinUvAuthToken timeoutMilliseconds :
  related Rel (Management.EnrollBegin fips_enabled T1 E1 preview pinUvAuthProtocol pinUvAuthToken timeoutMilliseconds)
        (Management.EnrollBegin fips_enabled T2 E2 preview pinUvAuthProtocol pinUvAuthToken timeoutMilliseconds).
Proof using HR HT HE. unfold Management.EnrollBegin. rel. Qed.
#[local] Hint Resolve rel_EnrollBegin : rel.
Lemma rel_EnrollCaptureNextSample preview pinUvAuthProtocol pinUvAuthToken templateID timeoutMilliseconds :
  related Rel (Management.EnrollCaptureNextSample fips_enabled T1 E1 preview pinUvAuthProtocol pinUvAuthToken templateID timeoutMilliseconds)
        (Management.EnrollCaptureNextSample fips_enabled T2 E2 preview pinUvAuthProtocol pinUvAuthToken templateID timeoutMilliseconds).
Proof using HR HT HE. unfold Management.EnrollCaptureNextSample. rel. Qed.
#[local] Hint Resolve rel_EnrollCaptureNextSample : rel.
Lemma rel_CancelCurrentEnrollment preview :
  related Rel (Management.CancelCurrentEnrollment T1 E1 preview)
        (Management.CancelCurrentEnrollment T2 E2 preview).
Proof using HR HT HE. unfold Management.CancelCurrentEnrollment. rel. Qed.
#[local] Hint Resolve rel_CancelCurrentEnrollment : rel.
Lemma rel_EnumerateEnrollments preview pinUvAuthProtocol pinUvAuthToken :
  related Rel (Management.EnumerateEnrollments fips_enabled T1 E1 preview pinUvAuthProtocol pinUvAuthToken)
        (Management.EnumerateEnrollments fips_enabled T2 E2 preview pinUvAuthProtocol pinUvAuthToken).
Proof using HR HT HE. unfold Management.EnumerateEnrollments. rel. Qed.
#[local] Hint Resolve rel_EnumerateEnrollments : rel.
Lemma rel_SetFriendlyName preview pinUvAuthProtocol pinUvAuthToken templateID friendlyName :
  related Rel (Management.SetFriendlyName fips_enabled T1 E1 preview pinUvAuthProtocol pinUvAuthToken templateID friendlyName)
        (Management.SetFriendlyName fips_enabled T2 E2 preview pinUvAuthProtocol pinUvAuthToken templateID friendlyName).
Proof using HR HT HE. unfold Management.SetFriendlyName. rel. Qed.
#[local] Hint Resolve rel_SetFriendlyName : rel.
Lemma rel_RemoveEnrollment preview pinUvAuthProtocol pinUvAuthToken templateID :
  related Rel (Management.RemoveEnrollment fips_enabled T1 E1 preview pinUvAuthProtocol pinUvAuthToken templateID)
        (Management.RemoveEnrollment fips_enabled T2 E2 preview pinUvAuthProtocol pinUvAuthToken templateID).
Proof using HR HT HE. unfold Management.RemoveEnrollment. rel. Qed.
#[local] Hint Resolve rel_RemoveEnrollment : rel.
Lemma rel_GetCredsMetadata preview pinUvAuthProtocol pinUvAuthToken :
  related Rel (Management.GetCredsMetadata fips_enabled T1 E1 preview pinUvAuthProtocol pinUvAuthToken)
        (Management.GetCredsMetadata fips_enabled T2 E2 preview pinUvAuthProtocol pinUvAuthToken).
Proof using HR HT HE. unfold Management.GetCredsMetadata. rel. Qed.
#[local] Hint Resolve rel_GetCredsMetadata : rel.
Lemma rel_enumerate_next preview subCommand :
  related Rel (Management.enumerate_next T1 E1 preview subCommand)
        (Management.enumerate_next T2 E2 preview subCommand).
Proof using HR HT HE. unfold Management.enumerate_next. rel. Qed.
#[local] Hint Resolve rel_enumerate_next : rel.
Lemma rel_EnumerateRPs preview pinUvAuthProtocol pinUvAuthToken : rel_seq (Management.EnumerateRPs fips_enabled T1 E1 preview pinUvAuthProtocol pinUvAuthToken) (Management.EnumerateRPs fips_enabled T2 E2 preview pinUvAuthProtocol pinUvAuthToken).
Proof using HR HT HE. unfold Management.EnumerateRPs. apply rel_sequence; rel. Qed.
#[local] Hint Resolve rel_EnumerateRPs : rel.
Lemma rel_EnumerateCredentials preview pinUvAuthProtocol pinUvAuthToken rpIDHash : rel_seq (Management.EnumerateCredentials fips_enabled T1 E1 preview pinUvAuthProtocol pinUvAuthToken rpIDHash) (Management.EnumerateCredentials fips_enabled T2 E2 preview pinUvAuthProtocol pinUvAuthToken rpIDHash).
Proof using HR HT HE. unfold Management.EnumerateCredentials. apply rel_sequence; rel. Qed.
#[local] Hint Resolve rel_EnumerateCredentials : rel.
Lemma rel_DeleteCredential preview pinUvAuthProtocol pinUvAuthToken credentialID :
  related Rel (Management.DeleteCredential fips_enabled T1 E1 preview pinUvAuthProtocol pinUvAuthToken credentialID)
        (Management.DeleteCredential fips_enabled T2 E2 preview pinUvAuthProtocol pinUvAuthToken credentialID).
Proof using HR HT HE. unfold Management.DeleteCredential. rel. Qed.
#[local] Hint Resolve rel_DeleteCredential : rel.
Lemma rel_UpdateUserInformation preview pinUvAuthProtocol pinUvAuthToken credentialID user :
  related Rel (Management.UpdateUserInformation fips_enabled T1 E1 preview pinUvAuthProtocol pinUvAuthToken credentialID user)
        (Management.UpdateUserInformation fips_enabled T2 E2 preview pinUvAuthProtocol pinUvAuthToken credentialID user).
Proof using HR HT HE. unfold Management.UpdateUserInformation. rel. Qed.
#[local] Hint Resolve rel_UpdateUserInformation : rel.
Lemma rel_LargeBlobs pinUvAuthProtocol pinUvAuthToken get set offset length :
  related Rel (Management.LargeBlobs fips_enabled T1 E1 pinUvAuthProtocol pinUvAuthToken get set offset length)
        (Management.LargeBlobs fips_enabled T2 E2 pinUvAuthProtocol pinUvAuthToken get set offset length).
Proof using HR HT HE. unfold Management.LargeBlobs. rel. Qed.
#[local] Hint Resolve rel_LargeBlobs : rel.
Lemma rel_config_authenticate pinUvAuthProtocol pinUvAuthToken subCommand bSubCommandParams :
  related Rel (Management.config_authenticate fips_enabled pinUvAuthProtocol pinUvAuthToken subCommand bSubCommandParams)
        (Management.config_authenticate fips_enabled pinUvAuthProtocol pinUvAuthToken subCommand bSubCommandParams).
Proof using HR HT HE. unfold Management.config_authenticate. rel. Qed.
#[local] Hint Resolve rel_config_authenticate : rel.
Lemma rel_EnableEnterpriseAttestation pinUvAuthProtocol pinUvAuthToken :
  related Rel (Management.EnableEnterpriseAttestation fips_enabled T1 E1 pinUvAuthProtocol pinUvAuthToken)
        (Management.EnableEnterpriseAttestation fips_enabled T2 E2 pinUvAuthProtocol pinUvAuthToken).
Proof using HR HT HE. unfold Management.EnableEnterpriseAttestation. rel. Qed.
#[local] Hint Resolve rel_EnableEnterpriseAttestation : rel.
Lemma rel_ToggleAlwaysUV pinUvAuthProtocol pinUvAuthToken :
  related Rel (Management.ToggleAlwaysUV fips_enabled T1 E1 pinUvAuthProtocol pinUvAuthToken)
        (Management.ToggleAlwaysUV fips_enabled T2 E2 pinUvAuthProtocol pinUvAuthToken).
Proof using HR HT HE. unfold Management.ToggleAlwaysUV. rel. Qed.
#[local] Hint Resolve rel_ToggleAlwaysUV : rel.
Lemma rel_SetMinPINLength pinUvAuthProtocol pinUvAuthToken params :
  related Rel (Management.SetMinPINLength fips_enabled T1 E1 pinUvAuthProtocol pinUvAuthToken params)
        (Management.SetMinPINLength fips_enabled T2 E2 pinUvAuthProtocol pinUvAuthToken params).
Proof using HR HT HE. unfold Management.SetMinPINLength. rel. Qed.
#[local] Hint Resolve rel_SetMinPINLength : rel.
Lemma rel_EnableLongTouchForReset pinUvAuthProtocol pinUvAuthToken :
  related Rel (Management.EnableLongTouchForReset fips_enabled T1 E1 pinUvAuthProtocol pinUvAuthToken)
        (Management.EnableLongTouchForReset fips_enabled T2 E2 pinUvAuthProtocol pinUvAuthToken).
Proof using HR HT HE. unfold Management.EnableLongTouchForReset. rel. Qed.
#[local] Hint Resolve rel_EnableLongTouchForReset : rel.
End ClientRel.

#[export] Hint Resolve rel_check_err rel_deref rel_wrapping rel_iterate
  rel_MakeCredential rel_next_assertion rel_GetAssertion rel_GetInfo
  rel_GetPINRetries rel_GetUVRetries rel_GetKeyAgreement rel_SetPIN
  rel_ChangePIN rel_GetPinToken rel_GetPinUvAuthTokenUsingPinWithPermissions rel_getPinUvAuthTokenUsingUv
  rel_GetPinUvAuthTokenUsingUv rel_GetPinUvAuthTokenUsingUvWithPermissions rel_Reset rel_Selection
  rel_GetBioModality rel_GetFingerprintSensorInfo rel_EnrollBegin rel_EnrollCaptureNextSample
  rel_CancelCurrentEnrollment rel_EnumerateEnrollments rel_SetFriendlyName rel_RemoveEnrollment
  rel_GetCredsMetadata rel_enumerate_next rel_EnumerateRPs rel_EnumerateCredentials
  rel_DeleteCredential rel_UpdateUserInformation rel_LargeBlobs rel_config_authenticate
  rel_EnableEnterpriseAttestation rel_ToggleAlwaysUV rel_SetMinPINLength rel_EnableLongTouchForReset : rel.
