(* ===== verification/DeviceRel.v ===== *)
(** * The authenticator device, relationally (src/authenticator)

    The device is a program over the transport it owns: run over transports
    whose CBOR calls are related, every CTAP operation is related to itself,
    the cached getInfo response being state around the transport's world. *)
From S2P Require Import Prelude GoError Transport Protocol Pin Preflight Cose Crypto Messages Client Management.
From S2P Require Import Device Relational ClientRel.

(** The cache around a world. *)
Definition device_wrapper (W : Type) : wrapper W (AuthenticatorGetInfoResponse * bool) (device W).
Proof.
  refine (Wrapper _ _ _ (fun w s => MkDevice w s.1 s.2) dv_world (fun d => (dv_info d, dv_infoValid d)) _ _ _).
  - done.
  - by intros w [].
  - by intros [].
Defined.

Section DeviceRel.
Context `{Primitives} `{Codec} {W1 W2 : Type}.
Context (fips_enabled : bool) (NFC : list Z -> list Z).
Context (Rel : forall A, M W1 A -> M W2 A -> Prop) `{HR : MonadRel _ _ Rel}.
Context (T1 : transport_ops W1) (T2 : transport_ops W2).
Context (E1 : option (list Z -> CBORResponse + error -> M W1 unit)).
Context (E2 : option (list Z -> CBORResponse + error -> M W2 unit)).

Context (HT : forall data, related Rel (tr_CBOR T1 data) (tr_CBOR T2 data)) (HE : rel_emit Rel E1 E2).

(** The relation at the device. *)
Definition DRel : forall A, M (device W1) A -> M (device W2) A -> Prop :=
  wrapped (device_wrapper W1) (device_wrapper W2) Rel.
#[export] Instance DRel_MonadRel : MonadRel DRel.
Proof using HR. apply wrapped_MonadRel, HR. Qed.

Lemma rel_on_world {A} (m1 : M W1 A) m2 : related Rel m1 m2 -> related DRel (on_world m1) (on_world m2).
Proof using HR. intros Hm. apply (wrapped_within (device_wrapper W1) (device_wrapper W2) Rel m1 m2 Hm). Qed.
#[local] Hint Resolve rel_on_world : rel.

Lemma rel_client_transport : rel_transport DRel (client_transport T1) (client_transport T2).
Proof using HR HT. intros data. auto with rel. Qed.
Lemma rel_client_emit : rel_emit DRel (client_emit E1) (client_emit E2).
Proof using HR HE. unfold rel_emit, client_emit in *. destruct E1, E2; try done. intros data r. apply rel_on_world, HE. Qed.
#[local] Hint Resolve rel_client_transport rel_client_emit : rel.

(** The operations on the cache. *)
Ltac on_cache r f := apply (wrapped_local (device_wrapper W1) (device_wrapper W2) Rel _ _ r f); by intros w [].

Lemma rel_cached_info : related DRel cached_info cached_info.
Proof using HR. on_cache (fun s : AuthenticatorGetInfoResponse * bool => Ok s.1) (fun s : AuthenticatorGetInfoResponse * bool => s). Qed.
Lemma rel_GetInfoCached : related DRel GetInfoCached GetInfoCached.
Proof using HR. on_cache (fun s : AuthenticatorGetInfoResponse * bool => Ok s) (fun s : AuthenticatorGetInfoResponse * bool => s). Qed.
Lemma rel_invalidate : related DRel invalidateInfoLocked invalidateInfoLocked.
Proof using HR.
  on_cache (fun _ : AuthenticatorGetInfoResponse * bool => Ok tt)
    (fun s : AuthenticatorGetInfoResponse * bool => (s.1, false)).
Qed.
Lemma rel_set_cache info :
  related DRel (modify (fun d => MkDevice (dv_world d) info true)) (modify (fun d => MkDevice (dv_world d) info true)).
Proof using HR.
  on_cache (fun _ : AuthenticatorGetInfoResponse * bool => Ok tt)
    (fun _ : AuthenticatorGetInfoResponse * bool => (info, true)).
Qed.
#[local] Hint Resolve rel_cached_info rel_GetInfoCached rel_invalidate rel_set_cache : rel.

Lemma rel_refreshInfoLocked : related DRel (refreshInfoLocked T1 E1) (refreshInfoLocked T2 E2).
Proof using HR HT HE. unfold refreshInfoLocked. rel. Qed.
#[local] Hint Resolve rel_refreshInfoLocked : rel.

(** Whether the cache is valid, asked of the cache. *)
Lemma ensureInfo_cached {W} (T : transport_ops W) E :
  ensureInfoLocked T E ≡ GetInfoCached ≫= fun '(_, valid) =>
    if (valid : bool) then mret tt else refreshInfoLocked T E;; mret tt.
Proof using. intros d. unfold ensureInfoLocked, GetInfoCached, mbind at 2, M_bind at 2. by destruct (dv_infoValid d). Qed.

Lemma rel_ensureInfoLocked : related DRel (ensureInfoLocked T1 E1) (ensureInfoLocked T2 E2).
Proof using HR HT HE. rewrite !ensureInfo_cached. rel. Qed.
#[local] Hint Resolve rel_ensureInfoLocked : rel.

Lemma drel_pinUvAuthProtocolWithKeyAgreement :
  related DRel (Device.pinUvAuthProtocolWithKeyAgreement fips_enabled T1 E1) (Device.pinUvAuthProtocolWithKeyAgreement fips_enabled T2 E2).
Proof using HR HT HE. unfold Device.pinUvAuthProtocolWithKeyAgreement. rel. Qed.
#[local] Hint Resolve drel_pinUvAuthProtocolWithKeyAgreement : rel.

Lemma drel_then_invalidate {A} (m1 : M (device W1) A) m2 :
  related DRel m1 m2 -> related DRel (then_invalidate m1) (then_invalidate m2).
Proof using HR. intros Hm. unfold then_invalidate. rel. Qed.
Lemma drel_with_pin_policy {A} (m1 : M (device W1) A) m2 :
  related DRel m1 m2 -> related DRel (with_pin_policy m1) (with_pin_policy m2).
Proof using HR. intros Hm. unfold with_pin_policy. rel. Qed.
#[local] Hint Resolve drel_then_invalidate drel_with_pin_policy : rel.

(** *** Operations *)
Lemma drel_GetInfo :
  related DRel (Device.GetInfo T1 E1) (Device.GetInfo T2 E2).
Proof using HR HT HE. unfold Device.GetInfo. rel. Qed.
#[local] Hint Resolve drel_GetInfo : rel.
Lemma drel_GetPINRetries :
  related DRel (Device.GetPINRetries fips_enabled T1 E1) (Device.GetPINRetries fips_enabled T2 E2).
Proof using HR HT HE. unfold Device.GetPINRetries. rel. Qed.
#[local] Hint Resolve drel_GetPINRetries : rel.
Lemma drel_GetUVRetries :
  related DRel (Device.GetUVRetries fips_enabled T1 E1) (Device.GetUVRetries fips_enabled T2 E2).
Proof using HR HT HE. unfold Device.GetUVRetries. rel. Qed.
#[local] Hint Resolve drel_GetUVRetries : rel.
Lemma drel_SetPIN random_key iv pin :
  related DRel (Device.SetPIN fips_enabled NFC T1 E1 random_key iv pin) (Device.SetPIN fips_enabled NFC T2 E2 random_key iv pin).
Proof using HR HT HE. unfold Device.SetPIN. rel. Qed.
#[local] Hint Resolve drel_SetPIN : rel.
Lemma drel_ChangePIN random_key iv1 iv2 currentPin newPin :
  related DRel (Device.ChangePIN fips_enabled NFC T1 E1 random_key iv1 iv2 currentPin newPin) (Device.ChangePIN fips_enabled NFC T2 E2 random_key iv1 iv2 currentPin newPin).
Proof using HR HT HE. unfold Device.ChangePIN. rel. Qed.
#[local] Hint Resolve drel_ChangePIN : rel.
Lemma drel_GetPinUvAuthTokenUsingPIN random_key iv pin permission rpID :
  related DRel (Device.GetPinUvAuthTokenUsingPIN fips_enabled NFC T1 E1 random_key iv pin permission rpID) (Device.GetPinUvAuthTokenUsingPIN fips_enabled NFC T2 E2 random_key iv pin permission rpID).
Proof using HR HT HE. unfold Device.GetPinUvAuthTokenUsingPIN. rel. Qed.
#[local] Hint Resolve drel_GetPinUvAuthTokenUsingPIN : rel.
Lemma drel_GetPinUvAuthTokenUsingUV random_key permission rpID :
  related DRel (Device.GetPinUvAuthTokenUsingUV fips_enabled T1 E1 random_key permission rpID) (Device.GetPinUvAuthTokenUsingUV fips_enabled T2 E2 random_key permission rpID).
Proof using HR HT HE. unfold Device.GetPinUvAuthTokenUsingUV. rel. Qed.
#[local] Hint Resolve drel_GetPinUvAuthTokenUsingUV : rel.
Lemma drel_Reset :
  related DRel (Device.Reset T1 E1) (Device.Reset T2 E2).
Proof using HR HT HE. unfold Device.Reset. rel. Qed.
#[local] Hint Resolve drel_Reset : rel.
Lemma drel_Selection :
  related DRel (Device.Selection T1 E1) (Device.Selection T2 E2).
Proof using HR HT HE. unfold Device.Selection. rel. Qed.
#[local] Hint Resolve drel_Selection : rel.
Lemma drel_bio_mode :
  related DRel (Device.bio_mode T1 E1) (Device.bio_mode T2 E2).
Proof using HR HT HE. unfold Device.bio_mode. rel. Qed.
#[local] Hint Resolve drel_bio_mode : rel.
Lemma drel_token_protocol pinUvAuthToken :
  related DRel (Device.token_protocol fips_enabled pinUvAuthToken) (Device.token_protocol fips_enabled pinUvAuthToken).
Proof using HR. unfold Device.token_protocol. rel. Qed.
#[local] Hint Resolve drel_token_protocol : rel.
Lemma drel_GetBioModality :
  related DRel (Device.GetBioModality T1 E1) (Device.GetBioModality T2 E2).
Proof using HR HT HE. unfold Device.GetBioModality. rel. Qed.
#[local] Hint Resolve drel_GetBioModality : rel.
Lemma drel_GetFingerprintSensorInfo :
  related DRel (Device.GetFingerprintSensorInfo T1 E1) (Device.GetFingerprintSensorInfo T2 E2).
Proof using HR HT HE. unfold Device.GetFingerprintSensorInfo. rel. Qed.
#[local] Hint Resolve drel_GetFingerprintSensorInfo : rel.
Lemma drel_enrolled resp :
  related DRel (Device.enrolled resp) (Device.enrolled resp).
Proof using HR. unfold Device.enrolled. rel. Qed.
#[local] Hint Resolve drel_enrolled : rel.
Lemma drel_EnrollBegin pinUvAuthToken timeoutMilliseconds :
  related DRel (Device.EnrollBegin fips_enabled T1 E1 pinUvAuthToken timeoutMilliseconds) (Device.EnrollBegin fips_enabled T2 E2 pinUvAuthToken timeoutMilliseconds).
Proof using HR HT HE. unfold Device.EnrollBegin. rel. Qed.
#[local] Hint Resolve drel_EnrollBegin : rel.
Lemma drel_EnrollCaptureNextSample pinUvAuthToken templateID timeoutMilliseconds :
  related DRel (Device.EnrollCaptureNextSample fips_enabled T1 E1 pinUvAuthToken templateID timeoutMilliseconds) (Device.EnrollCaptureNextSample fips_enabled T2 E2 pinUvAuthToken templateID timeoutMilliseconds).
Proof using HR HT HE. unfold Device.EnrollCaptureNextSample. rel. Qed.
#[local] Hint Resolve drel_EnrollCaptureNextSample : rel.
Lemma drel_CancelCurrentEnrollment :
  related DRel (Device.CancelCurrentEnrollment T1 E1) (Device.CancelCurrentEnrollment T2 E2).
Proof using HR HT HE. unfold Device.CancelCurrentEnrollment. rel. Qed.
#[local] Hint Resolve drel_CancelCurrentEnrollment : rel.
Lemma drel_EnumerateEnrollments pinUvAuthToken :
  related DRel (Device.EnumerateEnrollments fips_enabled T1 E1 pinUvAuthToken) (Device.EnumerateEnrollments fips_enabled T2 E2 pinUvAuthToken).
Proof using HR HT HE. unfold Device.EnumerateEnrollments. rel. Qed.
#[local] Hint Resolve drel_EnumerateEnrollments : rel.
Lemma drel_SetFriendlyName pinUvAuthToken templateID friendlyName :
  related DRel (Device.SetFriendlyName fips_enabled T1 E1 pinUvAuthToken templateID friendlyName) (Device.SetFriendlyName fips_enabled T2 E2 pinUvAuthToken templateID friendlyName).
Proof using HR HT HE. unfold Device.SetFriendlyName. rel. Qed.
#[local] Hint Resolve drel_SetFriendlyName : rel.
Lemma drel_RemoveEnrollment pinUvAuthToken templateID :
  related DRel (Device.RemoveEnrollment fips_enabled T1 E1 pinUvAuthToken templateID) (Device.RemoveEnrollment fips_enabled T2 E2 pinUvAuthToken templateID).
Proof using HR HT HE. unfold Device.RemoveEnrollment. rel. Qed.
#[local] Hint Resolve drel_RemoveEnrollment : rel.
Lemma drel_cm_mode :
  related DRel (Device.cm_mode T1 E1) (Device.cm_mode T2 E2).
Proof using HR HT HE. unfold Device.cm_mode. rel. Qed.
#[local] Hint Resolve drel_cm_mode : rel.
Lemma drel_GetCredsMetadata pinUvAuthToken :
  related DRel (Device.GetCredsMetadata fips_enabled T1 E1 pinUvAuthToken) (Device.GetCredsMetadata fips_enabled T2 E2 pinUvAuthToken).
Proof using HR HT HE. unfold Device.GetCredsMetadata. rel. Qed.
#[local] Hint Resolve drel_GetCredsMetadata : rel.

Lemma drel_enumeration pinUvAuthToken seq1 seq2 :
  (forall preview protocol, rel_seq DRel (seq1 preview protocol) (seq2 preview protocol)) ->
  rel_seq DRel (enumeration fips_enabled T1 E1 pinUvAuthToken seq1) (enumeration fips_enabled T2 E2 pinUvAuthToken seq2).
Proof using HR HT HE.
  intros Hs yield1 yield2 Hy. unfold enumeration. apply related_bind; [typeclasses eauto|rel|].
  intros [[preview protocol]|err]; [by apply Hs|rel].
Qed.
Lemma drel_EnumerateRPs pinUvAuthToken :
  rel_seq DRel (Device.EnumerateRPs fips_enabled T1 E1 pinUvAuthToken) (Device.EnumerateRPs fips_enabled T2 E2 pinUvAuthToken).
Proof using HR HT HE. unfold Device.EnumerateRPs. apply drel_enumeration. auto with rel. Qed.
#[local] Hint Resolve drel_EnumerateRPs : rel.
Lemma drel_EnumerateCredentials pinUvAuthToken rpIDHash :
  rel_seq DRel (Device.EnumerateCredentials fips_enabled T1 E1 pinUvAuthToken rpIDHash) (Device.EnumerateCredentials fips_enabled T2 E2 pinUvAuthToken rpIDHash).
Proof using HR HT HE. unfold Device.EnumerateCredentials. apply drel_enumeration. auto with rel. Qed.
#[local] Hint Resolve drel_EnumerateCredentials : rel.
Lemma drel_DeleteCredential pinUvAuthToken credentialID :
  related DRel (Device.DeleteCredential fips_enabled T1 E1 pinUvAuthToken credentialID) (Device.DeleteCredential fips_enabled T2 E2 pinUvAuthToken credentialID).
Proof using HR HT HE. unfold Device.DeleteCredential. rel. Qed.
#[local] Hint Resolve drel_DeleteCredential : rel.
Lemma drel_UpdateUserInformation pinUvAuthToken credentialID user :
  related DRel (Device.UpdateUserInformation fips_enabled T1 E1 pinUvAuthToken credentialID user) (Device.UpdateUserInformation fips_enabled T2 E2 pinUvAuthToken credentialID user).
Proof using HR HT HE. unfold Device.UpdateUserInformation. rel. Qed.
#[local] Hint Resolve drel_UpdateUserInformation : rel.
Lemma drel_config_protocol pinUvAuthToken subCommand unsupported :
  related DRel (Device.config_protocol fips_enabled pinUvAuthToken subCommand unsupported) (Device.config_protocol fips_enabled pinUvAuthToken subCommand unsupported).
Proof using HR. unfold Device.config_protocol. rel. Qed.
#[local] Hint Resolve drel_config_protocol : rel.
Lemma drel_EnableEnterpriseAttestation pinUvAuthToken :
  related DRel (Device.EnableEnterpriseAttestation fips_enabled T1 E1 pinUvAuthToken) (Device.EnableEnterpriseAttestation fips_enabled T2 E2 pinUvAuthToken).
Proof using HR HT HE. unfold Device.EnableEnterpriseAttestation. rel. Qed.
#[local] Hint Resolve drel_EnableEnterpriseAttestation : rel.
Lemma drel_ToggleAlwaysUV pinUvAuthToken :
  related DRel (Device.ToggleAlwaysUV fips_enabled T1 E1 pinUvAuthToken) (Device.ToggleAlwaysUV fips_enabled T2 E2 pinUvAuthToken).
Proof using HR HT HE. unfold Device.ToggleAlwaysUV. rel. Qed.
#[local] Hint Resolve drel_ToggleAlwaysUV : rel.
Lemma drel_SetMinPINLength pinUvAuthToken params :
  related DRel (Device.SetMinPINLength fips_enabled T1 E1 pinUvAuthToken params) (Device.SetMinPINLength fips_enabled T2 E2 pinUvAuthToken params).
Proof using HR HT HE. unfold Device.SetMinPINLength. rel. Qed.
#[local] Hint Resolve drel_SetMinPINLength : rel.
Lemma drel_EnableLongTouchForReset pinUvAuthToken :
  related DRel (Device.EnableLongTouchForReset fips_enabled T1 E1 pinUvAuthToken) (Device.EnableLongTouchForReset fips_enabled T2 E2 pinUvAuthToken).
Proof using HR HT HE. unfold Device.EnableLongTouchForReset. rel. Qed.
#[local] Hint Resolve drel_EnableLongTouchForReset : rel.

Lemma drel_read_fragments fuel n fragment config offset :
  related DRel (read_fragments fips_enabled T1 E1 fuel n fragment config offset)
               (read_fragments fips_enabled T2 E2 fuel n fragment config offset).
Proof using HR HT HE.
  revert fragment config offset. induction fuel as [|fuel IH]; intros fragment config offset; cbn [read_fragments]; rel.
Qed.
Lemma drel_write_fragments protocol pinUvAuthToken chunks offset total :
  related DRel (write_fragments fips_enabled T1 E1 protocol pinUvAuthToken chunks offset total)
               (write_fragments fips_enabled T2 E2 protocol pinUvAuthToken chunks offset total).
Proof using HR HT HE.
  revert offset total. induction chunks as [|c chunks IH]; intros offset total; cbn [write_fragments]; rel.
Qed.
#[local] Hint Resolve drel_read_fragments drel_write_fragments : rel.
Lemma drel_getLargeBlobsLocked fuel :
  related DRel (Device.getLargeBlobsLocked fips_enabled T1 E1 fuel) (Device.getLargeBlobsLocked fips_enabled T2 E2 fuel).
Proof using HR HT HE. unfold Device.getLargeBlobsLocked. rel. Qed.
#[local] Hint Resolve drel_getLargeBlobsLocked : rel.
Lemma drel_GetLargeBlobs fuel :
  related DRel (Device.GetLargeBlobs fips_enabled T1 E1 fuel) (Device.GetLargeBlobs fips_enabled T2 E2 fuel).
Proof using HR HT HE. unfold Device.GetLargeBlobs. rel. Qed.
#[local] Hint Resolve drel_GetLargeBlobs : rel.
Lemma drel_setLargeBlobsLocked pinUvAuthToken blobs :
  related DRel (Device.setLargeBlobsLocked fips_enabled T1 E1 pinUvAuthToken blobs) (Device.setLargeBlobsLocked fips_enabled T2 E2 pinUvAuthToken blobs).
Proof using HR HT HE. unfold Device.setLargeBlobsLocked. rel. Qed.
#[local] Hint Resolve drel_setLargeBlobsLocked : rel.
Lemma drel_SetLargeBlobs pinUvAuthToken blobs :
  related DRel (Device.SetLargeBlobs fips_enabled T1 E1 pinUvAuthToken blobs) (Device.SetLargeBlobs fips_enabled T2 E2 pinUvAuthToken blobs).
Proof using HR HT HE. unfold Device.SetLargeBlobs. rel. Qed.
#[local] Hint Resolve drel_SetLargeBlobs : rel.
End DeviceRel.

#[export] Hint Resolve rel_client_transport rel_client_emit rel_cached_info rel_GetInfoCached rel_invalidate rel_ensureInfoLocked
  drel_pinUvAuthProtocolWithKeyAgreement drel_GetInfo
  drel_GetPINRetries
  drel_GetUVRetries drel_SetPIN drel_ChangePIN drel_GetPinUvAuthTokenUsingPIN
  drel_GetPinUvAuthTokenUsingUV drel_Reset drel_Selection drel_bio_mode
  drel_token_protocol drel_GetBioModality drel_GetFingerprintSensorInfo drel_enrolled
  drel_EnrollBegin drel_EnrollCaptureNextSample drel_CancelCurrentEnrollment drel_EnumerateEnrollments
  drel_SetFriendlyName drel_RemoveEnrollment drel_cm_mode drel_GetCredsMetadata
  drel_EnumerateRPs drel_EnumerateCredentials drel_DeleteCredential drel_UpdateUserInformation
  drel_config_protocol drel_EnableEnterpriseAttestation drel_ToggleAlwaysUV drel_SetMinPINLength
  drel_EnableLongTouchForReset drel_getLargeBlobsLocked drel_GetLargeBlobs drel_setLargeBlobsLocked
  drel_SetLargeBlobs drel_then_invalidate drel_with_pin_policy DRel_MonadRel : rel.
