(* ===== verification/CredentialsRel.v ===== *)
(** * Creating and using credentials, relationally (src/authenticator/authenticator.go)

    [Device.MakeCredential] and [Device.GetAssertion] over related transports
    are related to themselves; the variables of the range loop over the
    client's assertions are state around the device's. *)
From S2P Require Import Prelude GoError Transport Protocol Pin Preflight Cose Crypto Messages Client Management.
From S2P Require Import Prf Extensions PreviewSign Device Credentials Relational ClientRel DeviceRel.

(** The loop around a device. *)
Definition loop_wrapper `{Codec} (W : Type) : wrapper (device W) loop (device W * loop).
Proof. by refine (Wrapper _ _ _ pair fst snd _ _ _); [| |intros []]. Defined.

Section CredentialsRel.
Context `{Primitives} `{PreviewSignCodec} {W1 W2 : Type}.
Context (fips_enabled : bool).
Context (Rel : forall A, M W1 A -> M W2 A -> Prop) `{HR : MonadRel _ _ Rel}.
Context (T1 : transport_ops W1) (T2 : transport_ops W2).
Context (E1 : option (list Z -> CBORResponse + error -> M W1 unit)).
Context (E2 : option (list Z -> CBORResponse + error -> M W2 unit)).
Context (HT : forall data, related Rel (tr_CBOR T1 data) (tr_CBOR T2 data)) (HE : rel_emit Rel E1 E2).

#[local] Abbreviation DR := (DRel Rel).

Lemma rel_send_salts random_key iv salt :
  related DR (send_salts fips_enabled T1 E1 random_key iv salt) (send_salts fips_enabled T2 E2 random_key iv salt).
Proof using HR HT HE. unfold send_salts. rel. Qed.
Lemma rel_request_protocol token :
  related DR (request_protocol fips_enabled token) (request_protocol fips_enabled token).
Proof using HR. unfold request_protocol. rel. Qed.
#[local] Hint Resolve rel_send_salts rel_request_protocol : rel.

(** ** Registration *)

Lemma rel_create_hmac_secret random_key iv info extInputs evaluation protocol :
  related DR (create_hmac_secret fips_enabled T1 E1 random_key iv info extInputs evaluation protocol)
             (create_hmac_secret fips_enabled T2 E2 random_key iv info extInputs evaluation protocol).
Proof using HR HT HE. unfold create_hmac_secret. rel. Qed.
#[local] Hint Resolve rel_create_hmac_secret : rel.

Lemma rel_create_extensions random_key iv info token extInputs options evaluation protocol :
  related DR (create_extensions fips_enabled T1 E1 random_key iv info token extInputs options evaluation protocol)
             (create_extensions fips_enabled T2 E2 random_key iv info token extInputs options evaluation protocol).
Proof using HR HT HE. unfold create_extensions. rel. Qed.
#[local] Hint Resolve rel_create_extensions : rel.

Lemma drel_MakeCredential random_key iv token clientData rp user params excludeList extInputs options ea formats :
  related DR
    (Credentials.MakeCredential fips_enabled T1 E1 random_key iv token clientData rp user params excludeList
       extInputs options ea formats)
    (Credentials.MakeCredential fips_enabled T2 E2 random_key iv token clientData rp user params excludeList
       extInputs options ea formats).
Proof using HR HT HE. unfold Credentials.MakeCredential. rel. Qed.

(** ** Assertions *)

Context (range : gmap string PRFValues -> list (string * PRFValues)).
Context (range_sign : gmap string PreviewSignSignInputs -> list string).

Lemma rel_get_hmac_secret random_key iv info extInputs evaluation options protocol :
  related DR (get_hmac_secret fips_enabled T1 E1 random_key iv info extInputs evaluation options protocol)
             (get_hmac_secret fips_enabled T2 E2 random_key iv info extInputs evaluation options protocol).
Proof using HR HT HE. unfold get_hmac_secret. rel. Qed.
#[local] Hint Resolve rel_get_hmac_secret : rel.

Lemma rel_get_prepare random_key iv token allowList extInputs options :
  related DR (get_prepare fips_enabled T1 E1 range range_sign random_key iv token allowList extInputs options)
             (get_prepare fips_enabled T2 E2 range range_sign random_key iv token allowList extInputs options).
Proof using HR HT HE. unfold get_prepare. rel. Qed.

Lemma rel_resolve fuel nonce token backend read write keys :
  related DR (resolveLegacyLargeBlobOutputs fips_enabled T1 E1 fuel nonce token backend read write keys)
             (resolveLegacyLargeBlobOutputs fips_enabled T2 E2 fuel nonce token backend read write keys).
Proof using HR HT HE. unfold resolveLegacyLargeBlobOutputs. rel. Qed.
#[local] Hint Resolve rel_get_prepare rel_resolve : rel.

(** The loop. *)
Definition LRel : forall A, M (device W1 * loop) A -> M (device W2 * loop) A -> Prop :=
  wrapped (loop_wrapper W1) (loop_wrapper W2) DR.
#[local] Instance LRel_MonadRel : MonadRel LRel.
Proof using HR. apply wrapped_MonadRel, DRel_MonadRel, HR. Qed.

Lemma rel_inside {A} (m1 : M (device W1) A) m2 : related DR m1 m2 -> related LRel (inside m1) (inside m2).
Proof using HR. intros Hm. apply (wrapped_within (loop_wrapper W1) (loop_wrapper W2) DR m1 m2 Hm). Qed.

Lemma rel_loop_local (r : bool) (f : loop -> loop) :
  related LRel (fun dl => (Ok r, (dl.1, f dl.2))) (fun dl => (Ok r, (dl.1, f dl.2))).
Proof using HR. apply (wrapped_local (loop_wrapper W1) (loop_wrapper W2) DR _ _ (fun _ => Ok r) f); by intros ? []. Qed.
#[local] Hint Resolve rel_inside : rel.

Lemma rel_return_from_loop : related LRel return_from_loop return_from_loop.
Proof using HR. apply (rel_loop_local false (fun l => MkLoop (legacyAssertions l) true)). Qed.
#[local] Hint Resolve rel_return_from_loop : rel.

Lemma rel_loop_transport : rel_transport LRel (loop_transport T1) (loop_transport T2).
Proof using HR HT. intros data. cbn. apply rel_inside, (rel_client_transport _ _ _ HT). Qed.
Lemma rel_loop_emit : rel_emit LRel (loop_emit E1) (loop_emit E2).
Proof using HR HE.
  pose proof (rel_client_emit Rel E1 E2 HE) as Hc. unfold rel_emit, loop_emit in *.
  destruct (client_emit E1), (client_emit E2); try done. intros data r. apply rel_inside, Hc.
Qed.
#[local] Hint Resolve rel_loop_transport rel_loop_emit : rel.

Section Yield.
Context (yield1 : assertion + error -> M (device W1) bool) (yield2 : assertion + error -> M (device W2) bool).
Context (Hy : forall item, related DR (yield1 item) (yield2 item)).
#[local] Hint Resolve Hy : rel.

Lemma rel_emitAssertion backend a : related LRel (emitAssertion backend yield1 a) (emitAssertion backend yield2 a).
Proof using HR Hy.
  unfold emitAssertion. case_bool_decide; [|rel].
  apply (rel_loop_local true (fun l => MkLoop (legacyAssertions l ++ [a]) (returned l))).
Qed.
#[local] Hint Resolve rel_emitAssertion : rel.

Lemma rel_get_body q extInputs r : related LRel (get_body q extInputs yield1 r) (get_body q extInputs yield2 r).
Proof using HR Hy. unfold get_body. rel. Qed.

Lemma rel_yield_legacy assertions outputs :
  related DR (yield_legacy yield1 assertions outputs) (yield_legacy yield2 assertions outputs).
Proof using HR Hy. revert outputs. induction assertions as [|[resp o] l IH]; intros outputs; cbn [yield_legacy]; rel. Qed.
#[local] Hint Resolve rel_get_body rel_yield_legacy : rel.

Lemma rel_get_legacy fuel nonce token q assertions :
  related DR (get_legacy fips_enabled T1 E1 fuel nonce token q assertions yield1)
             (get_legacy fips_enabled T2 E2 fuel nonce token q assertions yield2).
Proof using HR HT HE Hy. unfold get_legacy. rel. Qed.
#[local] Hint Resolve rel_get_legacy : rel.

(** The loop, unwrapped, is its range over the client's sequence from no
    assertions. *)
Definition ranged {W} (T : transport_ops W) (E : option (list Z -> CBORResponse + error -> M W unit))
    (token : slice) (rpID : string) (hash : list Z) (allowList : list Descriptor) (extInputs : GetClientInputs)
    (options : gmap string bool) (q : get_request) (yield : assertion + error -> M (device W) bool)
    : M (device W * loop) unit :=
  Client.GetAssertion fips_enabled (loop_transport T) (loop_emit E) (gq_protocol q) token rpID hash allowList
    (Some (gq_extensions q)) options (get_body q extInputs yield).

Lemma get_loop_unwrap {W} (T : transport_ops W) E fuel nonce token rpID hash allowList extInputs options q yield :
  get_loop fips_enabled T E fuel nonce token rpID hash allowList extInputs options q yield ≡
  unwrap (loop_wrapper W) (ranged T E token rpID hash allowList extInputs options q yield) (MkLoop [] false) ≫=
    fun '(r, l) => match r with
      | Ok _ => if returned l then mret tt
                else get_legacy fips_enabled T E fuel nonce token q (legacyAssertions l) yield
      | Err err => fail err | Panic => panic | Blocked => blocked end.
Proof using.
  intros d. unfold get_loop, unwrap, mbind, M_bind. cbn [pack inner outer loop_wrapper].
  unfold ranged. destruct (Client.GetAssertion _ _ _ _ _ _ _ _ _ _ _ _) as [[[]|err| |] [d' l]]; cbn; [|done..].
  by destruct (returned l).
Qed.

Lemma rel_get_loop fuel nonce token rpID hash allowList extInputs options q :
  related DR (get_loop fips_enabled T1 E1 fuel nonce token rpID hash allowList extInputs options q yield1)
             (get_loop fips_enabled T2 E2 fuel nonce token rpID hash allowList extInputs options q yield2).
Proof using HR HT HE Hy.
  rewrite !get_loop_unwrap. apply related_bind; [typeclasses eauto| |rel].
  assert (Hr : related LRel (ranged T1 E1 token rpID hash allowList extInputs options q yield1)
                            (ranged T2 E2 token rpID hash allowList extInputs options q yield2)); [|apply Hr].
  unfold ranged. eapply rel_GetAssertion; rel.
Qed.
End Yield.

Lemma drel_GetAssertion fuel random_key iv nonce token rpID clientData allowList extInputs options :
  rel_seq DR
    (Credentials.GetAssertion fips_enabled T1 E1 range range_sign fuel random_key iv nonce token rpID clientData
       allowList extInputs options)
    (Credentials.GetAssertion fips_enabled T2 E2 range range_sign fuel random_key iv nonce token rpID clientData
       allowList extInputs options).
Proof using HR HT HE.
  intros yield1 yield2 Hy. unfold Credentials.GetAssertion. apply related_bind; [typeclasses eauto|rel|].
  intros [q|err]; [by apply rel_get_loop|rel].
Qed.
End CredentialsRel.

#[export] Hint Resolve drel_MakeCredential : rel.
