(* ===== verification/Application.v ===== *)
(** * Applications of the device API (src/authenticator)

    A program of the library's user: calls of [Device]'s CTAP methods, with
    variables, errors handled and sequences ranged over, from [New] on. Its
    run is defined over any transport; run over transports whose CBOR calls
    are related it is related to itself. *)
From S2P Require Import Prelude GoError Transport Protocol Pin Preflight Cose Crypto Messages Client Management.
From S2P Require Import Prf Extensions PreviewSign Device Credentials Relational ClientRel DeviceRel CredentialsRel.

Section Programs.
Context `{Primitives} `{PreviewSignCodec}.

(** The methods of [Device] that return one result. Random choices and the
    fuel of the large-blob reads are arguments, as in Device. *)
Inductive operation : Type -> Type :=
  | OpGetInfo : operation AuthenticatorGetInfoResponse
  | OpGetInfoCached : operation (AuthenticatorGetInfoResponse * bool)
  | OpMakeCredential (random_key : PrivateKey) (iv : list Z) (token : slice) (clientData : list Z)
      (rp : RpEntity) (user : UserEntity) (params : list (string * Z)) (excludeList : list Descriptor)
      (extInputs : option CreateClientInputs) (options : gmap string bool) (enterpriseAttestation : Z)
      (formats : list string) : operation (MakeCredentialResponse Any * CreateClientOutputs)
  | OpGetPINRetries : operation (Z * option bool)
  | OpGetUVRetries : operation Z
  | OpSetPIN (random_key : PrivateKey) (iv pin : list Z) : operation unit
  | OpChangePIN (random_key : PrivateKey) (iv1 iv2 currentPin newPin : list Z) : operation unit
  | OpGetPinUvAuthTokenUsingPIN (random_key : PrivateKey) (iv pin : list Z) (permission : Z) (rpID : string)
      : operation (list Z)
  | OpGetPinUvAuthTokenUsingUV (random_key : PrivateKey) (permission : Z) (rpID : string) : operation (list Z)
  | OpReset : operation unit
  | OpSelection : operation unit
  | OpGetBioModality : operation BioEnrollmentResponse
  | OpGetFingerprintSensorInfo : operation BioEnrollmentResponse
  | OpEnrollBegin (token : slice) (timeoutMilliseconds : Z) : operation BioEnrollmentResponse
  | OpEnrollCaptureNextSample (token templateID : slice) (timeoutMilliseconds : Z)
      : operation BioEnrollmentResponse
  | OpCancelCurrentEnrollment : operation unit
  | OpEnumerateEnrollments (token : slice) : operation BioEnrollmentResponse
  | OpSetFriendlyName (token templateID : slice) (friendlyName : string) : operation unit
  | OpRemoveEnrollment (token templateID : slice) : operation unit
  | OpGetCredsMetadata (token : slice) : operation CredentialManagementResponse
  | OpDeleteCredential (token : slice) (credentialID : Descriptor) : operation unit
  | OpUpdateUserInformation (token : slice) (credentialID : Descriptor) (user : UserEntity) : operation unit
  | OpEnableEnterpriseAttestation (token : slice) : operation unit
  | OpToggleAlwaysUV (token : slice) : operation unit
  | OpSetMinPINLength (token : slice) (params : SetMinPINLengthParams) : operation unit
  | OpEnableLongTouchForReset (token : slice) : operation unit
  | OpGetLargeBlobs (fuel : nat) : operation (list LargeBlob)
  | OpSetLargeBlobs (token : slice) (blobs : list LargeBlob) : operation unit.

(** The methods that return a sequence. *)
Inductive sequence_operation : Type -> Type :=
  | SeqGetAssertion (fuel : nat) (random_key : PrivateKey) (iv nonce : list Z) (token : slice) (rpID : string)
      (clientData : list Z) (allowList : list Descriptor) (extInputs : option GetClientInputs)
      (options : gmap string bool) : sequence_operation assertion
  | SeqEnumerateRPs (token : slice) : sequence_operation CredentialManagementResponse
  | SeqEnumerateCredentials (token rpIDHash : slice) : sequence_operation CredentialManagementResponse.

(** Programs over variables of type [St]; [Lift] is a call of a function of
    another package, and the body of [range] answers whether the loop goes
    on. *)
Inductive program (St : Type) : Type -> Type :=
  | Return {A} (a : A) : program St A
  | Throw {A} (e : error) : program St A
  | Lift {A} (r : result A) : program St A
  | Then {A B} (p : program St A) (k : A -> program St B) : program St B
  | Catch {A} (p : program St A) : program St (A + error)
  | Load : program St St
  | Store (st : St) : program St unit
  | Call {A} (op : operation A) : program St A
  | Range {A} (seq : sequence_operation A) (body : A + error -> program St bool) : program St unit.
#[global] Arguments Return {St A}.
#[global] Arguments Throw {St A}.
#[global] Arguments Lift {St A}.
#[global] Arguments Then {St A B}.
#[global] Arguments Catch {St A}.
#[global] Arguments Load {St}.
#[global] Arguments Store {St}.
#[global] Arguments Call {St A}.
#[global] Arguments Range {St A}.

(** ** Running *)

Definition pair_wrapper (W St : Type) : wrapper W St (W * St).
Proof. by refine (Wrapper _ _ _ pair fst snd _ _ _); [| |intros []]. Defined.

Context (fips_enabled : bool) (NFC : list Z -> list Z).
Context (range : gmap string PRFValues -> list (string * PRFValues)).
Context (range_sign : gmap string PreviewSignSignInputs -> list string).

Section Run.
Context {W : Type} (T : transport_ops W).

Definition run_operation {A} (op : operation A) : M (device W) A :=
  match op with
  | OpGetInfo => Device.GetInfo T None
  | OpGetInfoCached => GetInfoCached
  | OpMakeCredential random_key iv token clientData rp user params excludeList extInputs options ea formats =>
      Credentials.MakeCredential fips_enabled T None random_key iv token clientData rp user params excludeList
        extInputs options ea formats
  | OpGetPINRetries => Device.GetPINRetries fips_enabled T None
  | OpGetUVRetries => Device.GetUVRetries fips_enabled T None
  | OpSetPIN random_key iv pin => Device.SetPIN fips_enabled NFC T None random_key iv pin
  | OpChangePIN random_key iv1 iv2 currentPin newPin =>
      Device.ChangePIN fips_enabled NFC T None random_key iv1 iv2 currentPin newPin
  | OpGetPinUvAuthTokenUsingPIN random_key iv pin permission rpID =>
      Device.GetPinUvAuthTokenUsingPIN fips_enabled NFC T None random_key iv pin permission rpID
  | OpGetPinUvAuthTokenUsingUV random_key permission rpID =>
      Device.GetPinUvAuthTokenUsingUV fips_enabled T None random_key permission rpID
  | OpReset => Device.Reset T None
  | OpSelection => Device.Selection T None
  | OpGetBioModality => Device.GetBioModality T None
  | OpGetFingerprintSensorInfo => Device.GetFingerprintSensorInfo T None
  | OpEnrollBegin token timeout => Device.EnrollBegin fips_enabled T None token timeout
  | OpEnrollCaptureNextSample token templateID timeout =>
      Device.EnrollCaptureNextSample fips_enabled T None token templateID timeout
  | OpCancelCurrentEnrollment => Device.CancelCurrentEnrollment T None
  | OpEnumerateEnrollments token => Device.EnumerateEnrollments fips_enabled T None token
  | OpSetFriendlyName token templateID name => Device.SetFriendlyName fips_enabled T None token templateID name
  | OpRemoveEnrollment token templateID => Device.RemoveEnrollment fips_enabled T None token templateID
  | OpGetCredsMetadata token => Device.GetCredsMetadata fips_enabled T None token
  | OpDeleteCredential token credentialID => Device.DeleteCredential fips_enabled T None token credentialID
  | OpUpdateUserInformation token credentialID user =>
      Device.UpdateUserInformation fips_enabled T None token credentialID user
  | OpEnableEnterpriseAttestation token => Device.EnableEnterpriseAttestation fips_enabled T None token
  | OpToggleAlwaysUV token => Device.ToggleAlwaysUV fips_enabled T None token
  | OpSetMinPINLength token params => Device.SetMinPINLength fips_enabled T None token params
  | OpEnableLongTouchForReset token => Device.EnableLongTouchForReset fips_enabled T None token
  | OpGetLargeBlobs fuel => Device.GetLargeBlobs fips_enabled T None fuel
  | OpSetLargeBlobs token blobs => Device.SetLargeBlobs fips_enabled T None token blobs
  end.

Definition run_sequence {A} (seq : sequence_operation A) : Seq (device W) A :=
  match seq with
  | SeqGetAssertion fuel random_key iv nonce token rpID clientData allowList extInputs options =>
      Credentials.GetAssertion fips_enabled T None range range_sign fuel random_key iv nonce token rpID
        clientData allowList extInputs options
  | SeqEnumerateRPs token => Device.EnumerateRPs fips_enabled T None token
  | SeqEnumerateCredentials token rpIDHash => Device.EnumerateCredentials fips_enabled T None token rpIDHash
  end.
End Run.

(** The transport below the variables. *)
Definition beside {W} (St : Type) (T : transport_ops W) : transport_ops (W * St) :=
  let wr := pair_wrapper W St in
  MkTransportOps (fun data => within wr (tr_CBOR T data)) (within wr (tr_Close T))
    ((fun f data => within wr (f data)) <$> tr_Ping T) (within wr <$> tr_Wink T)
    ((fun f seconds => within wr (f seconds)) <$> tr_Lock T)
    ((fun f command data => within wr (f command data)) <$> tr_Vendor T).

Section RunProgram.
Context {W St : Type} (T : transport_ops W).

Fixpoint run_program {A} (p : program St A) : M (device (W * St)) A :=
  match p with
  | Return a => mret a
  | Throw e => fail e
  | Lift r => lift r
  | Then p k => run_program p ≫= fun a => run_program (k a)
  | Catch p => try_ (run_program p)
  | Load => fun d => (Ok (dv_world d).2, d)
  | Store st => modify (fun d => MkDevice ((dv_world d).1, st) (dv_info d) (dv_infoValid d))
  | Call op => run_operation (beside St T) op
  | Range seq body => run_sequence (beside St T) seq (fun item => run_program (body item))
  end.

(** [New], and the program on the device it returns. *)
Definition run_application {A} (p : program St A) : M (W * St) A := fun w =>
  match Device.New (beside St T) None w with
  | (Ok d, _) => let '(r, d') := run_program p d in (r, dv_world d')
  | (Err e, w') => (Err e, w')
  | (Panic, w') => (Panic, w')
  | (Blocked, w') => (Blocked, w')
  end.
End RunProgram.

(** ** Relatedness *)

Section Related.
Context {W1 W2 St : Type} (Rel : forall A, M W1 A -> M W2 A -> Prop) `{HR : MonadRel _ _ Rel}.
Context (T1 : transport_ops W1) (T2 : transport_ops W2).
Context (HT : forall data, related Rel (tr_CBOR T1 data) (tr_CBOR T2 data)).

(** The relation beside the variables, and at the device over them. *)
Definition VRel : forall A, M (W1 * St) A -> M (W2 * St) A -> Prop :=
  wrapped (pair_wrapper W1 St) (pair_wrapper W2 St) Rel.
#[local] Instance VRel_MonadRel : MonadRel VRel.
Proof using HR. apply wrapped_MonadRel, HR. Qed.
#[local] Abbreviation DV := (DRel VRel).

Lemma rel_beside data : related VRel (tr_CBOR (beside St T1) data) (tr_CBOR (beside St T2) data).
Proof using HR HT. apply (wrapped_within (pair_wrapper W1 St) (pair_wrapper W2 St) Rel), HT. Qed.
#[local] Hint Resolve rel_beside : rel.

Lemma rel_no_emit {W3 W4} (Rel' : forall A, M W3 A -> M W4 A -> Prop) : rel_emit Rel' None None.
Proof using. done. Qed.
#[local] Hint Resolve rel_no_emit : rel.

Lemma rel_run_operation {A} (op : operation A) :
  related DV (run_operation (beside St T1) op) (run_operation (beside St T2) op).
Proof using HR HT. destruct op; cbn [run_operation]; auto with rel. Qed.

Lemma rel_run_sequence {A} (seq : sequence_operation A) :
  rel_seq DV (run_sequence (beside St T1) seq) (run_sequence (beside St T2) seq).
Proof using HR HT.
  destruct seq; cbn [run_sequence]; [|auto with rel..].
  apply drel_GetAssertion; [typeclasses eauto|exact rel_beside|done].
Qed.

Lemma rel_variables {A} (m1 : M (device (W1 * St)) A) m2 (r : St -> result A) (f : St -> St) :
  (forall w st info valid, m1 (MkDevice (w, st) info valid) = (r st, MkDevice (w, f st) info valid)) ->
  (forall w st info valid, m2 (MkDevice (w, st) info valid) = (r st, MkDevice (w, f st) info valid)) ->
  related DV m1 m2.
Proof using HR.
  intros Hm1 Hm2 [info valid].
  apply (wrapped_local (pair_wrapper W1 St) (pair_wrapper W2 St) Rel _ _ (fun st => kept (r st) (info, valid)) f);
    intros w st; unfold unwrap; cbn; by rewrite ?Hm1, ?Hm2.
Qed.

Lemma rel_run_program {A} (p : program St A) : related DV (run_program T1 p) (run_program T2 p).
Proof using HR HT.
  induction p as [A a|A e|A r|A B p IH k IHk|A p IH| |st|A op|A seq body IH]; cbn [run_program].
  - apply related_ret, _.
  - rel.
  - apply related_lift, _.
  - by apply related_bind; [typeclasses eauto| |].
  - by apply related_try; [typeclasses eauto|].
  - by apply rel_variables with Ok id.
  - by apply rel_variables with (fun _ => Ok tt) (fun _ => st).
  - apply rel_run_operation.
  - by apply rel_run_sequence.
Qed.

(** [New] reads the getInfo response; the program runs on the device around
    it. *)
Lemma run_application_unwrap {W} (T : transport_ops W) {A} (p : program St A) :
  run_application T p ≡ Client.GetInfo (Some (tr_CBOR (beside St T))) None ≫= fun info =>
    unwrap (device_wrapper (W * St)) (run_program T p) (info, true) ≫= fun '(r, _) => lift r.
Proof using.
  intros w. unfold run_application, Device.New, unwrap, mbind, M_bind.
  destruct (Client.GetInfo _ _ w) as [[info|e| |] w']; try done. cbn.
  by destruct (run_program T p _) as [[a|e| |] d].
Qed.

Lemma rel_run_application {A} (p : program St A) :
  related VRel (run_application T1 p) (run_application T2 p).
Proof using HR HT.
  apply (related_proper VRel _ _ (run_application_unwrap T1 p) _ _ (run_application_unwrap T2 p)).
  apply related_bind; [typeclasses eauto| |].
  - apply rel_GetInfo; [typeclasses eauto| |done]. intros data. apply rel_beside.
  - intros info. apply related_bind; [typeclasses eauto|apply (rel_run_program p (info, true))|].
    intros [r s]. apply related_lift, _.
Qed.
End Related.
End Programs.
