(* ===== verification/Stack.v ===== *)
(** * The whole stack: applications over the four transports

    The contract the layers above the transport rely on: an application of
    the device API runs over a connection as if it called the authenticator.
    [called] is the specification, an authenticator that is a function of its
    state and the request; [Link] is what a transport promises of one
    exchange, however the wire splits, delays or repeats it; the four
    transports are its instances. *)
From S2P Require Import Prelude GoError Transport Protocol Crypto Messages Management Prf Extensions PreviewSign Device.
From S2P Require HidFraming HidCommands HidTransport BleFraming BleTransport Token2 Iso7816.
From S2P Require Import Relational Application.

(** ** Scripts

    One exchange: the request, and the status and data of its response. *)
Record exchange := Exchange { x_request : list Z; x_status : Z; x_data : list Z }.

Definition x_answer (e : exchange) : result CBORResponse :=
  ValidateCBORResponse (nth 0 (x_request e) 0) (MkCBORResponse (x_status e) (x_data e)).

(** A transport made of a CBOR call. *)
Definition cbor_only {W} (cbor : list Z -> M W CBORResponse) : transport_ops W :=
  MkTransportOps cbor (mret None) None None None None.

(** The script played back: another request than the next one waits for ever. *)
Definition play (data : list Z) : M (list exchange) CBORResponse := fun script =>
  match script with
  | e :: rest => if bool_decide (x_request e = data) then (x_answer e, rest) else (Blocked, script)
  | [] => (Blocked, script)
  end.

(** ** The authenticator, called *)

Section Authenticator.
Context {S : Type} (auth : list Z -> S -> Z * list Z * S).

(** The authenticator's state, and the exchanges so far. *)
Definition called (data : list Z) : M (S * list exchange) CBORResponse := fun '(s, log) =>
  let '(status, body, s') := auth data s in
  (ValidateCBORResponse (nth 0 data 0) (MkCBORResponse status body), (s', log ++ [Exchange data status body])).

(** A run against the authenticator is its new exchanges played back. *)
Definition traced (A : Type) (m1 : M (S * list exchange) A) (m2 : M (list exchange) A) : Prop := forall s log,
  (m1 (s, log)).1 = Blocked \/
  exists script, (m1 (s, log)).2.2 = log ++ script /\ forall rest, m2 (script ++ rest) = ((m1 (s, log)).1, rest).

#[export] Instance traced_MonadRel : MonadRel traced.
Proof.
  split.
  - intros A m1 m1' H1 m2 m2' H2. unfold traced. split; intros Ht s log.
    + specialize (Ht s log). rewrite (H1 _) in Ht. destruct Ht as [Hb|(script & Hc & Hp)]; [by left|].
      right. exists script. split; [done|]. intros rest. by rewrite <- (H2 _).
    + specialize (Ht s log). rewrite (H1 _). destruct Ht as [Hb|(script & Hc & Hp)]; [by left|].
      right. exists script. split; [done|]. intros rest. by rewrite (H2 _).
  - intros A r s log. right. exists []. by rewrite app_nil_r.
  - intros A B m1 m2 f1 f2 Hm Hf s log. unfold mbind, M_bind.
    destruct (Hm s log) as [Hb|(script & Hc & Hp)]; destruct (m1 (s, log)) as [r [s1 log1]]; cbn in *; [by subst; left|].
    destruct r as [a|e| |]; [|right; exists script; split; [done|]; intros rest; by rewrite Hp..]. subst log1.
    destruct (Hf a s1 (log ++ script)) as [Hb|(script' & Hc' & Hp')]; [by left|]. right. exists (script ++ script').
    split; [by rewrite (assoc_L (++))|]. intros rest. by rewrite <- (assoc_L (++)), Hp.
  - intros A m1 m2 Hm s log. unfold attempt.
    destruct (Hm s log) as [Hb|(script & Hc & Hp)]; destruct (m1 (s, log)) as [r s1]; cbn in *; [by subst; left|].
    right. exists script. destruct r; (split; [done|]); intros rest; by rewrite Hp.
Qed.

Lemma traced_called data : related traced (called data) (play data).
Proof.
  intros s log. right. unfold called. destruct (auth data s) as [[status body] s'].
  exists [Exchange data status body]. split; [done|].
  intros rest. cbn. by rewrite bool_decide_true.
Qed.
End Authenticator.

(** ** The contract of a transport

    A connection is what is still to arrive and what was written; [link_step]
    says what may arrive, and what is written, in one exchange. *)
Class Link {W} (In Out : Type) (cbor : list Z -> M W CBORResponse) := {
  link_at : list In -> list Out -> W;
  link_step : exchange -> list In -> list Out -> Prop;
  link_ok : In -> Prop;
  link_step_ok e arrived written : link_step e arrived written -> Forall link_ok arrived;
  link_exchange e arrived written rest log :
    link_step e arrived written -> Forall link_ok rest ->
    cbor (x_request e) (link_at (arrived ++ rest) log) = (x_answer e, link_at rest (log ++ written)) }.

Section Link.
Context {W In Out : Type} (cbor : list Z -> M W CBORResponse) {L : Link In Out cbor}.

(** What arrives and what is written over a script. *)
Inductive carried : list exchange -> list In -> list Out -> Prop :=
  | carried_nil : carried [] [] []
  | carried_cons e arrived written script arrived' written' :
      link_step e arrived written -> carried script arrived' written' ->
      carried (e :: script) (arrived ++ arrived') (written ++ written').

Lemma carried_ok script arrived written : carried script arrived written -> Forall link_ok arrived.
Proof. induction 1; [constructor|]. apply Forall_app. eauto using link_step_ok. Qed.

Section Sim.
Context (rest : list In) (total : list Out).

(** The connection has the rest of the script to carry. *)
Definition carrying (script : list exchange) (w : W) : Prop :=
  exists arrived log written,
    carried script arrived written /\ w = link_at (arrived ++ rest) log /\ log ++ written = total.

Lemma sim_cbor data : Forall link_ok rest -> related (sim carrying) (play data) (cbor data).
Proof.
  intros Hrest script w (arrived & log & written & Hc & -> & Htotal).
  destruct Hc as [|e i o script i' o' Hstep Hc]; [by left|]. cbn [play].
  case_bool_decide as Hd; [right|by left]. subst data. cbn. eexists. split.
  - rewrite <- (assoc_L (++)). apply link_exchange; [done|]. apply Forall_app. eauto using carried_ok.
  - exists i', (log ++ o), o'. by rewrite <- (assoc_L (++)).
Qed.
End Sim.
End Link.

(** ** Applications *)

Section Applications.
Context `{Primitives} `{PreviewSignCodec}.
Context (fips_enabled : bool) (NFC : list Z -> list Z).
Context (range : gmap string PRFValues -> list (string * PRFValues)).
Context (range_sign : gmap string PreviewSignSignInputs -> list string).
#[local] Abbreviation run T p := (run_application fips_enabled NFC range range_sign (cbor_only T) p).

Context {S St A : Type} (auth : list Z -> S -> Z * list Z * S) (p : program St A).

(** Any connection that carries the exchanges of a run with the
    authenticator runs the same. *)
Lemma application_carried s st r s' script st' :
  run (called auth) p ((s, []), st) = (r, ((s', script), st')) -> r <> Blocked ->
  forall W In Out (cbor : list Z -> M W CBORResponse) (L : Link In Out cbor) arrived written rest,
    carried cbor script arrived written -> Forall link_ok rest ->
    run cbor p (link_at (arrived ++ rest) [], st) = (r, (link_at rest written, st')).
Proof.
  intros Hrun Hr W In Out cbor L arrived written rest Hcar Hrest.
  pose proof (rel_run_application fips_enabled NFC range range_sign traced (cbor_only (called auth))
    (cbor_only play) (traced_called auth) p st s []) as Htraced.
  assert (Hu : unwrap (pair_wrapper (S * list exchange) St) (run (called auth) p) st (s, []) =
    (kept r st', (s', script))).
  { unfold unwrap. cbn. by rewrite Hrun. }
  destruct Htraced as [Hb|(script' & Hc & Hp)]; [by destruct (unwrap_blocked _ _ _ _ _ _ Hrun Hr Hb)|].
  rewrite Hu in Hc, Hp. cbn in Hc. subst script'. specialize (Hp []). rewrite app_nil_r in Hp.
  destruct (rel_run_application fips_enabled NFC range range_sign (sim (carrying cbor rest written))
    (cbor_only play) (cbor_only cbor) (fun data => sim_cbor cbor rest written data Hrest) p st script
    (link_at (arrived ++ rest) [])) as [Hb|(w' & Hw & arrived' & log & written' & Hnil & Hw' & Ht)].
  { by exists arrived, [], written. }
  { rewrite Hp in Hb. by destruct r. }
  rewrite Hp in Hw, Hnil. apply unwrap_ends in Hw; [|done]. cbn [pack pair_wrapper] in Hw. rewrite Hw, Hw'.
  inversion Hnil; subst. by rewrite app_nil_r.
Qed.
End Applications.

(** ** The four transports *)

(** CTAPHID: the attempts the channel refused and background traffic, then
    the answer; the request's reports are written once more per refusal. *)
Section Hid.
Context (cid : HidFraming.ChannelID) (n : nat).

Definition hid_step (e : exchange) (arrived : list HidFraming.read_event) (written : list (list Z)) : Prop :=
  exists req attempts noise m,
    x_request e <> [] /\ HidFraming.NewMessage cid HidFraming.CTAPHID_CBOR (x_request e) = Ok req /\
    Forall (HidTransport.refused cid) attempts /\ Forall (HidCommands.background cid) noise /\
    HidCommands.sent m cid HidFraming.CTAPHID_CBOR (x_status e :: x_data e) /\
    arrived = concat (HidTransport.attempt_wire <$> attempts) ++ concat (HidFraming.wire <$> noise) ++ HidFraming.wire m /\
    written = concat (replicate (S (length attempts)) (HidFraming.OutputReports req)).

#[export] Instance hid_link : Link HidFraming.read_event (list Z) HidTransport.t_CBOR.
Proof.
  refine {| link_at arrived log := HidTransport.MkTransport (HidTransport.live arrived log n) cid false;
            link_step := hid_step; link_ok := HidTransport.event_ok |}.
  - intros e arrived written (req & attempts & noise & m & _ & _ & _ & _ & _ & -> & _). rewrite !Forall_app.
    auto using HidTransport.event_ok_attempts, HidTransport.event_ok_messages, HidTransport.event_ok_wire.
  - intros e arrived written rest log (req & attempts & noise & m & Hd & Hreq & Ha & Hn & Hm & -> & ->) Hrest.
    rewrite <- !(assoc_L (++)).
    rewrite (HidTransport.hid_busy_retried cid (x_request e) req attempts noise m (x_status e) (x_data e)) by done.
    unfold x_answer, ValidateCBORResponse. cbn [StatusCode]. by destruct (Z.eqb_spec (x_status e) CTAP2_OK) as [->|].
Defined.

(** Every script whose messages CTAPHID can frame is carried, with nothing
    else on the wire. *)
Lemma hid_carries script :
  Forall (fun e => 1 <= len (x_request e) <= 7609 /\ len (x_data e) <= 7608) script ->
  exists arrived written, carried HidTransport.t_CBOR script arrived written.
Proof.
  induction 1 as [|e script [Hreq Hdata] _ (arrived & written & Hc)]; [eexists _, _; constructor|].
  destruct (HidFraming.NewMessage_total cid HidFraming.CTAPHID_CBOR (x_request e)) as [req Hr]; [lia|].
  destruct (HidFraming.NewMessage_total cid HidFraming.CTAPHID_CBOR (x_status e :: x_data e)) as [m Hm];
    [rewrite len_cons; lia|].
  eexists _, _. apply carried_cons; [|exact Hc]. exists req, [], [], m. split_and!; try done.
  intros Hnil. rewrite Hnil in Hreq. change (len []) with 0 in Hreq. lia.
Qed.
End Hid.

(** BLE: refusals, keep-alives and the answer's frame, fragmented as the
    authenticator likes. *)
Section Ble.
Context (maxLen : Z).

Definition ble_step (e : exchange) (arrived : list BleTransport.ble_event) (written : list (list Z)) : Prop :=
  exists frags attempts ka ev,
    x_request e <> [] /\ BleFraming.fragmentFrame BleFraming.MSG (x_request e) maxLen = Ok frags /\
    Forall BleTransport.refusal attempts /\ BleTransport.keepalives ka /\
    BleTransport.on_air BleFraming.MSG (x_status e :: x_data e) ev /\
    arrived = concat attempts ++ ka ++ ev /\ written = concat (replicate (S (length attempts)) frags).

#[export] Instance ble_link : Link BleTransport.ble_event (list Z) BleTransport.CBOR.
Proof.
  refine {| link_at arrived log := BleTransport.live arrived log maxLen false;
            link_step := ble_step; link_ok _ := True |}.
  - intros. by apply Forall_true.
  - intros e arrived written rest log (frags & attempts & ka & ev & Hd & Hf & Ha & Hka & Hev & -> & ->) _.
    rewrite <- !(assoc_L (++)).
    rewrite (BleTransport.ble_exchange (x_request e) frags attempts ka ev (x_status e) (x_data e)) by done.
    unfold x_answer, ValidateCBORResponse. cbn [StatusCode]. by destruct (Z.eqb_spec (x_status e) CTAP2_OK) as [->|].
Defined.
End Ble.

(** Token2: the answer in pieces, each but the last under status 61xx. *)
Section Token2.
Context (close_result : option error).

Definition token2_step (e : exchange) (arrived : list (result (list Z))) (written : list (list Z)) : Prop :=
  exists ps lastp,
    1 <= len (x_request e) <= Token2.maxCommandSize /\ concat ps.*1 ++ lastp = x_status e :: x_data e /\
    arrived = Ok <$> (Token2.pieces ps ++ [lastp ++ [0x90; 0x00]]) /\
    written = Token2.commandAPDU (x_request e) :: Token2.get_response Token2.claToken2 ps.

#[export] Instance token2_link : Link (result (list Z)) (list Z) Token2.CBOR.
Proof.
  refine {| link_at arrived log := Token2.live arrived log close_result;
            link_step := token2_step; link_ok _ := True |}.
  - intros. by apply Forall_true.
  - intros e arrived written rest log (ps & lastp & Hlen & Hbody & -> & ->) _.
    rewrite (Token2.CBOR_pieces (x_request e) ps lastp 0x90 0x00) by done. cbn [Z.eqb Pos.eqb andb]. by rewrite Hbody.
Defined.
End Token2.

(** ISO 7816: the acknowledgements of the fragments, pending statuses, and
    the answer; each look at the context finds it live. *)
Section Iso7816.
Context (Chain : Iso7816.command -> Z -> result (list Iso7816.command)).
Context (APDUError : Iso7816.response -> option error).
Context (StatusSuccess : Z) (NewStatusWord : Z -> Z -> Z) (ErrInvalidResponse : error).
Context (close_result : option error).
Context (APDUError_success : forall r, Iso7816.Status r = StatusSuccess -> APDUError r = None).
Context (pending_differs : NewStatusWord Iso7816.statusResponse Iso7816.statusResponseFinal <> StatusSuccess).

(** A response of the card, or a look at the context. *)
Definition iso_event : Type := result Iso7816.response + option error.
Definition responses : list iso_event -> list (result Iso7816.response) :=
  omap (fun ev => match ev with inl r => Some r | inr _ => None end).
Definition looks : list iso_event -> list (option error) :=
  omap (fun ev => match ev with inr l => Some l | inl _ => None end).
Definition iso_live (arrived : list iso_event) (log : list (Iso7816.operation * Iso7816.command)) : Iso7816.card :=
  Iso7816.live (responses arrived) (looks arrived) log close_result.

Definition iso_step (e : exchange) (arrived : list iso_event)
    (written : list (Iso7816.operation * Iso7816.command)) : Prop :=
  exists before_last final bs,
    1 <= len (x_request e) <= Iso7816.maxMessageSize /\
    Chain (Iso7816.Command Iso7816.claCTAP Iso7816.insNFCCTAPMsg 0 (x_request e) 256)
      Iso7816.shortCommandFragmentSize = Ok (before_last ++ [final]) /\
    arrived = (inl <$> (replicate (length before_last) (Iso7816.ack StatusSuccess)
                 ++ (Iso7816.pending NewStatusWord <$> bs)
                 ++ [Ok (Iso7816.Response StatusSuccess (x_status e :: x_data e))]))
              ++ (inr <$> (replicate (S (length bs)) None)) /\
    written = ((fun c => (Iso7816.OpTransmit, c)) <$> before_last)
      ++ (Iso7816.OpExchange, Iso7816.set_P1 Iso7816.p1SupportsGetResponse final)
      :: replicate (length bs) (Iso7816.OpExchange, Iso7816.getResponseCommand).

Lemma iso_live_app rs ls rest log :
  iso_live (((inl <$> rs) ++ (inr <$> ls)) ++ rest) log =
    Iso7816.live (rs ++ responses rest) (ls ++ looks rest) log close_result.
Proof using.
  unfold iso_live, responses, looks. rewrite !omap_app. f_equal; f_equal.
  - induction rs as [|r l IH]; cbn; [by induction ls|by f_equal].
  - induction rs as [|r l IH]; cbn; [|done]. induction ls; cbn; by f_equal.
Qed.

#[export] Instance iso_link :
  Link iso_event (Iso7816.operation * Iso7816.command)
    (Iso7816.CBOR Chain APDUError StatusSuccess NewStatusWord ErrInvalidResponse).
Proof using APDUError_success pending_differs close_result.
  refine {| link_at := iso_live; link_step := iso_step; link_ok _ := True |}.
  - intros. by apply Forall_true.
  - intros e arrived written rest log (before_last & final & bs & Hlen & HC & -> & ->) _.
    rewrite iso_live_app, <- !(assoc_L (++)). cbn [app replicate].
    apply (Iso7816.CBOR_polled Chain APDUError StatusSuccess NewStatusWord ErrInvalidResponse); done.
Defined.
End Iso7816.

(** ** Properties *)

(** C1. An application of the device API cannot tell a connection from the
    authenticator called directly. Whatever the application calls, in
    whatever order, with whatever variables, error handling and loops over
    sequences, and whatever the authenticator is: once the run that calls the
    authenticator ends, every connection that carries its exchanges over
    CTAPHID, BLE, Token2 or ISO 7816 - with any refusals and retries,
    background traffic, keep-alives, pending statuses and fragmentation -
    gives the same result and the same variables, has written exactly the
    requests, and is left ready for the next exchange. *)
Theorem application_over_any_transport `{Primitives} `{PreviewSignCodec}
    (fips_enabled : bool) (NFC : list Z -> list Z) range range_sign {S St A : Type}
    (auth : list Z -> S -> Z * list Z * S) (p : program St A) s st r s' script st' :
  let run {W : Type} (cbor : list Z -> M W CBORResponse) :=
    run_application fips_enabled NFC range range_sign (cbor_only cbor) p in
  run (called auth) ((s, []), st) = (r, ((s', script), st')) -> r <> Blocked ->
  (forall cid n arrived written rest,
     carried (L := hid_link cid n) _ script arrived written -> Forall HidTransport.event_ok rest ->
     run HidTransport.t_CBOR
       (HidTransport.MkTransport (HidTransport.live (arrived ++ rest) [] n) cid false, st) =
       (r, (HidTransport.MkTransport (HidTransport.live rest written n) cid false, st'))) /\
  (forall maxLen arrived written rest, carried (L := ble_link maxLen) _ script arrived written ->
     run BleTransport.CBOR (BleTransport.live (arrived ++ rest) [] maxLen false, st) =
       (r, (BleTransport.live rest written maxLen false, st'))) /\
  (forall close arrived written rest, carried (L := token2_link close) _ script arrived written ->
     run Token2.CBOR (Token2.live (arrived ++ rest) [] close, st) =
       (r, (Token2.live rest written close, st'))) /\
  (forall Chain APDUError StatusSuccess NewStatusWord ErrInvalidResponse close Hs Hp arrived written rest,
     carried (L := iso_link Chain APDUError StatusSuccess NewStatusWord ErrInvalidResponse close Hs Hp)
       _ script arrived written ->
     run (Iso7816.CBOR Chain APDUError StatusSuccess NewStatusWord ErrInvalidResponse)
       (iso_live close (arrived ++ rest) [], st) =
       (r, (iso_live close rest written, st'))).
Proof.
  intros run Hrun Hr.
  pose proof (application_carried _ _ _ _ auth p s st r s' script st' Hrun Hr) as Hall.
  split_and!; intros.
  - by apply (Hall _ _ _ _ (hid_link cid n) arrived written rest).
  - apply (Hall _ _ _ _ (ble_link maxLen) arrived written rest); [done|by apply Forall_true].
  - apply (Hall _ _ _ _ (token2_link close) arrived written rest); [done|by apply Forall_true].
  - apply (Hall _ _ _ _ (iso_link Chain APDUError StatusSuccess NewStatusWord ErrInvalidResponse close Hs Hp)
      arrived written rest); [done|by apply Forall_true].
Qed.

(** *** A reset and a look at the authenticator, over CTAPHID *)

Definition sample_auth (data : list Z) (w : bool) : Z * list Z * bool :=
  match data with
  | [4] => (0, [if w then 1 else 2], w)
  | [7] => (0, [], false)
  | _ => (0, [], w)
  end.

Definition sample_preview : @PreviewSignCodec sample_codec :=
  @Build_PreviewSignCodec sample_codec (fun _ => Err io_EOF) (fun _ => Err io_EOF) (fun _ => Err io_EOF)
    (fun _ => Err io_EOF) (fun _ _ _ => Err io_EOF).

(** It counts its calls of GetInfo in a variable. *)
Definition sample_application : @program sample_primitives sample_codec nat AuthenticatorGetInfoResponse :=
  Then (Call OpReset) (fun _ => Then Load (fun calls => Then (Store (S calls)) (fun _ => Call OpGetInfo))).

Definition sample_run {W} (cbor : list Z -> M W CBORResponse) : M (W * nat) AuthenticatorGetInfoResponse :=
  @run_application sample_primitives sample_codec sample_preview false (fun s => s) (fun _ => []) (fun _ => []) W nat
    (cbor_only cbor) _ sample_application.

Definition sample_script : list exchange := [Exchange [4] 0 [1]; Exchange [7] 0 []; Exchange [4] 0 [2]].

#[local] Abbreviation cid := HidCommands.sample_cid.
#[local] Abbreviation message := (HidCommands.encoded cid HidFraming.CTAPHID_CBOR).
Definition sample_busy : HidFraming.Message :=
  HidCommands.encoded cid HidFraming.CTAPHID_ERROR [HidFraming.ERR_CHANNEL_BUSY].

(** Background before the first answer, a refusal before the second. *)
Definition sample_arrived : list HidFraming.read_event :=
  (concat (HidFraming.wire <$> HidCommands.sample_noise) ++ HidFraming.wire (message [0; 1])) ++
  (HidFraming.wire sample_busy ++ HidFraming.wire (message [0])) ++ HidFraming.wire (message [0; 2]).
Definition sample_written : list (list Z) :=
  HidFraming.OutputReports (message [4]) ++
  (HidFraming.OutputReports (message [7]) ++ HidFraming.OutputReports (message [7])) ++
  HidFraming.OutputReports (message [4]).

Lemma sample_sent data : len data <= 7609 -> HidCommands.sent (message data) cid HidFraming.CTAPHID_CBOR data.
Proof.
  intros Hd. split; [done|]. unfold HidCommands.encoded.
  by destruct (HidFraming.NewMessage_total cid HidFraming.CTAPHID_CBOR data Hd) as [m ->].
Qed.

Lemma sample_carried : carried (L := hid_link cid 0) _ sample_script sample_arrived sample_written.
Proof.
  assert (Hstep : forall e attempts noise, x_request e <> [] -> len (x_request e) <= 7609 -> len (x_data e) <= 7608 ->
    Forall (HidTransport.refused cid) attempts -> Forall (HidCommands.background cid) noise ->
    hid_step cid e (concat (HidTransport.attempt_wire <$> attempts) ++ concat (HidFraming.wire <$> noise)
                      ++ HidFraming.wire (message (x_status e :: x_data e)))
      (concat (replicate (S (length attempts)) (HidFraming.OutputReports (message (x_request e)))))).
  { intros e attempts noise Hne Hr Hd Ha Hn. exists (message (x_request e)), attempts, noise, (message (x_status e :: x_data e)).
    split_and!; try done; [by apply sample_sent|]. apply sample_sent. rewrite len_cons. lia. }
  apply (carried_cons (L := hid_link cid 0) _ (Exchange [4] 0 [1]) _ (HidFraming.OutputReports (message [4]))).
  { apply (Hstep (Exchange [4] 0 [1]) [] HidCommands.sample_noise); try done. apply HidCommands.sample_noise_background. }
  apply (carried_cons (L := hid_link cid 0) _ (Exchange [7] 0 [])
    (HidFraming.wire sample_busy ++ HidFraming.wire (message [0])) _ _ (HidFraming.wire (message [0; 2]))).
  { apply (Hstep (Exchange [7] 0 []) [([], sample_busy)] []); try done. constructor; [|constructor]. by repeat split. }
  apply (carried_cons (L := hid_link cid 0) _ (Exchange [4] 0 [2]) (HidFraming.wire (message [0; 2]))
    (HidFraming.OutputReports (message [4])) [] [] []); [|constructor].
  by apply (Hstep (Exchange [4] 0 [2]) [] []).
Qed.

Lemma application_over_any_transport_witness :
  sample_run HidTransport.t_CBOR
    (HidTransport.MkTransport (HidTransport.live (sample_arrived ++ []) [] 0) cid false, 0%nat) =
  (Ok (sample_info [] ∅ [2]),
   (HidTransport.MkTransport (HidTransport.live [] sample_written 0) cid false, 1%nat)).
Proof.
  destruct (@application_over_any_transport sample_primitives sample_codec sample_preview false (fun s => s)
    (fun _ => []) (fun _ => []) bool nat _ sample_auth sample_application true 0%nat (Ok (sample_info [] ∅ [2]))
    false sample_script 1%nat) as (H & _).
  - vm_compute. reflexivity.
  - discriminate.
  - exact (H cid 0%nat sample_arrived sample_written [] sample_carried (Forall_nil_2 _)).
Defined.
