(* ===== verification/Runs.v ===== *)
(** * Runs against an authenticator

    The proofs that an application reaches its goal against an authenticator
    of a specification are symbolic executions: a call returns, and takes the
    authenticator and the variables from one state to another, whatever was
    exchanged before. This file is the small program logic they share, from a
    single command to the application and the connections that carry it. *)
From S2P Require Import Prelude GoError Transport Protocol Cose Crypto Messages Client Management Prf Extensions.
From S2P Require Import PreviewSign Device Relational Application Stack.

Section Runs.
Context `{Primitives} `{PreviewSignCodec}.
Context {S St : Type} (auth : list Z -> S -> Z * list Z * S) (info : AuthenticatorGetInfoResponse).

#[local] Abbreviation world := ((S * list exchange) * St)%type.
#[local] Abbreviation T := (beside St (cbor_only (called auth))).
#[local] Abbreviation CT := (client_transport T).
#[local] Abbreviation CE := (client_emit (W := world) None).

(** The device, its cache holding [info], beside the variables. *)
Definition at_state (s : S * St) (log : list exchange) : device world :=
  MkDevice ((s.1, log), s.2) info true.

Definition goes {A} (m : M (device world) A) (s : S * St) (a : A) (s' : S * St) : Prop :=
  forall log, exists log', m (at_state s log) = (Ok a, at_state s' log').

Lemma goes_ret {A} (a : A) s : goes (mret a) s a s.
Proof. intros log. by exists log. Qed.

Lemma goes_bind {A B} (m : M (device world) A) (f : A -> M (device world) B) s a s1 b s2 :
  goes m s a s1 -> goes (f a) s1 b s2 -> goes (m ≫= f) s b s2.
Proof.
  intros Hm Hf log. destruct (Hm log) as [log1 Hma]. destruct (Hf log1) as [log2 Hfa].
  exists log2. by rewrite (M_bind_Ok _ _ _ _ _ Hma).
Qed.

Lemma goes_try {A} (m : M (device world) A) s a s' : goes m s a s' -> goes (try_ m) s (inl a) s'.
Proof. intros Hm log. destruct (Hm log) as [log' E]. exists log'. by apply try_Ok. Qed.

Lemma goes_lift {A} (r : result A) a s : r = Ok a -> goes (lift r) s a s.
Proof. intros ->. apply goes_ret. Qed.

Lemma goes_check c s : c = None -> goes (check_err c) s tt s.
Proof. intros ->. apply goes_ret. Qed.

Lemma goes_info s : goes cached_info s info s.
Proof. intros log. by exists log. Qed.

Lemma goes_cached s : goes GetInfoCached s (info, true) s.
Proof. intros log. by exists log. Qed.

Lemma goes_ensure s : goes (ensureInfoLocked T None) s tt s.
Proof. intros log. by exists log. Qed.

(** One command, answered. *)
Lemma goes_command command b st body st' v : auth (command :: b) st = (CTAP2_OK, body, st') ->
  goes (command_cbor CT CE command b) (st, v) (MkCBORResponse CTAP2_OK body) (st', v).
Proof.
  intros Ha log. exists (log ++ [Exchange (command :: b) CTAP2_OK body]).
  unfold command_cbor, cbor, Client.exchange.
  cbn [fmap option_fmap option_map client_emit client_transport tr_CBOR beside cbor_only].
  unfold on_world, within, at_state. cbn [dv_world dv_info dv_infoValid inner outer pack pair_wrapper fst snd called].
  by rewrite Ha.
Qed.

(** The variables. *)
Lemma goes_load st v : goes (fun d => (Ok (dv_world d).2, d)) (st, v) v (st, v).
Proof. intros log. by exists log. Qed.
Lemma goes_store st v v' :
  goes (modify (fun d : device world => MkDevice ((dv_world d).1, v') (dv_info d) (dv_infoValid d))) (st, v) tt (st, v').
Proof. intros log. by exists log. Qed.

(** ** Programs *)

Context (fips_enabled : bool) (NFC : list Z -> list Z).
Context (range : gmap string PRFValues -> list (string * PRFValues)).
Context (range_sign : gmap string PreviewSignSignInputs -> list string).
#[local] Abbreviation prun := (run_program fips_enabled NFC range range_sign (cbor_only (called auth))).

Lemma goes_then {A B} (p : program St A) (k : A -> program St B) s a s1 b s2 :
  goes (prun p) s a s1 -> goes (prun (k a)) s1 b s2 -> goes (prun (Then p k)) s b s2.
Proof. intros Hp Hk. exact (goes_bind _ (fun a => prun (k a)) _ _ _ _ _ Hp Hk). Qed.
(** ** Applications *)

Context (info_bytes : list Z) (Hinfo : Unmarshal_Info info_bytes = Ok info).

Lemma new_device st st' v : auth [AuthenticatorGetInfo] st = (CTAP2_OK, info_bytes, st') -> exists w,
  Device.New T None ((st, []), v) =
    (Ok (at_state (st', v) [Exchange [AuthenticatorGetInfo] CTAP2_OK info_bytes]), w).
Proof using Hinfo.
  intros Ha. eexists. unfold Device.New, Client.GetInfo, cbor, Client.exchange, mbind at 1, M_bind at 1.
  cbn. unfold within. cbn. rewrite Ha. cbn. unfold lift. by rewrite Hinfo.
Qed.

(** A program that goes through is an application that does, over every
    connection that carries its exchanges. *)
Lemma application_goes {A} (p : program St A) st st' v a st'' v'' :
  auth [AuthenticatorGetInfo] st = (CTAP2_OK, info_bytes, st') -> goes (prun p) (st', v) a (st'', v'') ->
  let run {W : Type} (cbor : list Z -> M W CBORResponse) :=
    run_application fips_enabled NFC range range_sign (cbor_only cbor) p in
  exists script,
    run (called auth) ((st, []), v) = (Ok a, ((st'', script), v'')) /\
    forall W In Out (cbor : list Z -> M W CBORResponse) (L : Link In Out cbor) arrived written rest,
      carried cbor script arrived written -> Forall link_ok rest ->
      run cbor (link_at (arrived ++ rest) [], v) = (Ok a, (link_at rest written, v'')).
Proof using Hinfo.
  intros Ha Hgo run. destruct (Hgo [Exchange [AuthenticatorGetInfo] CTAP2_OK info_bytes]) as [script Hrun].
  destruct (new_device st st' v Ha) as [w Hnew].
  assert (Hall : run _ (called auth) ((st, []), v) = (Ok a, ((st'', script), v''))).
  { unfold run, run_application. rewrite Hnew, Hrun. reflexivity. }
  exists script. split; [exact Hall|]. intros W In Out cbor L arrived written rest.
  by apply (application_carried _ _ _ _ auth p st v (Ok a) st'' script v'').
Qed.
End Runs.
