(* ===== verification/Examples.v ===== *)
(** * The credential-listing examples (src/examples)

    The command-line programs that list an authenticator's passkeys, from the
    device [authenticator.Select] returned on, as programs of the device API.
    Their variables are standard output and the locals of the loops;
    [log.Fatal] ends the program with its error. [printCredentials] is the
    same function in pin, uv, token2 and namedpipe. *)
From S2P Require Import Prelude GoError Protocol Crypto Messages PreviewSign Application.

Record vars := Vars {
  stdout : string;
  rps : list CredentialManagementResponse;
  index : Z }.

Definition newline : string := String (Ascii.ascii_of_nat 10) "".

(** [string(b)] of bytes, and [%x] of them. *)
Definition string_of_bytes (b : list Z) : string :=
  String.string_of_list_ascii ((fun x => Ascii.ascii_of_N (Z.to_N x)) <$> b).
Definition hex_of_bytes (b : list Z) : string := String.concat "" (hex 2 <$> b).

(** [b] of a slice that is [nil] when it was absent. *)
Definition nil_if_empty (b : list Z) : slice := match b with [] => None | _ => Some b end.

Section Examples.
Context `{Primitives} `{PreviewSignCodec}.

#[local] Instance program_ret : MRet (program vars) := fun _ => Return.
#[local] Instance program_bind : MBind (program vars) := fun _ _ k p => Then p k.

Definition printf (text : string) : program vars unit :=
  v ← Load; Store (Vars (stdout v +:+ text) (rps v) (index v)).

Fixpoint for_each {A} (l : list A) (body : A -> program vars unit) : program vars unit :=
  match l with
  | [] => mret tt
  | a :: rest => body a;; for_each rest body
  end.

(** [log.Fatal(err)] in the body of a range loop. *)
Definition fatal_or {A} (body : A -> program vars unit) (item : A + error) : program vars bool :=
  match item with
  | inr err => Throw err
  | inl a => body a;; mret true
  end.

Definition append_rp (rp : CredentialManagementResponse) : program vars unit :=
  v ← Load; Store (Vars (stdout v) (rps v ++ [rp]) (index v)).

Definition credential_line (i : Z) (rpID : string) (user : UserEntity) : string :=
  pretty i +:+ ") " +:+ rpID +:+ ": " +:+ string_of_bytes (bytes_of (user_ID user)) +:+ " / " +:+
  user_Name user +:+ " / " +:+ DisplayName user +:+ newline.

Definition print_credential (rp credential : CredentialManagementResponse) : program vars unit :=
  v ← Load;
  printf (credential_line (index v) (rp_ID (cr_RP rp)) (cr_User credential));;
  v ← Load; Store (Vars (stdout v) (rps v) (index v + 1)).

Definition passkeys_line (metadata : CredentialManagementResponse) : string :=
  "Passkeys: " +:+ pretty (default 0 (ExistingResidentCredentialsCount metadata)) +:+ " (" +:+
  pretty (default 0 (MaxPossibleRemainingResidentCredentialsCount metadata)) +:+ " slots left)" +:+ newline.

Definition printCredentials (token : list Z) : program vars unit :=
  metadata ← Call (OpGetCredsMetadata (Some token));
  printf (passkeys_line metadata);;
  v ← Load; Store (Vars (stdout v) [] (index v));;
  Range (SeqEnumerateRPs (Some token)) (fatal_or append_rp);;
  v ← Load; Store (Vars (stdout v) (rps v) 1);;
  for_each (rps v) (fun rp =>
    Range (SeqEnumerateCredentials (Some token) (nil_if_empty (cr_RPIDHash rp)))
      (fatal_or (print_credential rp))).

Definition fingerprint_line (i : nat) (template : TemplateInfo) : string :=
  pretty (Z.of_nat i + 1) +:+ ") " +:+ ti_FriendlyName template +:+ " (template ID: " +:+
  hex_of_bytes (ti_TemplateID template) +:+ ")" +:+ newline.

Definition printFingerprints (token : list Z) : program vars unit :=
  response ← Call (OpEnumerateEnrollments (Some token));
  printf ("Fingerprints: " +:+ pretty (len (TemplateInfos response)) +:+ newline);;
  for_each (imap fingerprint_line (TemplateInfos response)) printf.

(** The mains, on the value of FIDO2_PIN; the platform's key and IV of the
    token exchange are arguments. *)
Definition pin_not_set : error := EText "FIDO2_PIN is not set".

Definition pin_main (random_key : PrivateKey) (iv pin : list Z) : program vars unit :=
  if bool_decide (pin = []) then Throw pin_not_set
  else
    '(retries, powerCycleRequired) ← Call OpGetPINRetries;
    printf ("PIN retries: " +:+ pretty retries);;
    (match powerCycleRequired with
     | Some b => printf ("; power cycle required: " +:+ (if (b : bool) then "true" else "false"))
     | None => mret tt
     end);;
    printf newline;;
    token ← Call (OpGetPinUvAuthTokenUsingPIN random_key iv pin PermissionCredentialManagement "");
    printCredentials token.

Definition uv_main (random_key : PrivateKey) : program vars unit :=
  retries ← Call OpGetUVRetries;
  printf ("UV retries: " +:+ pretty retries +:+ newline);;
  token ← Call (OpGetPinUvAuthTokenUsingUV random_key
    (Z.lor PermissionCredentialManagement PermissionBioEnrollment) "");
  printFingerprints token;;
  printCredentials token.

Definition token2_main (readerName : string) (random_key : PrivateKey) (iv pin : list Z) : program vars unit :=
  if bool_decide (pin = []) then Throw pin_not_set
  else
    token ← Call (OpGetPinUvAuthTokenUsingPIN random_key iv pin PermissionCredentialManagement "");
    printf ("PC/SC reader: " +:+ readerName +:+ newline);;
    printCredentials token.
End Examples.
