(* ===== verification/Passkeys.v ===== *)
(** * Listing passkeys (CTAP 2.3, section 6.8; src/examples)

    A specification of authenticatorCredentialManagement - credentials by
    relying party, requests authenticated by the token, one enumeration at a
    time, forgotten on any other request - and the theorem that the examples'
    [printCredentials] prints every credential, numbered in order, over any
    connection to such an authenticator. *)
From S2P Require Import Prelude GoError Transport Protocol Pin Preflight Cose Crypto Messages Client Management.
From S2P Require Import Prf Extensions PreviewSign Device PinSession Relational Application Stack Runs Examples.

(** ** The authenticator *)

Record relying_party := RelyingParty {
  rp_entity : RpEntity;
  rp_hash : list Z;
  rp_credentials : list (Descriptor * UserEntity) }.

(** [pk_next]: the sub-command that continues the enumeration, and its
    responses still to give. *)
Record passkeys := Passkeys {
  pk_protocol : Z;
  pk_token : list Z;
  pk_free : Z;
  pk_rps : list relying_party;
  pk_next : Z * list CredentialManagementResponse }.

Definition with_next (next : Z * list CredentialManagementResponse) (st : passkeys) : passkeys :=
  Passkeys (pk_protocol st) (pk_token st) (pk_free st) (pk_rps st) next.
Definition no_enumeration : Z * list CredentialManagementResponse := (0, []).

(** The responses: the total is in the first of an enumeration only. *)
Definition metadata_response (st : passkeys) : CredentialManagementResponse :=
  MkCMResponse (Some (Z.of_nat (length (pk_rps st ≫= rp_credentials)))) (Some (pk_free st))
    (MkRpEntity "" "") [] 0 zero_user zero_descriptor None 0 0 [] None.
Definition rp_response (total : Z) (rp : relying_party) : CredentialManagementResponse :=
  MkCMResponse None None (rp_entity rp) (rp_hash rp) total zero_user zero_descriptor None 0 0 [] None.
Definition credential_response (total : Z) (c : Descriptor * UserEntity) : CredentialManagementResponse :=
  MkCMResponse None None (MkRpEntity "" "") [] 0 c.2 c.1 None total 0 [] None.

Definition numbered {A} (response : Z -> A -> CredentialManagementResponse) (l : list A)
    : list CredentialManagementResponse :=
  match l with
  | [] => []
  | a :: rest => response (len l) a :: (response 0 <$> rest)
  end.

(** ** What the listing prints *)

Definition passkeys_of (rps : list relying_party) : list (string * UserEntity) :=
  rps ≫= fun rp => (fun c => (rp_ID (rp_entity rp), c.2)) <$> rp_credentials rp.

Definition passkey_lines (rps : list relying_party) : list string :=
  imap (fun i c => credential_line (1 + Z.of_nat i) c.1 c.2) (passkeys_of rps).

Definition join_lines (lines : list string) : string := foldr String.append "" lines.

Definition printed (v : vars) (c : string * UserEntity) : vars :=
  Vars (stdout v +:+ credential_line (index v) c.1 c.2) (rps v) (index v + 1).

Lemma string_app_assoc (s1 s2 s3 : string) : s1 +:+ (s2 +:+ s3) = (s1 +:+ s2) +:+ s3.
Proof. induction s1 as [|c s1 IH]; [done|]. exact (f_equal (String c) IH). Qed.
Lemma string_app_nil (s : string) : s +:+ "" = s.
Proof. induction s as [|c s IH]; [done|]. exact (f_equal (String c) IH). Qed.

Lemma printed_all l : forall v,
  foldl printed v l =
    Vars (stdout v +:+ join_lines (imap (fun i c => credential_line (index v + Z.of_nat i) c.1 c.2) l))
      (rps v) (index v + len l).
Proof.
  induction l as [|c l IH]; intros v; cbn [foldl].
  - cbn. rewrite string_app_nil, Z.add_0_r. by destruct v.
  - rewrite IH. cbn [stdout rps index printed]. rewrite imap_cons, len_cons. cbn [join_lines foldr].
    rewrite string_app_assoc, Z.add_0_r. f_equal; [|lia]. do 2 f_equal. apply imap_ext. intros i x _. cbn.
    by replace (index v + 1 + Z.of_nat i) with (index v + Z.of_nat (S i)) by lia.
Qed.

Lemma passkeys_of_cons rp l : passkeys_of (rp :: l) = passkeys_of [rp] ++ passkeys_of l.
Proof. unfold passkeys_of. cbn [mbind list_bind]. by rewrite app_nil_r. Qed.

Lemma printed_rps l : forall v,
  foldl (fun v rp => foldl (fun v c => printed v (rp_ID (rp_entity rp), c.2)) v (rp_credentials rp)) v l =
  foldl printed v (passkeys_of l).
Proof.
  induction l as [|rp l IH]; intros v; [done|]. cbn [foldl passkeys_of mbind list_bind]. rewrite IH, foldl_app. f_equal.
  generalize (rp_credentials rp). intros cs. revert v. induction cs as [|c cs IHc]; intros v; [done|]. apply IHc.
Qed.

Section Authenticator.
Context `{Primitives} `{Codec}.

(** The authenticator's side of the codec: it reads the platform's requests
    and writes its responses. *)
Class PasskeyWire := {
  read_cm_request : list Z -> option CredentialManagementRequest;
  write_cm_response : CredentialManagementResponse -> list Z;
  Marshal_cm_request subCommand rpIDHash protocol param :
    let r := MkCMRequest subCommand (MkCMParams rpIDHash zero_descriptor zero_user) protocol param in
    exists b, Marshal (MCredMgmt r) = Ok b /\ b <> [] /\ read_cm_request b = Some r;
  Marshal_cm_params rpIDHash : exists b, Marshal (MCredMgmtParams (MkCMParams rpIDHash zero_descriptor zero_user)) = Ok b;
  Unmarshal_cm_response r : cr_PublicKey r = None -> Unmarshal_CredMgmt (write_cm_response r) = Ok r }.
Context `{PasskeyWire} (info_bytes : list Z).

(** Whether the request carries the token's proof over the message. *)
Definition authorized (st : passkeys) (r : CredentialManagementRequest) (message : list Z) : bool :=
  (cm_PinUvAuthProtocol r =? pk_protocol st)
  && match Authenticate (pk_protocol st) (pk_token st) message with
     | Ok expected => bool_decide (cm_PinUvAuthParam r = expected)
     | _ => false
     end.

Definition refused (status : Z) (st : passkeys) : Z * list Z * passkeys :=
  (status, [], with_next no_enumeration st).

(** The first response of an enumeration; the others are kept. *)
Definition begins (next : Z) (l : list CredentialManagementResponse) (st : passkeys) : Z * list Z * passkeys :=
  match l with
  | [] => refused CTAP2_ERR_NO_CREDENTIALS st
  | r :: rest => (CTAP2_OK, write_cm_response r, with_next (next, rest) st)
  end.

Definition rp_of_hash (st : passkeys) (hash : slice) : option relying_party :=
  list_find (fun rp => Some (rp_hash rp) = hash) (pk_rps st) ≫= fun found => Some found.2.

Definition handle_passkeys (r : CredentialManagementRequest) (st : passkeys) : Z * list Z * passkeys :=
  let sub := cm_SubCommand r in
  if (sub =? CredentialManagementSubCommandEnumerateRPsGetNextRP)
     || (sub =? CredentialManagementSubCommandEnumerateCredentialsGetNextCredential) then
    match pk_next st with
    | (next, answer :: rest) =>
        if sub =? next then (CTAP2_OK, write_cm_response answer, with_next (next, rest) st)
        else refused CTAP2_ERR_NOT_ALLOWED st
    | _ => refused CTAP2_ERR_NOT_ALLOWED st
    end
  else if sub =? CredentialManagementSubCommandEnumerateCredentialsBegin then
    match Marshal (MCredMgmtParams (cm_SubCommandParams r)) with
    | Ok params =>
        if authorized st r ([sub] ++ params) then
          begins CredentialManagementSubCommandEnumerateCredentialsGetNextCredential
            (match rp_of_hash st (cmp_RPIDHash (cm_SubCommandParams r)) with
             | Some rp => numbered credential_response (rp_credentials rp)
             | None => []
             end) st
        else refused CTAP2_ERR_PIN_AUTH_INVALID st
    | _ => refused CTAP1_ERR_INVALID_PARAMETER st
    end
  else if negb (authorized st r [sub]) then refused CTAP2_ERR_PIN_AUTH_INVALID st
  else if sub =? CredentialManagementSubCommandGetCredsMetadata then
    (CTAP2_OK, write_cm_response (metadata_response st), with_next no_enumeration st)
  else if sub =? CredentialManagementSubCommandEnumerateRPsBegin then
    begins CredentialManagementSubCommandEnumerateRPsGetNextRP (numbered rp_response (pk_rps st)) st
  else refused CTAP1_ERR_INVALID_PARAMETER st.

(** getInfo, and credential management under its two command bytes. *)
Definition passkey_authenticator (data : list Z) (st : passkeys) : Z * list Z * passkeys :=
  match data with
  | [command] => if command =? AuthenticatorGetInfo then (CTAP2_OK, info_bytes, with_next no_enumeration st)
                 else refused CTAP1_ERR_INVALID_COMMAND st
  | command :: b =>
      if (command =? AuthenticatorCredentialManagement) || (command =? PrototypeAuthenticatorCredentialManagement) then
        match read_cm_request b with
        | Some r => handle_passkeys r st
        | None => refused CTAP1_ERR_INVALID_PARAMETER st
        end
      else refused CTAP1_ERR_INVALID_COMMAND st
  | [] => refused CTAP1_ERR_INVALID_COMMAND st
  end.

(** ** Runs on a device *)

Context `{HL : !PrimitiveLaws} `{!PreviewSignCodec} (fips_enabled : bool) (NFC : list Z -> list Z).
Context (range : gmap string PRFValues -> list (string * PRFValues)).
Context (range_sign : gmap string PreviewSignSignInputs -> list string).
Context (info : AuthenticatorGetInfoResponse) (preview : bool) (protocol : Z) (token : list Z).

#[local] Abbreviation world := ((passkeys * list exchange) * vars)%type.
#[local] Abbreviation T := (beside vars (cbor_only (called passkey_authenticator))).
#[local] Abbreviation CT := (client_transport T).
#[local] Abbreviation CE := (client_emit (W := world) None).

#[local] Abbreviation goes := (goes (S := passkeys) (St := vars) info).

(** A credential-management request. *)
Lemma goes_send r b pk body pk' v :
  read_cm_request b = Some r -> b <> [] -> handle_passkeys r pk = (CTAP2_OK, body, pk') ->
  goes (command_cbor CT CE (cm_command preview) b) (pk, v) (MkCBORResponse CTAP2_OK body) (pk', v).
Proof.
  intros Hr Hb Hh. apply (goes_command passkey_authenticator).
  unfold passkey_authenticator. destruct b as [|x b]; [done|]. rewrite Hr, Hh. by destruct preview.
Qed.

(** One request, encoded, sent and answered, and what is done with the
    response. *)
Lemma goes_request {A} sub rpIDHash p param pk answer pk' v (k : CBORResponse -> M (device world) A) a s' :
  let r := MkCMRequest sub (MkCMParams rpIDHash zero_descriptor zero_user) p param in
  handle_passkeys r pk = (CTAP2_OK, write_cm_response answer, pk') -> cr_PublicKey answer = None ->
  (forall resp, Unmarshal_CredMgmt (Data resp) = Ok answer -> goes (k resp) (pk', v) a s') ->
  goes (b ← lift (Marshal (MCredMgmt r)); command_cbor CT CE (cm_command preview) b ≫= k) (pk, v) a s'.
Proof.
  intros r Hh Hk Hgo. destruct (Marshal_cm_request sub rpIDHash p param) as (b & Hb & Hne & Hr).
  eapply goes_bind; [by apply goes_lift|]. eapply goes_bind; [by eapply goes_send|].
  apply Hgo. by apply Unmarshal_cm_response.
Qed.

(** ** Enumerations *)

(** A yield that goes on, works on the variables and leaves the authenticator
    alone. *)
Definition works {A} (yield : A + error -> M (device world) bool) (g : vars -> A -> vars) : Prop :=
  forall pk v a, goes (yield (inl a)) (pk, v) true (pk, g v a).

Definition is_next (sub : Z) : Prop :=
  sub = CredentialManagementSubCommandEnumerateRPsGetNextRP \/
  sub = CredentialManagementSubCommandEnumerateCredentialsGetNextCredential.

Lemma goes_next sub r rest pk v : is_next sub -> cr_PublicKey r = None ->
  goes (enumerate_next CT CE preview sub) (with_next (sub, r :: rest) pk, v) r (with_next (sub, rest) pk, v).
Proof.
  intros Hsub Hk. apply (goes_request _ _ _ _ _ r (with_next (sub, rest) pk)); [|done|by intros; apply goes_lift].
  unfold handle_passkeys. cbn [cm_SubCommand pk_next with_next].
  rewrite Z.eqb_refl. by destruct Hsub as [-> | ->].
Qed.

Lemma goes_iterate yield g sub rest : works yield g -> is_next sub ->
  Forall (fun r => cr_PublicKey r = None) rest -> forall pk v,
  goes (iterate (length rest) (enumerate_next CT CE preview sub) yield)
    (with_next (sub, rest) pk, v) tt (with_next (sub, []) pk, foldl g v rest).
Proof.
  intros Hy Hsub. induction 1 as [|r rest Hk _ IH]; intros pk v; cbn [length iterate foldl]; [apply goes_ret|].
  eapply goes_bind; [by apply goes_try, goes_next|]. eapply goes_bind; [apply Hy|]. apply IH.
Qed.

Lemma goes_sequence yield g sub begin count r rest pk v : works yield g -> is_next sub ->
  Forall (fun r => cr_PublicKey r = None) rest -> count r = length rest ->
  goes begin (pk, v) r (with_next (sub, rest) pk, v) ->
  goes (sequence begin count (enumerate_next CT CE preview sub) yield)
    (pk, v) tt (with_next (sub, []) pk, foldl g v (r :: rest)).
Proof.
  intros Hy Hsub Hk Hc Hb. unfold sequence. eapply goes_bind; [by apply goes_try|].
  eapply goes_bind; [apply Hy|]. cbn [negb]. rewrite Hc. by apply (goes_iterate yield g sub rest).
Qed.

(** ** The commands with the token *)

Context (Hmode : credentialManagementMode info = Ok preview).
Context (Hprotocol : pinUvAuthProtocolForRequest fips_enabled info (Some token) true = Ok protocol).

Definition serves (pk : passkeys) : Prop := pk_protocol pk = protocol /\ pk_token pk = token.

Lemma token_valid : ValidateUvAuthToken fips_enabled protocol token = None.
Proof using Hprotocol.
  unfold pinUvAuthProtocolForRequest in Hprotocol.
  destruct (requirePinUvAuthProtocol fips_enabled info) as [n| | |]; try done. cbn [mbind result_bind] in Hprotocol.
  destruct (_ && _); [done|]. destruct (ValidateUvAuthToken fips_enabled n token) eqn:Hv; [done|].
  by injection Hprotocol as <-.
Qed.

Lemma authorized_ok pk sub params message : serves pk ->
  exists param, Authenticate protocol token message = Ok param /\
    authorized pk (MkCMRequest sub params protocol param) message = true.
Proof using HL Hprotocol.
  intros [Hp Ht]. destruct (authenticate_total fips_enabled protocol token message token_valid) as (param & Ha & _).
  exists param. split; [done|]. unfold authorized. rewrite Hp, Ht, Ha.
  cbn [cm_PinUvAuthProtocol cm_PinUvAuthParam]. by rewrite Z.eqb_refl, bool_decide_true.
Qed.

Lemma goes_cm_mode s : goes (cm_mode T None) s preview s.
Proof using Hmode.
  unfold cm_mode. eapply goes_bind; [apply goes_ensure|]. eapply goes_bind; [apply goes_info|]. by apply goes_lift.
Qed.

Lemma goes_token_protocol s : goes (token_protocol fips_enabled (Some token)) s protocol s.
Proof using Hprotocol. unfold token_protocol. eapply goes_bind; [apply goes_info|]. by apply goes_lift. Qed.

Lemma goes_metadata pk v : serves pk ->
  goes (Device.GetCredsMetadata fips_enabled T None (Some token)) (pk, v)
    (metadata_response pk) (with_next no_enumeration pk, v).
Proof using HL Hmode Hprotocol.
  intros Hs. unfold Device.GetCredsMetadata.
  eapply goes_bind; [apply goes_cm_mode|]. eapply goes_bind; [apply goes_token_protocol|].
  change (bytes_of (Some token)) with token. unfold Management.GetCredsMetadata. rewrite token_valid.
  eapply goes_bind; [apply goes_ret|].
  destruct (authorized_ok pk CredentialManagementSubCommandGetCredsMetadata zero_cm_params
    [CredentialManagementSubCommandGetCredsMetadata] Hs) as (param & Ha & Hok).
  eapply goes_bind; [by apply goes_lift|].
  eapply goes_request; [|by apply (eq_refl (cr_PublicKey (metadata_response pk)))|by intros; apply goes_lift].
  unfold handle_passkeys. cbn [cm_SubCommand]. fold zero_cm_params. by rewrite Hok.
Qed.

(** An enumeration, after its checks. *)
Lemma goes_enumeration (seq : bool -> Z -> Seq (device world) CredentialManagementResponse) yield s s' :
  goes (seq preview protocol yield) s tt s' ->
  goes (enumeration fips_enabled T None (Some token) seq yield) s tt s'.
Proof using Hmode Hprotocol.
  intros Hs. unfold enumeration. apply goes_bind with (inl (preview, protocol)) s; [|exact Hs].
  apply goes_try. eapply goes_bind; [apply goes_cm_mode|]. eapply goes_bind; [apply goes_token_protocol|]. apply goes_ret.
Qed.

Lemma numbered_keys {A} (response : Z -> A -> CredentialManagementResponse) l :
  (forall n a, cr_PublicKey (response n a) = None) -> Forall (fun r => cr_PublicKey r = None) (response 0 <$> l).
Proof using. intros Hk. apply Forall_fmap, Forall_forall. intros a _. apply Hk. Qed.

Lemma goes_EnumerateRPs yield g pk v : works yield g -> serves pk -> pk_rps pk <> [] ->
  goes (Device.EnumerateRPs fips_enabled T None (Some token) yield) (pk, v) tt
    (with_next (CredentialManagementSubCommandEnumerateRPsGetNextRP, []) pk,
     foldl g v (numbered rp_response (pk_rps pk))).
Proof using HL Hmode Hprotocol.
  intros Hy Hs Hne. apply goes_enumeration. change (bytes_of (Some token)) with token. unfold Management.EnumerateRPs.
  destruct (pk_rps pk) as [|rp rps] eqn:Hrps; [done|]. cbn [numbered].
  eapply goes_sequence with (rest := rp_response 0 <$> rps); [done|by left|by apply numbered_keys| |].
  { cbn [rp_response TotalRPs]. rewrite length_fmap, len_cons. unfold len. lia. }
  rewrite token_valid. eapply goes_bind; [apply goes_ret|].
  destruct (authorized_ok pk CredentialManagementSubCommandEnumerateRPsBegin zero_cm_params
    [CredentialManagementSubCommandEnumerateRPsBegin] Hs) as (param & Ha & Hok).
  eapply goes_bind; [by apply goes_lift|].
  eapply (goes_request _ _ _ _ _ (rp_response (len (rp :: rps)) rp)).
  - unfold handle_passkeys. cbn [cm_SubCommand]. fold zero_cm_params. rewrite Hok, Hrps. reflexivity.
  - done.
  - intros resp Hu. eapply goes_bind; [by apply goes_lift|]. cbn [rp_response TotalRPs].
    rewrite len_cons. pose proof (len_nonneg rps). destruct (Z.eqb_spec (1 + len rps) 0); [lia|apply goes_ret].
Qed.

Lemma rp_of_hash_found pk rp : NoDup (rp_hash <$> pk_rps pk) -> rp ∈ pk_rps pk ->
  rp_of_hash pk (Some (rp_hash rp)) = Some rp.
Proof using.
  intros Hnd Hin. apply list_elem_of_lookup in Hin as [i Hi]. unfold rp_of_hash.
  assert (Hf : list_find (fun x => Some (rp_hash x) = Some (rp_hash rp)) (pk_rps pk) = Some (i, rp)); [|by rewrite Hf].
  apply list_find_Some. split_and!; [done..|]. intros j y Hj Hlt [= Heq].
  assert (j = i); [|lia]. apply (NoDup_lookup (rp_hash <$> pk_rps pk) j i (rp_hash rp) Hnd);
    by rewrite list_lookup_fmap, ?Hj, ?Hi; cbn; rewrite ?Heq.
Qed.

Lemma goes_EnumerateCredentials yield g pk v rp : works yield g -> serves pk ->
  rp_of_hash pk (Some (rp_hash rp)) = Some rp -> rp_credentials rp <> [] ->
  goes (Device.EnumerateCredentials fips_enabled T None (Some token) (Some (rp_hash rp)) yield) (pk, v) tt
    (with_next (CredentialManagementSubCommandEnumerateCredentialsGetNextCredential, []) pk,
     foldl g v (numbered credential_response (rp_credentials rp))).
Proof using HL Hmode Hprotocol.
  intros Hy Hs Hf Hne. apply goes_enumeration. change (bytes_of (Some token)) with token.
  unfold Management.EnumerateCredentials.
  destruct (rp_credentials rp) as [|c cs] eqn:Hcs; [done|]. cbn [numbered].
  eapply goes_sequence with (rest := credential_response 0 <$> cs); [done|by right|by apply numbered_keys| |].
  { cbn [credential_response TotalCredentials]. rewrite length_fmap, len_cons. unfold len. lia. }
  rewrite token_valid. eapply goes_bind; [apply goes_ret|].
  destruct (Marshal_cm_params (Some (rp_hash rp))) as [params Hparams].
  destruct (authorized_ok pk CredentialManagementSubCommandEnumerateCredentialsBegin
    (MkCMParams (Some (rp_hash rp)) zero_descriptor zero_user)
    ([CredentialManagementSubCommandEnumerateCredentialsBegin] ++ params) Hs) as (param & Ha & Hok).
  eapply goes_bind; [by apply goes_lift|]. eapply goes_bind; [by apply goes_lift|].
  eapply (goes_request _ _ _ _ _ (credential_response (len (c :: cs)) c)).
  - unfold handle_passkeys. cbn [cm_SubCommand cm_SubCommandParams cmp_RPIDHash].
    rewrite Hparams, Hok, Hf, Hcs. reflexivity.
  - done.
  - intros resp Hu. eapply goes_bind; [by apply goes_lift|]. cbn [credential_response TotalCredentials].
    rewrite len_cons. pose proof (len_nonneg cs). destruct (Z.eqb_spec (1 + len cs) 0); [lia|apply goes_ret].
Qed.

(** ** The program *)

#[local] Abbreviation prun := (run_program fips_enabled NFC range range_sign (cbor_only (called passkey_authenticator))).

Lemma goes_printf pk v text :
  goes (prun (printf text)) (pk, v) tt (pk, Vars (stdout v +:+ text) (rps v) (index v)).
Proof using. cbn. eapply goes_bind; [apply goes_load|apply goes_store]. Qed.

Lemma works_fatal_or {A} (body : A -> program vars unit) g :
  (forall pk v a, goes (prun (body a)) (pk, v) tt (pk, g v a)) -> works (fun item => prun (fatal_or body item)) g.
Proof using. intros Hb pk v a. cbn. eapply goes_bind; [apply Hb|apply goes_ret]. Qed.

Definition appended (v : vars) (rp : CredentialManagementResponse) : vars :=
  Vars (stdout v) (rps v ++ [rp]) (index v).
Lemma works_append_rp : works (fun item => prun (fatal_or append_rp item)) appended.
Proof using. apply works_fatal_or. intros pk v rp. cbn. eapply goes_bind; [apply goes_load|apply goes_store]. Qed.

Lemma works_print_credential rp :
  works (fun item => prun (fatal_or (print_credential rp) item)) (fun v c => printed v (rp_ID (cr_RP rp), cr_User c)).
Proof using.
  apply works_fatal_or. intros pk v c. cbn. eapply goes_bind; [apply goes_load|].
  eapply goes_bind; [apply goes_printf|]. eapply goes_bind; [apply goes_load|apply goes_store].
Qed.

Lemma appended_all l : forall v, foldl appended v l = Vars (stdout v) (rps v ++ l) (index v).
Proof using.
  induction l as [|r l IH]; intros v; cbn [foldl]; [rewrite app_nil_r; by destruct v|].
  rewrite IH. cbn. by rewrite <- (assoc_L (++)).
Qed.

(** The credentials of a numbered enumeration, printed. *)
Lemma printed_numbered rp v :
  foldl (fun v c => printed v (rp_ID (rp_entity rp), cr_User c)) v (numbered credential_response (rp_credentials rp)) =
  foldl (fun v c => printed v (rp_ID (rp_entity rp), c.2)) v (rp_credentials rp).
Proof using.
  destruct (rp_credentials rp) as [|c cs]; [done|]. cbn [numbered foldl credential_response cr_User].
  generalize (printed v (rp_ID (rp_entity rp), c.2)).
  induction cs as [|c' cs IH]; intros v'; [done|]. apply IH.
Qed.

(** The second loop, over the responses of the first. *)
Lemma goes_listing l : forall pk v responses, serves pk ->
  Forall2 (fun rp r => exists n, r = rp_response n rp) l responses ->
  (forall rp, rp ∈ l -> rp_of_hash pk (Some (rp_hash rp)) = Some rp /\ rp_hash rp <> [] /\ rp_credentials rp <> []) ->
  exists pk', pk_rps pk' = pk_rps pk /\
    goes (prun (for_each responses (fun rp =>
            Range (SeqEnumerateCredentials (Some token) (nil_if_empty (cr_RPIDHash rp))) (fatal_or (print_credential rp)))))
      (pk, v) tt (pk', foldl printed v (passkeys_of l)).
Proof using HL Hmode Hprotocol.
  induction l as [|rp l IH]; intros pk v responses Hs Hall Hl; apply Forall2_cons_inv_l in Hall || apply Forall2_nil_inv_l in Hall.
  - subst. exists pk. split; [done|apply goes_ret].
  - destruct Hall as (r & rest & [n ->] & Hall & ->). destruct (Hl rp ltac:(left)) as (Hf & Hh & Hc).
    set (pk1 := with_next (CredentialManagementSubCommandEnumerateCredentialsGetNextCredential, []) pk).
    destruct (IH pk1 (foldl printed v (passkeys_of [rp])) rest) as (pk' & Hrps & Hgo);
      [by apply Hs|done|by intros rp' Hin; apply Hl; right|].
    exists pk'. split; [done|]. cbn [for_each]. eapply goes_bind with (s1 := (pk1, _)).
    + cbn [run_program run_sequence rp_response cr_RPIDHash].
      replace (nil_if_empty (rp_hash rp)) with (Some (rp_hash rp)) by by destruct (rp_hash rp).
      by apply (goes_EnumerateCredentials _ _ pk v rp (works_print_credential (rp_response n rp))).
    + cbn [rp_response cr_RP]. rewrite printed_numbered.
      pose proof (printed_rps [rp] v) as He. cbn [foldl] in He. rewrite He.
      rewrite (passkeys_of_cons rp l), foldl_app. exact Hgo.
Qed.

Lemma numbered_responses l : Forall2 (fun rp r => exists n, r = rp_response n rp) l (numbered rp_response l).
Proof using.
  destruct l as [|rp l]; [constructor|]. constructor; [by eexists|]. apply Forall2_fmap_r, Forall_Forall2_diag, Forall_forall.
  intros x _. by exists 0.
Qed.

Lemma goes_printCredentials pk v : serves pk -> pk_rps pk <> [] ->
  (forall rp, rp ∈ pk_rps pk -> rp_hash rp <> [] /\ rp_credentials rp <> []) -> NoDup (rp_hash <$> pk_rps pk) ->
  exists pk' v', pk_rps pk' = pk_rps pk /\
    stdout v' = stdout v +:+ passkeys_line (metadata_response pk) +:+ join_lines (passkey_lines (pk_rps pk)) /\
    goes (prun (printCredentials token)) (pk, v) tt (pk', v').
Proof using HL Hmode Hprotocol.
  intros Hs Hne Hl Hnd.
  set (pk1 := with_next (CredentialManagementSubCommandEnumerateRPsGetNextRP, []) (with_next no_enumeration pk)).
  set (v1 := Vars (stdout v +:+ passkeys_line (metadata_response pk)) (numbered rp_response (pk_rps pk)) 1).
  destruct (goes_listing (pk_rps pk) pk1 v1 (numbered rp_response (pk_rps pk))) as (pk' & Hrps & Hgo);
    [by apply Hs|apply numbered_responses| |].
  { intros rp Hin. split; [by apply (rp_of_hash_found pk1 rp)|by apply Hl]. }
  exists pk', (foldl printed v1 (passkeys_of (pk_rps pk))). split; [done|]. split.
  { rewrite printed_all. cbn [stdout v1]. by rewrite <- string_app_assoc. }
  unfold printCredentials. eapply goes_then; [by apply goes_metadata|].
  eapply goes_then; [apply goes_printf|]. cbn [stdout rps index]. eapply goes_then; [apply goes_load|].
  eapply goes_then; [apply goes_store|]. eapply goes_then.
  { by apply (goes_EnumerateRPs (fun item => prun (fatal_or append_rp item)) appended (with_next no_enumeration pk) _ works_append_rp). }
  rewrite appended_all. cbn [stdout rps index app pk_rps with_next].
  eapply goes_then; [apply goes_load|]. eapply goes_then; [apply goes_store|]. exact Hgo.
Qed.

(** ** Properties *)

(** C3. The examples' [printCredentials] lists every passkey. Against an
    authenticator that follows the specification and holds credentials for
    one or more relying parties, the program prints the counts, then one line
    for each credential, of every relying party in the authenticator's order,
    numbered from 1 without a gap; each of its requests carries the token's
    proof, its two enumerations do not disturb one another, and the
    credentials are left as they were. Over any connection that carries its
    exchanges it prints the same. *)
Theorem passkeys_listed pk v :
  Unmarshal_Info info_bytes = Ok info -> serves pk -> pk_rps pk <> [] ->
  (forall rp, rp ∈ pk_rps pk -> rp_hash rp <> [] /\ rp_credentials rp <> []) -> NoDup (rp_hash <$> pk_rps pk) ->
  let run {W : Type} (cbor : list Z -> M W CBORResponse) :=
    run_application fips_enabled NFC range range_sign (cbor_only cbor) (printCredentials token) in
  exists pk' script v', pk_rps pk' = pk_rps pk /\
    stdout v' = stdout v +:+ passkeys_line (metadata_response pk) +:+ join_lines (passkey_lines (pk_rps pk)) /\
    run (called passkey_authenticator) ((pk, []), v) = (Ok tt, ((pk', script), v')) /\
    forall W In Out (cbor : list Z -> M W CBORResponse) (L : Link In Out cbor) arrived written rest,
      carried cbor script arrived written -> Forall link_ok rest ->
      run cbor (link_at (arrived ++ rest) [], v) = (Ok tt, (link_at rest written, v')).
Proof using HL Hmode Hprotocol.
  intros Hinfo Hs Hne Hl Hnd run.
  destruct (goes_printCredentials (with_next no_enumeration pk) v Hs Hne Hl Hnd) as (pk' & v' & Hrps & Hout & Hgo).
  destruct (application_goes passkey_authenticator info fips_enabled NFC range range_sign info_bytes Hinfo
    (printCredentials token) pk _ v tt pk' v' eq_refl Hgo) as (script & Hrun & Hlinks).
  by exists pk', script, v'.
Qed.
End Authenticator.

(** *** Three passkeys *)

Definition entity_tuple (rp : RpEntity) := (rp_ID rp, rp_Name rp).
Definition user_tuple (u : UserEntity) := (user_ID u, DisplayName u, user_Name u, Icon u).
Definition of_user_tuple t : UserEntity := let '(a, b, c, d) := t in MkUserEntity a b c d.
Definition credential_tuple (d : Descriptor) := (cred_Type d, cred_ID d, cred_Transports d).
Definition of_credential_tuple t : Descriptor := let '(a, b, c) := t in MkDescriptor a b c.

Definition cm_params_tuple (p : CredentialManagementSubCommandParams) :=
  (cmp_RPIDHash p, credential_tuple (cmp_CredentialID p), user_tuple (cmp_User p)).
Definition cm_request_tuple (r : CredentialManagementRequest) :=
  (cm_SubCommand r, cm_params_tuple (cm_SubCommandParams r), cm_PinUvAuthProtocol r, cm_PinUvAuthParam r).
Definition of_cm_request_tuple t : CredentialManagementRequest :=
  let '(sub, (h, d, u), p, param) := t in
  MkCMRequest sub (MkCMParams h (of_credential_tuple d) (of_user_tuple u)) p param.

(** Responses without a public key. *)
Definition cm_response_tuple (r : CredentialManagementResponse) :=
  (ExistingResidentCredentialsCount r, MaxPossibleRemainingResidentCredentialsCount r, entity_tuple (cr_RP r),
   cr_RPIDHash r, TotalRPs r, user_tuple (cr_User r), credential_tuple (cr_CredentialID r),
   (TotalCredentials r, cr_CredProtect r, cr_LargeBlobKey r, cr_ThirdPartyPayment r)).
Definition of_cm_response_tuple t : CredentialManagementResponse :=
  let '(a, b, (c, d), e, f, g, h, (i, j, k, l)) := t in
  MkCMResponse a b (MkRpEntity c d) e f (of_user_tuple g) (of_credential_tuple h) None i j k l.

Definition sample_passkey_info : AuthenticatorGetInfoResponse :=
  sample_info [FIDO_2_1] {[ OptionCredentialManagement := true ]} [2].

Definition passkey_codec : Codec := {|
  Any := Z;
  Marshal m := match m with
               | MCredMgmt r => Ok (number_bytes (cm_request_tuple r))
               | MCredMgmtParams p => Ok (number_bytes (cm_params_tuple p))
               | _ => Err io_EOF
               end;
  Unmarshal_ClientPIN b := Err io_EOF;
  Unmarshal_Bio b := Err io_EOF;
  Unmarshal_CredMgmt b := match read_number b with
    | Some t => Ok (of_cm_response_tuple t)
    | None => Err io_EOF
    end;
  Unmarshal_LargeBlobs b := Err io_EOF;
  Unmarshal_Info b := Ok sample_passkey_info;
  Unmarshal_MakeCredential b := Err io_EOF;
  Unmarshal_GetAssertion b := Err io_EOF;
  decode_cose_key b := Err io_EOF;
  decode_any_map b := Err io_EOF;
  Decode_CreateExtensionOutputs b := Err io_EOF;
  Decode_GetExtensionOutputs b := Err io_EOF;
  remarshal_supported a := Err io_EOF;
  remarshal_GetLargeBlobOutput a := Err io_EOF;
  remarshal_AttestationObject a := Err io_EOF;
  Marshal_LargeBlobArray l := Err io_EOF;
  Unmarshal_LargeBlobArray b := Err io_EOF |}.

Definition passkey_wire : @PasskeyWire passkey_codec.
Proof.
  refine {| read_cm_request := fun b => of_cm_request_tuple <$> read_number b;
            write_cm_response := fun r => number_bytes (cm_response_tuple r) |}.
  - intros sub h p param r. eexists. split_and!; [reflexivity|done|].
    unfold read_number, number_bytes. by rewrite decode_encode.
  - intros h. by eexists.
  - intros r Hk. cbn [Unmarshal_CredMgmt passkey_codec]. unfold read_number, number_bytes. rewrite decode_encode.
    destruct r as [? ? [] ? ? [] [] ? ? ? ? ?]. cbn in Hk. by subst.
Defined.

Definition passkey_preview : @PreviewSignCodec passkey_codec :=
  @Build_PreviewSignCodec passkey_codec (fun _ => Err io_EOF) (fun _ => Err io_EOF) (fun _ => Err io_EOF)
    (fun _ => Err io_EOF) (fun _ _ _ => Err io_EOF).

Definition sample_passkey (id : Z) (user display : string) : Descriptor * UserEntity :=
  (MkDescriptor "public-key" (Some [id]) [], MkUserEntity (Some (bytes_of_string user)) display user "").

Definition sample_passkeys : passkeys := Passkeys 2 (zeros 32) 5
  [RelyingParty (MkRpEntity "a.example" "A") [1] [sample_passkey 7 "ann" "Ann"; sample_passkey 8 "bob" "Bob"];
   RelyingParty (MkRpEntity "b.example" "B") [2] [sample_passkey 9 "ann" "Ann B."]] no_enumeration.

Definition sample_listing : string :=
  "Passkeys: 3 (5 slots left)" +:+ newline +:+
  "1) a.example: ann / ann / Ann" +:+ newline +:+
  "2) a.example: bob / bob / Bob" +:+ newline +:+
  "3) b.example: ann / ann / Ann B." +:+ newline.

Lemma passkeys_listed_witness : exists pk' script v', stdout v' = sample_listing /\
  @run_application sample_primitives passkey_codec passkey_preview true (fun s => s) (fun _ => []) (fun _ => [])
    (passkeys * list exchange) vars
    (cbor_only (called (@passkey_authenticator sample_primitives passkey_codec passkey_wire [1]))) unit
    (@printCredentials sample_primitives passkey_codec (zeros 32)) ((sample_passkeys, []), Vars "" [] 0) =
    (Ok tt, ((pk', script), v')).
Proof.
  destruct (@passkeys_listed sample_primitives passkey_codec passkey_wire [1] sample_laws passkey_preview true
    (fun s => s) (fun _ => []) (fun _ => []) sample_passkey_info false 2 (zeros 32) eq_refl eq_refl sample_passkeys
    (Vars "" [] 0)) as (pk' & script & v' & _ & Hout & Hrun & _).
  - reflexivity.
  - split; reflexivity.
  - discriminate.
  - intros rp Hin. unfold sample_passkeys in Hin. cbn [pk_rps] in Hin.
    apply list_elem_of_In in Hin. destruct Hin as [<-|[<-|[]]]; split; discriminate.
  - cbn. apply (bool_decide_unpack _). vm_compute. exact I.
  - exists pk', script, v'. split; [|exact Hrun]. etransitivity; [exact Hout|]. vm_compute. reflexivity.
Defined.
