(* ===== verification/PrfSession.v ===== *)
(** * The PRF extension against an authenticator (CTAP 2.3, sections 12.7, 12.8)

    A specification of hmac-secret and hmac-secret-mc - decapsulate, verify
    and decrypt the salts, evaluate HMAC with the secret of the credential,
    encrypt - as a transport over the credentials of an authenticator, and
    the theorem that [Device.MakeCredential] and [Device.GetAssertion] return
    the WebAuthn PRF of the inputs under that secret. *)
From S2P Require Import Prelude GoError Transport Protocol Pin Preflight Cose Crypto Messages.
From S2P Require Import Prf Extensions PreviewSign Client Management Device Credentials PinSession.

(** A key as the platform sends it. *)
Definition platform_key (k : Key) : Prop := k = None \/ exists pk, k = KeyFromP256PublicKey pk.

Definition platform_message (m : message) : Prop :=
  match m with
  | MClientPIN r => platform_key (cp_KeyAgreement r)
  | MMakeCredential r => platform_key (hs_KeyAgreement (ci_HMACSecretMC (mc_Extensions r)))
  | MGetAssertion r => platform_key (hs_KeyAgreement (gi_HMACSecret (ga_Extensions r)))
  | _ => False
  end.

(** The authenticator's side of the codec: it reads the requests it knows,
    and writes responses, extension maps and the credential's public key. *)
Class SecretWire `{Codec} := {
  read_secret_request : list Z -> option message;
  write_key_agreement : list Z -> list Z;
  write_created : list Z -> list Z;
  write_assertion : Descriptor -> list Z -> list Z -> list Z;
  write_create_secret : option (list Z) -> list Z;
  write_get_secret : list Z -> list Z;
  credential_key : Key;
  credential_key_bytes : list Z;
  Marshal_read m : platform_message m ->
    exists b, Marshal m = Ok b /\ read_secret_request b = Some m;
  Unmarshal_key_agreement pk : valid_public_key pk = true -> exists k,
    Unmarshal_ClientPIN (write_key_agreement pk) = Ok (Some (MkClientPINResponse k [] None None None)) /\
    P256PublicKey k = Ok pk;
  Unmarshal_created data : Unmarshal_MakeCredential (write_created data) =
    Ok (MkMakeCredentialResponse "none" data None ∅ false [] ∅);
  Unmarshal_assertion d data signature :
    Unmarshal_GetAssertion (write_assertion d data signature) =
    Ok (MkGetAssertionResponse d data None signature None 0 false [] ∅);
  create_secret_map s : write_create_secret s <> [] /\
    decode_any_map (write_create_secret s) = Ok (true, len (write_create_secret s)) /\
    Decode_CreateExtensionOutputs (write_create_secret s) =
      Ok (MkCreateExtensionOutputs 0 None 0 None (Some true) s None);
  get_secret_map s : write_get_secret s <> [] /\
    decode_any_map (write_get_secret s) = Ok (true, len (write_get_secret s)) /\
    Decode_GetExtensionOutputs (write_get_secret s) = Ok (MkGetExtensionOutputs None (Some s) None None);
  credential_key_map rest : credential_key_bytes <> [] /\
    decode_cose_key (credential_key_bytes ++ rest) = Ok (credential_key, len credential_key_bytes);
  credential_key_approved fips : ValidateCredentialKey fips credential_key = Ok tt }.

Section Authenticator.
Context `{Primitives} `{SecretWire}.

(** A credential with its two secrets: CredRandomWithUV and
    CredRandomWithoutUV. *)
Record stored_credential := StoredCredential {
  sc_id : list Z; sc_withUV : list Z; sc_withoutUV : list Z }.

Record secret_store := SecretStore {
  ss_key : PrivateKey;
  ss_iv : list Z;                        (* the IV of its next encryption *)
  ss_token : list Z;                     (* the pinUvAuthToken *)
  ss_uv_enforced : bool;                 (* verifies the user unasked *)
  ss_credentials : list stored_credential;
  ss_next : stored_credential }.         (* what it will create next *)

Definition with_credential (st : secret_store) (c : stored_credential) : secret_store :=
  SecretStore (ss_key st) (ss_iv st) (ss_token st) (ss_uv_enforced st) (c :: ss_credentials st)
    (ss_next st).

(** Whether the user was verified; [None] when the token's proof fails. *)
Definition user_verified (st : secret_store) (number : Z) (param : slice)
    (options : gmap string bool) (hash : list Z) : option bool :=
  match param with
  | None => Some (flag options OptionUserVerification || ss_uv_enforced st)
  | Some p =>
      match Authenticate number (ss_token st) hash with
      | Ok expected => if bool_decide (p = expected) then Some true else None
      | _ => None
      end
  end.

Definition secret_of (c : stored_credential) (uv : bool) : list Z :=
  if uv then sc_withUV c else sc_withoutUV c.

(** One HMAC for each salt. *)
Definition secret_outputs (secret salts : list Z) : list Z :=
  hmac secret (take 32 salts) ++ if len salts =? 64 then hmac secret (drop 32 salts) else [].

Definition ok_or_none {A} (r : result A) : option A := match r with Ok a => Some a | _ => None end.

(** Decapsulate, verify, decrypt, evaluate, encrypt. *)
Definition evaluate_secret (st : secret_store) (secret : list Z) (s : HMACSecret)
    : option (list Z) :=
  let number := if hs_PinUvAuthProtocol s =? 0 then PinUvAuthProtocolOne
                else hs_PinUvAuthProtocol s in
  let p := PinUvAuth number (ss_key st) None in
  shared ← ok_or_none (ECDH p (hs_KeyAgreement s));
  auth ← ok_or_none (Authenticate number shared (bytes_of (SaltEnc s)));
  if negb (bool_decide (SaltAuth s = Some auth)) then None
  else
    salts ← ok_or_none (Decrypt p shared (bytes_of (SaltEnc s)));
    if negb (len salts =? 32) && negb (len salts =? 64) then None
    else ok_or_none (Encrypt p (ss_iv st) shared (secret_outputs secret salts)).

Definition flags_of (uv attested extensions : bool) : Z :=
  Z.lor AuthDataFlagUserPresent (Z.lor (if uv then AuthDataFlagUserVerified else 0)
    (Z.lor (if attested then AuthDataFlagAttestedCredentialDataIncluded else 0)
           (if extensions then AuthDataFlagExtensionDataIncluded else 0))).

Definition rp_hash (rpID : string) : list Z := sha256 (bytes_of_string rpID).

Definition authentication_failed (st : secret_store) : Z * list Z * secret_store :=
  (CTAP2_ERR_PIN_AUTH_INVALID, [], st).

Definition handle_create (r : MakeCredentialRequest) (st : secret_store)
    : Z * list Z * secret_store :=
  match user_verified st (mc_PinUvAuthProtocol r) (mc_PinUvAuthParam r) (mc_Options r)
          (mc_ClientDataHash r) with
  | None => authentication_failed st
  | Some uv =>
      let c := ss_next st in
      let e := mc_Extensions r in
      let created outputs :=
        let extensions := if ci_HMACSecret e then Some (write_create_secret outputs) else None in
        (CTAP2_OK,
         write_created (layout (AuthData (rp_hash (rp_ID (mc_RP r)))
           (flags_of uv true (ci_HMACSecret e)) 0
           (Some (AttestedCredential (zeros 16) (sc_id c) credential_key)) extensions)
           credential_key_bytes),
         with_credential st c) in
      match hs_KeyAgreement (ci_HMACSecretMC e) with
      | None => created None
      | Some _ =>
          match evaluate_secret st (secret_of c uv) (ci_HMACSecretMC e) with
          | None => authentication_failed st
          | Some outputs => created (Some outputs)
          end
      end
  end.

(** The credential that answers: the first one allowed. *)
Definition answering (st : secret_store) (allowList : list Descriptor) : option stored_credential :=
  snd <$> list_find (fun c => allowList = [] \/ sc_id c ∈ ((fun d => bytes_of (cred_ID d)) <$> allowList))
    (ss_credentials st).

Definition handle_assertion (r : GetAssertionRequest) (st : secret_store) : Z * list Z * secret_store :=
  match user_verified st (ga_PinUvAuthProtocol r) (ga_PinUvAuthParam r) (ga_Options r)
          (ga_ClientDataHash r) with
  | None => authentication_failed st
  | Some uv =>
      match answering st (ga_AllowList r) with
      | None => (CTAP2_ERR_NO_CREDENTIALS, [], st)
      | Some c =>
          let asserted extensions :=
            (CTAP2_OK,
             write_assertion (MkDescriptor "public-key" (Some (sc_id c)) [])
               (layout (@AuthData Key (rp_hash (ga_RPID r)) (flags_of uv false (not_nil extensions)) 0 None
                  extensions) []) [], st) in
          let s := gi_HMACSecret (ga_Extensions r) in
          match hs_KeyAgreement s with
          | None => asserted None
          | Some _ =>
              match evaluate_secret st (secret_of c uv) s with
              | None => authentication_failed st
              | Some outputs => asserted (Some (write_get_secret outputs))
              end
          end
      end
  end.

Definition handle_secret (command : Z) (m : message) (st : secret_store) : Z * list Z * secret_store :=
  match m with
  | MClientPIN r =>
      if (command =? AuthenticatorClientPIN)
         && (cp_SubCommand r =? ClientPINSubCommandGetKeyAgreement)
      then (CTAP2_OK, write_key_agreement (public_key (ss_key st)), st)
      else (CTAP1_ERR_INVALID_COMMAND, [], st)
  | MMakeCredential r =>
      if command =? AuthenticatorMakeCredential then handle_create r st
      else (CTAP1_ERR_INVALID_COMMAND, [], st)
  | MGetAssertion r =>
      if command =? AuthenticatorGetAssertion then handle_assertion r st
      else (CTAP1_ERR_INVALID_COMMAND, [], st)
  | _ => (CTAP1_ERR_INVALID_COMMAND, [], st)
  end.

Definition secret_transport : transport_ops secret_store := MkTransportOps
  (fun data st =>
     let '(command, (status, body, st')) :=
       match data with
       | command :: b =>
           match read_secret_request b with
           | Some m => (command, handle_secret command m st)
           | None => (command, (CTAP1_ERR_INVALID_COMMAND, [], st))
           end
       | [] => (0, (CTAP1_ERR_INVALID_COMMAND, [], st))
       end in
     (ValidateCBORResponse command (MkCBORResponse status body), st'))
  (mret None) None None None None.

(** The WebAuthn PRF of a credential. *)
Definition prf_of (secret : list Z) (values : PRFValues) : PRFValues :=
  MkPRFValues (Some (hmac secret (hashPRFInput (First values))))
    (match Second values with
     | None => None
     | Some second => Some (hmac secret (hashPRFInput (Some second)))
     end).
End Authenticator.

Lemma Filter_idempotent fips params params' :
  FilterCredentialParameters fips params = Ok params' ->
  FilterCredentialParameters fips params' = Ok params'.
Proof.
  unfold FilterCredentialParameters. destruct fips; cbn [negb orb]; [|by intros [= <-]].
  destruct (len params =? 0) eqn:Hp; [intros [= <-]; by rewrite Hp|].
  set (f := filter _ params). destruct (len f =? 0) eqn:Hf; [done|]. intros [= <-]. rewrite Hf.
  rewrite filter_all; [by rewrite Hf|]. apply Forall_forall. intros x Hx.
  by apply list_elem_of_filter in Hx as [Hx _].
Qed.

(** ** The salts *)

Section Session.
Context `{PrimitiveLaws} `{HC : Codec} `{!SecretWire} `{!PreviewSignCodec}.
Context (fips_enabled : bool) (info : AuthenticatorGetInfoResponse) (number : Z).
Context (Hprotocol : requirePinUvAuthProtocol fips_enabled info = Ok number).
Context (Hnumber : acceptable fips_enabled number).
(** The random choices of the platform. *)
Context (key : PrivateKey) (iv : list Z) (Hiv : block iv).

#[local] Abbreviation T := (client_transport secret_transport).
#[local] Abbreviation E := (client_emit (W := secret_store) None).
#[local] Abbreviation send_salts := (send_salts fips_enabled secret_transport None).

Lemma number_allowed : ValidateFIPS140UvAuthProtocol fips_enabled number = None.
Proof.
  unfold ValidateFIPS140UvAuthProtocol. destruct Hnumber as [E|[_ E]]; rewrite E; [|done].
  by rewrite Z.eqb_refl, orb_true_r.
Qed.

Lemma number_known : number = PinUvAuthProtocolOne \/ number = PinUvAuthProtocolTwo.
Proof. destruct Hnumber as [E|[E _]]; auto. Qed.

Definition platform : PinUvAuthProtocol :=
  PinUvAuth number key (KeyFromP256PublicKey (public_key key)).

(** A device whose cache holds [info]. *)
Definition at_info (d : device secret_store) : Prop := dv_info d = info /\ dv_infoValid d = true.

Lemma secret_call command m b d : read_secret_request b = Some m ->
  command_cbor T E command b d =
    let '(status, body, st) := handle_secret command m (dv_world d) in
    (ValidateCBORResponse command (MkCBORResponse status body), MkDevice st (dv_info d) (dv_infoValid d)).
Proof using.
  intros Hr. unfold command_cbor, cbor, exchange, client_transport, on_world. cbn. rewrite Hr.
  by destruct (handle_secret command m (dv_world d)) as [[status body] st].
Qed.

Lemma key_agreement_ok d : exists k,
  GetKeyAgreement fips_enabled T E number d = (Ok k, d) /\
  P256PublicKey k = Ok (public_key (ss_key (dv_world d))).
Proof.
  destruct (Unmarshal_key_agreement (public_key (ss_key (dv_world d)))) as (k & Hu & Hk).
  { apply public_key_valid. }
  exists k. split; [|done]. unfold GetKeyAgreement. rewrite number_allowed.
  destruct (Marshal_read (MClientPIN (clientPIN_request number ClientPINSubCommandGetKeyAgreement)))
    as (b & Hm & Hr); [by left|].
  pose proof (secret_call AuthenticatorClientPIN _ b d Hr) as Hc. cbn in Hc.
  unfold wrapping, try_, mbind, M_bind, mret, M_ret, lift. cbn. rewrite Hm. rewrite Hc.
  cbn. rewrite Hu. by destruct d.
Qed.

(** What both sides know after the salts are sent. *)
Definition shares (st : secret_store) (ss ct auth salt : list Z) : Prop :=
  len ss = secret_length number /\
  ECDH (PinUvAuth number (ss_key st) None) (KeyFromP256PublicKey (public_key key)) = Ok ss /\
  Decrypt (PinUvAuth number (ss_key st) None) ss ct = Ok salt /\
  Authenticate number ss ct = Ok auth.

Lemma send_salts_ok d salt : at_info d ->
  len salt = 32 \/ len salt = 64 -> Forall is_byte salt ->
  exists ss ct auth,
    send_salts key iv salt d =
      (Ok (number, (platform, ss),
           newHMACSecretInput (KeyFromP256PublicKey (public_key key)) ct auth number), d) /\
    shares (dv_world d) ss ct auth salt.
Proof.
  intros [Hd _] Hl Hb. destruct (key_agreement_ok d) as (k & Hka & Hk).
  set (peer := PinUvAuth number (ss_key (dv_world d)) None).
  assert (Hnew : NewPinUvAuthProtocol fips_enabled key number = Ok platform).
  { unfold NewPinUvAuthProtocol. by rewrite number_allowed. }
  destruct (shared_secret_agrees fips_enabled key (ss_key (dv_world d)) number platform peer
    Hnew number_known eq_refl eq_refl) as (ss & Henc & Hdec & Hss).
  assert (Hen : Encapsulate platform k = Ok (KeyFromP256PublicKey (public_key key), ss)).
  { rewrite <- Henc. unfold Encapsulate, ECDH. by rewrite Hk, key_roundtrip by apply public_key_valid. }
  destruct (encrypt_decrypt platform peer iv ss salt) as (ct & Hct & Hpt & _);
    [apply number_known|done|done|done| |by destruct Hl as [-> | ->]|done|].
  { intros ->. destruct Hl; done. }
  assert (Hauth : exists auth, Authenticate number ss ct = Ok auth).
  { unfold Authenticate, secret_length in *. destruct number_known as [-> | ->]; cbn in *; [eauto|].
    unfold ProtocolTwo.Authenticate. rewrite Hss. eauto. }
  destruct Hauth as (auth & Hauth). exists ss, ct, auth. split; [|done].
  assert (Hp : pinUvAuthProtocolWithKeyAgreement fips_enabled secret_transport None d = (Ok (number, k), d)).
  { unfold pinUvAuthProtocolWithKeyAgreement.
    rewrite (M_bind_Ok cached_info _ d info d) by (unfold cached_info; by rewrite Hd).
    by rewrite (lift_bind _ _ _ _ Hprotocol), (M_bind_Ok _ _ _ _ _ Hka). }
  unfold Credentials.send_salts. rewrite (M_bind_Ok _ _ _ _ _ Hp).
  rewrite (lift_bind _ _ _ _ Hnew), (lift_bind _ _ _ _ Hen).
  by rewrite (lift_bind _ _ _ _ Hct), (lift_bind _ _ _ _ Hauth).
Qed.

(** The answer of the authenticator is the one the platform decrypts. *)
Lemma evaluate_ok st ss ct auth salt secret :
  block (ss_iv st) -> shares st ss ct auth salt -> len salt = 32 \/ len salt = 64 ->
  exists et, evaluate_secret st secret
      (newHMACSecretInput (KeyFromP256PublicKey (public_key key)) ct auth number) = Some et /\
    Decrypt platform ss et = Ok (secret_outputs secret salt).
Proof.
  intros Hiv' (Hss & Hdec & Hpt & Hauth) Hl. unfold evaluate_secret.
  assert (Hn : (if hs_PinUvAuthProtocol (newHMACSecretInput (KeyFromP256PublicKey (public_key key)) ct
       auth number) =? 0 then PinUvAuthProtocolOne
     else hs_PinUvAuthProtocol (newHMACSecretInput (KeyFromP256PublicKey (public_key key)) ct auth number))
     = number).
  { unfold newHMACSecretInput. destruct number_known as [-> | ->]; done. }
  rewrite Hn. cbn [hs_KeyAgreement SaltEnc SaltAuth newHMACSecretInput]. change (bytes_of (Some ct)) with ct.
  rewrite Hdec. cbn [ok_or_none mbind option_bind]. rewrite Hauth. cbn [ok_or_none mbind option_bind].
  rewrite bool_decide_eq_true_2 by done. cbn [negb]. rewrite Hpt. cbn [ok_or_none mbind option_bind].
  assert (Hlen : negb (len salt =? 32) && negb (len salt =? 64) = false) by by destruct Hl as [-> | ->].
  rewrite Hlen.
  destruct (hmac_bytes secret (take 32 salt)) as [H32 Hb32].
  destruct (hmac_bytes secret (drop 32 salt)) as [H64 Hb64].
  destruct (encrypt_decrypt (PinUvAuth number (ss_key st) None) platform (ss_iv st) ss
    (secret_outputs secret salt)) as (et & Het & Hpt' & _);
    [apply number_known|done|done|done|..].
  - unfold secret_outputs. intros He. apply (f_equal len) in He. rewrite len_app, H32 in He.
    change (len []) with 0 in He. pose proof (len_nonneg (if len salt =? 64 then hmac secret (drop 32 salt) else [])).
    lia.
  - unfold secret_outputs. rewrite len_app, H32. destruct Hl as [-> | ->]; cbn; [done|by rewrite H64].
  - unfold secret_outputs. apply Forall_app. split; [done|]. destruct (len salt =? 64); [done|apply Forall_nil_2].
  - exists et. by rewrite Het.
Qed.

(** Salts and outputs of a PRF evaluation. *)
Lemma hashPRFInput_bytes s : len (hashPRFInput s) = 32 /\ Forall is_byte (hashPRFInput s).
Proof. apply sha256_bytes. Qed.

Lemma prfSalts_ok values : (len (prfSalts values) = 32 \/ len (prfSalts values) = 64) /\
  Forall is_byte (prfSalts values).
Proof.
  unfold prfSalts. destruct (hashPRFInput_bytes (First values)) as [Hl Hb].
  destruct (Second values) as [s|]; [|auto]. destruct (hashPRFInput_bytes (Some s)) as [Hl' Hb'].
  rewrite len_app, Hl, Hl'. split; [by right|by apply Forall_app].
Qed.

Lemma secret_outputs_one secret a : len a = 32 -> secret_outputs secret a = hmac secret a.
Proof.
  intros Ha. unfold secret_outputs. rewrite Ha, take_ge by (unfold len in Ha; lia). apply app_nil_r.
Qed.

Lemma secret_outputs_two secret a b : len a = 32 -> len b = 32 ->
  secret_outputs secret (a ++ b) = hmac secret a ++ hmac secret b.
Proof.
  intros Ha Hb. unfold secret_outputs. rewrite len_app, Ha, Hb.
  by rewrite take_app_length', drop_app_length' by (unfold len in Ha; lia).
Qed.

Lemma split_one a : len a = 32 -> split_outputs a = Ok (MkHMACGetSecretOutput (Some a) None).
Proof. unfold split_outputs. by intros ->. Qed.

Lemma split_two a b : len a = 32 -> len b = 32 ->
  split_outputs (a ++ b) = Ok (MkHMACGetSecretOutput (Some a) (Some b)).
Proof.
  intros Ha Hb. unfold split_outputs. rewrite len_app, Ha, Hb.
  by rewrite take_app_length', drop_app_length' by (unfold len in Ha; lia).
Qed.

Lemma prf_outputs secret values : let out := secret_outputs secret (prfSalts values) in
  validatePRFResultLength values out = None /\
  exists o, split_outputs out = Ok o /\ as_prf o = prf_of secret values.
Proof.
  destruct (hashPRFInput_bytes (First values)) as [Hl _].
  pose proof (proj1 (hmac_bytes secret (hashPRFInput (First values)))) as Ho1.
  unfold prfSalts, validatePRFResultLength, prf_of. destruct (Second values) as [s|].
  - destruct (hashPRFInput_bytes (Some s)) as [Hl' _].
    pose proof (proj1 (hmac_bytes secret (hashPRFInput (Some s)))) as Ho2.
    rewrite secret_outputs_two, split_two by done. rewrite len_app, Ho1, Ho2. eauto.
  - rewrite secret_outputs_one, split_one by done. rewrite Ho1. eauto.
Qed.

(** ** User verification *)

(** The authenticator verifies the user as the platform expects: by the
    token it issued, or unasked when its alwaysUv option says so. *)
Definition verifies (st : secret_store) (token : slice) : Prop :=
  match token with
  | Some t => t = ss_token st /\ pinUvAuthProtocolForRequest fips_enabled info token true = Ok number
  | None => alwaysUVEnabled info && flag (Options info) OptionUserVerification = true ->
            ss_uv_enforced st = true
  end.

Lemma request_protocol_ok st token d : at_info d -> verifies st token ->
  exists n, request_protocol fips_enabled token d = (Ok n, d).
Proof.
  intros [Hd _] Hv. unfold request_protocol, token_protocol. destruct token as [t|]; [|by eexists].
  destruct Hv as [_ Hp]. exists number.
  rewrite (M_bind_Ok cached_info _ d info d) by (unfold cached_info; by rewrite Hd).
  by rewrite Hp.
Qed.

(** The proof of the token that a client command computes. *)
Definition token_param {W} (token : slice) (hash : list Z) : M W (slice * Z) :=
  match token with
  | None => mret (None, 0)
  | Some t =>
      check_err (ValidateUvAuthToken fips_enabled number t);;
      param ← lift (Authenticate number t hash);
      mret (Some param, number)
  end.

Lemma token_param_ok {W} st token options hash (w : W) :
  verifies st token -> userVerificationWillBePerformed info token options = true ->
  exists param n, token_param token hash w = (Ok (param, n), w) /\
    user_verified st n param options hash = Some true.
Proof.
  intros Hv Hu. unfold token_param, user_verified. destruct token as [t|]; cbn [verifies] in Hv.
  - destruct Hv as [-> Hp].
    assert (Ht : ValidateUvAuthToken fips_enabled number (ss_token st) = None).
    { unfold pinUvAuthProtocolForRequest in Hp. rewrite Hprotocol in Hp. cbn [mbind result_bind] in Hp.
      destruct (_ && _) in Hp; [done|].
      by destruct (ValidateUvAuthToken fips_enabled number (ss_token st)). }
    destruct (authenticate_total _ _ _ hash Ht) as (param & Ha & _).
    exists (Some param), number. rewrite Ht. unfold mbind, M_bind, mret, M_ret, lift. cbn.
    rewrite Ha. by rewrite bool_decide_eq_true_2.
  - exists None, 0. split; [done|]. f_equal. unfold userVerificationWillBePerformed in Hu.
    change (has_token None) with false in Hu. cbn [orb] in Hu.
    apply orb_true_iff in Hu as [->|Hu]; [done|]. rewrite (Hv Hu). apply orb_true_r.
Qed.

(** ** GetAssertion *)

Lemma rp_hash_len rpID : len (rp_hash rpID) = 32.
Proof. apply sha256_bytes. Qed.

(** The authenticator data of an answer with an hmac-secret output. *)
Definition asserted_data (rpID : string) (out : list Z) : list Z :=
  layout (@AuthData Key (rp_hash rpID) (flags_of true false true) 0 None (Some (write_get_secret out))) [].

Definition asserted_authData (rpID : string) (out : list Z) : GetAssertionAuthData :=
  MkGetAssertionAuthData (rp_hash rpID) (flags_of true false true) 0 None
    (Some (MkGetExtensionOutputs None (Some out) None None)).

Lemma parse_asserted rpID out :
  ParseGetAssertionAuthData (asserted_data rpID out) = Ok (asserted_authData rpID out).
Proof.
  destruct (get_secret_map out) as (Hne & Hmap & Hdec).
  unfold ParseGetAssertionAuthData, asserted_data. rewrite parse_auth_data_layout.
  - cbn [mbind result_bind ad_Extensions]. by rewrite Hdec.
  - split_and!; try done. apply rp_hash_len.
Qed.

Definition asserted_response (c : stored_credential) (rpID : string) (out : list Z)
    : GetAssertionResponse Any :=
  MkGetAssertionResponse (MkDescriptor "public-key" (Some (sc_id c)) []) (asserted_data rpID out)
    (Some (asserted_authData rpID out)) [] None 0 false [] ∅.

(** The extensions of a request that evaluates a PRF and asks nothing else. *)
Definition prf_extensions (input : HMACSecret) : GetExtensionInputs :=
  MkGetExtensionInputs false false (MkGetLargeBlobParams false None None) input false
    (MkPreviewSignSignInput None None None).

#[local] Abbreviation T' := (loop_transport secret_transport).
#[local] Abbreviation E' := (loop_emit None).
#[local] Abbreviation world := (device secret_store * loop)%type.

Lemma loop_call command m b (dl : world) : read_secret_request b = Some m ->
  command_cbor T' E' command b dl =
    let '(status, body, st) := handle_secret command m (dv_world dl.1) in
    (ValidateCBORResponse command (MkCBORResponse status body),
     (MkDevice st (dv_info dl.1) (dv_infoValid dl.1), dl.2)).
Proof.
  intros Hr. unfold command_cbor, cbor, exchange, loop_transport, inside, client_transport, on_world.
  cbn. rewrite Hr. by destruct (handle_secret command m (dv_world dl.1)) as [[status body] st].
Qed.

Lemma input_allowed ct auth : let input := newHMACSecretInput (KeyFromP256PublicKey (public_key key)) ct auth number in
  (if fips_enabled then validateFIPS140HMACSecret fips_enabled input else None) = None.
Proof.
  cbv zeta. destruct fips_enabled eqn:Hf; [|done]. unfold validateFIPS140HMACSecret.
  destruct (HMACSecret_IsZero _); [done|]. unfold newHMACSecretInput. cbn [hs_PinUvAuthProtocol].
  destruct Hnumber as [E|[_ Hn]]; [by rewrite E|done].
Qed.

Lemma client_assertion st0 l token rpID hash allowList options ss ct auth values c valid
    (body : GetAssertionResponse Any + error -> M world bool) :
  let input := newHMACSecretInput (KeyFromP256PublicKey (public_key key)) ct auth number in
  let d := MkDevice st0 info valid in
  verifies st0 token -> userVerificationWillBePerformed info token options = true ->
  block (ss_iv st0) -> shares st0 ss ct auth (prfSalts values) -> len hash = 32 ->
  answering st0 allowList = Some c ->
  exists out, Decrypt platform ss out = Ok (secret_outputs (sc_withUV c) (prfSalts values)) /\
  Client.GetAssertion fips_enabled T' E' number token rpID hash allowList
    (Some (prf_extensions input)) options body (d, l) =
  (body (inl (asserted_response c rpID out));; mret tt) (d, l).
Proof.
  intros input d Hv Hu Hb Hs Hh Hc.
  destruct (evaluate_ok st0 ss ct auth (prfSalts values) (sc_withUV c) Hb Hs (proj1 (prfSalts_ok values)))
    as (out & He & Hd). exists out. split; [exact Hd|].
  destruct (token_param_ok st0 token options hash (d, l) Hv Hu) as (param & n & Hp & Huv).
  destruct (Marshal_read (MGetAssertion (MkGetAssertionRequest rpID hash allowList
    (prf_extensions input) options param n))) as (b & Hm & Hr).
  { right. by eexists. }
  assert (Hx : handle_secret AuthenticatorGetAssertion (MGetAssertion (MkGetAssertionRequest rpID hash
      allowList (prf_extensions input) options param n)) st0 =
    (CTAP2_OK, write_assertion (MkDescriptor "public-key" (Some (sc_id c)) []) (asserted_data rpID out) [],
     st0)).
  { cbn [handle_secret]. rewrite Z.eqb_refl. unfold handle_assertion.
    cbn [ga_PinUvAuthProtocol ga_PinUvAuthParam ga_Options ga_ClientDataHash ga_AllowList ga_Extensions ga_RPID].
    rewrite Huv, Hc. cbn [prf_extensions gi_HMACSecret].
    change (hs_KeyAgreement input) with (KeyFromP256PublicKey (public_key key)).
    cbn [KeyFromP256PublicKey]. change (secret_of c true) with (sc_withUV c).
    subst input. by rewrite He. }
  unfold Client.GetAssertion, sequence. erewrite M_bind_Ok; [|apply try_Ok].
  2: { rewrite (M_bind_Ok _ _ _ tt (d, l)) by (unfold validateClientDataHash; by rewrite Hh).
       rewrite (M_bind_Ok _ _ _ tt (d, l)) by
         (pose proof (input_allowed ct auth) as Hi; cbv zeta in Hi; cbn [gi_HMACSecret prf_extensions];
          subst input; by rewrite Hi).
       fold (token_param (W := world) token hash).
       rewrite (M_bind_Ok _ _ _ _ _ Hp). cbv beta iota. rewrite (lift_bind _ _ _ _ Hm).
       pose proof (loop_call AuthenticatorGetAssertion _ b (d, l) Hr) as Hcall.
       change (dv_world (d, l).1) with st0 in Hcall. rewrite Hx in Hcall.
       rewrite (M_bind_Ok _ _ _ _ _ Hcall). cbn [Data].
       rewrite (lift_bind _ _ _ _ (Unmarshal_assertion _ _ _)). cbn [gr_AuthDataRaw].
       rewrite (lift_bind _ _ _ _ (parse_asserted rpID out)). reflexivity. }
  cbn [default]. change (set_gr_AuthData _ _) with (asserted_response c rpID out).
  unfold mbind, M_bind. destruct (body _ _) as [[[]| | |] w]; reflexivity.
Qed.

Definition prf_get_inputs (inputs : PRFInputs) : GetClientInputs :=
  MkGetClientInputs None None None None (Some inputs) None.

Definition prf_request (ss : list Z) (input : HMACSecret) (values : PRFValues) : get_request :=
  MkGetRequest number (Some (platform, ss)) (prf_extensions input) largeBlobBackendNone false None
    None (Some values).

Lemma get_prepare_ok range range_sign token allowList inputs options values d :
  at_info d -> verifies (dv_world d) token ->
  validateGetPRF range info token allowList (Some inputs) options = Ok (Some values) ->
  validateGetAssertionAuthorization info token options = None ->
  exists ss ct auth,
    get_prepare fips_enabled secret_transport None range range_sign key iv token allowList
      (prf_get_inputs inputs) options d =
      (Ok (prf_request ss (newHMACSecretInput (KeyFromP256PublicKey (public_key key)) ct auth number)
             values), d) /\
    shares (dv_world d) ss ct auth (prfSalts values).
Proof.
  intros Hd Hv Hprf Hauth.
  destruct (request_protocol_ok _ token d Hd Hv) as (n & Hn).
  destruct (send_salts_ok d (prfSalts values) Hd (proj1 (prfSalts_ok values)) (proj2 (prfSalts_ok values)))
    as (ss & ct & auth & Hs & Hsh).
  exists ss, ct, auth. split; [|done]. destruct Hd as [Hd Hvalid]. unfold get_prepare.
  rewrite (M_bind_Ok _ _ d tt d) by (unfold ensureInfoLocked; by rewrite Hvalid).
  rewrite (M_bind_Ok cached_info _ d info d) by (unfold cached_info; by rewrite Hd).
  cbn [prf_get_inputs gin_PRF gin_HMACSecret gin_LargeBlob gin_CredBlob gin_Payment gin_PreviewSign].
  rewrite (M_bind_Ok _ _ d tt d) by done.
  rewrite (lift_bind _ _ _ _ Hprf). rewrite Hauth. rewrite (M_bind_Ok _ _ d tt d) by done.
  rewrite (M_bind_Ok _ _ _ _ _ Hn).
  unfold get_large_blob, validateGetLargeBlob, get_hmac_secret. cbn [gin_HMACSecret].
  unfold mbind at 1, M_bind at 1, lift at 1. cbn [mbind result_bind].
  erewrite M_bind_Ok; [|erewrite M_bind_Ok; [|reflexivity]; rewrite (M_bind_Ok _ _ _ _ _ Hs); reflexivity].
  reflexivity.
Qed.

Lemma prf_get_outputs ss input values c rpID out inputs :
  Decrypt platform ss out = Ok (secret_outputs (sc_withUV c) (prfSalts values)) ->
  hs_KeyAgreement input <> None ->
  get_outputs (prf_request ss input values) (prf_get_inputs inputs) (asserted_response c rpID out) =
    Ok (MkGetClientOutputs None None None (Some (prf_of (sc_withUV c) values)) None).
Proof.
  intros Hd Hk. destruct (prf_outputs (sc_withUV c) values) as [Hlen Hout].
  assert (Hko : not_nil (hs_KeyAgreement input) = true) by by apply bool_decide_eq_true.
  assert (Hlb : getLargeBlobOutput largeBlobBackendNone false None (asserted_response c rpID out) = Ok None)
    by done.
  assert (Hps : getPreviewSignOutput None (asserted_response c rpID out) = Ok None) by done.
  assert (Hv : validateGetAssertionExtensionOutputs (prf_extensions input)
      (Some (MkGetExtensionOutputs None (Some out) None None)) = None).
  { unfold validateGetAssertionExtensionOutputs. cbn [prf_extensions gi_HMACSecret]. by rewrite Hko. }
  assert (Hs : get_secret_outputs (prf_request ss input values) (prf_get_inputs inputs)
      (flags_of true false true) out = split_outputs (secret_outputs (sc_withUV c) (prfSalts values))).
  { unfold get_secret_outputs. cbn [prf_request gq_session gq_evaluation]. rewrite Hd.
    cbn [mbind result_bind option_bind]. rewrite Hlen. done. }
  unfold get_outputs. cbn [prf_request gq_backend gq_read gq_write gq_extensions gq_previewSign].
  rewrite Hlb. cbn [mbind result_bind asserted_response gr_AuthData asserted_authData gad_Flags gad_Extensions].
  change (ExtensionDataIncluded (flags_of true false true)) with true. cbn iota.
  rewrite Hv, Hps. cbn [mbind result_bind go_HMACSecret go_CredBlob].
  fold (prf_request ss input values). rewrite Hs.
  destruct Hout as (o & -> & <-). done.
Qed.

Lemma emit_outcome (yield : assertion + error -> M (device secret_store) bool) a d l :
  emitAssertion largeBlobBackendNone yield a (d, l) =
    match yield (inl a) d with
    | (Ok true, d') => (Ok true, (d', l))
    | (Ok false, d') => (Ok false, (d', MkLoop (legacyAssertions l) true))
    | (Err e, d') => (Err e, (d', l))
    | (Panic, d') => (Panic, (d', l))
    | (Blocked, d') => (Blocked, (d', l))
    end.
Proof.
  unfold emitAssertion. rewrite bool_decide_eq_false_2 by done.
  unfold inside, return_from_loop, mbind, M_bind. cbn [fst snd].
  by destruct (yield (inl a) d) as [[[]| | |] d'].
Qed.

Lemma assertion_session range range_sign fuel nonce token rpID clientData allowList inputs options values d c
    (yield : assertion + error -> M (device secret_store) bool) :
  at_info d -> verifies (dv_world d) token -> block (ss_iv (dv_world d)) ->
  validateGetPRF range info token allowList (Some inputs) options = Ok (Some values) ->
  validateGetAssertionAuthorization info token options = None ->
  answering (dv_world d) allowList = Some c ->
  exists resp,
    GetAssertion fips_enabled secret_transport None range range_sign fuel key iv nonce token rpID
      clientData allowList (Some (prf_get_inputs inputs)) options yield d =
    (yield (inl (resp, MkGetClientOutputs None None None (Some (prf_of (sc_withUV c) values)) None));;
     mret tt) d /\
    cred_ID (gr_Credential resp) = Some (sc_id c).
Proof.
  intros Hd Hv Hb Hprf Hauth Hc.
  destruct (get_prepare_ok range range_sign token allowList inputs options values d Hd Hv Hprf Hauth)
    as (ss & ct & auth & Hp & Hsh).
  set (input := newHMACSecretInput _ _ _ _) in Hp.
  assert (Hu : userVerificationWillBePerformed info token options = true).
  { unfold validateGetPRF in Hprf. destruct (selectCTAPGetPRFEvaluation _ _ _) as [ev| | |]; try done.
    cbn [mbind result_bind] in Hprf. destruct (prfCapabilities info) as [[b b']| | |]; try done.
    cbn [mbind result_bind] in Hprf. destruct (_ || _) in Hprf; [done|].
    destruct (validateHMACSecretUserPresence options); [done|].
    by destruct (userVerificationWillBePerformed info token options). }
  destruct d as [st i valid]. destruct Hd as [Hi Hvalid]. cbn [dv_info dv_world dv_infoValid] in *. subst i.
  destruct (client_assertion st (MkLoop [] false) token rpID (sha256 clientData) allowList options ss ct auth
    values c valid (get_body (prf_request ss input values) (prf_get_inputs inputs) yield) Hv Hu Hb Hsh
    (proj1 (sha256_bytes _)) Hc) as (out & Hout & Hga).
  exists (asserted_response c rpID out). split; [|done].
  unfold GetAssertion. change (default _ (Some ?x)) with x. rewrite (M_bind_Ok _ _ _ _ _ (try_Ok _ _ _ _ Hp)).
  unfold get_loop. cbn [prf_request gq_protocol gq_extensions].
  fold (prf_request ss input values). fold input in Hga. rewrite Hga.
  unfold get_body. rewrite (prf_get_outputs ss input values c rpID out inputs Hout) by done.
  set (a := (_, _)). set (d := MkDevice st info valid) in *. unfold mbind, M_bind, mret, M_ret.
  cbn [prf_request gq_backend]. rewrite emit_outcome. unfold assertion in *.
  by destruct (yield (inl a) d) as [[[]| | |] d'].
Qed.

(** ** MakeCredential *)

Definition created_data (rpID : string) (c : stored_credential) (out : list Z) : list Z :=
  layout (AuthData (rp_hash rpID) (flags_of true true true) 0
    (Some (AttestedCredential (zeros 16) (sc_id c) credential_key)) (Some (write_create_secret (Some out))))
    credential_key_bytes.

Definition created_outputs (out : list Z) : CreateExtensionOutputs :=
  MkCreateExtensionOutputs 0 None 0 None (Some true) (Some out) None.

Definition created_authData (rpID : string) (c : stored_credential) (out : list Z) : MakeCredentialAuthData :=
  MkMakeCredentialAuthData (rp_hash rpID) (flags_of true true true) 0
    (Some (AttestedCredential (zeros 16) (sc_id c) credential_key)) (Some (created_outputs out)).

Definition created_response (rpID : string) (c : stored_credential) (out : list Z)
    : MakeCredentialResponse Any :=
  MkMakeCredentialResponse "none" (created_data rpID c out) (Some (created_authData rpID c out)) ∅ false [] ∅.

Lemma parse_created rpID c out : len (sc_id c) < 65536 ->
  ParseMakeCredentialAuthData (created_data rpID c out) = Ok (created_authData rpID c out).
Proof.
  intros Hid. destruct (create_secret_map (Some out)) as (Hne & Hmap & Hdec).
  destruct (credential_key_map (write_create_secret (Some out))) as [Hk Hkey].
  unfold ParseMakeCredentialAuthData, created_data. rewrite parse_auth_data_layout.
  - cbn [mbind result_bind ad_Extensions]. by rewrite Hdec.
  - split_and!; try done; [apply rp_hash_len|].
    unfold attested_ok. cbn [ad_AttestedCredentialData Flags ac_AAGUID CredentialID CredentialPublicKey].
    split_and!; try done. intros He. apply Hk. by apply app_eq_nil in He as [-> _].
Qed.

Definition prf_create_extensions (input : HMACSecret) : CreateExtensionInputs :=
  MkCreateExtensionInputs 0 None false "" false false true input false
    (MkPreviewSignGenerateKeyInput None None).

Lemma client_create st0 token rp user params excludeList options ea prefs ss ct auth values hash valid :
  let input := newHMACSecretInput (KeyFromP256PublicKey (public_key key)) ct auth number in
  let c := ss_next st0 in
  verifies st0 token -> userVerificationWillBePerformed info token options = true ->
  block (ss_iv st0) -> shares st0 ss ct auth (prfSalts values) -> len hash = 32 ->
  len (sc_id c) < 65536 -> FilterCredentialParameters fips_enabled params = Ok params ->
  exists out, Decrypt platform ss out = Ok (secret_outputs (sc_withUV c) (prfSalts values)) /\
  Client.MakeCredential fips_enabled T E number token hash rp user params excludeList
    (Some (prf_create_extensions input)) options ea prefs (MkDevice st0 info valid) =
  (Ok (created_response (rp_ID rp) c out), MkDevice (with_credential st0 c) info valid).
Proof.
  intros input c Hv Hu Hb Hs Hh Hid Hf. set (d := MkDevice st0 info valid).
  destruct (evaluate_ok st0 ss ct auth (prfSalts values) (sc_withUV c) Hb Hs (proj1 (prfSalts_ok values)))
    as (out & He & Hd). exists out. split; [exact Hd|].
  destruct (token_param_ok st0 token options hash d Hv Hu) as (param & n & Hp & Huv).
  set (r := MkMakeCredentialRequest hash rp user params excludeList (prf_create_extensions input) options
    param n ea prefs).
  destruct (Marshal_read (MMakeCredential r)) as (b & Hm & Hr).
  { right. by eexists. }
  assert (Hx : handle_secret AuthenticatorMakeCredential (MMakeCredential r) st0 =
    (CTAP2_OK, write_created (created_data (rp_ID rp) c out), with_credential st0 c)).
  { cbn [handle_secret]. rewrite Z.eqb_refl. unfold handle_create, r.
    cbn [mc_PinUvAuthProtocol mc_PinUvAuthParam mc_Options mc_ClientDataHash mc_Extensions mc_RP].
    rewrite Huv. cbn [prf_create_extensions ci_HMACSecretMC ci_HMACSecret].
    change (hs_KeyAgreement input) with (KeyFromP256PublicKey (public_key key)).
    cbn [KeyFromP256PublicKey]. change (secret_of (ss_next st0) true) with (sc_withUV c).
    subst input. by rewrite He. }
  assert (Hi : (if fips_enabled then validateFIPS140HMACSecret fips_enabled input else None) = None)
    by apply input_allowed.
  unfold Client.MakeCredential. rewrite (M_bind_Ok _ _ d tt d) by (unfold validateClientDataHash; by rewrite Hh).
  rewrite (lift_bind _ _ _ _ Hf). change (default zero_create_inputs (Some ?x)) with x.
  rewrite (lift_bind _ _ None) by done.
  change (set_previewSignAlgorithms (prf_create_extensions input) None) with (prf_create_extensions input).
  change (ci_HMACSecretMC (prf_create_extensions input)) with input. rewrite Hi.
  rewrite (M_bind_Ok _ _ d tt d) by done. fold (token_param (W := device secret_store) token hash).
  rewrite (M_bind_Ok _ _ _ _ _ Hp). cbv beta iota. fold r.
  rewrite (lift_bind _ _ b) by (by rewrite Hm).
  pose proof (secret_call AuthenticatorMakeCredential _ b d Hr) as Hcall.
  change (dv_world d) with st0 in Hcall. rewrite Hx in Hcall.
  rewrite (M_bind_Ok _ _ _ _ _ Hcall). cbn [Data].
  rewrite (lift_bind _ _ _ _ (Unmarshal_created _)). cbn [mr_AuthDataRaw].
  rewrite (lift_bind _ _ _ _ (parse_created _ _ _ Hid)).
  cbn [created_authData mad_AttestedCredentialData CredentialPublicKey].
  rewrite (lift_bind _ _ tt) by apply credential_key_approved. done.
Qed.

Definition prf_create_inputs (inputs : PRFInputs) : CreateClientInputs :=
  MkCreateClientInputs None None None None None None None None None (Some inputs) None.

Lemma create_extensions_ok token inputs options values n d :
  at_info d -> ExtensionIdentifierHMACSecret ∈ Extensions info ->
  exists ss ct auth,
    create_extensions fips_enabled secret_transport None key iv info token (prf_create_inputs inputs)
      options (Some values) n d =
      (Ok (number, Some (platform, ss),
           prf_create_extensions (newHMACSecretInput (KeyFromP256PublicKey (public_key key)) ct auth number),
           (largeBlobBackendNone, "", false), None), d) /\
    shares (dv_world d) ss ct auth (prfSalts values).
Proof.
  intros Hd Hext.
  destruct (send_salts_ok d (prfSalts values) Hd (proj1 (prfSalts_ok values)) (proj2 (prfSalts_ok values)))
    as (ss & ct & auth & Hs & Hsh).
  exists ss, ct, auth. split; [|done].
  assert (Hh : create_hmac_secret fips_enabled secret_transport None key iv info (prf_create_inputs inputs)
      (Some values) n d = (Ok (number, Some (platform, ss), true,
        newHMACSecretInput (KeyFromP256PublicKey (public_key key)) ct auth number), d)).
  { unfold create_hmac_secret. cbn [prf_create_inputs in_HMACCreateSecret in_HMACSecretMC in_PRF asked default].
    rewrite (M_bind_Ok _ _ d tt d) by done. erewrite M_bind_Ok; [|reflexivity].
    rewrite (proj2 (contains_true _ _) Hext). change (not_nil (Some inputs) && true) with true. cbn iota.
    by rewrite (M_bind_Ok _ _ _ _ _ Hs). }
  unfold create_extensions. erewrite M_bind_Ok; [|reflexivity]. cbv beta iota.
  rewrite (M_bind_Ok _ _ _ _ _ Hh). reflexivity.
Qed.

Lemma prf_create_outputs ss input values rpID c out inputs options :
  Decrypt platform ss out = Ok (secret_outputs (sc_withUV c) (prfSalts values)) ->
  hs_KeyAgreement input <> None ->
  create_outputs (Some (platform, ss)) (prf_create_extensions input) (largeBlobBackendNone, "", false) None
    (prf_create_inputs inputs) options (Some values) (created_response rpID c out) =
  Ok (MkCreateClientOutputs None None None None None
        (Some (MkCreatePRFOutputs true (prf_of (sc_withUV c) values))) None).
Proof.
  intros Hd Hk. destruct (prf_outputs (sc_withUV c) values) as [Hlen (o & Ho & Hof)].
  assert (Hko : not_nil (hs_KeyAgreement input) = true) by by apply bool_decide_eq_true.
  assert (Hlb : createLargeBlobOutput largeBlobBackendNone "" false (created_response rpID c out) = Ok None)
    by done.
  assert (Hps : createPreviewSignOutput None (created_response rpID c out) = Ok None) by done.
  assert (Hv : validateMakeCredentialExtensionOutputs (prf_create_extensions input)
      (prf_create_inputs inputs) (Some (created_outputs out)) = None).
  { unfold validateMakeCredentialExtensionOutputs. cbn [prf_create_extensions ci_HMACSecretMC].
    by rewrite Hko. }
  assert (Hs : create_secret_outputs (Some (platform, ss)) (prf_create_inputs inputs) (Some values)
      (flags_of true true true) (created_outputs out) out = Ok o).
  { unfold create_secret_outputs. rewrite Hd. cbn [mbind result_bind option_bind]. by rewrite Hlen. }
  unfold create_outputs. rewrite Hlb.
  cbn [mbind result_bind created_response mr_AuthData created_authData mad_Flags mad_Extensions].
  change (ExtensionDataIncluded (flags_of true true true)) with true. cbn iota.
  rewrite Hv, Hps. cbn [mbind result_bind]. unfold create_extension_data_outputs.
  cbn [created_outputs co_HMACSecretMC]. rewrite Hs. cbn [mbind result_bind].
  by rewrite Hof.
Qed.

Lemma validateCreatePRF_inv token inputs options values :
  validateCreatePRF info token (Some inputs) options = Ok (Some values) ->
  ExtensionIdentifierHMACSecret ∈ Extensions info /\
  userVerificationWillBePerformed info token options = true.
Proof.
  unfold validateCreatePRF. case_bool_decide; [done|].
  destruct (validateOptionalPRFValues _ _) as [ev| | |]; try done. cbn [mbind result_bind].
  unfold prfCapabilities. destruct (_ && _); [done|]. cbn [mbind result_bind].
  destruct ev; cbn [negb orb]; [|done].
  destruct (contains (Extensions info) ExtensionIdentifierHMACSecret) eqn:Hc; cbn [negb orb]; [|done].
  apply contains_true in Hc. destruct (contains _ _); cbn [negb]; [|done].
  by destruct (userVerificationWillBePerformed info token options).
Qed.

Lemma create_session token clientData rp user params params' excludeList inputs options ea prefs values d :
  at_info d -> verifies (dv_world d) token -> block (ss_iv (dv_world d)) ->
  len (sc_id (ss_next (dv_world d))) < 65536 ->
  FilterCredentialParameters fips_enabled params = Ok params' ->
  validateCreatePRF info token (Some inputs) options = Ok (Some values) ->
  validateMakeCredentialAuthorization info token options = None ->
  exists resp d',
    MakeCredential fips_enabled secret_transport None key iv token clientData rp user params excludeList
      (Some (prf_create_inputs inputs)) options ea prefs d =
    (Ok (resp, MkCreateClientOutputs None None None None None
           (Some (MkCreatePRFOutputs true (prf_of (sc_withUV (ss_next (dv_world d))) values))) None), d') /\
    dv_world d' = with_credential (dv_world d) (ss_next (dv_world d)).
Proof.
  intros Hd Hv Hb Hid Hf Hprf Hauth.
  destruct (validateCreatePRF_inv _ _ _ _ Hprf) as [Hext Hu].
  destruct (request_protocol_ok _ token d Hd Hv) as (n & Hn).
  destruct (create_extensions_ok token inputs options values n d Hd Hext) as (ss & ct & auth & Hx & Hsh).
  set (input := newHMACSecretInput _ _ _ _) in Hx.
  destruct d as [st i valid]. pose proof Hd as [Hi Hvalid]. cbn [dv_info dv_world dv_infoValid] in *. subst i.
  set (d := MkDevice st info valid) in *.
  destruct (client_create st token rp user params' excludeList options ea prefs ss ct auth values
    (sha256 clientData) valid Hv Hu Hb Hsh (proj1 (sha256_bytes _)) Hid (Filter_idempotent _ _ _ Hf))
    as (out & Hout & Hmc).
  exists (created_response (rp_ID rp) (ss_next st) out). eexists. split.
  - unfold MakeCredential. rewrite (lift_bind _ _ _ _ Hf).
    rewrite (M_bind_Ok _ _ d tt d) by (unfold ensureInfoLocked; cbn [d dv_infoValid]; by rewrite Hvalid).
    rewrite (M_bind_Ok cached_info _ d info d) by done.
    change (default zero_create_client_inputs (Some ?x)) with x.
    cbn [prf_create_inputs in_PRF in_HMACSecretMC].
    rewrite (M_bind_Ok _ _ d tt d) by done. rewrite (lift_bind _ _ _ _ Hprf).
    rewrite Hauth. rewrite (M_bind_Ok _ _ d tt d) by done.
    rewrite (M_bind_Ok _ _ _ _ _ Hn). fold (prf_create_inputs inputs).
    rewrite (M_bind_Ok _ _ _ _ _ Hx). cbv beta iota. fold input in Hmc. fold d in Hmc.
    rewrite (M_bind_Ok _ _ _ _ _ Hmc). erewrite M_bind_Ok.
    2: { instantiate (2 := tt). instantiate (1 := MkDevice (with_credential st (ss_next st)) info
           (if flag options OptionResidentKeys then false else valid)).
         by destruct (flag options OptionResidentKeys). }
    rewrite (lift_bind _ _ _ _ (prf_create_outputs ss input values (rp_ID rp) (ss_next st) out inputs
      options Hout ltac:(done))). done.
  - done.
Qed.

Lemma answering_new st c allowList :
  allowList = [] \/ sc_id c ∈ ((fun d => bytes_of (cred_ID d)) <$> allowList) ->
  answering (with_credential st c) allowList = Some c.
Proof. intros Ha. unfold answering. cbn [with_credential ss_credentials list_find]. by rewrite decide_True. Qed.

(** C10. Against an authenticator that follows the specification, the
    extension computes the WebAuthn PRF. When the checks of a registration
    select values to evaluate, [MakeCredential] returns a credential enabled
    for the PRF with the results HMAC(CredRandomWithUV, SHA-256("WebAuthn PRF"
    || 0 || input)), one for each input, and the credential is stored, so
    that it answers later requests that allow it. When the checks of
    [GetAssertion] select values, the sequence yields exactly one assertion,
    of the credential that answers, with the results for those values under
    the same secret, and ends. The salts go encrypted under either protocol
    the policy allows, with a token or with built-in user verification. *)
Theorem prf_results token d :
  at_info d -> verifies (dv_world d) token -> block (ss_iv (dv_world d)) ->
  (forall clientData rp user params params' excludeList inputs options ea prefs values,
     let c := ss_next (dv_world d) in
     len (sc_id c) < 65536 -> FilterCredentialParameters fips_enabled params = Ok params' ->
     validateCreatePRF info token (Some inputs) options = Ok (Some values) ->
     validateMakeCredentialAuthorization info token options = None ->
     exists resp d',
       MakeCredential fips_enabled secret_transport None key iv token clientData rp user params
         excludeList (Some (prf_create_inputs inputs)) options ea prefs d =
       (Ok (resp, MkCreateClientOutputs None None None None None
              (Some (MkCreatePRFOutputs true (prf_of (sc_withUV c) values))) None), d') /\
       forall allowList, allowList = [] \/ sc_id c ∈ ((fun d => bytes_of (cred_ID d)) <$> allowList) ->
         answering (dv_world d') allowList = Some c) /\
  (forall range range_sign fuel nonce rpID clientData allowList inputs options values c
     (yield : assertion + error -> M (device secret_store) bool),
     validateGetPRF range info token allowList (Some inputs) options = Ok (Some values) ->
     validateGetAssertionAuthorization info token options = None ->
     answering (dv_world d) allowList = Some c ->
     exists resp,
       GetAssertion fips_enabled secret_transport None range range_sign fuel key iv nonce token rpID
         clientData allowList (Some (prf_get_inputs inputs)) options yield d =
       (yield (inl (resp, MkGetClientOutputs None None None (Some (prf_of (sc_withUV c) values)) None));;
        mret tt) d /\
       cred_ID (gr_Credential resp) = Some (sc_id c)).
Proof.
  intros Hd Hv Hb. split.
  - intros clientData rp user params params' excludeList inputs options ea prefs values c Hid Hf Hprf Hauth.
    destruct (create_session token clientData rp user params params' excludeList inputs options ea prefs
      values d Hd Hv Hb Hid Hf Hprf Hauth) as (resp & d' & Hm & Hw).
    exists resp, d'. split; [exact Hm|]. intros allowList Ha. rewrite Hw. by apply answering_new.
  - intros. by apply assertion_session.
Qed.
End Session.

(** *** A session with the sample primitives *)

Definition hmac_tuple (s : HMACSecret) := (hs_KeyAgreement s, SaltEnc s, SaltAuth s, hs_PinUvAuthProtocol s).
Definition of_hmac_tuple (t : Key * slice * slice * Z) : HMACSecret :=
  let '(a, b, c, d) := t in MkHMACSecret a b c d.

Definition descriptor_tuple (d : Descriptor) := (cred_Type d, cred_ID d, cred_Transports d).
Definition of_descriptor_tuple (t : string * slice * list string) : Descriptor :=
  let '(a, b, c) := t in MkDescriptor a b c.

Definition create_tuple (e : CreateExtensionInputs) :=
  (ci_CredProtect e, ci_CredBlob e, ci_LargeBlobKey e, ci_LargeBlob_Support e, ci_MinPinLength e,
   ci_PinComplexityPolicy e, ci_HMACSecret e, hmac_tuple (ci_HMACSecretMC e), ci_ThirdPartyPayment e,
   Algorithms (ci_PreviewSign e), ps_Flags (ci_PreviewSign e)).
Definition of_create_tuple (t : Z * slice * bool * string * bool * bool * bool *
    (Key * slice * slice * Z) * bool * option (list Z) * option Z) : CreateExtensionInputs :=
  let '(a, b, c, d, e, f, g, h, i, j, k) := t in
  MkCreateExtensionInputs a b c d e f g (of_hmac_tuple h) i (MkPreviewSignGenerateKeyInput j k).

Definition get_tuple (e : GetExtensionInputs) :=
  (gi_CredBlob e, gi_LargeBlobKey e,
   (glb_Read (gi_LargeBlob e), glb_Write (gi_LargeBlob e), glb_OriginalSize (gi_LargeBlob e)),
   hmac_tuple (gi_HMACSecret e), gi_ThirdPartyPayment e,
   (KeyHandle (gi_PreviewSign e), ToBeSigned (gi_PreviewSign e), AdditionalArguments (gi_PreviewSign e))).
Definition of_get_tuple (t : bool * bool * (bool * slice * option Z) * (Key * slice * slice * Z) * bool *
    (slice * slice * slice)) : GetExtensionInputs :=
  let '(a, b, (c, d, e), f, g, (h, i, j)) := t in
  MkGetExtensionInputs a b (MkGetLargeBlobParams c d e) (of_hmac_tuple f) g (MkPreviewSignSignInput h i j).

Definition create_request_tuple (r : MakeCredentialRequest) :=
  (mc_ClientDataHash r, (rp_ID (mc_RP r), rp_Name (mc_RP r)),
   (user_ID (mc_User r), DisplayName (mc_User r), user_Name (mc_User r), Icon (mc_User r)),
   mc_PubKeyCredParams r, descriptor_tuple <$> mc_ExcludeList r, create_tuple (mc_Extensions r),
   mc_Options r, mc_PinUvAuthParam r, mc_PinUvAuthProtocol r, mc_EnterpriseAttestation r,
   mc_AttestationFormatsPreference r).
Definition of_create_request_tuple t : MakeCredentialRequest :=
  let '(a, (b, c), (d, e, f, g), h, i, j, k, l, m, n, o) := t in
  MkMakeCredentialRequest a (MkRpEntity b c) (MkUserEntity d e f g) h (of_descriptor_tuple <$> i)
    (of_create_tuple j) k l m n o.

Definition get_request_tuple (r : GetAssertionRequest) :=
  (ga_RPID r, ga_ClientDataHash r, descriptor_tuple <$> ga_AllowList r, get_tuple (ga_Extensions r),
   ga_Options r, ga_PinUvAuthParam r, ga_PinUvAuthProtocol r).
Definition of_get_request_tuple t : GetAssertionRequest :=
  let '(a, b, c, d, e, f, g) := t in
  MkGetAssertionRequest a b (of_descriptor_tuple <$> c) (of_get_tuple d) e f g.

Lemma descriptors_back (l : list Descriptor) : of_descriptor_tuple <$> (descriptor_tuple <$> l) = l.
Proof. induction l as [|[] l IH]; [done|]. cbn. f_equal. exact IH. Qed.

Lemma create_request_back r : of_create_request_tuple (create_request_tuple r) = r.
Proof.
  destruct r as [? [] [] ? l [? ? ? ? ? ? ? [] ? []] ? ? ? ? ?].
  unfold of_create_request_tuple, create_request_tuple. cbn. by rewrite descriptors_back.
Qed.

Lemma get_request_back r : of_get_request_tuple (get_request_tuple r) = r.
Proof.
  destruct r as [? ? l [? ? [] [] ? []] ? ? ?].
  unfold of_get_request_tuple, get_request_tuple. cbn. by rewrite descriptors_back.
Qed.

Definition sample_credential_key : Key := Some {[ 3 := VInt (-7) ]}.

(** A codec that loses nothing on the messages of the PRF. *)
Definition prf_codec : Codec := {|
  Any := Z;
  Marshal m := match m with
               | MClientPIN r => Ok (0 :: number_bytes (request_tuple r))
               | MMakeCredential r => Ok (1 :: number_bytes (create_request_tuple r))
               | MGetAssertion r => Ok (2 :: number_bytes (get_request_tuple r))
               | _ => Err io_EOF
               end;
  Unmarshal_ClientPIN b := Ok (Some (MkClientPINResponse (KeyFromP256PublicKey b) [] None None None));
  Unmarshal_Bio b := Err io_EOF;
  Unmarshal_CredMgmt b := Err io_EOF;
  Unmarshal_LargeBlobs b := Err io_EOF;
  Unmarshal_Info b := Err io_EOF;
  Unmarshal_MakeCredential b := Ok (MkMakeCredentialResponse "none" b None ∅ false [] ∅);
  Unmarshal_GetAssertion b := match read_number b with
    | Some (d, data, signature) =>
        Ok (MkGetAssertionResponse (of_descriptor_tuple d) data None signature None 0 false [] ∅)
    | None => Err io_EOF
    end;
  decode_cose_key b := Ok (sample_credential_key, 1);
  decode_any_map b := Ok (true, len b);
  Decode_CreateExtensionOutputs b := match read_number b with
    | Some s => Ok (MkCreateExtensionOutputs 0 None 0 None (Some true) s None)
    | None => Err io_EOF
    end;
  Decode_GetExtensionOutputs b := match read_number b with
    | Some s => Ok (MkGetExtensionOutputs None (Some s) None None)
    | None => Err io_EOF
    end;
  remarshal_supported a := Err io_EOF;
  remarshal_GetLargeBlobOutput a := Err io_EOF;
  remarshal_AttestationObject a := Err io_EOF;
  Marshal_LargeBlobArray l := Err io_EOF;
  Unmarshal_LargeBlobArray b := Err io_EOF |}.

Definition read_sample (b : list Z) : option message :=
  match b with
  | 0 :: b => (fun t => MClientPIN (request_of_tuple t)) <$> read_number b
  | 1 :: b => (fun t => MMakeCredential (of_create_request_tuple t)) <$> read_number b
  | 2 :: b => (fun t => MGetAssertion (of_get_request_tuple t)) <$> read_number b
  | _ => None
  end.

Definition prf_wire : @SecretWire prf_codec.
Proof.
  refine {| read_secret_request := read_sample;
            write_key_agreement := fun pk => pk;
            write_created := fun data => data;
            write_assertion := fun d data signature => number_bytes (descriptor_tuple d, data, signature);
            write_create_secret := fun s => number_bytes s;
            write_get_secret := fun s => number_bytes s;
            credential_key := sample_credential_key;
            credential_key_bytes := [7] |}.
  - intros [r| | | | | | | |r|r] Hm; try done; eexists; (split; [reflexivity|]); unfold read_sample;
      rewrite read_number_bytes; cbn [fmap option_fmap option_map]; do 2 f_equal.
    + by destruct r.
    + apply create_request_back.
    + apply get_request_back.
  - intros pk Hpk. exists (KeyFromP256PublicKey pk). split; [done|by apply key_roundtrip].
  - done.
  - intros [] data signature. cbn [Unmarshal_GetAssertion prf_codec]. by rewrite read_number_bytes.
  - intros s. split_and!; [done|done|]. cbn [Decode_CreateExtensionOutputs prf_codec].
    by rewrite read_number_bytes.
  - intros s. split_and!; [done|done|]. cbn [Decode_GetExtensionOutputs prf_codec].
    by rewrite read_number_bytes.
  - done.
  - by intros [].
Defined.

Definition prf_preview : @PreviewSignCodec prf_codec :=
  @Build_PreviewSignCodec prf_codec (fun _ => Err io_EOF) (fun _ => Err io_EOF) (fun _ => Err io_EOF)
    (fun _ => Err io_EOF) (fun _ _ _ => Err io_EOF).

Definition sample_secret_info : AuthenticatorGetInfoResponse :=
  GetInfoResponse [FIDO_2_1] [ExtensionIdentifierHMACSecret; ExtensionIdentifierHMACSecretMC] []
    {[ OptionClientPIN := true ]} 0 [2] 0 0 [] [] 0 false 0 None 0 None 0 None ∅ None [] [] None None
    [] [] None [] 0 [] [].

Definition sample_secret : stored_credential := StoredCredential [1; 2; 250] [5] [6].
Definition sample_secrets : @secret_store sample_primitives :=
  @SecretStore sample_primitives true (zeros 16) (zeros 32) false [sample_secret]
    (StoredCredential [9] [7] [8]).
Definition sample_secret_device : device (@secret_store sample_primitives) :=
  MkDevice sample_secrets sample_secret_info true.

Lemma prf_results_witness :
  (exists resp d',
     @MakeCredential sample_primitives prf_codec prf_preview _ true
       (@secret_transport sample_primitives prf_codec prf_wire) None false (zeros 16) (Some (zeros 32)) []
       (MkRpEntity "" "") zero_user [] [] (Some (prf_create_inputs
         (MkPRFInputs (MkPRFValues (Some [1]) None) None))) ∅ 0 [] sample_secret_device =
     (Ok (resp, MkCreateClientOutputs None None None None None
            (Some (MkCreatePRFOutputs true
               (@prf_of sample_primitives [7] (MkPRFValues (Some [1]) None)))) None), d')) /\
  (forall yield, exists resp : GetAssertionResponse (@Any prf_codec),
     @GetAssertion sample_primitives prf_codec prf_preview _ true
       (@secret_transport sample_primitives prf_codec prf_wire) None map_to_list (fun m => (map_to_list m).*1)
       0 false (zeros 16) [] (Some (zeros 32)) "" [] sample_allow (Some (prf_get_inputs sample_inputs)) ∅
       yield sample_secret_device =
     (yield (inl (resp, MkGetClientOutputs None None None
        (Some (@prf_of sample_primitives [5] (MkPRFValues (Some [7]) None))) None));; mret tt)
       sample_secret_device /\
     cred_ID (gr_Credential resp) = Some [1; 2; 250]).
Proof.
  destruct (@prf_results sample_primitives sample_laws prf_codec prf_wire prf_preview true
    sample_secret_info 2) with (key := false) (iv := zeros 16) (token := Some (zeros 32))
    (d := sample_secret_device) as [Hcreate Hget].
  - by vm_compute.
  - by left.
  - split; [done|apply zeros_bytes].
  - done.
  - split; [done|by vm_compute].
  - split; [done|apply zeros_bytes].
  - split.
    + destruct (Hcreate [] (MkRpEntity "" "") zero_user [] [] [] (MkPRFInputs (MkPRFValues (Some [1]) None) None)
        ∅ 0 [] (MkPRFValues (Some [1]) None)) as (resp & d' & Hm & _); [by vm_compute..|].
      exists resp, d'. exact Hm.
    + intros yield.
      destruct (Hget map_to_list (fun m => (map_to_list m).*1) 0%nat [] "" [] sample_allow sample_inputs ∅
        (MkPRFValues (Some [7]) None) sample_secret yield) as (resp & Hm & Hid); [by vm_compute..|].
      exists resp. split; [exact Hm|exact Hid].
Defined.
