(* ===== verification/LegacyBlobs.v ===== *)
(** * Per-credential large blobs over the array (src/authenticator/large_blob.go)

    [resolveLegacyLargeBlobOutputs] stores the blob of a credential in the
    authenticator's shared array, encrypted under the credential's
    largeBlobKey. The theorem is that of a store indexed by keys: what is
    written under a key is read under it, and what other keys read does not
    change; a write that does not fit leaves everything as it was. *)
From S2P Require Import Prelude GoError Transport Protocol Pin Preflight Cose Crypto Messages.
From S2P Require Import Prf Extensions PreviewSign Client Management Device LargeBlobStore Credentials.

Section Array.
Context `{PrimitiveLaws}.
(** GCM's [Open] returns. *)
Context (gcm_total : forall key nonce ct aad, (exists p, gcm_open key nonce ct aad = Ok p) \/
  exists err, gcm_open key nonce ct aad = Err err).

(** The blob belongs to the key. *)
Definition opens (key : list Z) (b : LargeBlob) : Prop := exists p, OpenLargeBlob key b = Ok p.

Lemma OpenLargeBlob_total key b : opens key b \/ exists err, OpenLargeBlob key b = Err err.
Proof using gcm_total.
  unfold opens, OpenLargeBlob, NewCipher. destruct (negb _); [eauto|].
  case_bool_decide; cbn [mbind result_bind]; [|eauto]. destruct (negb _); [eauto|]. apply gcm_total.
Qed.

(** ** Replacing and finding *)

Lemma replace_blob_total key r blobs : exists blobs', replace_blob key r blobs = Ok blobs'.
Proof using gcm_total.
  induction blobs as [|b blobs [blobs' IH]]; cbn [replace_blob]; [eauto|].
  destruct (OpenLargeBlob_total key b) as [[p ->]|[err ->]]; [eauto|]. rewrite IH. cbn. eauto.
Qed.

Lemma find_replaced key r p blobs blobs' : OpenLargeBlob key r = Ok p ->
  replace_blob key r blobs = Ok blobs' ->
  find_blob key blobs' = Some <$> DecompressLargeBlobData p (OrigSize r).
Proof using gcm_total.
  intros Hr. revert blobs'. induction blobs as [|b blobs IH]; intros blobs'; cbn [replace_blob].
  - intros [= <-]. cbn [find_blob]. by rewrite Hr.
  - destruct (OpenLargeBlob_total key b) as [[q Hq]|[err Hq]]; rewrite Hq.
    + intros [= <-]. cbn [find_blob]. by rewrite Hr.
    + destruct (replace_blob key r blobs) as [l| | |]; try done. intros [= <-].
      cbn [find_blob]. rewrite Hq. by apply IH.
Qed.

(** Keys that open neither the replacement nor what it replaces. *)
Lemma find_other key key' r err blobs blobs' : OpenLargeBlob key' r = Err err ->
  Forall (fun b => opens key b -> ~ opens key' b) blobs ->
  replace_blob key r blobs = Ok blobs' ->
  find_blob key' blobs' = find_blob key' blobs.
Proof using gcm_total.
  intros Hr Hb. revert blobs'. induction Hb as [|b blobs Hk _ IH]; intros blobs'; cbn [replace_blob].
  - intros [= <-]. cbn [find_blob]. by rewrite Hr.
  - destruct (OpenLargeBlob_total key b) as [[q Hq]|[err' Hq]]; rewrite Hq.
    + intros [= <-]. cbn [find_blob]. rewrite Hr.
      destruct (OpenLargeBlob_total key' b) as [Ho|[e He]]; [|by rewrite He].
      by destruct (Hk (ex_intro _ q Hq) Ho).
    + destruct (replace_blob key r blobs) as [l| | |]; try done. intros [= <-].
      cbn [find_blob]. by rewrite IH.
Qed.

(** The replacement opens under its key and decompresses to the data. *)
Lemma replacement_opens nonce key data : len key = 32 -> len nonce = largeBlobNonceSize ->
  len data <= MaxLargeBlobDataSize ->
  exists r p, EncryptLargeBlob nonce key data = Ok r /\ OpenLargeBlob key r = Ok p /\
    DecompressLargeBlobData p (OrigSize r) = Ok data.
Proof using Type*.
  intros Hk Hn Hd. destruct (decompress_compress data Hd) as [Hc Hu].
  unfold EncryptLargeBlob, OpenLargeBlob. rewrite Hk, (NewCipher_ok key) by auto.
  cbn [Z.eqb Pos.eqb negb mbind result_bind]. rewrite Hc. cbn [mbind result_bind].
  eexists _, _. split; [done|]. cbn [OrigSize Nonce Ciphertext].
  rewrite Hn, Z.eqb_refl. cbn [negb]. rewrite gcm_inverse. done.
Qed.
End Array.

(** ** Over the authenticator's array *)

Section Legacy.
Context `{PrimitiveLaws} `{HC : Codec} `{!BlobWire} `{!PreviewSignCodec}.
Context (gcm_total : forall key nonce ct aad, (exists p, gcm_open key nonce ct aad = Ok p) \/
  exists err, gcm_open key nonce ct aad = Err err).
Context (fips_enabled : bool) (info : AuthenticatorGetInfoResponse).
Context (Hflag : flag (Options info) OptionLargeBlobs = true).

#[local] Abbreviation resolve :=
  (resolveLegacyLargeBlobOutputs fips_enabled store_transport None).

(** The device over a store that holds the serialization of an array. *)
Definition holds (st : blob_store) (blobs : list LargeBlob) : Prop :=
  exists set, marshalLargeBlobArray blobs = Ok set /\ bs_stored st = set ++ take 16 (sha256 set).

(** The fragments of [info] fit, and [fuel] of them hold the array. *)
Definition readable (st : blob_store) (fuel : nat) : Prop :=
  let n := maxFragmentLength info in
  0 < n < 2 ^ 63 /\ n <= bs_fragment st /\ len (bs_stored st) < Z.of_nat fuel * n.

(** A key that opens neither the new blob nor the one it replaces; a key that
    is not 32 bytes long opens nothing. *)
Definition separate (key : list Z) (r : LargeBlob) (blobs : list LargeBlob) (key' : list Z) : Prop :=
  len key' <> 32 \/ (exists err, OpenLargeBlob key' r = Err err) /\
    Forall (fun b => opens key b -> ~ opens key' b) blobs.

Lemma read_array st blobs fuel : holds st blobs -> readable st fuel ->
  getLargeBlobsLocked fips_enabled store_transport None fuel (MkDevice st info true) =
    (Ok blobs, MkDevice st info true).
Proof.
  intros (set & Hm & Hst) (Hn & Hf & Hl). destruct (marshal_array _ _ Hm) as [_ Hu].
  exact (get_store fips_enabled (MkDevice st info true) fuel Hflag eq_refl ltac:(cbn; lia) Hl set blobs
    Hst Hu).
Qed.

Lemma resolve_read st blobs fuel nonce token write keys :
  holds st blobs -> readable st fuel ->
  resolve fuel nonce token largeBlobBackendLegacy true write keys (MkDevice st info true) =
    (Some <$> read_blobs blobs keys, MkDevice st info true).
Proof.
  intros Hh Hr. unfold resolveLegacyLargeBlobOutputs. cbn [bool_decide negb orb andb].
  rewrite bool_decide_eq_true_2 by done. cbn [negb orb andb].
  destruct keys as [|key keys]; [done|].
  rewrite (M_bind_Ok _ _ _ _ _ (try_Ok _ _ _ _ (read_array st blobs fuel Hh Hr))).
  unfold mbind, M_bind, lift, mret, M_ret. by destruct (read_blobs blobs (key :: keys)).
Qed.

Lemma resolve_write st blobs fuel nonce token data key rest r blobs' set' p :
  let full := set' ++ take 16 (sha256 set') in
  holds st blobs -> readable st fuel -> len key = 32 ->
  EncryptLargeBlob nonce key data = Ok r -> replace_blob key r blobs = Ok blobs' ->
  marshalLargeBlobArray blobs' = Ok set' ->
  MaxSerializedLargeBlobArrayValue info = Some (bs_capacity st) -> bs_capacity st < 2 ^ 32 ->
  pinUvAuthProtocolForRequest fips_enabled info token (largeBlobsAuthorizationRequired info) = Ok p ->
  (bs_token st = None \/ exists t, token = Some t /\ bs_token st = Some (p, t)) ->
  resolve fuel nonce token largeBlobBackendLegacy false (Some data) (key :: rest) (MkDevice st info true) =
    let fits := len full <=? bs_capacity st in
    (Ok (Some (written fits :: replicate (length rest) zero_large_blob_outputs)),
     MkDevice (if fits then with_stored st full else st) info true).
Proof.
  intros full Hh Hr Hk He Hrep Hm Hmax H32 Hp Ht.
  destruct (setLargeBlobsLocked_eq fips_enabled info st token blobs' set' p Hflag Hmax Hm Hp)
    as [msg Hset]. fold full in Hset.
  unfold resolveLegacyLargeBlobOutputs. rewrite bool_decide_eq_true_2 by done. cbn [negb orb andb].
  rewrite Hk. cbn [Z.eqb Pos.eqb negb].
  assert (Hw : not_nil (Some data) = true) by by apply bool_decide_eq_true_2. rewrite Hw. cbn [negb].
  rewrite (M_bind_Ok _ _ _ _ _ (try_Ok _ _ _ _ (read_array st blobs fuel Hh Hr))).
  change (bytes_of (Some data)) with data.
  rewrite (lift_bind _ _ _ _ He), (lift_bind _ _ _ _ Hrep).
  destruct Hr as (Hn & Hf & Hl).
  destruct (Z.leb_spec (len full) (bs_capacity st)) as [Hcap|Hcap].
  - rewrite (proj2 (Z.ltb_ge _ _)) in Hset by lia.
    pose proof (set_store fips_enabled info st token set' p Hn Hf (proj1 (marshal_array _ _ Hm)) Hcap
      H32 (token_authorised _ _ _ _ _ _ Hp Ht)) as Hgo. fold full in Hgo. rewrite Hgo in Hset.
    by rewrite (M_bind_Ok _ _ _ _ _ (try_Ok _ _ _ _ Hset)).
  - rewrite (proj2 (Z.ltb_lt _ _)) in Hset by lia.
    by rewrite (M_bind_Ok _ _ _ _ _ (try_Err _ _ _ _ Hset)).
Qed.

Lemma read_blobs_other key r blobs blobs' keys : replace_blob key r blobs = Ok blobs' ->
  Forall (separate key r blobs) keys -> read_blobs blobs' keys = read_blobs blobs keys.
Proof using Type*.
  intros Hrep Hk. induction Hk as [|k keys Hk _ IH]; [done|]. cbn [read_blobs]. rewrite IH.
  unfold read_blob. destruct (len k =? 0); [done|]. destruct (Z.eqb_spec (len k) 32); [|done].
  cbn [negb]. destruct Hk as [|[[err Hr] Hb]]; [done|].
  by rewrite (find_other gcm_total key k r err blobs blobs').
Qed.

Lemma holds_stored st blobs set : marshalLargeBlobArray blobs = Ok set ->
  holds (with_stored st (set ++ take 16 (sha256 set))) blobs.
Proof using. intros Hm. by exists set. Qed.

(** C15. The per-credential large blobs over the shared array are a store
    indexed by keys. For an authenticator that holds an array of blobs, and
    data of at most the size allowed, a write under a 32-byte key encrypts
    the data, puts it in the place of the first blob the key opens - or at
    the end - and writes the array back; the first assertion reports whether
    it was written, which is whether the new array fits. When it is, reading
    under the key returns the data, and any sequence of other keys - ones that
    open neither the new blob nor the one replaced - reads what it read
    before. When it does not fit, the authenticator is as it was. *)
Theorem legacy_blob_store st blobs fuel nonce token data key p :
  holds st blobs -> readable st fuel ->
  len key = 32 -> len nonce = largeBlobNonceSize -> len data <= MaxLargeBlobDataSize ->
  MaxSerializedLargeBlobArrayValue info = Some (bs_capacity st) -> bs_capacity st < 2 ^ 32 ->
  pinUvAuthProtocolForRequest fips_enabled info token (largeBlobsAuthorizationRequired info) = Ok p ->
  (bs_token st = None \/ exists t, token = Some t /\ bs_token st = Some (p, t)) ->
  exists r blobs', EncryptLargeBlob nonce key data = Ok r /\ replace_blob key r blobs = Ok blobs' /\
  forall set, marshalLargeBlobArray blobs' = Ok set ->
  let d := MkDevice st info true in
  let full := set ++ take 16 (sha256 set) in
  let fits := len full <=? bs_capacity st in
  let d' := MkDevice (if fits then with_stored st full else st) info true in
  (forall rest, resolve fuel nonce token largeBlobBackendLegacy false (Some data) (key :: rest) d =
     (Ok (Some (written fits :: replicate (length rest) zero_large_blob_outputs)), d')) /\
  (fits = true -> forall fuel', len full < Z.of_nat fuel' * maxFragmentLength info ->
     (forall nonce token, resolve fuel' nonce token largeBlobBackendLegacy true None [key] d' =
        (Ok (Some [MkLargeBlobOutputs None (Some data) None]), d')) /\
     (forall nonce token keys, Forall (separate key r blobs) keys ->
        resolve fuel' nonce token largeBlobBackendLegacy true None keys d' =
        ((resolve fuel nonce token largeBlobBackendLegacy true None keys d).1, d'))).
Proof using Type*.
  intros Hh Hr Hk Hn Hd Hmax H32 Hp Ht.
  destruct (replacement_opens gcm_total nonce key data Hk Hn Hd) as (r & q & He & Ho & Hq).
  destruct (replace_blob_total gcm_total key r blobs) as [blobs' Hrep].
  exists r, blobs'. split_and!; [done..|]. intros set Hm d full fits d'.
  split; [intros rest; by eapply resolve_write|]. intros Hfits fuel' Hfuel. unfold d'. rewrite Hfits.
  pose proof (holds_stored st blobs' set Hm) as Hh'. fold full in Hh'.
  assert (Hr' : readable (with_stored st full) fuel') by by destruct Hr as (? & ? & _).
  split.
  - intros nonce' token'. rewrite (resolve_read _ _ _ _ _ _ _ Hh' Hr'). cbn [read_blobs].
    unfold read_blob. rewrite Hk. cbn [Z.eqb Pos.eqb negb].
    by rewrite (find_replaced gcm_total key r q blobs blobs' Ho Hrep), Hq.
  - intros nonce' token' keys Hkeys. rewrite (resolve_read _ _ _ _ _ _ _ Hh' Hr').
    unfold d. rewrite (resolve_read _ _ _ _ _ _ _ Hh Hr). cbn [fst].
    by rewrite (read_blobs_other key r blobs blobs').
Qed.
End Legacy.

(** ** Two keys over one protected array *)

Definition key_one : list Z := 1 :: zeros 31.
Definition key_two : list Z := 2 :: zeros 31.

Definition sealed (key data : list Z) : LargeBlob :=
  MkLargeBlob (sample_seal key (zeros 12) data (blob_aad (len data))) (zeros 12) (len data).

Definition sample_set (blobs : list LargeBlob) : list Z := number_bytes (blob_tuple <$> blobs).
Definition sample_full (blobs : list LargeBlob) : list Z :=
  sample_set blobs ++ take 16 (sample_hash (sample_set blobs)).

(** The array holds a blob of the first key; the second key writes. *)
Definition sample_legacy_store : blob_store :=
  sample_store (sample_full [sealed key_one [7]]).

Lemma sample_gcm_total key nonce ct aad : (exists p, sample_open key nonce ct aad = Ok p) \/
  exists err, sample_open key nonce ct aad = Err err.
Proof. unfold sample_open. case_bool_decide; eauto. Qed.

Definition legacy_preview : @PreviewSignCodec blob_codec :=
  @Build_PreviewSignCodec blob_codec (fun _ => Err io_EOF) (fun _ => Err io_EOF) (fun _ => Err io_EOF)
    (fun _ => Err io_EOF) (fun _ _ _ => Err io_EOF).

#[local] Abbreviation sample_resolve := (@resolveLegacyLargeBlobOutputs sample_primitives blob_codec _
  true (@store_transport sample_primitives blob_codec blob_wire) None).

Lemma legacy_blob_store_witness : exists d',
  sample_resolve 20%nat (zeros 12) (Some (zeros 32)) largeBlobBackendLegacy false (Some [1; 2; 3])
      [key_two] (MkDevice sample_legacy_store sample_blob_info true) =
    (Ok (Some [written true]), d') /\
  sample_resolve 20%nat (zeros 12) None largeBlobBackendLegacy true None [key_two] d' =
    (Ok (Some [MkLargeBlobOutputs None (Some [1; 2; 3]) None]), d') /\
  sample_resolve 20%nat (zeros 12) None largeBlobBackendLegacy true None [key_one] d' =
    (Ok (Some [MkLargeBlobOutputs None (Some [7]) None]), d').
Proof.
  destruct (@legacy_blob_store sample_primitives sample_laws blob_codec blob_wire legacy_preview
    sample_gcm_total true sample_blob_info eq_refl sample_legacy_store [sealed key_one [7]] 20%nat
    (zeros 12) (Some (zeros 32)) [1; 2; 3] key_two 2) as (r & blobs' & He & Hrep & Hall).
  - exists (sample_set [sealed key_one [7]]). split; by vm_compute.
  - split_and!; by vm_compute.
  - by vm_compute.
  - by vm_compute.
  - by vm_compute.
  - by vm_compute.
  - by vm_compute.
  - by vm_compute.
  - right. by exists (zeros 32).
  - assert (Hr : Ok r = Ok (sealed key_two [1; 2; 3])) by (rewrite <- He; by vm_compute).
    injection Hr as ->.
    assert (Hb : replace_blob key_two (sealed key_two [1; 2; 3]) [sealed key_one [7]] =
      Ok [sealed key_one [7]; sealed key_two [1; 2; 3]]) by (vm_compute; reflexivity).
    rewrite Hb in Hrep. injection Hrep as <-.
    destruct (Hall (sample_set [sealed key_one [7]; sealed key_two [1; 2; 3]])) as [Hw Hread];
      [by vm_compute|].
    destruct (Hread ltac:(by vm_compute) 20%nat ltac:(by vm_compute)) as [Hkey Hother].
    assert (Hold : (sample_resolve 20%nat (zeros 12) None largeBlobBackendLegacy true None [key_one]
      (MkDevice sample_legacy_store sample_blob_info true)).1 =
      Ok (Some [MkLargeBlobOutputs None (Some [7]) None])) by by vm_compute.
    eexists. split; [exact (Hw [])|]. split; [apply Hkey|].
    rewrite <- Hold. apply Hother. apply Forall_singleton. right. split; [eexists; by vm_compute|].
    apply Forall_singleton. intros [q Hq]. by vm_compute in Hq.
Defined.
