(* ===== verification/Select.v ===== *)
(** * Selection of an authenticator (src/authenticator/select.go)

    [Select] opens every transport of an enumerator and, when several answer,
    asks for user presence on all of them at once: one goroutine per device
    sends the outcome of its [Selection] on a buffered channel, the caller
    takes outcomes until one succeeds or its context is done, and closes
    every device but the one selected. The opening is a function over the
    transports; the race is a step relation over the goroutines, the channel
    and the caller, in which a [Selection] or a [Close] may return anything at
    any time. *)
From S2P Require Import Prelude GoError Transport Protocol Crypto Messages Client Management Device.

(** ** Opening *)

Section Open.
Context `{Codec} {W : Type}.
Context (emit : option (list Z -> CBORResponse + error -> M W unit)).

(** A transport of the enumerator, and the state it is in. *)
Record candidate := Candidate { c_transport : transport_ops W; c_world : W }.

Definition errNoAuthenticators : error := EText "no authenticators found".

(** The loop over the enumerator's sequence; [None] is a nil transport. The
    transports that [New] refuses are closed: they are kept with the state
    they are left in. A [Close] returns its error as a value. *)
Fixpoint open_candidates (cs : list (option candidate + error)) (devices : list (candidate * device W))
    (discarded : list (candidate * W)) (candidateErr : option error)
    : result (list (candidate * device W) * list (candidate * W) * option error) :=
  match cs with
  | [] => Ok (devices, discarded, candidateErr)
  | inr err :: cs => open_candidates cs devices discarded (errors_Join candidateErr (Some err))
  | inl None :: cs => Panic                 (* New's error, then Close of the nil transport *)
  | inl (Some c) :: cs =>
      match New (c_transport c) emit (c_world c) with
      | (Ok d, _) => open_candidates cs (devices ++ [(c, d)]) discarded candidateErr
      | (Err err, w) =>
          match tr_Close (c_transport c) w with
          | (Ok closeErr, w) =>
              open_candidates cs devices (discarded ++ [(c, w)])
                (errors_Join (errors_Join candidateErr (Some err)) closeErr)
          | (Err _, _) | (Panic, _) => Panic
          | (Blocked, _) => Blocked
          end
      | (Panic, _) => Panic
      | (Blocked, _) => Blocked
      end
  end.

(** The transports the enumerator handed over. *)
Definition transports (cs : list (option candidate + error)) : list candidate :=
  omap (fun c => match c with inl c => c | inr _ => None end) cs.

Definition opened (cd : candidate * device W) : Prop :=
  exists w, New (c_transport cd.1) emit (c_world cd.1) = (Ok cd.2, w).
Definition refused (cw : candidate * W) : Prop :=
  exists err w closeErr, New (c_transport cw.1) emit (c_world cw.1) = (Err err, w) /\
    tr_Close (c_transport cw.1) w = (Ok closeErr, cw.2).

Lemma open_candidates_accounted cs devices discarded candidateErr devices' discarded' err :
  open_candidates cs devices discarded candidateErr = Ok (devices', discarded', err) ->
  Forall opened devices -> Forall refused discarded ->
  Forall opened devices' /\ Forall refused discarded' /\
  devices'.*1 ++ discarded'.*1 ≡ₚ (devices.*1 ++ discarded.*1) ++ transports cs.
Proof.
  revert devices discarded candidateErr.
  induction cs as [|[[c|]|e] cs IH]; intros devices discarded candidateErr; cbn [open_candidates].
  - intros [= -> -> ->] Ho Hr. split_and!; [done..|]. by rewrite app_nil_r.
  - destruct (New _ _ _) as [[d|e| |] w] eqn:Hn; try done.
    + intros Hc Ho Hr. destruct (IH _ _ _ Hc) as (? & ? & Hp); [|done|].
      { apply Forall_app. split; [done|]. apply Forall_singleton. by exists w. }
      split_and!; [done..|]. rewrite Hp, fmap_app. cbn. solve_Permutation.
    + destruct (tr_Close _ w) as [[r| | |] w'] eqn:Hcl; try done.
      intros Hc Ho Hr. destruct (IH _ _ _ Hc) as (? & ? & Hp); [done| |].
      { apply Forall_app. split; [done|]. apply Forall_singleton. by exists e, w, r. }
      split_and!; [done..|]. rewrite Hp, fmap_app. cbn. solve_Permutation.
  - done.
  - intros Hc Ho Hr. by apply (IH _ _ _ Hc).
Qed.
End Open.

(** ** The race *)

(** What the caller returns after [closeDevices]. *)
Inductive ending :=
  | CtxDone (err : error)                    (* ctx.Err() *)
  | Selected (device : nat)
  | AllFailed (selectionErr : option error).

(** The caller: in the loop over the results with the rounds left; in
    [closeDevices] with the devices left; closing the selected device after
    that failed; or returned, with the device or the error. *)
Inductive caller :=
  | Waiting (rounds : nat) (selectionErr : option error)
  | Closing (todo : list nat) (closeErr : option error) (e : ending)
  | CloseSelected (device : nat) (closeErr : error)
  | Returned (r : option nat) (err : option error).

Record select_state := SelectState {
  s_ctx : option error;                      (* ctx.Err() *)
  s_cancelled : bool;                        (* cancel was called *)
  s_running : list nat;                      (* goroutines that have not sent *)
  s_results : list (nat * option error);     (* the channel *)
  s_received : list (nat * option error);    (* what the caller took from it *)
  s_closed : list (nat * option error);      (* the Close calls, in order *)
  s_caller : caller }.

Section Race.
Context (n : nat) (candidateErr : option error).

Definition closeDevices_todo (except : option nat) : list nat :=
  filter (fun i => Some i <> except) (seq 0 n).

Definition select_start : select_state :=
  match n with
  | O => SelectState None false [] [] [] []
           (Returned None (errors_Join (Some errNoAuthenticators) candidateErr))
  | S O => SelectState None false [] [] [] [] (Returned (Some 0%nat) None)
  | _ => SelectState None false (seq 0 n) [] [] [] (Waiting n None)
  end.

(** The statement after [closeDevices]. *)
Definition after_close (closeErr : option error) (e : ending) : caller :=
  match e with
  | CtxDone err => Returned None (errors_Join (Some err) closeErr)
  | Selected i =>
      match closeErr with
      | Some err => CloseSelected i err
      | None => Returned (Some i) None
      end
  | AllFailed selectionErr =>
      Returned None (errors_Join (errors_Join candidateErr selectionErr) closeErr)
  end.

(** The caller's own steps. [cancel] runs before the devices are closed, or
    as the deferred call. *)
Inductive caller_step : select_state -> select_state -> Prop :=
  | step_ctx_done err canc run res rec cl rounds selErr :
      caller_step (SelectState (Some err) canc run res rec cl (Waiting (S rounds) selErr))
        (SelectState (Some err) true run res rec cl
           (Closing (closeDevices_todo None) None (CtxDone err)))
  | step_failed ctx canc run i err res rec cl rounds selErr :
      caller_step (SelectState ctx canc run ((i, Some err) :: res) rec cl (Waiting (S rounds) selErr))
        (SelectState ctx canc run res (rec ++ [(i, Some err)]) cl
           (Waiting rounds (errors_Join selErr (Some err))))
  | step_selected ctx canc run i res rec cl rounds selErr :
      caller_step (SelectState ctx canc run ((i, None) :: res) rec cl (Waiting (S rounds) selErr))
        (SelectState ctx true run res (rec ++ [(i, None)]) cl
           (Closing (closeDevices_todo (Some i)) None (Selected i)))
  | step_all_failed ctx canc run res rec cl selErr :
      caller_step (SelectState ctx canc run res rec cl (Waiting 0 selErr))
        (SelectState ctx canc run res rec cl
           (Closing (closeDevices_todo None) None (AllFailed selErr)))
  | step_close ctx canc run res rec cl i todo closeErr e r :
      caller_step (SelectState ctx canc run res rec cl (Closing (i :: todo) closeErr e))
        (SelectState ctx canc run res rec (cl ++ [(i, r)]) (Closing todo (errors_Join closeErr r) e))
  | step_closed ctx canc run res rec cl closeErr e :
      caller_step (SelectState ctx canc run res rec cl (Closing [] closeErr e))
        (SelectState ctx true run res rec cl (after_close closeErr e))
  | step_close_selected ctx canc run res rec cl i closeErr r :
      caller_step (SelectState ctx canc run res rec cl (CloseSelected i closeErr))
        (SelectState ctx true run res rec (cl ++ [(i, r)])
           (Returned None (errors_Join (Some closeErr) r))).

(** What happens around it: a [Selection] returns and its goroutine sends,
    the channel having room for [n] results; the context is done. *)
Inductive other_step : select_state -> select_state -> Prop :=
  | step_send ctx canc run1 i run2 res rec cl m r :
      (length res < n)%nat ->
      other_step (SelectState ctx canc (run1 ++ i :: run2) res rec cl m)
        (SelectState ctx canc (run1 ++ run2) (res ++ [(i, r)]) rec cl m)
  | step_ctx err canc run res rec cl m :
      other_step (SelectState None canc run res rec cl m)
        (SelectState (Some err) canc run res rec cl m).

Definition select_step (s s' : select_state) : Prop := caller_step s s' \/ other_step s s'.
Definition reachable (s : select_state) : Prop := rtc select_step select_start s.

(** ** What holds throughout *)

(** The error holds [e], for [errors.Is]. *)
Definition reported (o : option error) (e : error) : Prop :=
  exists e', o = Some e' /\ errors_Is e' e = true.

Lemma reported_self e : reported (Some e) e.
Proof. exists e. split; [done|apply errors_Is_refl]. Qed.

Lemma reported_Join_l o1 o2 e : reported o1 e -> reported (errors_Join o1 o2) e.
Proof.
  intros (e1 & -> & H1). destruct o2 as [e2|]; [|by exists e1]. eexists. split; [done|].
  revert H1. unfold errors_Is. rewrite !bool_decide_eq_true. cbn. set_solver.
Qed.

Lemma reported_Join_r o1 o2 e : reported o2 e -> reported (errors_Join o1 o2) e.
Proof.
  intros (e2 & -> & H2). destruct o1 as [e1|]; [|by exists e2]. eexists. split; [done|].
  revert H2. unfold errors_Is. rewrite !bool_decide_eq_true. cbn. set_solver.
Qed.

(** The errors of a list of outcomes, collected with [errors.Join]. *)
Definition collected (l : list (nat * option error)) (o : option error) : Prop :=
  (forall i e, (i, Some e) ∈ l -> reported o e) /\ (o <> None -> exists i e, (i, Some e) ∈ l).

Lemma collected_nil : collected [] None.
Proof. split; [|done]. intros i e Hin. by apply not_elem_of_nil in Hin. Qed.

Lemma collected_snoc l o i r : collected l o -> collected (l ++ [(i, r)]) (errors_Join o r).
Proof.
  intros [Hr Hn]. split.
  - intros j e [Hin|Hin]%elem_of_app; [by eapply reported_Join_l, Hr|].
    apply list_elem_of_singleton in Hin as [= -> <-]. apply reported_Join_r, reported_self.
  - intros Ho. destruct r as [e|].
    + exists i, e. apply elem_of_app. right. by apply list_elem_of_singleton.
    + destruct Hn as (j & e & Hin); [by destruct o|]. exists j, e. apply elem_of_app. by left.
Qed.

(** Every outcome is an error. *)
Definition all_failed (l : list (nat * option error)) : Prop := Forall (fun p => is_Some p.2) l.

(** The reason of what the caller does after [closeDevices]. *)
Definition ending_ok (s : select_state) (e : ending) : Prop :=
  match e with
  | CtxDone err => s_ctx s = Some err
  | Selected i => exists failed, all_failed failed /\ s_received s = failed ++ [(i, None)]
  | AllFailed selErr =>
      length (s_received s) = n /\ all_failed (s_received s) /\ collected (s_received s) selErr
  end.

Definition ending_except (e : ending) : option nat :=
  match e with Selected i => Some i | _ => None end.

(** A returned device was the first to answer without an error, and every
    other device was closed without one. A returned error comes with every
    device closed, and holds the error of every [Close]; it is there because
    the context was done, because every device failed, or because a [Close]
    failed. *)
Definition outcome (s : select_state) (r : option nat) (err : option error) : Prop :=
  match r with
  | Some i => err = None /\ ending_ok s (Selected i) /\
      s_closed s = (fun j => (j, None)) <$> closeDevices_todo (Some i)
  | None => (s_closed s).*1 ≡ₚ seq 0 n /\
      (forall i e, (i, Some e) ∈ s_closed s -> reported err e) /\
      ((exists e, s_ctx s = Some e /\ reported err e) \/
       (length (s_received s) = n /\ all_failed (s_received s) /\
        (forall i e, (i, Some e) ∈ s_received s -> reported err e) /\
        (forall e, candidateErr = Some e -> reported err e)) \/
       (exists i e, (i, Some e) ∈ s_closed s))
  end.

Definition caller_ok (s : select_state) : Prop :=
  match s_caller s with
  | Waiting rounds selErr => s_closed s = [] /\ (length (s_received s) + rounds = n)%nat /\
      all_failed (s_received s) /\ collected (s_received s) selErr
  | Closing todo closeErr e => ending_ok s e /\
      (s_closed s).*1 ++ todo = closeDevices_todo (ending_except e) /\ collected (s_closed s) closeErr
  | CloseSelected i closeErr => ending_ok s (Selected i) /\
      (s_closed s).*1 = closeDevices_todo (Some i) /\ collected (s_closed s) (Some closeErr)
  | Returned r err => s_cancelled s = true /\ outcome s r err
  end.

(** Every goroutine is running, in the channel or received, once. *)
Definition select_inv (s : select_state) : Prop :=
  s_running s ++ (s_results s).*1 ++ (s_received s).*1 ≡ₚ seq 0 n /\ caller_ok s.

Lemma todo_None : closeDevices_todo None = seq 0 n.
Proof. unfold closeDevices_todo. apply filter_all, Forall_forall. by intros i _ [=]. Qed.

Lemma todo_Some i : i ∈ seq 0 n -> closeDevices_todo (Some i) ++ [i] ≡ₚ seq 0 n.
Proof.
  intros Hi. unfold closeDevices_todo. pose proof (NoDup_seq 0 n) as Hn.
  apply list_elem_of_split in Hi as (l1 & l2 & Heq). rewrite Heq in Hn |- *.
  apply NoDup_app in Hn as (_ & H1 & [H2 _]%NoDup_cons).
  rewrite filter_app, filter_cons_False by (intros Hf; by apply Hf).
  rewrite !filter_all.
  - solve_Permutation.
  - apply Forall_forall. intros j Hj [= ->]. done.
  - apply Forall_forall. intros j Hj [= ->]. eapply H1; [done|]. apply elem_of_cons. by left.
Qed.

Lemma collected_None l : collected l None -> l = (fun j => (j, None)) <$> l.*1.
Proof.
  intros [Hr _]. induction l as [|[i [e|]] l IH]; [done| |].
  - destruct (Hr i e) as (? & ? & _); [|done]. apply elem_of_cons. by left.
  - cbn. f_equal. apply IH. intros j e Hj. apply (Hr j e). apply elem_of_cons. by right.
Qed.

(** The start. With fewer than two devices there is no race. *)
Lemma select_inv_start : (2 <= n)%nat -> select_inv select_start.
Proof.
  intros Hn. assert (select_start = SelectState None false (seq 0 n) [] [] [] (Waiting n None)) as ->.
  { unfold select_start. destruct n as [|[|]]; [lia..|done]. }
  split; cbn [s_running s_results s_received fmap list_fmap]; [by rewrite !app_nil_r|].
  split_and!; [done..|apply Forall_nil_2|apply collected_nil].
Qed.

Lemma elem_of_received s i r : select_inv s -> (i, r) ∈ s_received s -> i ∈ seq 0 n.
Proof.
  intros [Hp _] Hi. rewrite <- Hp. apply elem_of_app. right. apply elem_of_app. right.
  by apply (list_elem_of_fmap_2 fst _ (i, r)).
Qed.

(** What the caller does once its devices are closed. *)
Lemma after_close_ok ctx run res rec cl closeErr e canc :
  select_inv (SelectState ctx canc run res rec cl (Closing [] closeErr e)) ->
  caller_ok (SelectState ctx true run res rec cl (after_close closeErr e)).
Proof.
  intros [_ (He & Hcl & Hc)]. cbn [s_closed s_caller] in *. rewrite app_nil_r in Hcl.
  destruct e as [err|i|selErr]; cbn [after_close ending_except] in *.
  - split; [done|]. rewrite todo_None in Hcl. split_and!.
    + cbn. by rewrite Hcl.
    + intros i e Hi. by apply reported_Join_r, (proj1 Hc i).
    + left. exists err. split; [done|]. apply reported_Join_l, reported_self.
  - destruct closeErr as [err|]; [done|]. split; [done|]. split_and!; [done..|].
    cbn. by rewrite <- Hcl, <- (collected_None _ Hc).
  - split; [done|]. rewrite todo_None in Hcl. destruct He as (Hl & Hf & Hs). split_and!.
    + cbn. by rewrite Hcl.
    + intros i e Hi. by apply reported_Join_r, (proj1 Hc i).
    + right; left. split_and!; [done..| |].
      * intros i e Hi. by apply reported_Join_l, reported_Join_r, (proj1 Hs i).
      * intros e ->. apply reported_Join_l, reported_Join_l, reported_self.
Qed.

Lemma select_inv_caller s s' : caller_step s s' -> select_inv s -> select_inv s'.
Proof.
  intros Hstep Hinv. pose proof Hinv as [Hp Hc].
  destruct Hstep; (split; [cbn [s_running s_results s_received fmap list_fmap] in *|]).
  - done.
  - destruct Hc as (Hcl & _). cbn [s_closed] in Hcl. subst cl.
    split_and!; [done..|apply collected_nil].
  - rewrite <- Hp, !fmap_app. cbn. solve_Permutation.
  - destruct Hc as (Hcl & Hl & Hf & Hs). cbn [s_received s_closed s_caller] in *. split_and!; [done|..].
    + cbn. rewrite length_app. cbn. lia.
    + apply Forall_app. split; [done|]. by apply Forall_singleton.
    + by apply collected_snoc.
  - rewrite <- Hp, !fmap_app. cbn. solve_Permutation.
  - destruct Hc as (Hcl & Hl & Hf & Hs). cbn [s_closed s_received] in *. subst.
    split_and!; [by eexists|done|apply collected_nil].
  - done.
  - destruct Hc as (Hcl & Hl & Hf & Hs). cbn [s_closed s_received] in *. subst cl.
    split; [|by split; [|apply collected_nil]]. split_and!; cbn; [lia|done..].
  - done.
  - destruct Hc as (He & Hcl & Hs). cbn [s_closed] in *. split_and!; [done|..].
    + cbn [s_closed]. rewrite fmap_app, <- (assoc_L (++)). done.
    + by apply collected_snoc.
  - done.
  - by eapply after_close_ok.
  - done.
  - destruct Hc as (He & Hcl & Hs). cbn [s_closed] in *. split; [done|]. cbn [outcome s_closed].
    pose proof (collected_snoc _ _ i r Hs) as Hs'. split_and!.
    + rewrite fmap_app, Hcl. apply todo_Some.
      destruct He as (failed & _ & Hr). eapply (elem_of_received _ i None Hinv).
      rewrite Hr. apply elem_of_app. right. by apply list_elem_of_singleton.
    + apply Hs'.
    + right; right. apply (proj2 Hs'). by destruct r.
Qed.

Lemma select_inv_other s s' : other_step s s' -> select_inv s -> select_inv s'.
Proof.
  intros Hstep [Hp Hc]. destruct Hstep as [ctx canc run1 i run2 res rec cl m r|err canc run res rec cl m].
  - split; [|by destruct m as [| | |[]]].
    cbn [s_running s_results s_received] in *. rewrite <- Hp, fmap_app. cbn. solve_Permutation.
  - split; [done|]. destruct m as [|todo closeErr e| |[i|] err']; try exact Hc.
    + destruct Hc as (He & ? & ?). split_and!; [|done..]. by destruct e.
    + destruct Hc as (? & ? & ? & Ho). split; [done|]. split_and!; [done..|]. destruct Ho as [(e & [=] & _)|Ho]. by right.
Qed.

Lemma select_inv_reachable s : (2 <= n)%nat -> reachable s -> select_inv s.
Proof.
  intros Hn Hr. unfold reachable in Hr. pattern s. revert s Hr. apply rtc_ind_r.
  - by apply select_inv_start.
  - intros s1 s2 _ [Hs|Hs] Hi; [by eapply select_inv_caller|by eapply select_inv_other].
Qed.

Lemma NoDup_todo except : NoDup (closeDevices_todo except).
Proof. apply NoDup_filter, NoDup_seq. Qed.

(** No device is closed twice. *)
Lemma closed_once s : select_inv s -> NoDup (s_closed s).*1.
Proof.
  intros [_ Hc]. unfold caller_ok in Hc. destruct (s_caller s) as [k e|todo c e|i c|[i|] err].
  - destruct Hc as (-> & _). apply NoDup_nil_2.
  - destruct Hc as (_ & Hcl & _). pose proof (NoDup_todo (ending_except e)) as Hn.
    rewrite <- Hcl in Hn. by apply NoDup_app in Hn as [? _].
  - destruct Hc as (_ & -> & _). apply NoDup_todo.
  - destruct Hc as (_ & _ & _ & ->). rewrite <- list_fmap_compose.
    rewrite (list_fmap_ext _ id) by done. rewrite list_fmap_id. apply NoDup_todo.
  - destruct Hc as (_ & Hcl & _). rewrite Hcl. apply NoDup_seq.
Qed.

(** An error that is returned is not nil. *)
Lemma outcome_error s err : (2 <= n)%nat -> outcome s None err -> err <> None.
Proof.
  intros Hn (_ & Hcl & Hwhy) ->. assert (Hr : forall e, ~ reported None e) by (intros e (? & [=] & _)).
  destruct Hwhy as [(e & _ & He)|[(Hl & Hf & He & _)|(i & e & He)]].
  - by apply Hr in He.
  - unfold all_failed in Hf. destruct (s_received s) as [|[i r] l]; [cbn in Hl; lia|].
    apply Forall_cons in Hf as [[e Hi] _]. cbn in Hi. subst r. apply (Hr e), (He i e).
    apply elem_of_cons. by left.
  - by apply (Hr e), (Hcl i e).
Qed.

(** With fewer than two devices the caller has returned. *)
Lemma small_reachable s : (n < 2)%nat -> reachable s ->
  s_caller s = s_caller select_start /\ s_closed s = [] /\ s_running s = [].
Proof.
  intros Hn Hr. unfold reachable in Hr. pattern s. revert s Hr. apply rtc_ind_r.
  - unfold select_start. destruct n as [|[|]]; [done..|lia].
  - assert (Hret : exists r err, s_caller select_start = Returned r err).
    { unfold select_start. destruct n as [|[|]]; [by eexists _, _..|lia]. }
    destruct Hret as (r & err & Hret). intros s1 s2 _ Hstep (Hc & Hcl & Hrun). rewrite Hret in *.
    destruct Hstep as [Hs|Hs]; destruct Hs; try done. by destruct run1.
Qed.

(** ** Termination *)

(** The steps the caller has left. *)
Definition caller_weight (s : select_state) : nat :=
  match s_caller s with
  | Waiting rounds _ => rounds + n + 3
  | Closing todo _ _ => length todo + 2
  | CloseSelected _ _ => 1
  | Returned _ _ => 0
  end.

(** Executions, with the number of the caller's steps. *)
Inductive steps : nat -> select_state -> select_state -> Prop :=
  | steps_nil s : steps 0 s s
  | steps_caller k s1 s2 s3 : caller_step s1 s2 -> steps k s2 s3 -> steps (S k) s1 s3
  | steps_other k s1 s2 s3 : other_step s1 s2 -> steps k s2 s3 -> steps k s1 s3.

Lemma length_todo except : (length (closeDevices_todo except) <= n)%nat.
Proof. rewrite <- (length_seq n 0) at 1. apply length_filter. Qed.

Lemma caller_step_weight s s' : caller_step s s' -> (caller_weight s' < caller_weight s)%nat.
Proof.
  intros Hs. pose proof length_todo as Ht. destruct Hs; cbn; try lia.
  - specialize (Ht None). lia.
  - specialize (Ht (Some i)). lia.
  - specialize (Ht None). lia.
  - destruct e as [|i|]; [cbn; lia|destruct closeErr; cbn; lia|cbn; lia].
Qed.

Lemma steps_weight k s s' : steps k s s' -> (k + caller_weight s' <= caller_weight s)%nat.
Proof.
  induction 1 as [s|k s1 s2 s3 Hs _ IH|k s1 s2 s3 Hs _ IH]; [lia| |].
  - apply caller_step_weight in Hs. lia.
  - assert (caller_weight s2 = caller_weight s1) by by destruct Hs. lia.
Qed.

(** What the caller waits for: a [Selection] that has not returned, on a
    context that is not done. *)
Definition waiting (s : select_state) : Prop :=
  s_ctx s = None /\ s_results s = [] /\ s_running s <> [].

Lemma select_progress s : select_inv s ->
  (exists r err, s_caller s = Returned r err) \/ (exists s', caller_step s s') \/ waiting s.
Proof.
  intros [Hp Hc]. destruct s as [ctx canc run res rec cl m]. unfold caller_ok in Hc.
  cbn [s_caller s_running s_results s_received] in *.
  destruct m as [[|k] selErr|[|i todo] closeErr e|i closeErr|r err].
  - right; left. eexists. apply step_all_failed.
  - right. destruct ctx as [err|]; [left; eexists; apply step_ctx_done|].
    destruct res as [|[i [err|]] res]; [|left; eexists; apply step_failed|left; eexists; apply step_selected].
    right. split_and!; [done..|]. cbn. intros ->. destruct Hc as (_ & Hl & _).
    apply Permutation_length in Hp. cbn in Hp, Hl. rewrite length_fmap, length_seq in Hp. lia.
  - right; left. eexists. apply step_closed.
  - right; left. eexists. apply (step_close _ _ _ _ _ _ _ _ _ _ None).
  - right; left. eexists. apply (step_close_selected _ _ _ _ _ _ _ _ None).
  - left. by eexists _, _.
Qed.

Lemma room_to_send s i : select_inv s -> i ∈ s_running s -> (length (s_results s) < n)%nat.
Proof.
  intros [Hp _] Hi. apply Permutation_length in Hp.
  rewrite !length_app, !length_fmap, length_seq in Hp.
  destruct (s_running s); [by apply not_elem_of_nil in Hi|]. cbn in Hp. lia.
Qed.

Lemma caller_keeps s s' : caller_step s s' -> s_ctx s' = s_ctx s /\ s_running s' = s_running s.
Proof. by destruct 1. Qed.

Lemma caller_returns s : select_inv s -> s_ctx s <> None \/ s_running s = [] ->
  exists s' r err, rtc caller_step s s' /\ s_caller s' = Returned r err.
Proof.
  remember (caller_weight s) as k eqn:Hk. revert s Hk. induction (lt_wf k) as [k _ IH].
  intros s -> Hi Hw. destruct (select_progress s Hi) as [(r & err & Hr)|[(s2 & Hs)|(Hc & _ & Hrun)]].
  - by exists s, r, err.
  - destruct (IH _ (caller_step_weight _ _ Hs) s2 eq_refl) as (s' & r & err & Hs' & Hr).
    + by eapply select_inv_caller.
    + by destruct (caller_keeps _ _ Hs) as [-> ->].
    + exists s', r, err. split; [by eapply rtc_l|done].
  - by destruct Hw.
Qed.
End Race.

Section Select.
Context `{Codec} {W : Type}.
Context (emit : option (list Z -> CBORResponse + error -> M W unit)).

(** C16. Every authenticator that is opened is selected or closed. Of the
    transports the enumerator hands over, those [New] accepts become devices
    and the others are closed at once. Without a device [Select] returns an
    error, and with one that device. With more, whatever the selections
    answer and whenever the context ends, no device is closed twice; when
    [Select] returns a device, it was the first whose [Selection] succeeded,
    and the others, and only they, are closed; when it returns an error, the
    error is not nil, every device is closed, the error of each [Close] is
    reported, and what ended the race - the context, the failure of every
    selection with the errors of the enumeration, or a [Close] - too. Then the
    context the selections run on is cancelled. *)
Theorem select_accounted cs devices discarded candidateErr s :
  open_candidates emit cs [] [] None = Ok (devices, discarded, candidateErr) ->
  let n := length devices in
  reachable n candidateErr s ->
  (Forall (opened emit) devices /\ Forall (refused emit) discarded /\
   devices.*1 ++ discarded.*1 ≡ₚ transports cs) /\
  (n = 0%nat -> s_caller s = Returned None (errors_Join (Some errNoAuthenticators) candidateErr)) /\
  (n = 1%nat -> s_caller s = Returned (Some 0%nat) None /\ s_closed s = []) /\
  ((2 <= n)%nat -> NoDup (s_closed s).*1 /\
     forall r err, s_caller s = Returned r err ->
       s_cancelled s = true /\ outcome n candidateErr s r err /\ (r = None -> err <> None)).
Proof.
  intros Hopen n Hr. split_and!.
  - by destruct (open_candidates_accounted _ _ _ _ _ _ _ _ Hopen (Forall_nil_2 _) (Forall_nil_2 _)).
  - by destruct (open_candidates_accounted _ _ _ _ _ _ _ _ Hopen (Forall_nil_2 _) (Forall_nil_2 _))
      as (_ & ? & _).
  - by destruct (open_candidates_accounted _ _ _ _ _ _ _ _ Hopen (Forall_nil_2 _) (Forall_nil_2 _))
      as (_ & _ & ?).
  - intros Hn. destruct (small_reachable n candidateErr s ltac:(lia) Hr) as (-> & _). by rewrite Hn.
  - intros Hn. destruct (small_reachable n candidateErr s ltac:(lia) Hr) as (-> & ? & _). by rewrite Hn.
  - intros Hn. pose proof (select_inv_reachable n candidateErr s Hn Hr) as Hi.
    split; [by eapply closed_once|]. intros r err Hc. destruct Hi as [_ Hi]. unfold caller_ok in Hi.
    rewrite Hc in Hi. destruct Hi as [Hcan Ho]. split_and!; [done..|]. intros ->.
    by eapply outcome_error.
Qed.
End Select.

(** C17. The race ends. In every execution the caller takes at most
    twice the number of devices and three steps; until it has returned it can
    take one, unless it waits for a [Selection] that has not returned on a
    context that is not done; once the context is done, or every [Selection]
    has returned, it returns by its own steps alone. A goroutine always finds
    room in the channel, so that none is left behind. *)
Theorem select_terminates n candidateErr s :
  (2 <= n)%nat -> reachable n candidateErr s ->
  (forall k s', steps n candidateErr k s s' -> (k <= 2 * n + 3)%nat) /\
  ((exists r err, s_caller s = Returned r err) \/ (exists s', caller_step n candidateErr s s') \/ waiting s) /\
  (s_ctx s <> None \/ s_running s = [] ->
     exists s' r err, rtc (caller_step n candidateErr) s s' /\ s_caller s' = Returned r err) /\
  (forall i, i ∈ s_running s -> (length (s_results s) < n)%nat).
Proof.
  intros Hn Hr. pose proof (select_inv_reachable n candidateErr s Hn Hr) as Hi. split_and!.
  - intros k s' Hk. apply steps_weight in Hk.
    assert (caller_weight n s <= 2 * n + 3)%nat; [|lia].
    destruct Hi as [_ Hc]. unfold caller_weight, caller_ok in *.
    destruct (s_caller s) as [rounds selErr|todo closeErr e|i closeErr|r err]; [lia| |lia..].
    destruct Hc as (_ & Hcl & _). pose proof (length_todo n (ending_except e)) as Ht.
    rewrite <- Hcl, length_app in Ht. lia.
  - by apply select_progress.
  - by apply caller_returns.
  - intros i. by eapply room_to_send.
Qed.

(** ** Two devices, a transport that does not answer and an enumeration error *)

Definition answering : transport_ops bool :=
  MkTransportOps (fun _ => mret (MkCBORResponse CTAP2_OK [])) (modify (fun _ => true);; mret None)
    None None None None.
Definition silent : transport_ops bool :=
  MkTransportOps (fun _ => fail io_EOF) (modify (fun _ => true);; mret None) None None None None.

Definition sample_candidates : list (option (@candidate bool) + error) :=
  [inl (Some (Candidate answering false)); inr io_ErrClosedPipe;
   inl (Some (Candidate silent false)); inl (Some (Candidate answering false))].

(** The second device answers first. *)
Definition sample_end : select_state :=
  SelectState None true [0%nat] [] [(1%nat, None)] [(0%nat, None)] (Returned (Some 1%nat) None).

Lemma sample_race candidateErr : reachable 2 candidateErr sample_end.
Proof.
  eapply rtc_l; [right; by apply (step_send 2 None false [0%nat] 1 [] [] [] [] (Waiting 2 None) None);
    cbn; lia|].
  eapply rtc_l; [left; apply step_selected|].
  eapply rtc_l; [left; apply (step_close _ _ _ _ _ _ _ _ _ _ _ _ None)|].
  eapply rtc_l; [left; apply step_closed|]. apply rtc_refl.
Qed.

Lemma select_accounted_witness : exists devices discarded candidateErr,
  open_candidates None sample_candidates [] [] None =
    Ok (devices, discarded, Some candidateErr) /\
  length devices = 2%nat /\ discarded = [(Candidate silent false, true)] /\
  errors_Is candidateErr io_ErrClosedPipe = true /\
  outcome 2 (Some candidateErr) sample_end (Some 1%nat) None.
Proof.
  eexists _, _, _. split; [reflexivity|]. split_and!; [reflexivity..|].
  refine (proj1 (proj2 (proj2 (proj2 (proj2 (proj2
    (select_accounted None sample_candidates _ _ _ sample_end
      eq_refl (sample_race _))) ) _) (Some 1%nat) None eq_refl))).
  cbn. lia.
Defined.

Lemma select_terminates_witness :
  exists s' r err, rtc (caller_step 3 None)
    (SelectState (Some context_Canceled) false (seq 0 3) [] [] [] (Waiting 3 None)) s' /\
    s_caller s' = Returned r err.
Proof.
  destruct (select_terminates 3 None
    (SelectState (Some context_Canceled) false (seq 0 3) [] [] [] (Waiting 3 None))) as (_ & _ & Hret & _).
  - lia.
  - eapply rtc_l; [right; apply step_ctx|]. apply rtc_refl.
  - apply Hret. by left.
Defined.
