(* ===== verification/Signature.v ===== *)
(** * COSE signatures (src/cose/signature.go)

    The conversion of a credential's COSE key to a public key, and the
    verification of a signature under it, with the checks that keep a key to
    the algorithms of its type and curve and to the FIPS 140-3 policy. The
    signature schemes, the hashes, and the third-party curves are a typeclass;
    the NIST curves are written out as their equations. *)
From S2P Require Import Prelude GoError Pin Cose Crypto.

Definition ErrUnsupportedAlgorithm : error := ESentinel "cose: unsupported signature algorithm".
Definition ErrUnsupportedKey : error := ESentinel "cose: unsupported public key".
Definition ErrKeyAlgorithmMismatch : error :=
  ESentinel "cose: public key and signature algorithm mismatch".
Definition ErrInvalidSignature : error := ESentinel "cose: invalid signature".

Definition KeyTypeOKP : Z := 1.
Definition KeyTypeRSA : Z := 3.
Definition OKPKeyParameterCrv : Z := -1.
Definition OKPKeyParameterX : Z := -2.
Definition RSAKeyParameterN : Z := -1.
Definition RSAKeyParameterE : Z := -2.

(** ** Curves of crypto/elliptic *)

Inductive elliptic_Curve := P256 | P384 | P521 | OtherCurve.

#[export] Instance elliptic_Curve_eq_dec : EqDecision elliptic_Curve.
Proof. solve_decision. Defined.

(** The prime, the coefficient b (a is -3) and the size of a coordinate. *)
Definition curve_params (c : elliptic_Curve) : Z * Z * Z :=
  match c with
  | P384 => (2 ^ 384 - 2 ^ 128 - 2 ^ 96 + 2 ^ 32 - 1,
      0xb3312fa7e23ee7e4988e056be3f82d19181d9c6efe8141120314088f5013875ac656398d8a2ed19d2a85c8edd3ec2aef,
      48)
  | P521 => (2 ^ 521 - 1,
      0x51953eb9618e1c9a1f929a21a0b68540eea2da725b99b315f3b8b489918ef109e156193951ec7e937b1652c0bd3bb1bf073573df883d2c34f1ef451fd46b503f00,
      66)
  | _ => (p256_p, p256_b, 32)
  end.

Definition on_curve (c : elliptic_Curve) (x y : Z) : bool :=
  let '(p, b, _) := curve_params c in
  (x <? p) && (y <? p) && ((y * y - (x * x * x - 3 * x + b)) mod p =? 0).

(** [ecdsa.ParseUncompressedPublicKey] of the three curves. *)
Definition valid_encoding (c : elliptic_Curve) (encoded : list Z) : bool :=
  let size := (curve_params c).2 in
  (len encoded =? 1 + 2 * size) && bool_decide (head encoded = Some 4)
  && on_curve c (be_value (take (Z.to_nat size) (drop 1 encoded)))
                (be_value (drop (Z.to_nat (1 + size)) encoded)).

Definition curveID (c : elliptic_Curve) : Z :=
  match c with
  | P256 => EllipticCurveP256
  | P384 => EllipticCurveP384
  | P521 => EllipticCurveP521
  | OtherCurve => 0
  end.

(** ** Public keys *)

(** What the code calls of the signature packages: [Verify] of crypto/ed25519,
    circl's ed448 and goldilocks (whether the point is the identity), the
    verification of crypto/ecdsa and crypto/rsa, decred's secp256k1. *)
Class SignatureSchemes := {
  sha1 : list Z -> list Z;
  sha384 : list Z -> list Z;
  sha512 : list Z -> list Z;
  ed25519_Verify : list Z -> list Z -> list Z -> bool;
  ed448_Verify : list Z -> list Z -> list Z -> bool;
  goldilocks_FromBytes : list Z -> result bool;
  ecdsa_VerifyASN1 : elliptic_Curve -> list Z -> list Z -> list Z -> bool;
  rsa_VerifyPKCS1v15 : option Z -> Z -> crypto_Hash -> list Z -> list Z -> option error;
  rsa_VerifyPSS : option Z -> Z -> crypto_Hash -> list Z -> list Z -> option error;
  secp256k1_key : Type;
  secp256k1_signature : Type;
  secp256k1_ParsePubKey : list Z -> result secp256k1_key;
  ParseDERSignature : list Z -> result secp256k1_signature;
  secp256k1_Verify : secp256k1_signature -> list Z -> secp256k1_key -> bool }.

Section Signature.
Context `{Primitives} `{SignatureSchemes}.
Context (fips_enabled : bool).

(** The dynamic types of a [crypto.PublicKey] the code tells apart; a pointer
    may be nil, and so may an RSA modulus. *)
Inductive crypto_PublicKey :=
  | Ed25519PublicKey (key : list Z)
  | Ed448PublicKey (key : list Z)
  | ECDSAPublicKey (key : option (elliptic_Curve * list Z))
  | Secp256k1PublicKey (key : option secp256k1_key)
  | RSAPublicKey (key : option (option Z * Z))
  | OtherPublicKey.

(** *** From COSE *)

Definition ed25519_PublicKeySize : Z := 32.
Definition ed448_PublicKeySize : Z := 57.

Definition keyBytes (key : Key) (label : Z) (name : string) : result (list Z) :=
  match default ∅ key !! label with
  | None => cose_error ("credential key is missing " +:+ name)
  | Some (VBytes b) => Ok b
  | Some _ => cose_error ("credential key has invalid " +:+ name +:+ " type")
  end.

Definition okpPublicKey (k : Key) : result crypto_PublicKey :=
  keyInteger k OKPKeyParameterCrv "crv" ≫= fun curve =>
  keyBytes k OKPKeyParameterX "x" ≫= fun x =>
  if curve =? EllipticCurveEd25519 then
    if negb (len x =? ed25519_PublicKeySize) then
      cose_error ("invalid Ed25519 public key length " +:+ pretty (len x))
    else Ok (Ed25519PublicKey x)
  else if curve =? EllipticCurveEd448 then
    if fips_enabled then Err (EPolicy "COSE Ed448 public key")
    else if negb (len x =? ed448_PublicKeySize) then
      cose_error ("invalid Ed448 public key length " +:+ pretty (len x))
    else match goldilocks_FromBytes x with
    | Ok false => Ok (Ed448PublicKey x)
    | Panic => Panic
    | _ => cose_error "invalid Ed448 public key"
    end
  else Err (EMessage ErrUnsupportedKey ("OKP curve " +:+ pretty curve)).

(** The curve of an EC2 key: [inl] for those of crypto/elliptic, [inr] for
    secp256k1. *)
Definition ec2_curve (curveValue : Z) : result (elliptic_Curve + unit) :=
  if curveValue =? EllipticCurveP256 then Ok (inl P256)
  else if curveValue =? EllipticCurveP384 then Ok (inl P384)
  else if curveValue =? EllipticCurveP521 then Ok (inl P521)
  else if curveValue =? EllipticCurveSecp256k1 then
    if fips_enabled then Err (EPolicy "COSE secp256k1 public key") else Ok (inr tt)
  else Err (EMessage ErrUnsupportedKey ("EC2 curve " +:+ pretty curveValue)).

Definition ec2PublicKey (k : Key) : result crypto_PublicKey :=
  keyInteger k EC2KeyParameterCrv "crv" ≫= fun curveValue =>
  ec2_curve curveValue ≫= fun curve =>
  keyBytes k EC2KeyParameterX "x" ≫= fun xBytes =>
  keyBytes k EC2KeyParameterY "y" ≫= fun yBytes =>
  let size := match curve with inl c => (curve_params c).2 | inr _ => 32 end in
  if negb (len xBytes =? size) || negb (len yBytes =? size) then
    cose_error ("invalid EC2 coordinate lengths x=" +:+ pretty (len xBytes) +:+ " y=" +:+
      pretty (len yBytes) +:+ ", want " +:+ pretty size)
  else
    let encoded := [4] ++ xBytes ++ yBytes in
    match curve with
    | inr _ =>
        match secp256k1_ParsePubKey encoded with
        | Ok publicKey => Ok (Secp256k1PublicKey (Some publicKey))
        | Err err => Err (EMessage err "cose: invalid secp256k1 public key")
        | Panic => Panic
        | Blocked => Blocked
        end
    | inl c =>
        if valid_encoding c encoded then Ok (ECDSAPublicKey (Some (c, encoded)))
        else cose_error "invalid EC2 public key"
    end.

Definition BitLen (n : Z) : Z := if n <=? 0 then 0 else Z.log2 n + 1.

Definition rsaPublicKey (k : Key) : result crypto_PublicKey :=
  keyBytes k RSAKeyParameterN "n" ≫= fun modulus =>
  if (len modulus =? 0) || (nth 0 modulus 0 =? 0) then cose_error "invalid RSA modulus encoding"
  else
    let n := be_value modulus in
    if (BitLen n <? 2048) || Z.even n then
      cose_error "RSA modulus must be an odd integer of at least 2048 bits"
    else
      keyBytes k RSAKeyParameterE "e" ≫= fun exponentBytes =>
      if (len exponentBytes =? 0) || (8 <? len exponentBytes) || (nth 0 exponentBytes 0 =? 0) then
        cose_error "invalid RSA exponent encoding"
      else
        let e := be_value exponentBytes in
        if max_int64 <? e then cose_error "RSA exponent is too large"
        else if (e <? 3) || Z.even e then
          cose_error "RSA exponent must be an odd integer representable as int"
        else Ok (RSAPublicKey (Some (Some n, e))).

(** *** The checks of a key against an algorithm *)

Definition is_ed25519 (publicKey : crypto_PublicKey) : bool :=
  match publicKey with Ed25519PublicKey _ => true | _ => false end.

(** The parameters of an RSA key that the policy refuses. *)
Definition rsa_refused (key : option (option Z * Z)) : bool :=
  match key with
  | Some (Some n, e) =>
      (n <=? 0) || Z.even n || (BitLen n <? 2048) || negb (BitLen n mod 2 =? 0)
      || (e <=? 2 ^ 16) || (2 ^ 31 - 1 <? e) || Z.even e
  | _ => true
  end.

Definition enforceFIPS140SignaturePolicy (publicKey : crypto_PublicKey) (algorithm : Z)
    (spec : signatureAlgorithm) : option error :=
  let text := "COSE signature algorithm " +:+ pretty algorithm in
  if negb fips_enabled then None
  else first_error [
    match alg_fips spec with
    | fips140Approved => None
    | fips140VerifyOnly => first_error [
        check (negb (algorithm =? AlgorithmEdDSA)) (EPolicy text);
        check (negb (is_ed25519 publicKey)) (EPolicy (text +:+ " with a non-Ed25519 key"))]
    | fips140NotApproved => Some (EPolicy text)
    end;
    match alg_kind spec, publicKey with
    | (signatureRSA | signatureRSAPSS), RSAPublicKey key =>
        check (rsa_refused key)
          (EPolicy ("COSE RSA public key parameters for algorithm " +:+ pretty algorithm))
    | _, _ => None
    end].

(** [spec.curve != 0 && spec.curve != want]. *)
Definition other_curve (spec : signatureAlgorithm) (want : Z) : bool :=
  negb (alg_curve spec =? 0) && negb (alg_curve spec =? want).

Definition mismatch (b : bool) : result unit := if b then Err ErrKeyAlgorithmMismatch else Ok tt.

Definition validatePublicKeyAlgorithm (publicKey : crypto_PublicKey) (spec : signatureAlgorithm)
    : result unit :=
  match alg_kind spec, publicKey with
  | signatureEdDSA, Ed25519PublicKey key =>
      mismatch (negb (len key =? ed25519_PublicKeySize) || other_curve spec EllipticCurveEd25519)
  | signatureEdDSA, Ed448PublicKey key =>
      mismatch (negb (len key =? ed448_PublicKeySize) || other_curve spec EllipticCurveEd448)
  | signatureECDSA, ECDSAPublicKey None => Panic
  | signatureECDSA, ECDSAPublicKey (Some (c, _)) => mismatch (negb (curveID c =? alg_curve spec))
  | signatureECDSASecp256k1, Secp256k1PublicKey _ => Ok tt
  | (signatureRSA | signatureRSAPSS), RSAPublicKey _ => Ok tt
  | _, _ => Err ErrKeyAlgorithmMismatch
  end.

(** [Key.PublicKey]. *)
Definition PublicKey (k : Key) : result crypto_PublicKey :=
  match k with
  | None => cose_error "nil credential key"
  | Some _ =>
      keyInteger k KeyParameterKty "kty" ≫= fun keyType =>
      (if keyType =? KeyTypeOKP then okpPublicKey k
       else if keyType =? KeyTypeEC2 then ec2PublicKey k
       else if keyType =? KeyTypeRSA then rsaPublicKey k
       else Err (EMessage ErrUnsupportedKey ("key type " +:+ pretty keyType))) ≫= fun publicKey =>
      Algorithm k ≫= fun algorithm =>
      match signature_spec algorithm with
      | None => Err (EMessage ErrUnsupportedAlgorithm (pretty algorithm))
      | Some spec =>
          match enforceFIPS140SignaturePolicy publicKey algorithm spec with
          | Some err => Err err
          | None => validatePublicKeyAlgorithm publicKey spec ≫= fun _ => Ok publicKey
          end
      end
  end.

(** *** Verification *)

Definition signatureDigest (hash : crypto_Hash) (message : list Z) : result (list Z) :=
  match hash with
  | SHA1 => Ok (sha1 message)
  | SHA256 => Ok (sha256 message)
  | SHA384 => Ok (sha384 message)
  | SHA512 => Ok (sha512 message)
  | NoHash => Panic
  end.

Definition valid (b : bool) : result unit := if b then Ok tt else Err ErrInvalidSignature.

(** An error of crypto/rsa, which panics on a nil key. *)
Definition rsa_verified (key : option (option Z * Z)) (verify : option Z -> Z -> option error)
    : result unit :=
  match key with
  | None => Panic
  | Some (n, e) =>
      match verify n e with
      | None => Ok tt
      | Some _ => Err (EMessage ErrInvalidSignature "crypto/rsa")
      end
  end.

(** The last switch of [VerifySignature]. *)
Definition verify_with (publicKey : crypto_PublicKey) (spec : signatureAlgorithm)
    (message signature : list Z) : result unit :=
  match alg_kind spec, publicKey with
  | signatureEdDSA, Ed25519PublicKey key =>
      mismatch (other_curve spec EllipticCurveEd25519) ≫= fun _ =>
      valid (ed25519_Verify key message signature)
  | signatureEdDSA, Ed448PublicKey key =>
      mismatch (other_curve spec EllipticCurveEd448) ≫= fun _ =>
      valid (ed448_Verify key message signature)
  | signatureECDSA, ECDSAPublicKey None => Panic
  | signatureECDSA, ECDSAPublicKey (Some (c, encoded)) =>
      mismatch (negb (curveID c =? alg_curve spec)) ≫= fun _ =>
      signatureDigest (alg_hash spec) message ≫= fun digest =>
      valid (ecdsa_VerifyASN1 c encoded digest signature)
  | signatureECDSASecp256k1, Secp256k1PublicKey key =>
      signatureDigest (alg_hash spec) message ≫= fun digest =>
      match ParseDERSignature signature, key with
      | Ok parsed, Some key => valid (secp256k1_Verify parsed digest key)
      | Ok _, None => Panic
      | Err _, _ => Err ErrInvalidSignature
      | Panic, _ => Panic
      | Blocked, _ => Blocked
      end
  | signatureRSA, RSAPublicKey key =>
      signatureDigest (alg_hash spec) message ≫= fun digest =>
      rsa_verified key (fun n e => rsa_VerifyPKCS1v15 n e (alg_hash spec) digest signature)
  | signatureRSAPSS, RSAPublicKey key =>
      signatureDigest (alg_hash spec) message ≫= fun digest =>
      rsa_verified key (fun n e => rsa_VerifyPSS n e (alg_hash spec) digest signature)
  | _, _ => Err ErrKeyAlgorithmMismatch
  end.

Definition VerifySignature (publicKey : option crypto_PublicKey) (algorithm : Z)
    (message signature : list Z) : result unit :=
  match signature_spec algorithm with
  | None => Err (EMessage ErrUnsupportedAlgorithm (pretty algorithm))
  | Some spec =>
      match publicKey with
      | None => Err ErrKeyAlgorithmMismatch
      | Some publicKey =>
          match enforceFIPS140SignaturePolicy publicKey algorithm spec with
          | Some err => Err err
          | None =>
              validatePublicKeyAlgorithm publicKey spec ≫= fun _ =>
              verify_with publicKey spec message signature
          end
      end
  end.

(** ** What a key is good for *)

(** A key that a credential may have. *)
Definition well_formed (pk : crypto_PublicKey) : Prop :=
  match pk with
  | Ed25519PublicKey key => len key = 32
  | Ed448PublicKey key => len key = 57 /\ goldilocks_FromBytes key = Ok false
  | ECDSAPublicKey (Some (c, encoded)) => c <> OtherCurve /\ valid_encoding c encoded = true
  | Secp256k1PublicKey (Some key) => exists encoded, secp256k1_ParsePubKey encoded = Ok key
  | RSAPublicKey (Some (Some n, e)) => 2048 <= BitLen n /\ Z.odd n = true /\
      3 <= e <= max_int64 /\ Z.odd e = true
  | _ => False
  end.

(** The key is of the type and on the curve of the algorithm. *)
Definition key_fits (spec : signatureAlgorithm) (pk : crypto_PublicKey) : Prop :=
  match pk with
  | Ed25519PublicKey _ => alg_kind spec = signatureEdDSA /\ alg_curve spec ∈ [0; EllipticCurveEd25519]
  | Ed448PublicKey _ => alg_kind spec = signatureEdDSA /\ alg_curve spec ∈ [0; EllipticCurveEd448]
  | ECDSAPublicKey (Some (c, _)) => alg_kind spec = signatureECDSA /\ alg_curve spec = curveID c
  | Secp256k1PublicKey (Some _) => alg_kind spec = signatureECDSASecp256k1
  | RSAPublicKey (Some _) => alg_kind spec = signatureRSA \/ alg_kind spec = signatureRSAPSS
  | _ => False
  end.

(** What the FIPS 140-3 policy asks for: an approved algorithm - EdDSA only
    with Ed25519 - and RSA parameters in its range. *)
Definition fips_approved (a : Z) (spec : signatureAlgorithm) (pk : crypto_PublicKey) : Prop :=
  (alg_fips spec = fips140Approved \/
   alg_fips spec = fips140VerifyOnly /\ a = AlgorithmEdDSA /\ is_ed25519 pk = true) /\
  forall n e, pk = RSAPublicKey (Some (Some n, e)) ->
    2048 <= BitLen n /\ BitLen n mod 2 = 0 /\ 2 ^ 16 < e < 2 ^ 31.

(** The signature scheme accepts. *)
Definition accepts (spec : signatureAlgorithm) (pk : crypto_PublicKey) (message signature : list Z)
    : bool :=
  let digest := match signatureDigest (alg_hash spec) message with Ok d => d | _ => [] end in
  match pk with
  | Ed25519PublicKey key => ed25519_Verify key message signature
  | Ed448PublicKey key => ed448_Verify key message signature
  | ECDSAPublicKey (Some (c, encoded)) => ecdsa_VerifyASN1 c encoded digest signature
  | Secp256k1PublicKey (Some key) =>
      match ParseDERSignature signature with
      | Ok parsed => secp256k1_Verify parsed digest key
      | _ => false
      end
  | RSAPublicKey (Some (n, e)) =>
      bool_decide ((match alg_kind spec with
        | signatureRSA => rsa_VerifyPKCS1v15
        | _ => rsa_VerifyPSS
        end) n e (alg_hash spec) digest signature = None)
  | _ => false
  end.

Lemma signature_spec_elem a spec : signature_spec a = Some spec -> (a, spec) ∈ signatureAlgorithms.
Proof.
  unfold signature_spec. destruct (list_find _ signatureAlgorithms) as [[i [b s]]|] eqn:Hf; [|done].
  cbn. intros [= <-]. apply list_find_Some in Hf as (Hl & Hb & _). cbn in Hb. subst b.
  by eapply list_elem_of_lookup_2.
Qed.

(** Every algorithm but the Edwards ones has a hash. *)
Lemma signature_hash a spec message : signature_spec a = Some spec ->
  alg_kind spec <> signatureEdDSA -> exists d, signatureDigest (alg_hash spec) message = Ok d.
Proof.
  intros Hs%signature_spec_elem Hk.
  assert (Ha : Forall (fun e => alg_kind e.2 = signatureEdDSA \/ alg_hash e.2 <> NoHash) signatureAlgorithms).
  { unfold signatureAlgorithms. repeat (apply Forall_cons_2; [first [by left|by right]|]). apply Forall_nil_2. }
  rewrite Forall_forall in Ha. destruct (Ha _ Hs) as [?|Hh]; [done|]. cbn in Hh.
  destruct (alg_hash spec); [done|by eexists..].
Qed.

Lemma mismatch_Ok b : mismatch b = Ok tt <-> b = false.
Proof. by destruct b. Qed.

Lemma other_curve_false spec want : other_curve spec want = false <-> alg_curve spec ∈ [0; want].
Proof.
  unfold other_curve. destruct (Z.eqb_spec (alg_curve spec) 0), (Z.eqb_spec (alg_curve spec) want);
    cbn; set_solver.
Qed.

(** The check accepts exactly the keys that fit. *)
Lemma validatePublicKeyAlgorithm_Ok pk spec : well_formed pk ->
  (validatePublicKeyAlgorithm pk spec = Ok tt <-> key_fits spec pk) /\
  (validatePublicKeyAlgorithm pk spec = Ok tt \/
   validatePublicKeyAlgorithm pk spec = Err ErrKeyAlgorithmMismatch).
Proof.
  unfold validatePublicKeyAlgorithm. intros Hw.
  destruct pk as [key|key|[[c enc]|]|[key|]|[[[n|] e]|]|]; try done; cbn [key_fits well_formed] in *;
    destruct (alg_kind spec); try (split; [naive_solver|by right]); try (split; [naive_solver|by left]).
  - rewrite Hw. cbn [Z.eqb Pos.eqb negb orb ed25519_PublicKeySize].
    split; [rewrite mismatch_Ok, other_curve_false; naive_solver|]. destruct (other_curve _ _); auto.
  - destruct Hw as [Hw _]. rewrite Hw. cbn [Z.eqb Pos.eqb negb orb ed448_PublicKeySize].
    split; [rewrite mismatch_Ok, other_curve_false; naive_solver|]. destruct (other_curve _ _); auto.
  - split; [rewrite mismatch_Ok, negb_false_iff, Z.eqb_eq; naive_solver|]. destruct (negb _); auto.
Qed.

(** ** Conversion *)

Lemma okpPublicKey_well_formed k pk : okpPublicKey k = Ok pk -> well_formed pk.
Proof.
  unfold okpPublicKey, cose_error. destruct (keyInteger k _ _) as [curve| | |]; try done.
  cbn [mbind result_bind]. destruct (keyBytes k _ _) as [x| | |]; try done. cbn [mbind result_bind].
  destruct (curve =? EllipticCurveEd25519).
  - destruct (Z.eqb_spec (len x) ed25519_PublicKeySize); [|done]. by intros [= <-].
  - destruct (curve =? EllipticCurveEd448); [|done]. destruct fips_enabled; [done|].
    destruct (Z.eqb_spec (len x) ed448_PublicKeySize); [|done]. cbn [negb].
    destruct (goldilocks_FromBytes x) as [[]| | |] eqn:Hg; try done. by intros [= <-].
Qed.

Lemma ec2PublicKey_well_formed k pk : ec2PublicKey k = Ok pk -> well_formed pk.
Proof.
  unfold ec2PublicKey, cose_error. destruct (keyInteger k _ _) as [cv| | |]; try done.
  cbn [mbind result_bind]. destruct (ec2_curve cv) as [curve| | |] eqn:Hc; try done.
  cbn [mbind result_bind]. destruct (keyBytes k EC2KeyParameterX _) as [x| | |]; try done.
  cbn [mbind result_bind]. destruct (keyBytes k EC2KeyParameterY _) as [y| | |]; try done.
  cbn [mbind result_bind]. destruct (_ || _); [done|]. destruct curve as [c|].
  - destruct (valid_encoding c _) eqn:Hv; [|done]. intros [= <-]. split; [|done]. intros ->.
    revert Hc. unfold ec2_curve. by repeat case_match.
  - destruct (secp256k1_ParsePubKey _) as [key| | |] eqn:Hp; try done. intros [= <-]. by eexists.
Qed.

Lemma rsaPublicKey_well_formed k pk : rsaPublicKey k = Ok pk -> well_formed pk.
Proof.
  unfold rsaPublicKey, cose_error. destruct (keyBytes k RSAKeyParameterN _) as [m| | |]; try done.
  cbn [mbind result_bind]. destruct (_ || _); [done|].
  destruct ((BitLen (be_value m) <? 2048) || _) eqn:Hn; [done|].
  destruct (keyBytes k RSAKeyParameterE _) as [eb| | |]; try done.
  cbn [mbind result_bind]. destruct ((len eb =? 0) || _ || _); [done|].
  destruct (Z.ltb_spec max_int64 (be_value eb)); [done|].
  destruct ((be_value eb <? 3) || _) eqn:He; [done|]. intros [= <-].
  rewrite orb_false_iff, Z.ltb_ge, <- Z.negb_odd, negb_false_iff in Hn, He.
  destruct Hn as [Hn1 Hn2], He as [He1 He2]. by split_and!.
Qed.

Lemma PublicKey_Ok k pk : PublicKey k = Ok pk ->
  well_formed pk /\ exists a spec, Algorithm k = Ok a /\ signature_spec a = Some spec /\
    enforceFIPS140SignaturePolicy pk a spec = None /\ validatePublicKeyAlgorithm pk spec = Ok tt.
Proof.
  unfold PublicKey. destruct k as [k|]; [|done]. destruct (keyInteger _ _ _) as [kty| | |]; try done.
  cbn [mbind result_bind].
  destruct (if kty =? KeyTypeOKP then _ else _) as [pk'| | |] eqn:Hpk; try done. cbn [mbind result_bind].
  destruct (Algorithm _) as [a| | |]; try done. cbn [mbind result_bind].
  destruct (signature_spec a) as [spec|] eqn:Hs; [|done].
  destruct (enforceFIPS140SignaturePolicy pk' a spec) eqn:He; [done|].
  destruct (validatePublicKeyAlgorithm pk' spec) as [[]| | |] eqn:Hv; try done. intros [= <-].
  split; [|by exists a, spec]. revert Hpk.
  destruct (kty =? KeyTypeOKP); [apply okpPublicKey_well_formed|].
  destruct (kty =? KeyTypeEC2); [apply ec2PublicKey_well_formed|].
  destruct (kty =? KeyTypeRSA); [apply rsaPublicKey_well_formed|done].
Qed.

(** ** The policy *)

Lemma rsa_refused_false n e :
  rsa_refused (Some (Some n, e)) = false -> 2048 <= BitLen n /\ BitLen n mod 2 = 0 /\ 2 ^ 16 < e < 2 ^ 31.
Proof.
  unfold rsa_refused. rewrite !orb_false_iff, negb_false_iff, Z.eqb_eq, !Z.ltb_ge, !Z.leb_gt. lia.
Qed.

Lemma rsa_accepted n e : Z.odd n = true -> Z.odd e = true ->
  2048 <= BitLen n /\ BitLen n mod 2 = 0 /\ 2 ^ 16 < e < 2 ^ 31 -> rsa_refused (Some (Some n, e)) = false.
Proof.
  intros Hn He Hr. unfold rsa_refused.
  rewrite !orb_false_iff, negb_false_iff, Z.eqb_eq, !Z.ltb_ge, !Z.leb_gt, <- !Z.negb_odd, Hn, He.
  assert (0 < n); [|split_and!; try lia; done]. revert Hr. unfold BitLen. destruct (Z.leb_spec n 0); lia.
Qed.

Lemma first_error_elem l e : first_error l = Some e -> Some e ∈ l.
Proof.
  induction l as [|[e'|] l IH]; [done| |].
  - intros [= ->]. apply elem_of_cons. by left.
  - intros Hl. apply elem_of_cons. right. by apply IH.
Qed.

Lemma policy_error text : errors_Is (EPolicy text) fips140_ErrNotAllowed = true.
Proof. apply bool_decide_eq_true. cbn. set_solver. Qed.

Lemma check_policy b text err : check b (EPolicy text) = Some err ->
  errors_Is err fips140_ErrNotAllowed = true.
Proof. destruct b; [|done]. intros [= <-]. apply policy_error. Qed.

Lemma policy_refuses a spec pk err : enforceFIPS140SignaturePolicy pk a spec = Some err ->
  errors_Is err fips140_ErrNotAllowed = true.
Proof.
  unfold enforceFIPS140SignaturePolicy. destruct (negb fips_enabled); [done|].
  intros He%first_error_elem. apply elem_of_cons in He as [He|He%list_elem_of_singleton].
  - destruct (alg_fips spec); [|done|].
    + injection He as ->. apply policy_error.
    + symmetry in He. apply first_error_elem in He.
      apply elem_of_cons in He as [He|He%list_elem_of_singleton]; by eapply check_policy.
  - destruct (alg_kind spec), pk; try done; by eapply check_policy.
Qed.

Lemma approval_allows a spec pk text1 text2 :
  match alg_fips spec with
  | fips140Approved => None
  | fips140VerifyOnly => first_error [
      check (negb (a =? AlgorithmEdDSA)) (EPolicy text1);
      check (negb (is_ed25519 pk)) (EPolicy text2)]
  | fips140NotApproved => Some (EPolicy text1)
  end = None <->
  alg_fips spec = fips140Approved \/
  alg_fips spec = fips140VerifyOnly /\ a = AlgorithmEdDSA /\ is_ed25519 pk = true.
Proof.
  destruct (alg_fips spec); [naive_solver..|].
  rewrite first_error_None, !Forall_cons, !check_None, !negb_false_iff, Z.eqb_eq. naive_solver.
Qed.

Lemma rsa_allows spec pk text : well_formed pk -> key_fits spec pk ->
  match alg_kind spec, pk with
  | (signatureRSA | signatureRSAPSS), RSAPublicKey key => check (rsa_refused key) (EPolicy text)
  | _, _ => None
  end = None <->
  forall n e, pk = RSAPublicKey (Some (Some n, e)) ->
    2048 <= BitLen n /\ BitLen n mod 2 = 0 /\ 2 ^ 16 < e < 2 ^ 31.
Proof.
  intros Hw Hk. destruct pk as [| | | |[[[n|] e]|]|]; try done;
    try (split; [intros _ ? ? [=]|]; by destruct (alg_kind spec)).
  destruct Hw as (_ & Hn & _ & He).
  assert (Hc : check (rsa_refused (Some (Some n, e))) (EPolicy text) = None <->
    forall n' e', RSAPublicKey (Some (Some n, e)) = RSAPublicKey (Some (Some n', e')) ->
      2048 <= BitLen n' /\ BitLen n' mod 2 = 0 /\ 2 ^ 16 < e' < 2 ^ 31).
  { rewrite check_None. split; [intros Hr ? ? [= <- <-]; by apply rsa_refused_false|].
    intros Ha. by apply rsa_accepted, Ha. }
  cbn in Hk. destruct (alg_kind spec); try (by destruct Hk); exact Hc.
Qed.

Lemma policy_allows a spec pk : well_formed pk -> key_fits spec pk ->
  enforceFIPS140SignaturePolicy pk a spec = None <-> (fips_enabled = true -> fips_approved a spec pk).
Proof.
  intros Hw Hk. unfold enforceFIPS140SignaturePolicy, fips_approved.
  destruct fips_enabled; cbn [negb]; [|done].
  rewrite first_error_None, !Forall_cons, approval_allows, (rsa_allows spec pk) by done.
  naive_solver.
Qed.

(** ** Verification *)

Context (parse_total : forall signature, (exists s, ParseDERSignature signature = Ok s) \/
  exists err, ParseDERSignature signature = Err err).

Definition invalid_signature (r : result unit) : Prop :=
  exists err, r = Err err /\ errors_Is err ErrInvalidSignature = true.

Lemma valid_verdict b (r : result unit) : r = valid b -> if b then r = Ok tt else invalid_signature r.
Proof. intros ->. destruct b; [done|]. by eexists. Qed.

Lemma rsa_verdict n e verify : let r := rsa_verified (Some (n, e)) verify in
  if bool_decide (verify n e = None) then r = Ok tt else invalid_signature r.
Proof. cbn. by destruct (verify n e); [eexists|]. Qed.

(** With a key that fits, the switch says what the scheme says. *)
Lemma verify_with_verdict a spec pk message signature :
  signature_spec a = Some spec -> well_formed pk -> key_fits spec pk ->
  let r := verify_with pk spec message signature in
  if accepts spec pk message signature then r = Ok tt else invalid_signature r.
Proof using parse_total.
  intros Hs Hw Hk. pose proof (fun Hne => signature_hash a spec message Hs Hne) as Hh.
  unfold verify_with, accepts.
  destruct pk as [key|key|[[c enc]|]|[key|]|[[[n|] e]|]|]; try done; cbn [key_fits] in Hk.
  - destruct Hk as [-> Hc%other_curve_false]. rewrite Hc. by apply valid_verdict.
  - destruct Hk as [-> Hc%other_curve_false]. rewrite Hc. by apply valid_verdict.
  - destruct Hk as [Hkind Hc]. rewrite Hkind in *. destruct Hh as [d ->]; [done|].
    rewrite Hc, Z.eqb_refl. by apply valid_verdict.
  - rewrite Hk in *. destruct Hh as [d ->]; [done|]. cbn [mbind result_bind].
    destruct (parse_total signature) as [[p ->]|[err ->]]; [by apply valid_verdict|by eexists].
  - destruct Hk as [Hk|Hk]; rewrite Hk in *; (destruct Hh as [d ->]; [done|]).
    + apply (rsa_verdict (Some n) e (fun n e => rsa_VerifyPKCS1v15 n e (alg_hash spec) d signature)).
    + apply (rsa_verdict (Some n) e (fun n e => rsa_VerifyPSS n e (alg_hash spec) d signature)).
Qed.

(** A signature is accepted under an algorithm the key fits and the policy
    allows, when its scheme accepts; otherwise an error is returned. *)
Definition verdict (pk : crypto_PublicKey) (a : Z) (message signature : list Z) : Prop :=
  exists spec, signature_spec a = Some spec /\ key_fits spec pk /\
    (fips_enabled = true -> fips_approved a spec pk) /\ accepts spec pk message signature = true.

Lemma VerifySignature_verdict pk a message signature : well_formed pk ->
  (VerifySignature (Some pk) a message signature = Ok tt <-> verdict pk a message signature) /\
  (VerifySignature (Some pk) a message signature = Ok tt \/
   exists err, VerifySignature (Some pk) a message signature = Err err).
Proof using parse_total.
  intros Hw. unfold VerifySignature, verdict.
  destruct (signature_spec a) as [spec|] eqn:Hs; [|split; [naive_solver|by right; eexists]].
  destruct (validatePublicKeyAlgorithm_Ok pk spec Hw) as [Hfit Hv].
  destruct (enforceFIPS140SignaturePolicy pk a spec) as [err|] eqn:He.
  - split; [|by right; eexists]. split; [done|]. intros (spec' & [= <-] & Hk & Hf & _).
    by rewrite (proj2 (policy_allows a spec pk Hw Hk) Hf) in He.
  - destruct Hv as [Hv|Hv]; rewrite Hv; cbn [mbind result_bind].
    + pose proof (proj1 Hfit Hv) as Hk. pose proof (verify_with_verdict a spec pk message signature Hs Hw Hk) as Hr.
      cbv zeta in Hr. destruct (accepts spec pk message signature) eqn:Hacc.
      * rewrite Hr. split; [|by left]. split; [|done]. intros _. exists spec. split_and!; [done..| |done].
        by apply policy_allows.
      * destruct Hr as (err & -> & _). split; [|by right; eexists]. split; [done|].
        intros (spec' & [= <-] & _ & _ & Ha). by rewrite Ha in Hacc.
    + split; [|by right; eexists]. split; [done|]. intros (spec' & [= <-] & Hk%Hfit & _). by rewrite Hk in Hv.
Qed.

(** C18. A credential's COSE key that converts to a public key is one to
    verify with: an Ed25519 or Ed448 key of its length, a point of P-256,
    P-384 or P-521 in the encoding of that curve, a secp256k1 key, or an odd
    RSA modulus of at least 2048 bits with an odd exponent from 3. The
    algorithm the key declares is one for keys of its type and curve, and in
    FIPS 140-3 mode an approved one. Under it, a signature is accepted exactly
    when the scheme accepts it, and is an invalid signature otherwise. Under
    any algorithm, a signature is accepted exactly when the key is of the
    algorithm's type and curve, the policy allows the two, and the scheme of
    that algorithm accepts; in every other case an error is returned. *)
Theorem credential_key_verifies k pk :
  PublicKey k = Ok pk ->
  well_formed pk /\
  (exists a spec, Algorithm k = Ok a /\ signature_spec a = Some spec /\ key_fits spec pk /\
     (fips_enabled = true -> fips_approved a spec pk) /\
     forall message signature, let r := VerifySignature (Some pk) a message signature in
       if accepts spec pk message signature then r = Ok tt else invalid_signature r) /\
  (forall a message signature,
     (VerifySignature (Some pk) a message signature = Ok tt <-> verdict pk a message signature) /\
     (VerifySignature (Some pk) a message signature = Ok tt \/
      exists err, VerifySignature (Some pk) a message signature = Err err)).
Proof using parse_total.
  intros Hpk. destruct (PublicKey_Ok k pk Hpk) as (Hw & a & spec & Ha & Hs & He & Hv).
  pose proof (proj1 (proj1 (validatePublicKeyAlgorithm_Ok pk spec Hw)) Hv) as Hk.
  split; [done|]. split.
  - exists a, spec. split_and!; [done..|by apply policy_allows|]. intros message signature.
    unfold VerifySignature. rewrite Hs, He, Hv. cbn [mbind result_bind].
    by apply (verify_with_verdict a).
  - intros. by apply VerifySignature_verdict.
Qed.
End Signature.

(** ** A P-256 credential key *)

#[export] Instance sample_schemes : SignatureSchemes := {|
  sha1 := sample_hash;
  sha384 := sample_hash;
  sha512 := sample_hash;
  ed25519_Verify key m s := bool_decide (s = sample_hash (key ++ m));
  ed448_Verify key m s := bool_decide (s = sample_hash (key ++ m));
  goldilocks_FromBytes _ := Ok false;
  ecdsa_VerifyASN1 _ key d s := bool_decide (s = sample_hash (key ++ d));
  rsa_VerifyPKCS1v15 _ _ _ d s := if bool_decide (s = d) then None else Some io_EOF;
  rsa_VerifyPSS _ _ _ d s := if bool_decide (s = d) then None else Some io_EOF;
  secp256k1_key := list Z;
  secp256k1_signature := list Z;
  secp256k1_ParsePubKey encoded := Ok encoded;
  ParseDERSignature s := Ok s;
  secp256k1_Verify s d key := bool_decide (s = sample_hash (key ++ d)) |}.

Definition sample_point_key : list Z := sample_public false.

(** The decoder's integers, an extra member, the algorithm ESP256. *)
Definition sample_credential : Key :=
  Some (<[KeyParameterKty := VUint64 KeyTypeEC2]>
       (<[KeyParameterAlg := VInt64 (-9)]>
       (<[EC2KeyParameterCrv := VUint64 EllipticCurveP256]>
       (<[EC2KeyParameterX := VBytes (take 32 (drop 1 sample_point_key))]>
       (<[EC2KeyParameterY := VBytes (take 32 (drop 33 sample_point_key))]>
       (<[7 := VOther]> ∅)))))).

Definition sample_public_key : crypto_PublicKey := ECDSAPublicKey (Some (P256, sample_point_key)).

Lemma sample_converts : PublicKey true sample_credential = Ok sample_public_key.
Proof.
  assert (Hc : match PublicKey true sample_credential with
    | Ok (ECDSAPublicKey (Some (P256, e))) => bool_decide (e = sample_point_key)
    | _ => false
    end = true) by (vm_compute; reflexivity).
  destruct (PublicKey true sample_credential) as [pk| | |]; try done.
  destruct pk as [| |[[[] e]|]| | |]; try done. apply bool_decide_eq_true in Hc. by subst e.
Qed.

Lemma credential_key_verifies_witness :
  exists pk, PublicKey true sample_credential = Ok pk /\
    (forall message signature,
       VerifySignature true (Some pk) (-9) message signature = Ok tt <->
       signature = sample_hash (sample_point_key ++ sample_hash message)) /\
    forall message signature, exists err,
      VerifySignature true (Some pk) (-257) message signature = Err err.
Proof.
  exists sample_public_key.
  destruct (credential_key_verifies true ltac:(by left; eexists) sample_credential sample_public_key
    sample_converts) as (_ & _ & Hall).
  split; [exact sample_converts|]. split.
  - intros message signature. destruct (Hall (-9) message signature) as [-> _]. split.
    + intros (spec & [= <-] & _ & _ & Ha). by apply bool_decide_eq_true in Ha.
    + intros ->. eexists. split; [reflexivity|]. split; [by split|]. split.
      * intros _. split; [by left|]. by intros n e [=].
      * by apply bool_decide_eq_true.
  - intros message signature. destruct (Hall (-257) message signature) as [Hv [Ho|He]]; [|done].
    apply Hv in Ho as (spec & [= <-] & [[=] _] & _).
Defined.
