(* ===== verification/Attestation.v ===== *)
(** * Attestation statements (src/attestation/object.go, verify.go)

    The statements of an attestation object, read from its decoded CBOR map,
    and their verification: packed attestation, by the credential's own key
    or by the leaf certificate, and FIDO U2F. Trust in the certificates is not
    established here; parsing one is a parameter. *)
From S2P Require Import Prelude GoError Cose Crypto Signature.

Definition ErrStatementMalformed : error := ESentinel "attestation: malformed statement".
Definition ErrFormatUnsupported : error := ESentinel "attestation: format unsupported".
Definition ErrAlgorithmUnsupported : error := ESentinel "attestation: algorithm unsupported".
Definition ErrCredentialKeyMalformed : error := ESentinel "attestation: malformed credential key".
Definition ErrSignatureInvalid : error := ESentinel "attestation: invalid signature".

(** [Type]. *)
Inductive attestation_Type := TypeNone | TypeSelf | TypeBasic | TypeUnsupported.

Definition AttestationStatementFormatIdentifierNone : string := "none".
Definition AttestationStatementFormatIdentifierPacked : string := "packed".
Definition AttestationStatementFormatIdentifierFIDOU2F : string := "fido-u2f".

(** ** Statements *)

(** The dynamic values of a decoded statement: the scalars of a COSE key,
    text, a list of byte strings, a list of anything. *)
Inductive attestation_value :=
  | AScalar (v : any)
  | AText (s : string)
  | AByteSlices (l : list (list Z))
  | AItems (l : list attestation_value).

Definition statement_map : Type := gmap string attestation_value.

Record PackedStatement := MkPackedStatement {
  ps_Algorithm : Z; ps_Signature : list Z; ps_X509Chain : list (list Z) }.
Record FIDOU2FStatement := MkFIDOU2FStatement {
  us_X509Chain : list (list Z); us_Signature : list Z }.
Record TPMStatement := MkTPMStatement {
  ts_Version : string; ts_Algorithm : Z; ts_X509Chain : list (list Z);
  ts_Signature : list Z; ts_CertInfo : list Z; ts_PubArea : list Z }.

Definition integer (value : option attestation_value) : option Z :=
  match value with
  | Some (AScalar (VInt v | VInt8 v | VInt16 v | VInt32 v | VInt64 v
                  | VUint8 v | VUint16 v | VUint32 v)) => Some v
  | Some (AScalar (VUint v | VUint64 v)) => if v <=? max_int64 then Some v else None
  | _ => None
  end.

Definition byte_string (value : option attestation_value) : option (list Z) :=
  match value with Some (AScalar (VBytes b)) => Some b | _ => None end.

Definition text (value : option attestation_value) : option string :=
  match value with Some (AText s) => Some s | _ => None end.

Definition x509Chain (raw : option attestation_value) : option (list (list Z)) :=
  match raw with
  | Some (AByteSlices chain) => Some chain
  | Some (AItems items) => mapM (fun item => byte_string (Some item)) items
  | _ => None
  end.

Definition ParsePackedStatement (values : statement_map) : option PackedStatement :=
  algorithm ← integer (values !! "alg");
  signature ← byte_string (values !! "sig");
  chain ← match values !! "x5c" with
    | None => Some []
    | Some raw => x509Chain (Some raw)
    end;
  Some (MkPackedStatement algorithm signature chain).

Definition ParseFIDOU2FStatement (values : statement_map) : option FIDOU2FStatement :=
  chain ← x509Chain (values !! "x5c");
  signature ← byte_string (values !! "sig");
  Some (MkFIDOU2FStatement chain signature).

Definition ParseTPMStatement (values : statement_map) : option TPMStatement :=
  version ← text (values !! "ver");
  algorithm ← integer (values !! "alg");
  chain ← x509Chain (values !! "x5c");
  signature ← byte_string (values !! "sig");
  certInfo ← byte_string (values !! "certInfo");
  publicArea ← byte_string (values !! "pubArea");
  Some (MkTPMStatement version algorithm chain signature certInfo publicArea).

(** ** Objects *)

Record Object := MkObject {
  obj_Format : string;
  obj_AuthData : slice;
  obj_Statement : option statement_map }.

(** [ParseObject], over the CBOR decoder. *)
Definition ParseObject (Unmarshal : list Z -> result Object) (raw : list Z) : result Object :=
  match Unmarshal raw with
  | Err _ => Err (EMessage ErrStatementMalformed "decode object")
  | Ok object =>
      if bool_decide (obj_Format object = "") || bool_decide (obj_AuthData object = None)
         || bool_decide (obj_Statement object = None)
      then Err (EMessage ErrStatementMalformed "incomplete object")
      else Ok object
  | Panic => Panic
  | Blocked => Blocked
  end.

(** The type, the chain, and the error. *)
Definition TypeAndCertificateChain (o : Object)
    : attestation_Type * list (list Z) * option error :=
  let statement := default ∅ (obj_Statement o) in
  if bool_decide (obj_Format o = AttestationStatementFormatIdentifierNone) then
    if negb (Z.of_nat (size statement) =? 0) then
      (TypeNone, [], Some (EMessage ErrStatementMalformed "none statement is not empty"))
    else (TypeNone, [], None)
  else if bool_decide (obj_Format o = AttestationStatementFormatIdentifierPacked) then
    match ParsePackedStatement statement with
    | None => (TypeUnsupported, [], Some ErrStatementMalformed)
    | Some st =>
        if bool_decide (statement !! "ecdaaKeyId" <> None) then
          (TypeUnsupported, [], Some ErrFormatUnsupported)
        else if len (ps_X509Chain st) =? 0 then (TypeSelf, [], None)
        else (TypeBasic, ps_X509Chain st, None)
    end
  else if bool_decide (obj_Format o = AttestationStatementFormatIdentifierFIDOU2F) then
    match ParseFIDOU2FStatement statement with
    | None => (TypeBasic, [], Some ErrStatementMalformed)
    | Some st =>
        if len (us_X509Chain st) =? 0 then (TypeBasic, [], Some ErrStatementMalformed)
        else (TypeBasic, us_X509Chain st, None)
    end
  else (TypeUnsupported, [], Some ErrFormatUnsupported).

(** ** Verification *)

Record Verification := MkVerification {
  v_Type : attestation_Type;
  v_SignatureValid : option bool;
  v_CertificateChain : list (list Z) }.

(** What the code uses of crypto/x509 - the public key of a certificate - and
    [Bytes] of an ECDSA key. *)
Class Certificates `{SignatureSchemes} := {
  ParseCertificate : list Z -> result (option crypto_PublicKey);
  ecdsa_Bytes : elliptic_Curve -> list Z -> result (list Z) }.

Section Verify.
Context `{Primitives} `{Certificates}.
Context (fips_enabled : bool).

Definition verifySignature (publicKey : option crypto_PublicKey) (algorithm : Z)
    (message signature : list Z) : result (option bool * option error) :=
  match VerifySignature fips_enabled publicKey algorithm message signature with
  | Ok _ => Ok (Some true, None)
  | Err err =>
      if errors_Is err ErrUnsupportedAlgorithm || errors_Is err ErrUnsupportedKey
         || errors_Is err fips140_ErrNotAllowed
      then Ok (None, Some (EJoin ErrAlgorithmUnsupported err))
      else Ok (Some false, Some (EMessage ErrSignatureInvalid "verify"))
  | Panic => Panic
  | Blocked => Blocked
  end.

(** What both verifications do with a leaf certificate. *)
Definition verify_leaf (chain : list (list Z)) (algorithm : Z) (signedData signature : list Z)
    : result (Verification * option error) :=
  let verification valid := MkVerification TypeBasic valid chain in
  match ParseCertificate (nth 0 chain []) with
  | Err _ => Ok (verification None, Some (EMessage ErrStatementMalformed "parse leaf certificate"))
  | Ok publicKey =>
      verifySignature publicKey algorithm signedData signature ≫= fun '(valid, err) =>
      Ok (verification valid, err)
  | Panic => Panic
  | Blocked => Blocked
  end.

Definition VerifyPacked (statement : PackedStatement) (ecdaaPresent : bool)
    (credentialPublicKey : option crypto_PublicKey) (credentialAlgorithm : Z)
    (signedData : list Z) : result (Verification * option error) :=
  if ecdaaPresent then Ok (MkVerification TypeUnsupported None [], Some ErrFormatUnsupported)
  else if len (ps_X509Chain statement) =? 0 then
    if negb (ps_Algorithm statement =? credentialAlgorithm) then
      Ok (MkVerification TypeSelf None [],
          Some (EMessage ErrStatementMalformed "self attestation algorithm"))
    else
      verifySignature credentialPublicKey (ps_Algorithm statement) signedData
        (ps_Signature statement) ≫= fun '(valid, err) =>
      Ok (MkVerification TypeSelf valid [], err)
  else verify_leaf (ps_X509Chain statement) (ps_Algorithm statement) signedData
         (ps_Signature statement).

(** The data a FIDO U2F authenticator signs. *)
Definition u2f_signed_data (rpIDHash clientDataHash credentialID encodedKey : list Z) : list Z :=
  [0] ++ rpIDHash ++ clientDataHash ++ credentialID ++ encodedKey.

Definition VerifyFIDOU2F (statement : FIDOU2FStatement)
    (credentialPublicKey : option crypto_PublicKey) (credentialAlgorithm : Z)
    (rpIDHash clientDataHash credentialID : list Z) : result (Verification * option error) :=
  let verification := MkVerification TypeBasic None (us_X509Chain statement) in
  let malformed text := Ok (verification, Some (EMessage ErrStatementMalformed text)) in
  if len (us_X509Chain statement) =? 0 then malformed "missing certificate chain"
  else match credentialPublicKey with
  | Some (ECDSAPublicKey key) =>
      if negb (credentialAlgorithm =? AlgorithmES256) then
        malformed "FIDO U2F requires an ES256 credential key"
      else match key with
      | None => Panic
      | Some (curve, encoded) =>
          match ecdsa_Bytes curve encoded with
          | Err _ => Ok (verification, Some (EMessage ErrCredentialKeyMalformed "key bytes"))
          | Ok encodedKey =>
              verify_leaf (us_X509Chain statement) AlgorithmES256
                (u2f_signed_data rpIDHash clientDataHash credentialID encodedKey)
                (us_Signature statement)
          | Panic => Panic
          | Blocked => Blocked
          end
      end
  | _ => malformed "FIDO U2F requires an ES256 credential key"
  end.

(** ** What a result says *)

(** There is no error exactly when the signature was checked and is valid; an
    invalid signature and an attestation that could not be checked come with
    their errors. *)
Definition result_sound (v : Verification) (err : option error) : Prop :=
  (err = None <-> v_SignatureValid v = Some true) /\
  forall e, err = Some e ->
    match v_SignatureValid v with
    | Some _ => errors_Is e ErrSignatureInvalid = true
    | None => exists reason, errors_Is e reason = true /\
        reason ∈ [ErrStatementMalformed; ErrFormatUnsupported; ErrAlgorithmUnsupported;
                  ErrCredentialKeyMalformed]
    end.

Lemma errors_Is_message e text : errors_Is (EMessage e text) e = true.
Proof. apply bool_decide_eq_true. cbn. destruct e; cbn; set_solver. Qed.

Lemma errors_Is_join e1 e2 : errors_Is (EJoin e1 e2) e1 = true.
Proof. apply bool_decide_eq_true. cbn. destruct e1; cbn; set_solver. Qed.

Lemma unchecked_sound ty chain e reason : errors_Is e reason = true ->
  reason ∈ [ErrStatementMalformed; ErrFormatUnsupported; ErrAlgorithmUnsupported;
            ErrCredentialKeyMalformed] ->
  result_sound (MkVerification ty None chain) (Some e).
Proof. intros He Hr. split; [done|]. intros e' [= <-]. by exists reason. Qed.

Lemma verifySignature_sound ty chain publicKey algorithm message signature ok err :
  verifySignature publicKey algorithm message signature = Ok (ok, err) ->
  result_sound (MkVerification ty ok chain) err /\
  (ok = Some true <-> VerifySignature fips_enabled publicKey algorithm message signature = Ok tt).
Proof.
  unfold verifySignature. destruct (VerifySignature _ _ _ _ _) as [[]|e| |]; try done.
  - by intros [= <- <-].
  - destruct (_ || _).
    + intros [= <- <-]. split; [|done]. apply (unchecked_sound _ _ _ ErrAlgorithmUnsupported); [|set_solver].
      apply errors_Is_join.
    + intros [= <- <-]. split; [|done]. split; [done|]. intros e' [= <-]. apply errors_Is_message.
Qed.

Lemma verify_leaf_sound chain algorithm signedData signature v err :
  verify_leaf chain algorithm signedData signature = Ok (v, err) ->
  v_Type v = TypeBasic /\ v_CertificateChain v = chain /\ result_sound v err /\
  (v_SignatureValid v = Some true <-> exists key, ParseCertificate (nth 0 chain []) = Ok key /\
     VerifySignature fips_enabled key algorithm signedData signature = Ok tt).
Proof.
  unfold verify_leaf. destruct (ParseCertificate _) as [key|e| |]; try done.
  - destruct (verifySignature _ _ _ _) as [[ok err']| | |] eqn:Hv; try done. intros [= <- <-].
    destruct (verifySignature_sound TypeBasic chain _ _ _ _ _ _ Hv) as [Hs Hk].
    split_and!; [done..|]. cbn. rewrite Hk. naive_solver.
  - intros [= <- <-]. split_and!; [done..| |].
    + eapply unchecked_sound; [apply errors_Is_message|set_solver].
    + cbn. naive_solver.
Qed.

(** The key that attests a packed statement. *)
Definition attesting_key (st : PackedStatement) (credentialKey : option crypto_PublicKey)
    (credentialAlgorithm : Z) (key : option crypto_PublicKey) : Prop :=
  match ps_X509Chain st with
  | [] => ps_Algorithm st = credentialAlgorithm /\ key = credentialKey
  | leaf :: _ => ParseCertificate leaf = Ok key
  end.

Lemma packed_type statement st auth : ParsePackedStatement statement = Some st ->
  TypeAndCertificateChain (MkObject AttestationStatementFormatIdentifierPacked auth (Some statement)) =
  if bool_decide (statement !! "ecdaaKeyId" <> None) then (TypeUnsupported, [], Some ErrFormatUnsupported)
  else if len (ps_X509Chain st) =? 0 then (TypeSelf, [], None)
  else (TypeBasic, ps_X509Chain st, None).
Proof.
  intros Hp. unfold TypeAndCertificateChain. cbn [obj_Statement obj_Format].
  change (default ∅ (Some statement)) with statement. rewrite Hp. reflexivity.
Qed.

Lemma u2f_type statement st auth : ParseFIDOU2FStatement statement = Some st ->
  TypeAndCertificateChain (MkObject AttestationStatementFormatIdentifierFIDOU2F auth (Some statement)) =
  if len (us_X509Chain st) =? 0 then (TypeBasic, [], Some ErrStatementMalformed)
  else (TypeBasic, us_X509Chain st, None).
Proof.
  intros Hp. unfold TypeAndCertificateChain. cbn [obj_Statement obj_Format].
  change (default ∅ (Some statement)) with statement. rewrite Hp. reflexivity.
Qed.

Lemma packed_verified statement st auth credentialKey credentialAlgorithm data v err :
  ParsePackedStatement statement = Some st ->
  VerifyPacked st (bool_decide (statement !! "ecdaaKeyId" <> None)) credentialKey
    credentialAlgorithm data = Ok (v, err) ->
  (TypeAndCertificateChain (MkObject AttestationStatementFormatIdentifierPacked auth (Some statement))).1
    = (v_Type v, v_CertificateChain v) /\ result_sound v err /\
  (v_SignatureValid v = Some true <-> statement !! "ecdaaKeyId" = None /\
     exists key, attesting_key st credentialKey credentialAlgorithm key /\
       VerifySignature fips_enabled key (ps_Algorithm st) data (ps_Signature st) = Ok tt).
Proof.
  intros Hp. rewrite (packed_type _ _ _ Hp). unfold VerifyPacked, attesting_key.
  case_bool_decide as He.
  { intros [= <- <-]. split_and!; [done| |].
    - eapply unchecked_sound; [apply errors_Is_refl|set_solver].
    - cbn. naive_solver. }
  destruct (ps_X509Chain st) as [|leaf chain] eqn:Hc.
  - change (len (@nil (list Z)) =? 0) with true. cbv iota. destruct (Z.eqb_spec (ps_Algorithm st) credentialAlgorithm); cbn [negb].
    + destruct (verifySignature _ _ _ _) as [[ok err']| | |] eqn:Hv; try done. intros [= <- <-].
      destruct (verifySignature_sound TypeSelf [] _ _ _ _ _ _ Hv) as [Hs Hk].
      split_and!; [done..|]. cbn. rewrite Hk. naive_solver.
    + intros [= <- <-]. split_and!; [done| |cbn; naive_solver].
      eapply unchecked_sound; [apply errors_Is_message|set_solver].
  - destruct (Z.eqb_spec (len (leaf :: chain)) 0) as [Hl|_]; [by apply len_0 in Hl|].
    intros Hv. destruct (verify_leaf_sound _ _ _ _ _ _ Hv) as (-> & -> & Hs & Hk).
    split_and!; [done..|]. rewrite Hk. naive_solver.
Qed.

Lemma u2f_verified statement st auth credentialKey credentialAlgorithm rpIDHash clientDataHash credentialID
    v err :
  ParseFIDOU2FStatement statement = Some st ->
  VerifyFIDOU2F st credentialKey credentialAlgorithm rpIDHash clientDataHash credentialID = Ok (v, err) ->
  (TypeAndCertificateChain (MkObject AttestationStatementFormatIdentifierFIDOU2F auth (Some statement))).1
    = (v_Type v, v_CertificateChain v) /\ result_sound v err /\
  (v_SignatureValid v = Some true <-> exists leaf chain curve encoded bytes key,
     us_X509Chain st = leaf :: chain /\ ParseCertificate leaf = Ok key /\
     credentialKey = Some (ECDSAPublicKey (Some (curve, encoded))) /\ credentialAlgorithm = AlgorithmES256 /\
     ecdsa_Bytes curve encoded = Ok bytes /\
     VerifySignature fips_enabled key AlgorithmES256
       (u2f_signed_data rpIDHash clientDataHash credentialID bytes) (us_Signature st) = Ok tt).
Proof.
  intros Hp. rewrite (u2f_type _ _ _ Hp). unfold VerifyFIDOU2F.
  assert (Hm : forall text, result_sound (MkVerification TypeBasic None (us_X509Chain st))
    (Some (EMessage ErrStatementMalformed text))).
  { intros text. eapply unchecked_sound; [apply errors_Is_message|set_solver]. }
  destruct (us_X509Chain st) as [|leaf chain] eqn:Hc.
  { intros [= <- <-]. split_and!; [done..|]. cbn. naive_solver. }
  destruct (Z.eqb_spec (len (leaf :: chain)) 0) as [Hl|_]; [by apply len_0 in Hl|].
  destruct credentialKey as [[| |key| | |]|];
    try (intros [= <- <-]; split_and!; [done..|cbn; naive_solver]).
  destruct (Z.eqb_spec credentialAlgorithm AlgorithmES256); cbn [negb];
    [|intros [= <- <-]; split_and!; [done..|cbn; naive_solver]].
  destruct key as [[curve encoded]|]; [|done].
  destruct (ecdsa_Bytes curve encoded) as [bytes|err'| |] eqn:Hb; try done.
  - intros Hv. destruct (verify_leaf_sound _ _ _ _ _ _ Hv) as (-> & -> & Hs & Hk).
    split_and!; [done..|]. rewrite Hk. cbn [nth]. split.
    + intros (key & Hl & Hv'). by exists leaf, chain, curve, encoded, bytes, key.
    + intros (leaf' & chain' & curve' & encoded' & bytes' & key & [= <- <-] & Hl & [= <- <-] & _ & Hb' & Hv').
      exists key. split; [done|]. rewrite Hb in Hb'. by injection Hb' as <-.
  - intros [= <- <-]. split_and!; [done| |].
    + eapply unchecked_sound; [apply errors_Is_message|set_solver].
    + split; [done|]. intros (leaf' & chain' & curve' & encoded' & bytes & key & _ & _ & [= <- <-] & _ & Hb' & _).
      by rewrite Hb in Hb'.
Qed.

(** C20. A verified attestation means what it says. For a packed statement
    and for a FIDO U2F statement, a verification that returns has the type
    and the certificate chain that [TypeAndCertificateChain] gives for the
    object; there is no error exactly when the signature is valid, and an
    error says whether the signature is invalid or could not be checked. It
    is valid exactly when the COSE verification accepts it - for a packed
    statement without an ECDAA key, over the data given, under the credential's
    own key with the credential's algorithm, or under the key of the leaf
    certificate; for FIDO U2F, with an ES256 credential, over the zero byte,
    the two hashes, the credential ID and the encoded key, under the key of the
    leaf certificate. *)
Theorem attestation_verified statement auth credentialKey credentialAlgorithm v err :
  (forall st data,
     ParsePackedStatement statement = Some st ->
     VerifyPacked st (bool_decide (statement !! "ecdaaKeyId" <> None)) credentialKey
       credentialAlgorithm data = Ok (v, err) ->
     (TypeAndCertificateChain (MkObject AttestationStatementFormatIdentifierPacked auth (Some statement))).1
       = (v_Type v, v_CertificateChain v) /\ result_sound v err /\
     (v_SignatureValid v = Some true <-> statement !! "ecdaaKeyId" = None /\
        exists key, attesting_key st credentialKey credentialAlgorithm key /\
          VerifySignature fips_enabled key (ps_Algorithm st) data (ps_Signature st) = Ok tt)) /\
  (forall st rpIDHash clientDataHash credentialID,
     ParseFIDOU2FStatement statement = Some st ->
     VerifyFIDOU2F st credentialKey credentialAlgorithm rpIDHash clientDataHash credentialID = Ok (v, err) ->
     (TypeAndCertificateChain (MkObject AttestationStatementFormatIdentifierFIDOU2F auth (Some statement))).1
       = (v_Type v, v_CertificateChain v) /\ result_sound v err /\
     (v_SignatureValid v = Some true <-> exists leaf chain curve encoded bytes key,
        us_X509Chain st = leaf :: chain /\ ParseCertificate leaf = Ok key /\
        credentialKey = Some (ECDSAPublicKey (Some (curve, encoded))) /\
        credentialAlgorithm = AlgorithmES256 /\ ecdsa_Bytes curve encoded = Ok bytes /\
        VerifySignature fips_enabled key AlgorithmES256
          (u2f_signed_data rpIDHash clientDataHash credentialID bytes) (us_Signature st) = Ok tt)).
Proof.
  split.
  - intros st data. apply packed_verified.
  - intros st rpIDHash clientDataHash credentialID. apply u2f_verified.
Qed.
End Verify.

(** ** A self attestation, and a U2F attestation with a wrong signature *)

#[export] Instance sample_certificates : Certificates := {|
  ParseCertificate b := Ok (Some (ECDSAPublicKey (Some (P256, b))));
  ecdsa_Bytes _ encoded := Ok encoded |}.

Definition self_statement : statement_map :=
  <["alg" := AScalar (VInt64 AlgorithmES256)]>
  (<["sig" := AScalar (VBytes (sample_hash (sample_point_key ++ sample_hash [1; 2]))) ]> ∅).
Definition u2f_statement : statement_map :=
  <["sig" := AScalar (VBytes [3])]> (<["x5c" := AItems [AScalar (VBytes [4])]]> ∅).

Definition credential_key : option crypto_PublicKey :=
  Some (ECDSAPublicKey (Some (P256, sample_point_key))).

Lemma attestation_verified_witness :
  (exists st, ParsePackedStatement self_statement = Some st /\
     VerifyPacked true st false credential_key AlgorithmES256 [1; 2] =
       Ok (MkVerification TypeSelf (Some true) [], None) /\
     VerifySignature true credential_key AlgorithmES256 [1; 2] (ps_Signature st) = Ok tt) /\
  (exists st e, ParseFIDOU2FStatement u2f_statement = Some st /\
     VerifyFIDOU2F true st credential_key AlgorithmES256 [5] [6] [7] =
       Ok (MkVerification TypeBasic (Some false) [[4]], Some e) /\
     errors_Is e ErrSignatureInvalid = true).
Proof.
  split.
  - eexists. split; [reflexivity|]. split; [by vm_compute|].
    destruct (attestation_verified true self_statement None credential_key AlgorithmES256
      (MkVerification TypeSelf (Some true) []) None) as [Hp _].
    destruct (Hp _ [1; 2] eq_refl) as (_ & _ & Hk); [by vm_compute|].
    destruct (proj1 Hk eq_refl) as (_ & key & [_ ->] & Hv). exact Hv.
  - eexists _, _. split; [reflexivity|]. split; [by vm_compute|]. by vm_compute.
Defined.
