(* ===== verification/Registration.v ===== *)
(** * What a created credential has

    [Device.MakeCredential] checks the answer of the authenticator against
    the request. The theorem states, from the caller's inputs to the outputs
    returned, what a credential that is returned is known to have - the
    protection enforced, the large-blob support required, nothing that was not
    asked for - and accounts for every output, secrets only under user
    verification. *)
From S2P Require Import Prelude GoError Transport Protocol Pin Preflight Cose Crypto Messages.
From S2P Require Import Prf Extensions PreviewSign Client Management Device Credentials.

Lemma not_nil_true {A} (o : option A) : not_nil o = true <-> o <> None.
Proof. apply bool_decide_eq_true. Qed.

Lemma not_nil_false {A} (o : option A) : not_nil o = false <-> o = None.
Proof. unfold not_nil. rewrite bool_decide_eq_false. destruct o; naive_solver. Qed.

Lemma check_err_Ok {W A} (c : option error) (k : unit -> M W A) w a w' :
  (check_err c ≫= k) w = (Ok a, w') -> c = None /\ k tt w = (Ok a, w').
Proof. destruct c; [done|]. by intros H. Qed.

Lemma lift_Ok {W A B} (r : result A) (k : A -> M W B) w b w' :
  (lift r ≫= k) w = (Ok b, w') -> exists a, r = Ok a /\ k a w = (Ok b, w').
Proof. destruct r; try done. intros H. by exists a. Qed.

Section Registration.
Context `{Primitives} `{PreviewSignCodec} {W : Type}.
Context (fips_enabled : bool).
Context (transport : transport_ops W).
Context (emit : option (list Z -> CBORResponse + error -> M W unit)).

(** ** The request *)

(** The extensions of the request ask for what the caller asked for. *)
Definition requested (ext : CreateClientInputs) (req : CreateExtensionInputs) : Prop :=
  match in_CredentialProtection ext with
  | None => ci_CredProtect req = 0
  | Some p => credentialProtectionValue (CredentialProtectionPolicy p) = Ok (ci_CredProtect req)
  end /\
  (ci_CredBlob req <> None -> in_CredBlob ext <> None) /\
  (ci_MinPinLength req = asked (in_MinPinLength ext)) /\
  (ci_PinComplexityPolicy req = asked (in_PinComplexityPolicy ext)) /\
  (ci_HMACSecret req = true -> asked (in_HMACCreateSecret ext) = true \/
     in_HMACSecretMC ext <> None \/ in_PRF ext <> None) /\
  (asked (in_HMACCreateSecret ext) = true -> ci_HMACSecret req = true) /\
  (hs_KeyAgreement (ci_HMACSecretMC req) <> None -> in_HMACSecretMC ext <> None \/ in_PRF ext <> None) /\
  (in_HMACSecretMC ext <> None -> hs_KeyAgreement (ci_HMACSecretMC req) <> None).

Lemma NewPinUvAuthProtocol_key random_key number p :
  NewPinUvAuthProtocol fips_enabled random_key number = Ok p -> exists k, platformCoseKey p = Some k.
Proof.
  unfold NewPinUvAuthProtocol. repeat case_match; try done. intros [= <-]. by eexists.
Qed.

Lemma send_salts_key random_key iv salt d protocol session input d' :
  send_salts fips_enabled transport emit random_key iv salt d = (Ok (protocol, session, input), d') ->
  hs_KeyAgreement input <> None.
Proof.
  unfold send_salts. intros Hc. m_inv Hc. destruct a as [p k].
  apply lift_Ok in Hc as (pp & Hpp & Hc). apply lift_Ok in Hc as ([platform secret] & Hs & Hc).
  apply lift_Ok in Hc as (enc & _ & Hc). apply lift_Ok in Hc as (auth & _ & Hc).
  injection Hc as <- <- <-. apply bind_Ok_iff in Hs as (z & _ & [= <- _]).
  apply NewPinUvAuthProtocol_key in Hpp as (k' & Hk). cbn. by rewrite Hk.
Qed.

Lemma create_hmac_secret_Ok random_key iv info ext evaluation p d q s h mc d' :
  create_hmac_secret fips_enabled transport emit random_key iv info ext evaluation p d =
    (Ok (q, s, h, mc), d') ->
  (h = true -> asked (in_HMACCreateSecret ext) = true \/ in_HMACSecretMC ext <> None \/
     in_PRF ext <> None) /\
  (asked (in_HMACCreateSecret ext) = true -> h = true) /\
  (hs_KeyAgreement mc <> None -> in_HMACSecretMC ext <> None \/ in_PRF ext <> None) /\
  (in_HMACSecretMC ext <> None -> hs_KeyAgreement mc <> None).
Proof.
  unfold create_hmac_secret. intros Hc. apply check_err_Ok in Hc as [_ Hc].
  m_inv Hc. rename a into m, H2 into Hm.
  assert (Hfirst : (m.1.2 = true -> asked (in_HMACCreateSecret ext) = true \/ in_HMACSecretMC ext <> None) /\
    (asked (in_HMACCreateSecret ext) = true -> m.1.2 = true) /\
    (hs_KeyAgreement m.2 <> None <-> in_HMACSecretMC ext <> None)).
  { revert Hm. destruct (in_HMACSecretMC ext) as [salts|].
    - intros Hm. apply check_err_Ok in Hm as [_ Hm]. apply check_err_Ok in Hm as [_ Hm].
      m_inv Hm. destruct a as [[protocol session] input]. injection Hm as <- <-. cbn.
      apply send_salts_key in H2. split_and!; [by right|done|done].
    - intros [= <- <-]. cbn. split_and!; [by left|done|done]. }
  revert Hc. destruct (not_nil (in_PRF ext) && _) eqn:Hprf.
  - apply andb_true_iff in Hprf as [Hprf%not_nil_true _]. destruct evaluation as [ev|].
    + intros Hc. m_inv Hc. destruct a as [[protocol session] input]. injection Hc as <- <- <- <- <-.
      apply send_salts_key in H2. split_and!; auto.
    + destruct m as [[[protocol session] w0] input]. intros [= <- <- <- <- <-]. cbn in Hfirst.
      split_and!; auto; naive_solver.
  - intros [= -> ->]. cbn in Hfirst. naive_solver.
Qed.

Lemma create_cred_protect_Ok info ext v : create_cred_protect info ext = Ok v ->
  match in_CredentialProtection ext with
  | None => v = 0
  | Some p => credentialProtectionValue (CredentialProtectionPolicy p) = Ok v
  end.
Proof.
  unfold create_cred_protect. destruct (in_CredentialProtection ext) as [p|]; [|by intros [= <-]].
  destruct (credentialProtectionValue _) as [c| | |]; try done. cbn [mbind result_bind].
  destruct (_ && _); [done|]. by intros [= <-].
Qed.

Lemma create_cred_blob_Ok info ext v : create_cred_blob info ext = Ok v ->
  v <> None -> in_CredBlob ext <> None.
Proof. unfold create_cred_blob. destruct (in_CredBlob ext); [done|]. by intros [= <-]. Qed.

Lemma create_extensions_Ok random_key iv info token ext options evaluation p d q s req lb ps d' :
  create_extensions fips_enabled transport emit random_key iv info token ext options evaluation p d =
    (Ok (q, s, req, lb, ps), d') ->
  requested ext req /\ validateCreateLargeBlob info (in_LargeBlob ext) options = Ok lb /\
  validateCreatePreviewSign fips_enabled info token (in_PreviewSign ext) options = Ok ps.
Proof.
  unfold create_extensions. intros Hc. apply lift_Ok in Hc as ([[backend support] key] & Hlb & Hc).
  m_inv Hc. destruct a as [[[q' s'] h] mc]. rename H2 into Hs. apply create_hmac_secret_Ok in Hs.
  apply lift_Ok in Hc as (protect & Hprotect & Hc). apply lift_Ok in Hc as (blob & Hblob & Hc).
  apply check_err_Ok in Hc as [_ Hc]. apply check_err_Ok in Hc as [_ Hc]. apply check_err_Ok in Hc as [_ Hc].
  apply lift_Ok in Hc as (ps' & Hps & Hc). injection Hc as <- <- <- <- <- <-.
  split_and!; [|done..]. destruct Hs as (Hs1 & Hs2 & Hs3 & Hs4).
  split; [by eapply create_cred_protect_Ok|]. split; [by eapply create_cred_blob_Ok|]. by split_and!.
Qed.

(** ** The answer *)

(** The extension data of the authenticator, when its flag is set. *)
Definition extension_data (authData : MakeCredentialAuthData) : option CreateExtensionOutputs :=
  if ExtensionDataIncluded (mad_Flags authData) then mad_Extensions authData else None.

(** Nothing that was not asked for, nothing invalid. *)
Definition solicited (ext : CreateClientInputs) (o : CreateExtensionOutputs) : Prop :=
  (co_CredProtect o <> 0 -> in_CredentialProtection ext <> None /\ 1 <= co_CredProtect o <= 3) /\
  (co_CredBlob o <> None -> in_CredBlob ext <> None) /\
  (co_MinPinLength o <> 0 -> in_MinPinLength ext = Some true) /\
  (co_PinComplexityPolicy o <> None -> in_PinComplexityPolicy ext = Some true) /\
  (co_HMACSecret o <> None -> in_HMACCreateSecret ext = Some true \/
     in_HMACSecretMC ext <> None \/ in_PRF ext <> None) /\
  (co_HMACSecretMC o <> None -> in_HMACSecretMC ext <> None \/ in_PRF ext <> None).

(** The protection the authenticator reports is at least what is enforced. *)
Definition protected (ext : CreateClientInputs) (o : option CreateExtensionOutputs) : Prop :=
  forall p, in_CredentialProtection ext = Some p -> EnforceCredentialProtectionPolicy p = true ->
    CredentialProtectionPolicy p <> CredentialProtectionPolicyUserVerificationOptional ->
    exists o' level, o = Some o' /\ credentialProtectionValue (CredentialProtectionPolicy p) = Ok level /\
      level <= co_CredProtect o' <= 3.

Lemma asked_true b : asked b = true <-> b = Some true.
Proof. unfold asked. destruct b as [[]|]; naive_solver. Qed.

Lemma credentialProtectionValue_range policy v : credentialProtectionValue policy = Ok v -> 1 <= v <= 3.
Proof. unfold credentialProtectionValue. repeat case_match; intros [= <-]; lia. Qed.

Lemma validate_outputs_sound ext req o : requested ext req ->
  validateMakeCredentialExtensionOutputs req ext o = None ->
  (forall o', o = Some o' -> solicited ext o') /\ protected ext o /\
  (in_HMACCreateSecret ext = Some true -> o ≫= co_HMACSecret <> None) /\
  (in_HMACSecretMC ext <> None -> o ≫= co_HMACSecretMC <> None).
Proof.
  intros (Hp & Hb & Hm & Hc & Hs & Hs' & Hmc & Hmc'). unfold validateMakeCredentialExtensionOutputs.
  rewrite first_error_None, !Forall_cons, !check_None. intros (Ho & _ & Hsec & Hans & Henf & _).
  assert (Hsol : forall o', o = Some o' -> solicited ext o').
  { intros o' ->. rewrite first_error_None, !Forall_cons, !check_None in Ho.
    destruct Ho as (K1 & K2 & K3 & K4 & K5 & K6 & _).
    rewrite !andb_false_iff, ?negb_false_iff, ?not_nil_true, ?not_nil_false in *.
    split_and!.
    - intros Hne. rewrite (proj2 (Z.eqb_neq _ _) Hne) in K1. cbn [negb] in K1.
      rewrite first_error_None, !Forall_cons, !check_None, Z.eqb_neq, orb_false_iff, !Z.ltb_ge in K1.
      destruct K1 as (K1 & ? & _). split; [|lia]. intros Hn. by rewrite Hn in Hp.
    - intros Hne. destruct K2; [done|]. by apply Hb.
    - intros Hne. destruct K3 as [K3|K3]; [by apply Z.eqb_eq in K3|]. apply asked_true. by rewrite <- Hm.
    - intros Hne. destruct K4; [done|]. apply asked_true. by rewrite <- Hc.
    - intros Hne. destruct K5; [done|]. rewrite <- asked_true. by apply Hs.
    - intros Hne. destruct K6; [done|]. by apply Hmc. }
  split; [done|]. split.
  - intros p Hin He Hpol. unfold validate_enforced_policy in Henf. rewrite Hin, He in *.
    rewrite bool_decide_eq_false_2 in Henf by done. cbn [negb orb] in Henf. rewrite Hp in Henf.
    pose proof (credentialProtectionValue_range _ _ Hp).
    rewrite first_error_None, !Forall_cons, !check_None, Z.eqb_neq, Z.ltb_ge in Henf.
    destruct Henf as (Hne & Hle & _). destruct o as [o'|]; [|done].
    exists o', (ci_CredProtect req). split_and!; [done..|lia|].
    destruct (Hsol o' eq_refl) as (Hr & _). by apply Hr.
  - split.
    + intros Ha. rewrite <- asked_true in Ha. rewrite (Hs' Ha) in Hsec. cbn [andb] in Hsec.
      by rewrite negb_false_iff, not_nil_true in Hsec.
    + intros Ha%Hmc'%not_nil_true. rewrite Ha in Hans. cbn [andb] in Hans.
      by rewrite negb_false_iff, not_nil_true in Hans.
Qed.

(** The large-blob output, and what it rests on. *)
Definition large_blob_supported (ext : CreateClientInputs) (resp : MakeCredentialResponse Any)
    (out : option LargeBlobOutputs) : Prop :=
  match in_LargeBlob ext with
  | None => out = None /\ len (mr_LargeBlobKey resp) = 0 /\
      create_LargeBlobUnsignedExtensionOutput resp = Ok None
  | Some inputs => exists supported, out = Some (MkLargeBlobOutputs (Some supported) None None) /\
      (lbi_Support inputs = LargeBlobSupportRequired -> supported = true) /\
      (supported = true <-> create_LargeBlobUnsignedExtensionOutput resp = Ok (Some true) \/
         len (mr_LargeBlobKey resp) = 32)
  end.

(** Support is reported exactly when the answer shows it. *)
Lemma created_support_iff backend key direct k supported :
  (key = true -> backend = largeBlobBackendLegacy) ->
  negb (bool_decide (backend = largeBlobBackendDirect)) && not_nil direct = false ->
  negb key && negb (len k =? 0) = false ->
  created_support backend key direct k = Ok supported ->
  supported = true <-> direct = Some true \/ len k = 32.
Proof.
  intros Hkey Hdirect Hk. unfold created_support.
  rewrite andb_false_iff, ?negb_false_iff, bool_decide_eq_true, not_nil_false in Hdirect.
  rewrite andb_false_iff, ?negb_false_iff, Z.eqb_eq in Hk.
  destruct backend.
  - destruct Hdirect as [| ->]; [done|]. destruct Hk as [Hz%Hkey|Hk]; [done|].
    intros [= <-]. split; [done|]. intros [|]; [done|lia].
  - destruct Hk as [Hz%Hkey|Hk]; [done|].
    destruct direct as [[]|]; intros [= <-]; (split; [auto; done|]); [done|]. intros [|]; [done|lia].
  - destruct Hdirect as [| ->]; [done|]. destruct key; cbn [negb].
    + destruct (len k =? 0); [done|]. destruct (Z.eqb_spec (len k) 32); [|done]. intros [= <-]. by split; [right|].
    + destruct Hk as [|Hk]; [done|]. intros [= <-]. split; [done|]. intros [|]; [done|lia].
Qed.

Lemma validateCreateLargeBlob_support info inputs options backend support key :
  validateCreateLargeBlob info inputs options = Ok (backend, support, key) ->
  (key = true -> backend = largeBlobBackendLegacy) /\
  match inputs with
  | None => support = ""
  | Some i => support <> "" /\ (lbi_Support i = LargeBlobSupportRequired -> support = LargeBlobSupportRequired)
  end.
Proof.
  unfold validateCreateLargeBlob. destruct inputs as [i|]; [|by intros [= <- <- <-]].
  destruct (_ || _); [done|].
  set (s := if bool_decide (lbi_Support i = "") then _ else _).
  assert (Hs : s <> "" /\ (lbi_Support i = LargeBlobSupportRequired -> s = LargeBlobSupportRequired)).
  { unfold s. case_bool_decide as He; [|done]. rewrite He. done. }
  clearbody s. destruct (_ && _); [done|]. destruct (largeBlobBackendForInfo info) as [[]| | |]; try done;
    cbn [mbind result_bind]; repeat case_match; by intros [= <- <- <-].
Qed.

Lemma createLargeBlobOutput_sound ext info options backend support key resp out :
  validateCreateLargeBlob info (in_LargeBlob ext) options = Ok (backend, support, key) ->
  createLargeBlobOutput backend support key resp = Ok out -> large_blob_supported ext resp out.
Proof.
  intros [Hkey Hv]%validateCreateLargeBlob_support. unfold createLargeBlobOutput, large_blob_supported.
  destruct (create_LargeBlobUnsignedExtensionOutput resp) as [direct| | |]; try done.
  cbn [mbind result_bind]. destruct (in_LargeBlob ext) as [i|].
  - destruct Hv as [Hne Hreq]. rewrite (bool_decide_eq_false_2 (support = "")) by done.
    destruct (_ && not_nil direct) eqn:Hdirect; [done|]. destruct (negb key && _) eqn:Hk; [done|].
    destruct (created_support _ _ _ _) as [supported| | |] eqn:Hs; try done. cbn [mbind result_bind].
    destruct (bool_decide (support = LargeBlobSupportRequired) && negb supported) eqn:Hr; [done|].
    intros [= <-]. exists supported. split_and!; [done| |].
    + intros Hi%Hreq. rewrite bool_decide_eq_true_2 in Hr by done. by destruct supported.
    + rewrite (created_support_iff _ _ _ _ _ Hkey Hdirect Hk Hs). naive_solver.
  - rewrite Hv, bool_decide_eq_true_2 by done. destruct (not_nil direct) eqn:Hd; [done|].
    apply not_nil_false in Hd. subst direct. destruct (Z.eqb_spec (len (mr_LargeBlobKey resp)) 0); [|done].
    by intros [= <-].
Qed.

(** The signing key, and what it rests on: the one of the attestation object
    that came with the answer, for one of the algorithms of the request. *)
Definition signing_key_returned (ext : CreateClientInputs) (resp : MakeCredentialResponse Any)
    (out : option PreviewSignOutputs) : Prop :=
  let unsigned := PreviewSignUnsignedExtensionOutput resp in
  match in_PreviewSign ext with
  | None => out = None /\ create_signed_output resp = None /\ unsigned = Ok None
  | Some i => exists algorithms key object attestation inner attested raw,
      psg_GenerateKey i = Some algorithms /\
      out = Some (MkPreviewSignOutputs (Some key) None) /\ gk_Algorithm key ∈ algorithms /\
      create_signed_output resp = Some (MkPreviewSignOutput (Some (gk_Algorithm key)) None None) /\
      unsigned = Ok (Some (Some object)) /\ Unmarshal_SigningKeyAttestation object = Ok attestation /\
      ska_AuthDataRaw attestation = Some raw /\ ParseMakeCredentialAuthData raw = Ok inner /\
      mad_AttestedCredentialData inner = Some attested /\ gk_KeyHandle key = CredentialID attested /\
      Marshal_public_key (CredentialPublicKey attested) = Ok (gk_PublicKey key)
  end.

Lemma FilterPreviewSignAlgorithms_subset requested algorithms a :
  FilterPreviewSignAlgorithms fips_enabled requested = Ok algorithms -> a ∈ algorithms -> a ∈ requested.
Proof.
  unfold FilterPreviewSignAlgorithms. destruct (_ || _); [by intros [= ->]|].
  destruct (len _ =? 0); [done|]. intros [= <-]. rewrite list_elem_of_filter. by intros [_ ?].
Qed.

Lemma validateCreatePreviewSign_Ok info token inputs options ps :
  validateCreatePreviewSign fips_enabled info token inputs options = Ok ps ->
  match inputs with
  | None => ps = None
  | Some i => exists requested algorithms flags, psg_GenerateKey i = Some requested /\
      ps = Some (MkPreviewSignGenerateKeyInput (Some algorithms) flags) /\
      (forall a, a ∈ algorithms -> a ∈ requested)
  end.
Proof.
  unfold validateCreatePreviewSign. destruct inputs as [i|]; [|by intros [= <-]].
  destruct (psg_GenerateKey i) as [requested|]; [|done]. destruct (not_nil _); [done|].
  destruct (len requested =? 0); [done|].
  destruct (FilterPreviewSignAlgorithms _ _) as [algorithms| | |] eqn:Hf; try done.
  cbn [mbind result_bind]. destruct (negb _); [done|]. intros [= <-].
  eexists requested, algorithms, _. split_and!; [done..|]. intros a. by eapply FilterPreviewSignAlgorithms_subset.
Qed.

Lemma or_violation_Ok {A} text (r : result A) a : or_violation text r = Ok a -> r = Ok a.
Proof. by destruct r. Qed.

Lemma wrap_err_Ok {A} text (r : result A) a : wrap_err text r = Ok a -> r = Ok a.
Proof. by destruct r. Qed.

Lemma signing_algorithm_Ok request signed unsigned algorithm object :
  signing_algorithm request signed unsigned = Ok (algorithm, object) ->
  signed = Some (MkPreviewSignOutput (Some algorithm) None None) /\ unsigned = Some (Some object) /\
  algorithm ∈ default [] (Algorithms request).
Proof.
  unfold signing_algorithm. destruct signed as [[[a|] [f|] [g|]]|]; destruct unsigned as [[o|]|];
    cbn; try done. destruct (contains _ a) eqn:Hc; [|done]. apply contains_true in Hc.
  by intros [= <- <-].
Qed.

Lemma signing_key_attestation_Ok object format raw statement inner :
  signing_key_attestation object = Ok (format, raw, statement, inner) ->
  exists a, Unmarshal_SigningKeyAttestation object = Ok a /\ ska_AuthDataRaw a = Some raw /\
    ParseMakeCredentialAuthData raw = Ok inner.
Proof.
  unfold signing_key_attestation. intros (a & Ha%or_violation_Ok & Hc)%bind_Ok_iff.
  destruct (ska_AuthDataRaw a) as [raw'|] eqn:Hr; [|done].
  destruct (ska_AttestationStatement a); [|done]. destruct (bool_decide _); [done|].
  apply bind_Ok_iff in Hc as (inner' & Hi%or_violation_Ok & Hc). injection Hc as <- <- <- <-. by exists a.
Qed.

Lemma check_signing_key_Ok request outer inner key :
  check_signing_key request outer inner = Ok key -> mad_AttestedCredentialData inner = Some key.
Proof. unfold check_signing_key. repeat case_match; try done. by intros [= <-]. Qed.

Lemma createPreviewSignOutput_sound info token ext options ps resp out :
  validateCreatePreviewSign fips_enabled info token (in_PreviewSign ext) options = Ok ps ->
  createPreviewSignOutput ps resp = Ok out -> signing_key_returned ext resp out.
Proof.
  intros Hv%validateCreatePreviewSign_Ok. unfold createPreviewSignOutput, signing_key_returned.
  intros (unsigned & Hu%or_violation_Ok & Hc)%bind_Ok_iff. rewrite Hu.
  destruct (in_PreviewSign ext) as [i|].
  - destruct Hv as (requested & algorithms & flags & Hg & -> & Hsub).
    apply bind_Ok_iff in Hc as ([algorithm object] & (Hs & -> & Ha)%signing_algorithm_Ok & Hc).
    apply bind_Ok_iff in Hc as ([[[format raw] statement] inner] & Hatt & Hc).
    apply signing_key_attestation_Ok in Hatt as (a & Hun & Hraw & Hparse).
    apply bind_Ok_iff in Hc as (k & Hk%check_signing_key_Ok & Hc).
    apply bind_Ok_iff in Hc as (pk & Hpk%wrap_err_Ok & Hc).
    apply bind_Ok_iff in Hc as (ao & _ & [= <-]).
    eexists requested, _, object, a, inner, k, raw. split_and!; try done. by apply Hsub.
  - subst ps. destruct (not_nil (create_signed_output resp)) eqn:Hsigned; [done|].
    destruct (not_nil unsigned) eqn:Hun; [done|]. apply not_nil_false in Hsigned, Hun. subst unsigned.
    by injection Hc as <-.
Qed.

(** The outputs of hmac-secret: an hmac-secret-mc output is decrypted and goes
    to the input that asked for it, to prf only under user verification and
    with hmac-secret enabled. *)
Definition secrets_returned (ext : CreateClientInputs) (flags : Z) (o : option CreateExtensionOutputs)
    (out : CreateClientOutputs) : Prop :=
  let prf enabled results :=
    if not_nil (in_PRF ext) then Some (MkCreatePRFOutputs enabled results) else None in
  out_HMACCreateSecret out = (if asked (in_HMACCreateSecret ext) then o ≫= co_HMACSecret else None) /\
  match o ≫= co_HMACSecretMC with
  | None => out_HMACSecretMC out = None /\
      out_PRF out = prf (default false (o ≫= co_HMACSecret)) zero_prf_values
  | Some encrypted => exists protocol secret salt r,
      Decrypt protocol secret encrypted = Ok salt /\ split_outputs salt = Ok r /\
      (in_PRF ext <> None -> UserVerified flags = true /\ o ≫= co_HMACSecret = Some true) /\
      out_PRF out = prf (default false (o ≫= co_HMACSecret)) (as_prf r) /\
      out_HMACSecretMC out = (if not_nil (in_PRF ext) then None else Some r)
  end.

Lemma create_secret_outputs_Ok s ext evaluation flags o encrypted out :
  create_secret_outputs s ext evaluation flags o encrypted = Ok out ->
  exists protocol secret salt, Decrypt protocol secret encrypted = Ok salt /\
    split_outputs salt = Ok out /\
    (in_PRF ext <> None -> UserVerified flags = true /\ co_HMACSecret o = Some true).
Proof.
  unfold create_secret_outputs. destruct (not_nil (in_PRF ext) && negb (UserVerified flags)) eqn:Huv; [done|].
  destruct (not_nil (in_PRF ext) && negb (bool_decide _)) eqn:Hen; [done|].
  destruct s as [[protocol secret]|]; [|done].
  intros (salt & Hd & Hc)%bind_Ok_iff. exists protocol, secret, salt. split; [done|].
  destruct (_ ≫= _); [done|]. split; [done|]. intros Hprf%not_nil_true. rewrite Hprf in Huv, Hen.
  cbn [andb] in Huv, Hen. rewrite negb_false_iff in Huv, Hen. by rewrite bool_decide_eq_true in Hen.
Qed.

Lemma extension_data_secrets s ext evaluation flags o props lb ps out :
  create_extension_data_outputs s ext evaluation flags o props lb ps = Ok out ->
  secrets_returned ext flags (Some o) out /\ out_LargeBlob out = lb /\ out_PreviewSign out = ps /\
  out_CredentialProperties out = props /\ out_CredBlob out = co_CredBlob o.
Proof.
  unfold create_extension_data_outputs, secrets_returned. cbn [mbind option_bind].
  destruct (co_HMACSecretMC o) as [encrypted|].
  - intros (r & Hs%create_secret_outputs_Ok & [= <-])%bind_Ok_iff.
    destruct Hs as (protocol & secret & salt & Hd & Hsp & Hg). cbn. split_and!; try done.
    by exists protocol, secret, salt, r.
  - intros [= <-]. by split_and!.
Qed.

(** Everything a registration returns, output by output. *)
Definition outputs_accounted (ext : CreateClientInputs) (options : gmap string bool)
    (resp : MakeCredentialResponse Any) (authData : MakeCredentialAuthData)
    (out : CreateClientOutputs) : Prop :=
  let o := extension_data authData in
  out_CredentialProperties out =
    (if asked (in_CredentialProperties ext) then Some (flag options OptionResidentKeys) else None) /\
  out_CredBlob out = o ≫= co_CredBlob /\
  large_blob_supported ext resp (out_LargeBlob out) /\
  signing_key_returned ext resp (out_PreviewSign out) /\
  secrets_returned ext (mad_Flags authData) o out.

Lemma create_outputs_Ok s req backend support key ps info token ext options evaluation resp out :
  requested ext req -> validateCreateLargeBlob info (in_LargeBlob ext) options = Ok (backend, support, key) ->
  validateCreatePreviewSign fips_enabled info token (in_PreviewSign ext) options = Ok ps ->
  create_outputs s req (backend, support, key) ps ext options evaluation resp = Ok out ->
  exists authData, mr_AuthData resp = Some authData /\
    let o := extension_data authData in
    (forall o', o = Some o' -> solicited ext o') /\ protected ext o /\
    (in_HMACCreateSecret ext = Some true -> o ≫= co_HMACSecret <> None) /\
    (in_HMACSecretMC ext <> None -> o ≫= co_HMACSecretMC <> None) /\
    outputs_accounted ext options resp authData out.
Proof.
  intros Hreq Hlb Hps. unfold create_outputs. intros (lbo & Hl & Hc)%bind_Ok_iff.
  destruct (mr_AuthData resp) as [authData|]; [|done]. exists authData. split; [done|].
  pose proof (createLargeBlobOutput_sound _ _ _ _ _ _ _ _ Hlb Hl) as Hsup. cbv zeta.
  change (if ExtensionDataIncluded (mad_Flags authData) then mad_Extensions authData else None)
    with (extension_data authData) in Hc.
  destruct (validateMakeCredentialExtensionOutputs _ _ _) eqn:Hv; [done|].
  destruct (validate_outputs_sound ext req _ Hreq Hv) as (Hsol & Hpro & Hsec & Hmc).
  do 4 (split; [done|]).
  apply bind_Ok_iff in Hc as (pso & Hpso & Hc).
  pose proof (createPreviewSignOutput_sound _ _ _ _ _ _ _ Hps Hpso) as Hkey.
  unfold outputs_accounted. destruct (extension_data authData) as [o|].
  - by apply extension_data_secrets in Hc as (Hs & -> & -> & -> & ->).
  - injection Hc as <-. cbn. split_and!; try done. unfold secrets_returned. cbn.
    by destruct (asked _).
Qed.

End Registration.

(** ** A protected credential with a large-blob key *)

Definition registered_outputs : CreateExtensionOutputs :=
  MkCreateExtensionOutputs 3 None 0 None None None None.

(** User present, extension data. *)
Definition registered_data : list Z := zeros 32 ++ [0x81] ++ zeros 4 ++ [0xa0].

Definition registered_response : MakeCredentialResponse Z :=
  MkMakeCredentialResponse "packed" registered_data None ∅ false (zeros 32) ∅.

Definition registration_codec : Codec := {|
  Any := Z;
  Marshal _ := Ok [1];
  Unmarshal_ClientPIN _ := Err io_EOF;
  Unmarshal_Bio _ := Err io_EOF;
  Unmarshal_CredMgmt _ := Err io_EOF;
  Unmarshal_LargeBlobs _ := Err io_EOF;
  Unmarshal_Info _ := Err io_EOF;
  Unmarshal_MakeCredential _ := Ok registered_response;
  Unmarshal_GetAssertion _ := Err io_EOF;
  decode_cose_key _ := Err io_EOF;
  decode_any_map b := Ok (true, len b);
  Decode_CreateExtensionOutputs _ := Ok registered_outputs;
  Decode_GetExtensionOutputs _ := Err io_EOF;
  remarshal_supported _ := Err io_EOF;
  remarshal_GetLargeBlobOutput _ := Err io_EOF;
  remarshal_AttestationObject _ := Err io_EOF;
  Marshal_LargeBlobArray _ := Err io_EOF;
  Unmarshal_LargeBlobArray _ := Err io_EOF |}.

Definition registration_preview : @PreviewSignCodec registration_codec :=
  @Build_PreviewSignCodec registration_codec (fun _ => Err io_EOF) (fun _ => Err io_EOF)
    (fun _ => Err io_EOF) (fun _ => Err io_EOF) (fun _ _ _ => Err io_EOF).

Definition registration_info : AuthenticatorGetInfoResponse :=
  GetInfoResponse [FIDO_2_1] [ExtensionIdentifierCredentialProtection; ExtensionIdentifierLargeBlobKey] []
    {[ OptionClientPIN := true; OptionLargeBlobs := true; OptionResidentKeys := true ]} 0 [2] 0 0 [] []
    1024 false 0 None 0 None 0 None ∅ None [] [] None None [] [] None [] 0 [] [].

Definition registration_inputs : CreateClientInputs :=
  MkCreateClientInputs None None
    (Some (MkCredentialProtectionInputs CredentialProtectionPolicyUserVerificationRequired true)) None None
    (Some (MkLargeBlobInputs LargeBlobSupportRequired None None)) None None None None None.

Definition registering : transport_ops unit :=
  MkTransportOps (fun _ => mret (MkCBORResponse CTAP2_OK [])) (mret None) None None None None.

