(* ===== verification/Arkg.v ===== *)
(** * ARKG-P256 (src/arkg/p256.go)

    [DeriveP256] derives a public key and its handle from the public seed of
    an authenticator, without it: it encapsulates a secret to the seed's KEM
    key and blinds the seed's public key with a scalar made from it. HMAC and
    HKDF are those of [Crypto]; the group operations of nistec, crypto/ecdh
    and the message expansion of circl are a typeclass with their laws. *)
From S2P Require Import Prelude GoError Cose Crypto.

Definition p256ContextLimit : Z := 64.
Definition p256ScalarOrder : Z :=
  0xffffffff00000000ffffffffffffffffbce6faada7179e84f3b9cac2fc632551.

Definition KeyTypeARKGPublicSeedPlaceholder : Z := -65537.
Definition AlgorithmARKGP256Placeholder : Z := -65700.

(** ** Seeds *)

(** The dynamic values of a seed: scalars, text, a nested [cose.Key] or
    [map[int]any], and a [map[any]any] as the list of its entries in the order
    Go ranges over them - a label that is text is [VOther]. *)
Inductive seed_value :=
  | SScalar (v : any)
  | SText (s : string)
  | SKey (k : Key)
  | SMap (m : list (any * any)).

Definition seed : Type := gmap Z seed_value.

Definition arkg_error (text : string) {A} : result A := Err (EText ("arkg: " +:+ text)).

Definition any_integer (value : any) : option Z :=
  match value with
  | VAlgorithm v | VInt v | VInt8 v | VInt16 v | VInt32 v | VInt64 v
  | VUint8 v | VUint16 v | VUint32 v => Some v
  | VUint v | VUint64 v => if v <=? max_int64 then Some v else None
  | _ => None
  end.

Definition integer (value : seed_value) : option Z :=
  match value with SScalar v => any_integer v | _ => None end.

(** [requireInteger], on the value found. *)
Definition require_integer (value : option (option Z)) (want : Z) (name : string) : result unit :=
  match value with
  | None => arkg_error ("P-256 public seed is missing " +:+ name)
  | Some None => arkg_error ("P-256 public seed has invalid " +:+ name +:+ " type")
  | Some (Some parsed) =>
      if negb (parsed =? want) then
        arkg_error ("P-256 public seed has invalid " +:+ name +:+ " " +:+ pretty parsed)
      else Ok tt
  end.
Definition requireInteger (k : seed) (label want : Z) (name : string) : result unit :=
  require_integer (integer <$> k !! label) want name.
Definition key_requireInteger (k : gmap Z any) (label want : Z) (name : string) : result unit :=
  require_integer (any_integer <$> k !! label) want name.

Definition keyBytes (k : gmap Z any) (label : Z) (name : string) : result (list Z) :=
  match k !! label with
  | None => arkg_error ("P-256 public seed is missing " +:+ name)
  | Some (VBytes b) => Ok b
  | Some _ => arkg_error ("P-256 public seed has invalid " +:+ name +:+ " type")
  end.

(** [int] has 64 bits: no integer overflows it. *)
Definition mapLabel (value : any) : option Z := any_integer value.

Fixpoint nested_entries (m : list (any * any)) (res : gmap Z any) (name : string)
    : result (gmap Z any) :=
  match m with
  | [] => Ok res
  | (rawLabel, parameter) :: m =>
      match mapLabel rawLabel with
      | None => arkg_error ("P-256 " +:+ name +:+ " has invalid parameter label type")
      | Some label => nested_entries m (<[label := parameter]> res) name
      end
  end.

(** A nil map reads as an empty one. *)
Definition nestedKey (k : seed) (label : Z) (name : string) : result (gmap Z any) :=
  match k !! label with
  | None => arkg_error ("P-256 public seed is missing " +:+ name)
  | Some (SKey key) => Ok (default ∅ key)
  | Some (SMap m) => nested_entries m ∅ name
  | Some _ => arkg_error ("P-256 " +:+ name +:+ " has invalid type")
  end.

Definition isAlgorithmIdentifier (value : seed_value) : bool :=
  match value with
  | SText _ => true
  | SScalar (VBytes _ | VOther) => false
  | SScalar _ => true
  | _ => false
  end.

(** ** Derivation *)

Class P256Group := {
  Point : Type;
  SetBytes : list Z -> result Point;
  Bytes : Point -> list Z;
  Add : Point -> Point -> Point;
  IsInfinity : Point -> bool;
  ScalarBaseMult : list Z -> result Point;
  ecdh_key : Type;
  NewPublicKey : list Z -> result (list Z);
  NewPrivateKey : list Z -> result ecdh_key;
  PublicKeyBytes : ecdh_key -> list Z;
  ECDH : ecdh_key -> list Z -> result (list Z);
  (* dst, input, length *)
  expand_message_xmd : list Z -> list Z -> Z -> list Z }.

Section Derive.
Context `{Primitives} `{P256Group}.
Context (fips_enabled : bool).

Definition p256Scalar (input dst : list Z) : list Z :=
  let uniform := expand_message_xmd dst input 48 in
  be_bytes 32 (be_value uniform mod p256ScalarOrder).

(** [hkdf.Expand] with an info of bytes. *)
Definition expand (prk info : list Z) (keyLength : nat) : list Z :=
  take keyLength (hkdf_blocks ((keyLength + 31) / 32) prk info [] 1).

Definition kemDST : string := "ARKG-ECDH.ARKG-P256".

Definition tagged (prefix : string) (context : list Z) : list Z := bytes_of_string prefix ++ context.

Definition p256Encapsulate (publicKey inputKeyMaterial context : list Z)
    : result (list Z * list Z) :=
  let privateKeyBytes := p256Scalar inputKeyMaterial (bytes_of_string ("ARKG-KEM-ECDH-KG." +:+ kemDST)) in
  wrap_err "arkg: create P-256 KEM private key" (NewPrivateKey privateKeyBytes) ≫= fun privateKey =>
  wrap_err "arkg: derive P-256 KEM secret" (ECDH privateKey publicKey) ≫= fun secret =>
  let prk := hkdf_Extract secret [] in
  let macKey := expand prk (tagged ("ARKG-KEM-HMAC-mac." +:+ kemDST) context) 32 in
  let encapsulation := PublicKeyBytes privateKey in
  let tag := hmac macKey encapsulation in
  let keyHandle := take 16 tag ++ encapsulation in
  let sharedSecret := expand prk (tagged ("ARKG-KEM-HMAC-shared." +:+ kemDST) context) (length secret) in
  Ok (sharedSecret, keyHandle).

Definition p256PublicKey (k : gmap Z any) (algorithm : Z) (name : string) : result Point :=
  key_requireInteger k KeyParameterKty KeyTypeEC2 (name +:+ " kty") ≫= fun _ =>
  (if bool_decide (k !! KeyParameterAlg = None) then Ok tt
   else key_requireInteger k KeyParameterAlg algorithm (name +:+ " alg")) ≫= fun _ =>
  key_requireInteger k EC2KeyParameterCrv EllipticCurveP256 (name +:+ " crv") ≫= fun _ =>
  keyBytes k EC2KeyParameterX (name +:+ " x") ≫= fun x =>
  keyBytes k EC2KeyParameterY (name +:+ " y") ≫= fun y =>
  if negb (len x =? 32) || negb (len y =? 32) then
    arkg_error ("P-256 " +:+ name +:+ " has invalid coordinate lengths")
  else wrap_err ("arkg: invalid P-256 " +:+ name) (SetBytes ([4] ++ x ++ y)).

Definition contextWithLength (context : list Z) : list Z := u8 (len context) :: context.

(** The blinding factor of a shared secret. *)
Definition blinding_factor (sharedSecret context : list Z) : list Z :=
  p256Scalar sharedSecret
    (tagged "ARKG-BL-EC.ARKG-P256" (tagged "ARKG-Derive-Key-BL." (contextWithLength context))).

Definition derived_key (encodedPoint : list Z) (derivedAlgorithm : option seed_value) : seed :=
  let key := <[KeyParameterKty := SScalar (VInt KeyTypeEC2)]>
    (<[EC2KeyParameterCrv := SScalar (VInt EllipticCurveP256)]>
    (<[EC2KeyParameterX := SScalar (VBytes (take 32 (drop 1 encodedPoint)))]>
    (<[EC2KeyParameterY := SScalar (VBytes (take 32 (drop 33 encodedPoint)))]> ∅))) in
  match derivedAlgorithm with
  | None => key
  | Some a => <[KeyParameterAlg := a]> key
  end.

(** The two points of a seed: the blinding key, and the KEM key as crypto/ecdh
    takes it. *)
Definition seed_points (publicSeed : seed) : result (Point * list Z) :=
  nestedKey publicSeed (-1) "blinding public key" ≫= fun blindingKey =>
  p256PublicKey blindingKey AlgorithmES256 "blinding public key" ≫= fun blindingPoint =>
  nestedKey publicSeed (-2) "KEM public key" ≫= fun kemKey =>
  p256PublicKey kemKey AlgorithmECDHESHKDF256 "KEM public key" ≫= fun kemCurvePoint =>
  wrap_err "arkg: invalid P-256 KEM public key" (NewPublicKey (Bytes kemCurvePoint)) ≫= fun kemPoint =>
  Ok (blindingPoint, kemPoint).

Definition DeriveP256 (publicSeed : seed) (inputKeyMaterial context : list Z)
    : result (seed * list Z) :=
  if fips_enabled then Err (EPolicy "ARKG-P256")
  else if p256ContextLimit <? len context then
    arkg_error ("P-256 context is " +:+ pretty (len context) +:+ " bytes, maximum is " +:+
      pretty p256ContextLimit)
  else
    requireInteger publicSeed KeyParameterKty KeyTypeARKGPublicSeedPlaceholder "kty" ≫= fun _ =>
    (if bool_decide (publicSeed !! KeyParameterAlg = None) then Ok tt
     else requireInteger publicSeed KeyParameterAlg AlgorithmARKGP256Placeholder "alg") ≫= fun _ =>
    let derivedAlgorithm := publicSeed !! (-3) in
    if negb (default true (isAlgorithmIdentifier <$> derivedAlgorithm)) then
      arkg_error "P-256 public seed has invalid dkalg type"
    else
      seed_points publicSeed ≫= fun '(blindingPoint, kemPoint) =>
      p256Encapsulate kemPoint inputKeyMaterial
        (tagged "ARKG-Derive-Key-KEM." (contextWithLength context)) ≫= fun '(sharedSecret, keyHandle) =>
      wrap_err "arkg: derive P-256 blinding factor point"
        (ScalarBaseMult (blinding_factor sharedSecret context)) ≫= fun blindingFactorPoint =>
      let derivedPoint := Add blindingPoint blindingFactorPoint in
      if IsInfinity derivedPoint then
        arkg_error "P-256 derived public key is the identity point"
      else Ok (derived_key (Bytes derivedPoint) derivedAlgorithm, keyHandle).
End Derive.

(** ** The authenticator's side *)

(** The group of order [p256ScalarOrder] behind the points: [base s] is the
    generator times [s]. *)
Class P256Laws `{P256Group} := {
  base : Z -> Point;
  mult_base s : 0 <= s < p256ScalarOrder -> ScalarBaseMult (be_bytes 32 s) = Ok (base s);
  add_base a b : Add (base a) (base b) = base ((a + b) mod p256ScalarOrder);
  infinity_base s : 0 <= s < p256ScalarOrder -> IsInfinity (base s) = bool_decide (s = 0);
  Bytes_base s : 0 < s < p256ScalarOrder -> exists x y, Bytes (base s) = 4 :: x ++ y /\
    len x = 32 /\ len y = 32;
  SetBytes_base s : 0 < s < p256ScalarOrder -> SetBytes (Bytes (base s)) = Ok (base s);
  NewPrivateKey_scalar s : 0 <= s < p256ScalarOrder ->
    if bool_decide (s = 0) then exists err, NewPrivateKey (be_bytes 32 s) = Err err
    else exists k, NewPrivateKey (be_bytes 32 s) = Ok k;
  PublicKey_point k : exists P x y, SetBytes (PublicKeyBytes k) = Ok P /\ Bytes P = PublicKeyBytes k /\
    NewPublicKey (PublicKeyBytes k) = Ok (PublicKeyBytes k) /\
    PublicKeyBytes k = 4 :: x ++ y /\ len x = 32 /\ len y = 32;
  ECDH_agree a b : exists z, ECDH a (PublicKeyBytes b) = Ok z /\ ECDH b (PublicKeyBytes a) = Ok z }.

Section RoundTrip.
Context `{PrimitiveLaws} `{P256Laws}.

(** The scalar that [p256Scalar] encodes. *)
Definition scalar (input dst : list Z) : Z :=
  be_value (expand_message_xmd dst input 48) mod p256ScalarOrder.

Lemma scalar_range input dst : 0 <= scalar input dst < p256ScalarOrder.
Proof. apply Z.mod_pos_bound. done. Qed.

(** ARKG-Derive-Secret-Key: the private key for a handle, from the private
    seed; [None] when the tag is not the authenticator's. *)
Definition derive_secret (blinding : Z) (kem : ecdh_key) (keyHandle context : list Z) : option Z :=
  let tag := take 16 keyHandle in
  let encapsulation := drop 16 keyHandle in
  let kemContext := tagged "ARKG-Derive-Key-KEM." (contextWithLength context) in
  match ECDH kem encapsulation with
  | Ok secret =>
      let prk := hkdf_Extract secret [] in
      let macKey := expand prk (tagged ("ARKG-KEM-HMAC-mac." +:+ kemDST) kemContext) 32 in
      if negb (bool_decide (take 16 (hmac macKey encapsulation) = tag)) then None
      else
        let shared := expand prk (tagged ("ARKG-KEM-HMAC-shared." +:+ kemDST) kemContext)
          (length secret) in
        Some ((blinding + scalar shared (tagged "ARKG-BL-EC.ARKG-P256"
                 (tagged "ARKG-Derive-Key-BL." (contextWithLength context)))) mod p256ScalarOrder)
  | _ => None
  end.

(** The members a COSE key of a point needs, in any of the integer types. *)
Definition holds_point (k : gmap Z any) (algorithm : Z) (encoded : list Z) : Prop :=
  any_integer <$> k !! KeyParameterKty = Some (Some KeyTypeEC2) /\
  (k !! KeyParameterAlg = None \/ any_integer <$> k !! KeyParameterAlg = Some (Some algorithm)) /\
  any_integer <$> k !! EC2KeyParameterCrv = Some (Some EllipticCurveP256) /\
  exists x y, k !! EC2KeyParameterX = Some (VBytes x) /\ k !! EC2KeyParameterY = Some (VBytes y) /\
    encoded = 4 :: x ++ y /\ len x = 32 /\ len y = 32.

(** A public seed of the private seed. *)
Definition public_seed (s : seed) (blinding : Z) (kem : ecdh_key) : Prop :=
  integer <$> s !! KeyParameterKty = Some (Some KeyTypeARKGPublicSeedPlaceholder) /\
  (s !! KeyParameterAlg = None \/
   integer <$> s !! KeyParameterAlg = Some (Some AlgorithmARKGP256Placeholder)) /\
  (forall a, s !! (-3) = Some a -> isAlgorithmIdentifier a = true) /\
  (exists k, nestedKey s (-1) "blinding public key" = Ok k /\
     holds_point k AlgorithmES256 (Bytes (base blinding))) /\
  (exists k, nestedKey s (-2) "KEM public key" = Ok k /\
     holds_point k AlgorithmECDHESHKDF256 (PublicKeyBytes kem)).

Lemma require_integer_Ok v want name : v = Some (Some want) -> require_integer v want name = Ok tt.
Proof. intros ->. cbn. by rewrite Z.eqb_refl. Qed.

Lemma p256PublicKey_Ok k algorithm name encoded P : holds_point k algorithm encoded ->
  SetBytes encoded = Ok P -> p256PublicKey k algorithm name = Ok P.
Proof.
  intros (Hkty & Halg & Hcrv & x & y & Hx & Hy & -> & Hxl & Hyl) HP. unfold p256PublicKey, key_requireInteger.
  rewrite (require_integer_Ok _ _ _ Hkty). cbn [mbind result_bind].
  assert (Ha : (if bool_decide (k !! KeyParameterAlg = None) then Ok tt
    else require_integer (any_integer <$> k !! KeyParameterAlg) algorithm (name +:+ " alg")) = Ok tt).
  { case_bool_decide; [done|]. destruct Halg as [?|Halg]; [done|]. by apply require_integer_Ok. }
  rewrite Ha. cbn [mbind result_bind]. rewrite (require_integer_Ok _ _ _ Hcrv). cbn [mbind result_bind].
  unfold keyBytes. rewrite Hx, Hy. cbn [mbind result_bind]. rewrite Hxl, Hyl. cbn [Z.eqb Pos.eqb negb orb].
  change ([4] ++ x ++ y) with (4 :: x ++ y). by rewrite HP.
Qed.

Lemma seed_points_Ok s blinding kem : public_seed s blinding kem -> 0 < blinding < p256ScalarOrder ->
  seed_points s = Ok (base blinding, PublicKeyBytes kem).
Proof.
  intros (_ & _ & _ & (kb & Hkb & Hb) & (kk & Hkk & Hk)) Hr. unfold seed_points. rewrite Hkb.
  cbn [mbind result_bind]. rewrite (p256PublicKey_Ok _ _ _ _ _ Hb (SetBytes_base _ Hr)).
  cbn [mbind result_bind]. rewrite Hkk. cbn [mbind result_bind].
  destruct (PublicKey_point kem) as (P & x & y & HP & HB & Hn & _).
  rewrite (p256PublicKey_Ok _ _ _ _ _ Hk HP). cbn [mbind result_bind]. by rewrite HB, Hn.
Qed.

(** Encapsulation to the KEM key, opened by its private key. *)
Lemma encapsulate_opens kem ikm context :
  let s := scalar ikm (bytes_of_string ("ARKG-KEM-ECDH-KG." +:+ kemDST)) in
  let kemContext := tagged "ARKG-Derive-Key-KEM." (contextWithLength context) in
  if bool_decide (s = 0) then exists err, p256Encapsulate (PublicKeyBytes kem) ikm kemContext = Err err
  else exists shared keyHandle,
    p256Encapsulate (PublicKeyBytes kem) ikm kemContext = Ok (shared, keyHandle) /\
    forall blinding, derive_secret blinding kem keyHandle context =
      Some ((blinding + scalar shared (tagged "ARKG-BL-EC.ARKG-P256"
               (tagged "ARKG-Derive-Key-BL." (contextWithLength context)))) mod p256ScalarOrder).
Proof using Type*.
  intros s kemContext. pose proof (NewPrivateKey_scalar s (scalar_range _ _)) as Hn.
  unfold p256Encapsulate. change (p256Scalar ikm (bytes_of_string ("ARKG-KEM-ECDH-KG." +:+ kemDST)))
    with (be_bytes 32 s).
  case_bool_decide as Hz.
  - destruct Hn as [err ->]. by eexists.
  - destruct Hn as [k ->]. cbn [wrap_err mbind result_bind].
    destruct (ECDH_agree k kem) as (z & Hkz & Hmz). rewrite Hkz. cbn [wrap_err mbind result_bind].
    eexists _, _. split; [reflexivity|]. intros blinding. unfold derive_secret. fold kemContext.
    set (mac := hmac _ (PublicKeyBytes k)).
    assert (Hl : length (take 16 mac) = 16%nat).
    { pose proof (proj1 (hmac_bytes (expand (hkdf_Extract z [])
        (tagged ("ARKG-KEM-HMAC-mac." +:+ kemDST) kemContext) 32) (PublicKeyBytes k))) as Hs.
      rewrite length_take. unfold len in Hs. unfold mac. lia. }
    rewrite (take_app_length' _ _ 16), (drop_app_length' _ _ 16) by done.
    rewrite Hmz. fold mac. rewrite bool_decide_eq_true_2 by done. done.
Qed.

Lemma derived_key_members x y a : len x = 32 -> len y = 32 ->
  let k := derived_key (4 :: x ++ y) a in
  k !! EC2KeyParameterX = Some (SScalar (VBytes x)) /\ k !! EC2KeyParameterY = Some (SScalar (VBytes y)) /\
  k !! KeyParameterKty = Some (SScalar (VInt KeyTypeEC2)) /\
  k !! EC2KeyParameterCrv = Some (SScalar (VInt EllipticCurveP256)) /\ k !! KeyParameterAlg = a.
Proof using.
  intros Hx Hy. assert (Hxl : length x = 32%nat) by (unfold len in Hx; lia).
  assert (Hyl : length y = 32%nat) by (unfold len in Hy; lia). unfold derived_key.
  assert (Htx : take 32 (drop 1 (4 :: x ++ y)) = x) by (cbn [drop]; by apply take_app_length').
  assert (Hty : take 32 (drop 33 (4 :: x ++ y)) = y).
  { cbn [drop]. rewrite drop_app_length' by done. apply take_ge. lia. }
  rewrite Htx, Hty. destruct a; by split_and!.
Qed.

(** What [DeriveP256] does for a good seed, up to the secret. *)
Lemma DeriveP256_seed s blinding kem ikm context : public_seed s blinding kem ->
  0 < blinding < p256ScalarOrder -> len context <= p256ContextLimit ->
  DeriveP256 false s ikm context =
    p256Encapsulate (PublicKeyBytes kem) ikm
      (tagged "ARKG-Derive-Key-KEM." (contextWithLength context)) ≫= fun '(sharedSecret, keyHandle) =>
    wrap_err "arkg: derive P-256 blinding factor point"
      (ScalarBaseMult (blinding_factor sharedSecret context)) ≫= fun blindingFactorPoint =>
    let derivedPoint := Add (base blinding) blindingFactorPoint in
    if IsInfinity derivedPoint then
      arkg_error "P-256 derived public key is the identity point"
    else Ok (derived_key (Bytes derivedPoint) (s !! (-3)), keyHandle).
Proof using Type*.
  intros Hs Hb Hc. unfold DeriveP256, requireInteger. pose proof Hs as (Hkty & Halg & Hdk & _).
  rewrite (proj2 (Z.ltb_ge _ _)) by done. rewrite (require_integer_Ok _ _ _ Hkty). cbn [mbind result_bind].
  assert (Ha : (if bool_decide (s !! KeyParameterAlg = None) then Ok tt
    else require_integer (integer <$> s !! KeyParameterAlg) AlgorithmARKGP256Placeholder "alg") = Ok tt).
  { case_bool_decide; [done|]. destruct Halg as [?|Halg]; [done|]. by apply require_integer_Ok. }
  rewrite Ha. cbn [mbind result_bind].
  assert (Hd : default true (isAlgorithmIdentifier <$> s !! (-3)) = true).
  { destruct (s !! (-3)) as [a|]; [|done]. by apply Hdk. }
  rewrite Hd. cbn [negb]. rewrite (seed_points_Ok s blinding kem Hs Hb). done.
Qed.

(** C19. ARKG on both sides. For a public seed, a context of at most 64
    bytes and any input key material, [DeriveP256] returns a key handle and
    the public key of the private key that the authenticator derives from the
    handle, the context and its private seed - the blinding key plus the
    blinding factor, the tag of the handle checked - with the algorithm the
    seed declares. It returns an error instead when the ephemeral scalar or
    the derived private key is zero, when the context is longer, and in FIPS
    140-3 mode. *)
Theorem arkg_derives_key_pair s blinding kem ikm context :
  public_seed s blinding kem -> 0 < blinding < p256ScalarOrder ->
  let ephemeral := scalar ikm (bytes_of_string ("ARKG-KEM-ECDH-KG." +:+ kemDST)) in
  (len context <= p256ContextLimit ->
   (ephemeral = 0 -> exists err, DeriveP256 false s ikm context = Err err) /\
   (ephemeral <> 0 -> exists keyHandle private, derive_secret blinding kem keyHandle context = Some private /\
      (private = 0 -> exists err, DeriveP256 false s ikm context = Err err) /\
      (private <> 0 -> exists x y key, Bytes (base private) = 4 :: x ++ y /\
         DeriveP256 false s ikm context = Ok (key, keyHandle) /\
         key !! EC2KeyParameterX = Some (SScalar (VBytes x)) /\
         key !! EC2KeyParameterY = Some (SScalar (VBytes y)) /\
         key !! KeyParameterKty = Some (SScalar (VInt KeyTypeEC2)) /\
         key !! EC2KeyParameterCrv = Some (SScalar (VInt EllipticCurveP256)) /\
         key !! KeyParameterAlg = s !! (-3)))) /\
  (p256ContextLimit < len context -> exists err, DeriveP256 false s ikm context = Err err) /\
  DeriveP256 true s ikm context = Err (EPolicy "ARKG-P256").
Proof using Type*.
  intros Hs Hb ephemeral. split_and!; [intros Hc| |done].
  - rewrite (DeriveP256_seed s blinding kem) by done.
    pose proof (encapsulate_opens kem ikm context) as He. cbv zeta in He. fold ephemeral in He.
    case_bool_decide as Hz.
    { split; [|done]. intros _. destruct He as [err ->]. by eexists. }
    split; [done|]. intros _. destruct He as (shared & keyHandle & -> & Hd). cbn [mbind result_bind].
    exists keyHandle, ((blinding + scalar shared (tagged "ARKG-BL-EC.ARKG-P256"
      (tagged "ARKG-Derive-Key-BL." (contextWithLength context)))) mod p256ScalarOrder).
    split; [apply Hd|]. clear Hd. unfold blinding_factor, p256Scalar.
    fold (scalar shared (tagged "ARKG-BL-EC.ARKG-P256"
      (tagged "ARKG-Derive-Key-BL." (contextWithLength context)))).
    rewrite mult_base by apply scalar_range. cbn [wrap_err mbind result_bind]. rewrite add_base.
    set (private := (_ + _) mod _).
    assert (Hp : 0 <= private < p256ScalarOrder) by by apply Z.mod_pos_bound.
    rewrite infinity_base by done. case_bool_decide as Hzero; [split; [by eexists|done]|].
    split; [done|]. intros _. destruct (Bytes_base private ltac:(lia)) as (x & y & HB & Hx & Hy).
    rewrite HB. exists x, y, (derived_key (4 :: x ++ y) (s !! (-3))).
    split; [done|]. split; [done|]. by apply derived_key_members.
  - intros Hc. unfold DeriveP256. rewrite (proj2 (Z.ltb_lt _ _)) by done. by eexists.
Qed.
End RoundTrip.

(** ** A group for the samples: the residues themselves *)

Lemma be_value_snoc l b : be_value (l ++ [b]) = be_value l * 256 + b.
Proof. unfold be_value. by rewrite foldl_app. Qed.

Lemma be_value_bytes n : forall v, 0 <= v < 256 ^ Z.of_nat n -> be_value (be_bytes n v) = v.
Proof.
  induction n as [|n IH]; intros v Hv; [cbn in *; unfold be_value; cbn; lia|]. cbn [be_bytes].
  rewrite be_value_snoc. rewrite Nat2Z.inj_succ, Z.pow_succ_r in Hv by lia.
  rewrite Z.shiftr_div_pow2 by lia. change (2 ^ 8) with 256. rewrite IH.
  - unfold u8. change (2 ^ 8) with 256. pose proof (Z.div_mod v 256). lia.
  - split; [apply Z.div_pos; lia|]. apply Z.div_lt_upper_bound; lia.
Qed.

Lemma length_be_bytes n : forall v, length (be_bytes n v) = n.
Proof. induction n as [|n IH]; intros v; [done|]. cbn. rewrite length_app, IH. cbn. lia. Qed.

Lemma scalar_bytes s : 0 <= s < p256ScalarOrder -> be_value (be_bytes 32 s) = s.
Proof.
  intros Hs. apply be_value_bytes. assert (p256ScalarOrder < 256 ^ Z.of_nat 32) by by vm_compute. lia.
Qed.

Definition residue_bytes (k : Z) : list Z := 4 :: be_bytes 32 k ++ be_bytes 32 k.
Definition residue_of (e : list Z) : result Z :=
  let v := be_value (take 32 (drop 1 e)) in
  if bool_decide (e = residue_bytes v) then Ok v else Err (EText "point not on curve").

Lemma residue_coordinates k :
  take 32 (drop 1 (residue_bytes k)) = be_bytes 32 k /\ take 32 (drop 33 (residue_bytes k)) = be_bytes 32 k.
Proof.
  unfold residue_bytes. cbn [drop]. rewrite drop_0, take_app_length' by by rewrite length_be_bytes.
  split; [done|]. rewrite drop_app_length' by by rewrite length_be_bytes.
  apply take_ge. rewrite length_be_bytes. lia.
Qed.

Lemma residue_back k : 0 <= k < p256ScalarOrder -> residue_of (residue_bytes k) = Ok k.
Proof.
  intros Hk. unfold residue_of. rewrite (proj1 (residue_coordinates k)), (scalar_bytes k Hk).
  by rewrite bool_decide_eq_true_2.
Qed.

Lemma residue_split k : exists x y, residue_bytes k = 4 :: x ++ y /\ len x = 32 /\ len y = 32.
Proof.
  exists (be_bytes 32 k), (be_bytes 32 k). unfold len. rewrite length_be_bytes. by split_and!.
Qed.

(** The group over any encoding of the residues that can be read back. *)
Section Residues.
Context (encode : Z -> list Z) (decode : list Z -> result Z).
Context (encode_back : forall k, 0 <= k < p256ScalarOrder -> decode (encode k) = Ok k).
Context (encode_split : forall k, exists x y, encode k = 4 :: x ++ y /\ len x = 32 /\ len y = 32).

Definition residue_group : P256Group := {|
  Point := Z;
  SetBytes := decode;
  Bytes := encode;
  Add a b := (a + b) mod p256ScalarOrder;
  IsInfinity p := p =? 0;
  ScalarBaseMult b := Ok (be_value b);
  ecdh_key := Z;
  NewPublicKey e := Ok e;
  NewPrivateKey b := let v := be_value b in
    if bool_decide (v = 0) then Err (EText "invalid scalar") else Ok v;
  PublicKeyBytes k := encode (k mod p256ScalarOrder);
  ECDH k e := decode e ≫= fun v => Ok (be_bytes 32 (k * v mod p256ScalarOrder));
  expand_message_xmd dst input n :=
    take (Z.to_nat n) (sample_hash (dst ++ input) ++ sample_hash (input ++ dst)) |}.

Definition residue_group_laws : @P256Laws residue_group.
Proof using encode_back encode_split.
  assert (Hm : forall k, 0 <= k mod p256ScalarOrder < p256ScalarOrder) by (intros k; by apply Z.mod_pos_bound).
  refine (@Build_P256Laws residue_group (fun s => s) _ _ _ _ _ _ _ _).
  - intros s Hs. change (Ok (be_value (be_bytes 32 s)) = Ok s). by rewrite scalar_bytes.
  - done.
  - intros s _. change ((s =? 0) = bool_decide (s = 0)). by destruct (Z.eqb_spec s 0); case_bool_decide.
  - intros s _. apply encode_split.
  - intros s Hs. apply encode_back. lia.
  - intros s Hs. unfold NewPrivateKey, residue_group. rewrite scalar_bytes by done.
    case_bool_decide; by eexists.
  - intros k. destruct (encode_split (k mod p256ScalarOrder)) as (x & y & Hxy).
    exists (k mod p256ScalarOrder), x, y. split; [by apply encode_back|]. by split_and!; try apply Hxy.
  - intros a b. exists (be_bytes 32 (a * b mod p256ScalarOrder)). unfold ECDH, PublicKeyBytes, residue_group.
    rewrite !encode_back by done. cbn [mbind result_bind]. rewrite !Z.mul_mod_idemp_r by done.
    split; [done|]. by rewrite (Z.mul_comm b a).
Defined.
End Residues.

#[export] Instance sample_group : P256Group := residue_group residue_bytes residue_of.
#[export] Instance sample_group_laws : P256Laws :=
  residue_group_laws residue_bytes residue_of residue_back residue_split.

Definition point_key (encoded : list Z) : gmap Z any :=
  <[KeyParameterKty := VUint64 KeyTypeEC2]> (<[EC2KeyParameterCrv := VUint64 EllipticCurveP256]>
  (<[EC2KeyParameterX := VBytes (take 32 (drop 1 encoded))]>
  (<[EC2KeyParameterY := VBytes (take 32 (drop 33 encoded))]> ∅))).

(** The KEM key as the decoder gives a nested map. *)
Definition sample_seed : seed :=
  <[KeyParameterKty := SScalar (VInt64 KeyTypeARKGPublicSeedPlaceholder)]>
  (<[-3 := SScalar (VInt64 (-65539))]>
  (<[-1 := SKey (Some (point_key (residue_bytes 5)))]>
  (<[-2 := SMap (prod_map VInt64 id <$> map_to_list (point_key (residue_bytes 7)))]> ∅))).

Lemma sample_holds k algorithm : 0 <= k < p256ScalarOrder ->
  holds_point (point_key (residue_bytes k)) algorithm (residue_bytes k).
Proof.
  intros Hk. split; [done|]. split; [by left|]. split; [done|].
  exists (be_bytes 32 k), (be_bytes 32 k).
  destruct (residue_coordinates k) as [Hx Hy]. unfold point_key. rewrite Hx, Hy.
  split_and!; [done..| |]; unfold len; by rewrite length_be_bytes.
Qed.

Lemma arkg_derives_key_pair_witness : exists keyHandle private x y key,
  derive_secret (H := sample_primitives) 5 7 keyHandle [3] = Some private /\
  Bytes (base private) = 4 :: x ++ y /\
  DeriveP256 (H := sample_primitives) false sample_seed [1; 2] [3] = Ok (key, keyHandle) /\
  key !! EC2KeyParameterX = Some (SScalar (VBytes x)) /\
  key !! KeyParameterAlg = Some (SScalar (VInt64 (-65539))).
Proof.
  destruct (arkg_derives_key_pair (H := sample_primitives) (H1 := sample_group) sample_seed 5 7 [1; 2] [3]) as (Hok & _).
  - split; [done|]. split; [by left|]. split; [by intros a [= <-]|]. split.
    + exists (point_key (residue_bytes 5)). split; [done|by apply sample_holds].
    + exists (point_key (residue_bytes 7)). split; [by vm_compute|by apply sample_holds].
  - done.
  - destruct Hok as [_ Hok]; [done|].
    destruct Hok as (keyHandle & private & Hd & Hzero & Hkey); [by vm_compute|].
    assert (Hne : private <> 0).
    { intros Hp. destruct (Hzero Hp) as [err He].
      assert (Hc : match DeriveP256 (H := sample_primitives) false sample_seed [1; 2] [3] with
        | Ok _ => true | _ => false end = true) by (vm_compute; reflexivity).
      by rewrite He in Hc. }
    destruct (Hkey Hne) as (x & y & key & HB & HD & Hx & _ & _ & _ & Ha).
    exists keyHandle, private, x, y, key. split; [exact Hd|]. split; [exact HB|]. split; [exact HD|].
    split; [exact Hx|]. rewrite Ha. reflexivity.
Defined.
