(* ===== verification/SignExample.v ===== *)
(** * The previewSign example (src/examples/previewsign/main.go)

    [run], from the device [authenticator.Select] returned on: create a
    credential with a signing key, derive a verification key from the key's
    ARKG seed, have the authenticator sign a message under the derived key,
    verify the signature. The program's variables are standard output and
    [assertionSignature]; the CBOR this program encodes and decodes itself is
    a typeclass; the value of FIDO2_PIN and the random choices are arguments.
    Clearing the token and the key material after use has no effect the
    program can see. *)
From S2P Require Import Prelude GoError Protocol Pin Cose Crypto Messages Prf Extensions PreviewSign Application.
From S2P Require Import Credentials Signature Arkg.
From S2P Require Examples.

#[local] Remove Hints sample_primitives : typeclass_instances.

Record sign_vars := SignVars {
  sv_stdout : string;
  assertionSignature : slice }.

Definition AlgorithmESP256SplitARKGPlaceholder : Z := -65539.
Definition rpID : string := "preview-sign.example".
Definition message : list Z := bytes_of_string "hello from previewSign".

(** A quotation mark, and [{"type":...,"challenge":"previewSign example"}]. *)
Definition quote : string := String (Ascii.ascii_of_nat 34) "".
Definition quoted (s : string) : string := quote +:+ s +:+ quote.
Definition client_data (type : string) : list Z :=
  bytes_of_string ("{" +:+ quoted "type" +:+ ":" +:+ quoted type +:+ "," +:+
    quoted "challenge" +:+ ":" +:+ quoted "previewSign example" +:+ "}").

(** A derived key as package cose sees it: a text is not an integer there. *)
Definition as_cose_key (k : seed) : Key :=
  Some ((fun v => match v with SScalar v => v | _ => VOther end) <$> k).

(** [cbor.Unmarshal] into a [cose.Key]; the CTAP2 encoder on the map of the
    signing arguments - algorithm, key handle, context - and on a key. *)
Class SigningCBOR := {
  Unmarshal_seed : list Z -> result seed;
  Marshal_sign_arguments : Z -> list Z -> list Z -> result (list Z);
  Marshal_verification_key : seed -> result (list Z) }.

Section Run.
Context `{Primitives} `{PreviewSignCodec} `{P256Group} `{SignatureSchemes} `{SigningCBOR}.
Context (fips_enabled : bool).

(** The random choices of a run; [inputKeyMaterial] is what [rand.Read]
    fills the 32 bytes with, or its error. *)
Record run_choices := RunChoices {
  token_key : PrivateKey; token_iv : list Z;
  create_key : PrivateKey; create_iv : list Z;
  inputKeyMaterial : result (list Z);
  sign_token_key : PrivateKey; sign_token_iv : list Z;
  assert_key : PrivateKey; assert_iv : list Z; assert_nonce : list Z }.

#[local] Instance sign_ret : MRet (program sign_vars) := fun _ => Return.
#[local] Instance sign_bind : MBind (program sign_vars) := fun _ _ k p => Then p k.

Definition print (text : string) : program sign_vars unit :=
  v ← Load; Store (SignVars (sv_stdout v +:+ text) (assertionSignature v)).
Definition Println (line : string) : program sign_vars unit := print (line +:+ Examples.newline).

Definition token_with (pin : list Z) (random_key : PrivateKey) (iv : list Z) (permission : Z)
    : program sign_vars slice :=
  if bool_decide (pin = []) then mret None
  else token ← Call (OpGetPinUvAuthTokenUsingPIN random_key iv pin permission rpID); mret (Some token).

Definition create_inputs : CreateClientInputs :=
  MkCreateClientInputs None None None None None None None None None None
    (Some (MkPreviewSignInputs (Some [AlgorithmESP256SplitARKGPlaceholder]) None)).

Definition sign_inputs (credentialID keyHandle digest arguments : list Z) : GetClientInputs :=
  MkGetClientInputs None None None None None
    (Some (MkPreviewSignInputs None
      (Some {[ EncodeToString credentialID :=
        MkPreviewSignSignInputs (Some keyHandle) (Some digest) (Some arguments) ]}))).

Definition registration_request (random_key : PrivateKey) (iv : list Z) (token : slice)
    : operation (MakeCredentialResponse Any * CreateClientOutputs) :=
  OpMakeCredential random_key iv token (client_data "webauthn.create")
    (MkRpEntity rpID "previewSign example")
    (MkUserEntity (Some (bytes_of_string "preview-sign-user")) "previewSign user" "preview-sign-user" "")
    [("public-key", AlgorithmES256)] [] (Some create_inputs) ∅ 0 [].

(** The credential ID and the generated key of a registration. The response
    of the device API always has extension outputs. *)
Definition registered (r : MakeCredentialResponse Any * CreateClientOutputs)
    : result (list Z * PreviewSignGeneratedKey) :=
  match mr_AuthData r.1 ≫= mad_AttestedCredentialData with
  | None => Err (EText "authenticator returned no credential data")
  | Some credential =>
      match out_PreviewSign r.2 ≫= pso_GeneratedKey with
      | None => Err (EText "authenticator returned no previewSign generated key")
      | Some generatedKey => Ok (CredentialID credential, generatedKey)
      end
  end.

(** The body of the loop over the assertions. *)
Definition keep_signature (item : assertion + error) : program sign_vars bool :=
  match item with
  | inr err => Throw err
  | inl (_, outputs) =>
      match gout_PreviewSign outputs with
      | None => Throw (EText "authenticator returned no previewSign signature")
      | Some o => v ← Load; Store (SignVars (sv_stdout v) (pso_ClientSignature o));; mret true
      end
  end.

(** From the seed to the derived key, its handle and the encoded arguments. *)
Definition derive (c : run_choices) (generatedKey : PreviewSignGeneratedKey)
    : result (seed * list Z * list Z) :=
  wrap_err "decode signing public seed" (Unmarshal_seed (gk_PublicKey generatedKey)) ≫= fun publicSeed =>
  wrap_err "generate ARKG input key material" (inputKeyMaterial c) ≫= fun material =>
  wrap_err "derive ARKG-P256 signing key"
    (DeriveP256 fips_enabled publicSeed material (bytes_of_string rpID)) ≫= fun '(verificationKey, arkgKeyHandle) =>
  wrap_err "encode COSE signing arguments"
    (Marshal_sign_arguments (gk_Algorithm generatedKey) arkgKeyHandle (bytes_of_string rpID)) ≫= fun arguments =>
  wrap_err "encode derived signing public key" (Marshal_verification_key verificationKey) ≫= fun encoded =>
  Ok (verificationKey, arguments, encoded).

(** The algorithm and the verdict at the end. *)
Definition verify (verificationKey : seed) (signature : list Z) : result Z :=
  Algorithm (as_cose_key verificationKey) ≫= fun verificationAlgorithm =>
  PublicKey fips_enabled (as_cose_key verificationKey) ≫= fun publicKey =>
  wrap_err "verify previewSign signature"
    (VerifySignature fips_enabled (Some publicKey) verificationAlgorithm message signature) ≫= fun _ =>
  Ok verificationAlgorithm.

Definition key_report (credentialID : list Z) (k : PreviewSignGeneratedKey) : program sign_vars unit :=
  Println ("Credential ID: " +:+ EncodeToString credentialID);;
  Println ("Signing key handle: " +:+ EncodeToString (gk_KeyHandle k));;
  Println ("Signing algorithm: " +:+ pretty (gk_Algorithm k));;
  Println ("Signing public seed (COSE): " +:+ Examples.hex_of_bytes (gk_PublicKey k));;
  Println ("Signing key attestation: " +:+ pretty (len (gk_AttestationObject k)) +:+ " bytes").

Definition signature_report (signature : list Z) (algorithm : Z) : program sign_vars unit :=
  Println ("Message: " +:+ quoted (Examples.string_of_bytes message));;
  Println ("Signature: " +:+ Examples.hex_of_bytes signature);;
  Println ("Verification algorithm: " +:+ pretty algorithm);;
  Println "Signature verified.".

Definition run (pin : list Z) (c : run_choices) (fuel : nat) : program sign_vars unit :=
  '(info, ok) ← Call OpGetInfoCached;
  if negb ok then Throw (EText "authenticatorGetInfo response is unavailable")
  else if negb (contains (Protocol.Extensions info) ExtensionIdentifierPreviewSign) then
    Throw (EText "authenticator does not support previewSign")
  else
    makeCredentialToken ← token_with pin (token_key c) (token_iv c) PermissionMakeCredential;
    Println "Touch the authenticator to create a credential and signing key.";;
    registration ← Call (registration_request (create_key c) (create_iv c) makeCredentialToken);
    '(credentialID, generatedKey) ← Lift (registered registration);
    key_report credentialID generatedKey;;
    '(verificationKey, arguments, encodedVerificationKey) ← Lift (derive c generatedKey);
    Println ("Derived signing public key (COSE): " +:+ Examples.hex_of_bytes encodedVerificationKey);;
    getAssertionToken ← token_with pin (sign_token_key c) (sign_token_iv c) PermissionGetAssertion;
    Println "Touch the authenticator to sign the message.";;
    Range (SeqGetAssertion fuel (assert_key c) (assert_iv c) (assert_nonce c) getAssertionToken rpID
             (client_data "webauthn.get") [MkDescriptor "public-key" (Some credentialID) []]
             (Some (sign_inputs credentialID (gk_KeyHandle generatedKey) (sha256 message) arguments)) ∅)
      keep_signature;;
    v ← Load;
    let signature := bytes_of (assertionSignature v) in
    if len signature =? 0 then Throw (EText "authenticator returned an empty previewSign signature")
    else
      verificationAlgorithm ← Lift (verify verificationKey signature);
      signature_report signature verificationAlgorithm.
End Run.
