(* ===== verification/SignSession.v ===== *)
(** * Signing with a derived key (previewSign and ARKG, end to end)

    A specification of an authenticator with a previewSign signing key - it
    attests the key's ARKG seed when it creates the credential, and signs
    under the private key it derives from a key handle - and the theorem that
    the previewSign example, run against it over any connection, ends with
    its signature verified. *)
From S2P Require Import Prelude GoError Transport Protocol Pin Preflight Cose Crypto Messages Prf Extensions PreviewSign.
From S2P Require Import Client Management Device Credentials PinSession PrfSession Relational Application Stack Runs.
From S2P Require Import Signature Arkg SignExample.

#[local] Remove Hints sample_primitives sample_group sample_group_laws sample_schemes : typeclass_instances.

Definition CTAP2_ERR_UNSUPPORTED_ALGORITHM : Z := 0x26.

(** A message without a key agreement. *)
Definition signing_message (m : Messages.message) : Prop :=
  match m with
  | MMakeCredential r => hs_KeyAgreement (ci_HMACSecretMC (mc_Extensions r)) = None
  | MGetAssertion r => hs_KeyAgreement (gi_HMACSecret (ga_Extensions r)) = None
  | _ => False
  end.

(** ** The authenticator *)

(** The authenticator's side of the codecs: it reads the two requests and the
    signing arguments, and writes responses, extension maps, attestations and
    the public keys of its credential and of its signing key. *)
Class SigningWire `{PreviewSignCodec} `{SigningCBOR} := {
  read_signing_request : list Z -> option Messages.message;
  read_arguments : list Z -> option (Z * list Z * list Z);
  write_registration : list Z -> list Z -> list Z;
  write_signed : Descriptor -> list Z -> list Z;
  write_create_output : PreviewSignOutput -> list Z;
  write_get_output : list Z -> list Z;
  write_attestation : list Z -> list Z;
  ordinary_key : Key;
  ordinary_key_bytes : list Z;
  seed_key : Key;
  seed_key_bytes : list Z;
  signing_seed : seed;
  Marshal_signing m : signing_message m ->
    exists b, Marshal m = Ok b /\ read_signing_request b = Some m;
  Unmarshal_registration data object : exists unsigned,
    Unmarshal_MakeCredential (write_registration data object) = Ok (MkMakeCredentialResponse "none" data None ∅ false []
      {[ ExtensionIdentifierPreviewSign := unsigned ]}) /\
    remarshal_AttestationObject unsigned = Ok (Some object);
  Unmarshal_signed d data :
    Unmarshal_GetAssertion (write_signed d data) = Ok (MkGetAssertionResponse d data None [] None 0 false [] ∅);
  create_output_map o : write_create_output o <> [] /\
    decode_any_map (write_create_output o) = Ok (true, len (write_create_output o)) /\
    Decode_CreateExtensionOutputs (write_create_output o) = Ok (MkCreateExtensionOutputs 0 None 0 None None None (Some o));
  get_output_map s : write_get_output s <> [] /\
    decode_any_map (write_get_output s) = Ok (true, len (write_get_output s)) /\
    Decode_GetExtensionOutputs (write_get_output s) =
      Ok (MkGetExtensionOutputs None None None (Some (MkPreviewSignOutput None None (Some s))));
  Unmarshal_attestation data : exists object,
    Unmarshal_SigningKeyAttestation (write_attestation data) = Ok (MkSigningKeyAttestation "none" (Some data) (Some ∅)) /\
    Marshal_attestation_object "none" data ∅ = Ok object;
  ordinary_key_map rest : ordinary_key_bytes <> [] /\
    decode_cose_key (ordinary_key_bytes ++ rest) = Ok (ordinary_key, len ordinary_key_bytes);
  seed_key_map rest : seed_key_bytes <> [] /\
    decode_cose_key (seed_key_bytes ++ rest) = Ok (seed_key, len seed_key_bytes);
  Marshal_seed_key : exists b, Marshal_public_key seed_key = Ok b /\ Unmarshal_seed b = Ok signing_seed;
  Marshal_arguments a keyHandle context : a < 0 -> exists b l alg h c,
    Marshal_sign_arguments a keyHandle context = Ok b /\ b <> [] /\
    read_arguments b = Some (a, keyHandle, context) /\ Unmarshal_arguments b = Ok (Some l) /\
    l ≡ₚ [(LUint 3, alg); (LInt (-1), h); (LInt (-2), c)] /\ Unmarshal_value alg = Ok (LInt a);
  Marshal_verification k : exists b, Marshal_verification_key k = Ok b }.

(** ECDSA with a key of the group, on a digest. *)
Class P256Signer `{P256Laws} `{SignatureSchemes} := {
  p256_sign : Z -> list Z -> list Z;
  p256_sign_some s digest : p256_sign s digest <> [];
  p256_sign_verifies s digest : 0 < s < p256ScalarOrder ->
    ecdsa_VerifyASN1 P256 (Bytes (base s)) digest (p256_sign s digest) = true }.

Section Authenticator.
Context `{Primitives} `{SigningWire} `{P256Signer}.

(** The authenticator: whether it verifies the user, the credential and the
    signing key it will create, and its getInfo response. *)
Context (uv : bool) (credential_id key_handle : list Z) (blinding : Z) (kem : ecdh_key) (info_bytes : list Z).

Record signer := Signer { sg_created : bool }.

(** Authenticator data of a registration. *)
Definition registration_data (rp : string) (id : list Z) (key : Key) (key_bytes : list Z) (o : PreviewSignOutput)
    : list Z :=
  layout (AuthData (rp_hash rp) (flags_of uv true true) 0 (Some (AttestedCredential (zeros 16) id key))
    (Some (write_create_output o))) key_bytes.

Definition handle_registration (r : MakeCredentialRequest) (st : signer) : Z * list Z * signer :=
  match mc_PinUvAuthParam r, Algorithms (ci_PreviewSign (mc_Extensions r)), ps_Flags (ci_PreviewSign (mc_Extensions r)) with
  | None, Some algorithms, Some flags =>
      if bool_decide (("public-key", AlgorithmES256) ∈ mc_PubKeyCredParams r)
         && bool_decide (AlgorithmESP256SplitARKGPlaceholder ∈ algorithms) then
        (CTAP2_OK,
         write_registration
           (registration_data (rp_ID (mc_RP r)) credential_id ordinary_key ordinary_key_bytes
              (MkPreviewSignOutput (Some AlgorithmESP256SplitARKGPlaceholder) None None))
           (write_attestation
              (registration_data (rp_ID (mc_RP r)) key_handle seed_key seed_key_bytes
                 (MkPreviewSignOutput None (Some flags) None))),
         Signer true)
      else (CTAP2_ERR_UNSUPPORTED_ALGORITHM, [], st)
  | Some _, _, _ => (CTAP2_ERR_PIN_AUTH_INVALID, [], st)
  | _, _, _ => (CTAP1_ERR_INVALID_PARAMETER, [], st)
  end.

(** The private key of the signing arguments. *)
Definition signing_key (arguments : list Z) : option Z :=
  match read_arguments arguments with
  | Some (algorithm, arkgKeyHandle, context) =>
      if algorithm =? AlgorithmESP256SplitARKGPlaceholder then
        derive_secret blinding kem arkgKeyHandle context ≫= fun s => if s =? 0 then None else Some s
      else None
  | None => None
  end.

Definition signed_data (rp : string) (signature : list Z) : list Z :=
  layout (@AuthData Key (rp_hash rp) (flags_of uv false true) 0 None (Some (write_get_output signature))) [].

Definition allows (st : signer) (allowList : list Descriptor) : bool :=
  sg_created st && bool_decide (credential_id ∈ ((fun d => bytes_of (cred_ID d)) <$> allowList)).

Definition handle_signing (r : GetAssertionRequest) (st : signer) : Z * list Z * signer :=
  match ga_PinUvAuthParam r, gi_PreviewSign (ga_Extensions r) with
  | Some _, _ => (CTAP2_ERR_PIN_AUTH_INVALID, [], st)
  | None, MkPreviewSignSignInput (Some keyHandle) (Some digest) (Some arguments) =>
      if negb (allows st (ga_AllowList r)) then (CTAP2_ERR_NO_CREDENTIALS, [], st)
      else match signing_key arguments with
      | Some s =>
          if bool_decide (keyHandle = key_handle) then
            (CTAP2_OK, write_signed (MkDescriptor "public-key" (Some credential_id) [])
               (signed_data (ga_RPID r) (p256_sign s digest)), st)
          else (CTAP1_ERR_INVALID_PARAMETER, [], st)
      | None => (CTAP1_ERR_INVALID_PARAMETER, [], st)
      end
  | None, _ => (CTAP1_ERR_INVALID_PARAMETER, [], st)
  end.

Definition signing_authenticator (data : list Z) (st : signer) : Z * list Z * signer :=
  match data with
  | [] => (CTAP1_ERR_INVALID_COMMAND, [], st)
  | command :: b =>
      if command =? AuthenticatorGetInfo then (CTAP2_OK, info_bytes, st)
      else match read_signing_request b with
      | Some (MMakeCredential r) =>
          if command =? AuthenticatorMakeCredential then handle_registration r st
          else (CTAP1_ERR_INVALID_COMMAND, [], st)
      | Some (MGetAssertion r) =>
          if command =? AuthenticatorGetAssertion then handle_signing r st
          else (CTAP1_ERR_INVALID_COMMAND, [], st)
      | _ => (CTAP1_ERR_INVALID_COMMAND, [], st)
      end
  end.
End Authenticator.

Section Session.
Context `{Primitives} `{HL : !PrimitiveLaws} `{HC : Codec} `{!PreviewSignCodec} `{!SigningCBOR} `{!SigningWire}.
Context `{HG : P256Group} `{!P256Laws} `{!SignatureSchemes} `{!P256Signer}.
Context (uv : bool) (credential_id key_handle : list Z) (blinding : Z) (kem : ecdh_key) (info_bytes : list Z).
Context (info : AuthenticatorGetInfoResponse) (c : run_choices).
Context (Hid : len credential_id < 65536) (Hid_some : credential_id <> []) (Hid_bytes : Forall is_byte credential_id).
Context (Hhandle : len key_handle < 65536).
Context (Hpreview : ExtensionIdentifierPreviewSign ∈ Protocol.Extensions info).
Context (Hcreate : validateMakeCredentialAuthorization info None ∅ = None).
Context (Hassert : validateGetAssertionAuthorization info None ∅ = None).

#[local] Abbreviation auth := (signing_authenticator uv credential_id key_handle blinding kem info_bytes).
#[local] Abbreviation world := ((signer * list exchange) * sign_vars)%type.
#[local] Abbreviation T := (beside sign_vars (cbor_only (called auth))).
#[local] Abbreviation CT := (client_transport T).
#[local] Abbreviation CE := (client_emit (W := world) None).
#[local] Abbreviation goes := (goes (S := signer) (St := sign_vars) info).
#[local] Abbreviation data := (registration_data uv).
#[local] Abbreviation ARKG := AlgorithmESP256SplitARKGPlaceholder.

(** ** Registration *)

Definition create_output (o : PreviewSignOutput) : CreateExtensionOutputs :=
  MkCreateExtensionOutputs 0 None 0 None None None (Some o).

Definition registration_authData (rp : string) (id : list Z) (key : Key) (o : PreviewSignOutput) : MakeCredentialAuthData :=
  MkMakeCredentialAuthData (rp_hash rp) (flags_of uv true true) 0 (Some (AttestedCredential (zeros 16) id key))
    (Some (create_output o)).

Lemma parse_registration rp id key kb o : len id < 65536 ->
  (forall rest, kb <> [] /\ decode_cose_key (kb ++ rest) = Ok (key, len kb)) ->
  ParseMakeCredentialAuthData (data rp id key kb o) = Ok (registration_authData rp id key o).
Proof.
  intros Hlen Hkey. destruct (create_output_map o) as (Hne & Hmap & Hdec).
  unfold ParseMakeCredentialAuthData, registration_data. rewrite parse_auth_data_layout.
  - cbn [mbind result_bind ad_Extensions]. by rewrite Hdec.
  - destruct (Hkey (write_create_output o)) as [Hk Hk']. split_and!; try done; try by destruct uv.
    { apply sha256_bytes. }
    unfold attested_ok. cbn [ad_AttestedCredentialData Flags ac_AAGUID CredentialID CredentialPublicKey].
    split_and!; try done; [by destruct uv|]. intros He. apply Hk. by apply app_eq_nil in He as [-> _].
Qed.

(** What the request carries. *)
Definition signing_flags : Z :=
  if userVerificationWillBePerformed info None ∅
  then Z.lor AuthDataFlagUserPresent AuthDataFlagUserVerified else AuthDataFlagUserPresent.
Definition generate_key : PreviewSignGenerateKeyInput :=
  MkPreviewSignGenerateKeyInput (Some [ARKG]) (Some signing_flags).
Definition registration_extensions : CreateExtensionInputs :=
  MkCreateExtensionInputs 0 None false "" false false false zero_hmac_secret false generate_key.

Lemma generate_key_ok :
  validateCreatePreviewSign false info None (in_PreviewSign create_inputs) ∅ = Ok (Some generate_key).
Proof using Hpreview.
  unfold validateCreatePreviewSign. cbn. by rewrite (proj2 (contains_true _ _) Hpreview).
Qed.

Lemma goes_extensions key iv s :
  goes (create_extensions false T None key iv info None create_inputs ∅ None 0) s
    (0, None, registration_extensions, (largeBlobBackendNone, "", false), Some generate_key) s.
Proof using Hpreview.
  unfold create_extensions. eapply goes_bind; [by apply goes_lift|]. eapply goes_bind; [apply goes_ret|].
  do 2 (eapply goes_bind; [by apply goes_lift|]). do 3 (eapply goes_bind; [by apply goes_check|]).
  eapply goes_bind; [apply goes_lift, generate_key_ok|]. apply goes_ret.
Qed.

Definition registration_data_of (rp : string) : list Z :=
  data rp credential_id ordinary_key ordinary_key_bytes (MkPreviewSignOutput (Some ARKG) None None).
Definition registration_object (rp : string) : list Z :=
  write_attestation (data rp key_handle seed_key seed_key_bytes (MkPreviewSignOutput None (Some signing_flags) None)).
Definition registration_response (rp : string) (unsigned : Any) : MakeCredentialResponse Any :=
  MkMakeCredentialResponse "none" (registration_data_of rp)
    (Some (registration_authData rp credential_id ordinary_key (MkPreviewSignOutput (Some ARKG) None None))) ∅ false []
    {[ ExtensionIdentifierPreviewSign := unsigned ]}.

Lemma goes_client_create st v hash rp user : len hash = 32 -> exists unsigned,
  remarshal_AttestationObject unsigned = Ok (Some (registration_object (rp_ID rp))) /\
  goes (Client.MakeCredential false CT CE 0 None hash rp user [("public-key", AlgorithmES256)] []
          (Some registration_extensions) ∅ 0 []) (st, v) (registration_response (rp_ID rp) unsigned) (Signer true, v).
Proof using HL Hid.
  intros Hh.
  destruct (Unmarshal_registration (registration_data_of (rp_ID rp)) (registration_object (rp_ID rp)))
    as (unsigned & Hu & Hobject).
  exists unsigned. split; [exact Hobject|]. unfold Client.MakeCredential.
  eapply goes_bind; [apply goes_check; unfold validateClientDataHash; by rewrite Hh|].
  do 2 (eapply goes_bind; [by apply goes_lift|]). eapply goes_bind; [by apply goes_check|].
  eapply goes_bind; [apply goes_ret|]. cbv beta iota.
  set (r := MkMakeCredentialRequest _ _ _ _ _ _ _ _ _ _ _).
  destruct (Marshal_signing (MMakeCredential r) eq_refl) as (b & Hm & Hr).
  eapply goes_bind; [apply goes_lift; rewrite Hm; reflexivity|].
  eapply goes_bind; [apply (goes_command auth) with (st' := Signer true)|].
  { unfold signing_authenticator. rewrite Hr. cbn [Z.eqb Pos.eqb AuthenticatorMakeCredential AuthenticatorGetInfo].
    unfold handle_registration, r. cbn -[bool_decide]. rewrite !bool_decide_eq_true_2 by by left. reflexivity. }
  eapply goes_bind; [apply goes_lift, Hu|].
  eapply goes_bind; [apply goes_lift, (parse_registration _ _ _ _ _ Hid ordinary_key_map)|].
  eapply goes_bind; [by apply goes_lift|]. apply goes_ret.
Qed.

Definition generated (seed_bytes object : list Z) : PreviewSignGeneratedKey :=
  MkPreviewSignGeneratedKey key_handle seed_bytes ARKG object.
Definition registration_outputs (k : PreviewSignGeneratedKey) : CreateClientOutputs :=
  MkCreateClientOutputs None None None None None None (Some (MkPreviewSignOutputs (Some k) None)).

Lemma attestation_read rp :
  signing_key_attestation (registration_object rp) =
    Ok ("none", data rp key_handle seed_key seed_key_bytes (MkPreviewSignOutput None (Some signing_flags) None), ∅,
        registration_authData rp key_handle seed_key (MkPreviewSignOutput None (Some signing_flags) None)).
Proof using HL Hhandle.
  unfold signing_key_attestation, registration_object. set (inner := data _ _ _ _ _).
  destruct (Unmarshal_attestation inner) as (object & Hu & _). rewrite Hu.
  cbn [or_violation mbind result_bind ska_AuthDataRaw ska_AttestationStatement ska_Format].
  rewrite bool_decide_eq_false_2 by done. unfold inner.
  rewrite (parse_registration _ _ _ _ _ Hhandle seed_key_map). done.
Qed.

Lemma signing_key_checked rp :
  check_signing_key generate_key
    (Some (registration_authData rp credential_id ordinary_key (MkPreviewSignOutput (Some ARKG) None None)))
    (registration_authData rp key_handle seed_key (MkPreviewSignOutput None (Some signing_flags) None)) =
  Ok (AttestedCredential (zeros 16) key_handle seed_key).
Proof using.
  unfold check_signing_key. cbn -[bool_decide signing_flags].
  rewrite !bool_decide_eq_true_2 by done. cbn. by rewrite Z.eqb_refl.
Qed.

Lemma registration_outputs_ok rp unsigned :
  remarshal_AttestationObject unsigned = Ok (Some (registration_object rp)) ->
  exists seed_bytes object, Unmarshal_seed seed_bytes = Ok signing_seed /\
    create_outputs None registration_extensions (largeBlobBackendNone, "", false) (Some generate_key) create_inputs ∅
      None (registration_response rp unsigned) = Ok (registration_outputs (generated seed_bytes object)).
Proof using HL Hhandle.
  intros Hobject. destruct Marshal_seed_key as (seed_bytes & Hseed & Hread).
  set (inner := data rp key_handle seed_key seed_key_bytes (MkPreviewSignOutput None (Some signing_flags) None)).
  destruct (Unmarshal_attestation inner) as (object & _ & Hmarshal).
  exists seed_bytes, object. split; [exact Hread|].
  assert (Hps : createPreviewSignOutput (Some generate_key) (registration_response rp unsigned) =
    Ok (Some (MkPreviewSignOutputs (Some (generated seed_bytes object)) None))).
  { unfold createPreviewSignOutput, PreviewSignUnsignedExtensionOutput, decodeUnsignedExtensionOutput.
    cbn [registration_response mr_UnsignedExtensionOutputs]. rewrite lookup_singleton_eq, Hobject.
    cbn [fmap result_fmap or_violation mbind result_bind].
    assert (Hsigned : create_signed_output (registration_response rp unsigned) =
      Some (MkPreviewSignOutput (Some ARKG) None None)).
    { unfold create_signed_output. cbn -[flags_of]. by destruct uv. }
    rewrite Hsigned. unfold signing_algorithm. cbn [mjoin option_join generate_key Algorithms default].
    rewrite (proj2 (contains_true [ARKG] ARKG)) by by left. cbn [negb mbind result_bind].
    rewrite attestation_read. cbn [mbind result_bind mr_AuthData registration_response].
    rewrite signing_key_checked. cbn [mbind result_bind CredentialPublicKey]. rewrite Hseed.
    cbn [wrap_err mbind result_bind]. fold inner. by rewrite Hmarshal. }
  unfold create_outputs, createLargeBlobOutput, create_LargeBlobUnsignedExtensionOutput, decodeUnsignedExtensionOutput.
  cbn [registration_response mr_UnsignedExtensionOutputs]. rewrite lookup_singleton_ne by done.
  fold (registration_response rp unsigned). rewrite Hps.
  cbn [mbind result_bind]. rewrite bool_decide_eq_true_2 by done. cbn. by destruct uv.
Qed.

Lemma goes_registration key iv st v : exists unsigned seed_bytes object, Unmarshal_seed seed_bytes = Ok signing_seed /\
  goes (Credentials.MakeCredential false T None key iv None (client_data "webauthn.create")
          (MkRpEntity rpID "previewSign example")
          (MkUserEntity (Some (bytes_of_string "preview-sign-user")) "previewSign user" "preview-sign-user" "")
          [("public-key", AlgorithmES256)] [] (Some create_inputs) ∅ 0 []) (st, v)
    (registration_response rpID unsigned, registration_outputs (generated seed_bytes object)) (Signer true, v).
Proof using HL Hid Hhandle Hpreview Hcreate.
  set (user := MkUserEntity _ _ _ _). set (rp := MkRpEntity _ _).
  destruct (goes_client_create st v (sha256 (client_data "webauthn.create")) rp user (proj1 (sha256_bytes _)))
    as (unsigned & Hobject & Hclient).
  destruct (registration_outputs_ok rpID unsigned Hobject) as (seed_bytes & object & Hseed & Hout).
  exists unsigned, seed_bytes, object. split; [exact Hseed|]. unfold Credentials.MakeCredential.
  eapply goes_bind; [by apply goes_lift|]. eapply goes_bind; [apply goes_ensure|].
  eapply goes_bind; [apply goes_info|]. change (default zero_create_client_inputs (Some create_inputs)) with create_inputs.
  eapply goes_bind; [by apply goes_check|]. eapply goes_bind; [by apply goes_lift|].
  eapply goes_bind; [by apply goes_check|]. eapply goes_bind; [apply goes_ret|].
  eapply goes_bind; [apply goes_extensions|]. cbv beta iota. eapply goes_bind; [exact Hclient|].
  eapply goes_bind; [apply goes_ret|]. eapply goes_bind; [apply goes_lift, Hout|]. apply goes_ret.
Qed.

(** ** Signing *)

Context (range : gmap string PRFValues -> list (string * PRFValues)).
Context (range_sign : gmap string PreviewSignSignInputs -> list string).
Context (Hrange : forall m, range_sign m ≡ₚ (map_to_list m).*1).

(** The signing arguments, encoded: what the platform's checks and the
    authenticator read in them. *)
Definition arguments_for (keyHandle context arguments : list Z) : Prop :=
  arguments <> [] /\ validateCOSESignArguments arguments = None /\
  read_arguments arguments = Some (ARKG, keyHandle, context).

Lemma algorithm_found l alg : Forall (fun e => e.1 <> LOther) l ->
  (forall e, e ∈ l -> e.1 = LUint 3 \/ e.1 = LInt 3 -> e.2 = alg) -> forall acc,
  (acc = Some alg \/ exists e, e ∈ l /\ (e.1 = LUint 3 \/ e.1 = LInt 3)) -> algorithm_argument l acc = Ok (Some alg).
Proof using.
  intros Hl Hu. induction l as [|[k value] l IH]; intros acc Ha; cbn [algorithm_argument].
  { destruct Ha as [->|(e & He%elem_of_nil & _)]; [done|by destruct He]. }
  apply Forall_cons in Hl as [Hk Hl]. specialize (IH Hl ltac:(intros e He; apply Hu; by right)).
  assert (Hv : k = LUint 3 \/ k = LInt 3 -> value = alg) by (intros Hkk; by apply (Hu (k, value)); [left|]).
  assert (Hrest : ~ (k = LUint 3 \/ k = LInt 3) ->
    acc = Some alg \/ exists e, e ∈ l /\ (e.1 = LUint 3 \/ e.1 = LInt 3)).
  { intros Hn. destruct Ha as [Ha|(e & [->|He]%elem_of_cons & Hlab)]; [by left|done|right; by exists e]. }
  destruct k as [n|n|s|]; [destruct (Z.eqb_spec n 3) as [->|]..| |done]; apply IH; try (by left; f_equal; auto);
    apply Hrest; naive_solver.
Qed.

Lemma arguments_ok keyHandle context : exists arguments,
  Marshal_sign_arguments ARKG keyHandle context = Ok arguments /\ arguments_for keyHandle context arguments.
Proof using.
  destruct (Marshal_arguments ARKG keyHandle context) as (b & l & alg & h & ctx & Hm & Hne & Hr & Hu & Hp & Hv); [done|].
  exists b. split; [done|]. split; [done|]. split; [|done]. unfold validateCOSESignArguments. rewrite Hu.
  rewrite (algorithm_found l alg); [by rewrite Hv|..].
  - rewrite Hp. by repeat constructor.
  - intros e He Hlab. rewrite Hp in He. apply list_elem_of_In in He. destruct He as [<-|[<-|[<-|[]]]]; naive_solver.
  - right. exists (LUint 3, alg). split; [rewrite Hp; left|by left].
Qed.

Definition allowed : list Descriptor := [MkDescriptor "public-key" (Some credential_id) []].
Definition sign_request (digest arguments : list Z) : PreviewSignSignInput :=
  MkPreviewSignSignInput (Some key_handle) (Some digest) (Some arguments).
Definition signing_extensions (digest arguments : list Z) : GetExtensionInputs :=
  MkGetExtensionInputs false false (gi_LargeBlob zero_get_inputs) zero_hmac_secret false (sign_request digest arguments).
Definition signing_request (digest arguments : list Z) : get_request :=
  MkGetRequest 0 None (signing_extensions digest arguments) largeBlobBackendNone false None
    (Some (sign_request digest arguments)) None.

Lemma sign_request_ok digest keyHandle context arguments : arguments_for keyHandle context arguments ->
  validateGetPreviewSign range_sign info allowed
    (gin_PreviewSign (sign_inputs credential_id key_handle digest arguments)) = Ok (Some (sign_request digest arguments)).
Proof using Hpreview Hrange Hid_some Hid_bytes.
  intros (Hne & Hv & _). unfold validateGetPreviewSign. cbn [sign_inputs gin_PreviewSign psg_GenerateKey psg_SignByCredential not_nil].
  rewrite (proj2 (contains_true _ _) Hpreview), map_size_singleton.
  set (inputs := MkPreviewSignSignInputs _ _ _).
  pose proof (Hrange {[ EncodeToString credential_id := inputs ]}) as Hk.
  rewrite map_to_list_singleton in Hk. apply Permutation_singleton_r in Hk. cbn in Hk. rewrite Hk.
  cbn -[EncodeToString canonical_id contains singletonM].
  unfold check_sign_key. rewrite canonical_id_Encode, bool_decide_eq_true_2 by done.
  rewrite (proj2 (contains_true [_] _)) by by left. cbn -[EncodeToString singletonM].
  rewrite lookup_singleton_eq. cbn [default]. unfold validatePreviewSignSignInputs. cbn [inputs psi_KeyHandle psi_ToBeSigned psi_AdditionalArguments].
  rewrite bool_decide_eq_false_2 by by intros [= ?]. cbn. by rewrite Hv.
Qed.

Lemma goes_prepare key iv s digest keyHandle context arguments : arguments_for keyHandle context arguments ->
  goes (get_prepare false T None range range_sign key iv None allowed
          (sign_inputs credential_id key_handle digest arguments) ∅) s (signing_request digest arguments) s.
Proof using Hpreview Hrange Hid_some Hid_bytes Hassert.
  intros Ha. unfold get_prepare. eapply goes_bind; [apply goes_ensure|]. eapply goes_bind; [apply goes_info|].
  eapply goes_bind; [by apply goes_check|]. eapply goes_bind; [by apply goes_lift|].
  eapply goes_bind; [by apply goes_check|]. eapply goes_bind; [apply goes_ret|].
  eapply goes_bind; [by apply goes_lift|]. cbv beta iota.
  eapply goes_bind; [eapply goes_bind; [apply goes_ret|apply goes_ret]|]. cbv beta iota.
  do 2 (eapply goes_bind; [by apply goes_check|]).
  eapply goes_bind; [apply goes_lift, (sign_request_ok _ _ _ _ Ha)|]. apply goes_ret.
Qed.

(** The answer. *)
Definition signed_authData (rp : string) (signature : list Z) : GetAssertionAuthData :=
  MkGetAssertionAuthData (rp_hash rp) (flags_of uv false true) 0 None
    (Some (MkGetExtensionOutputs None None None (Some (MkPreviewSignOutput None None (Some signature))))).
Definition signed_response (rp : string) (signature : list Z) : GetAssertionResponse Any :=
  MkGetAssertionResponse (MkDescriptor "public-key" (Some credential_id) []) (signed_data uv rp signature)
    (Some (signed_authData rp signature)) [] None 0 false [] ∅.

Lemma parse_signed rp signature :
  ParseGetAssertionAuthData (signed_data uv rp signature) = Ok (signed_authData rp signature).
Proof using HL.
  destruct (get_output_map signature) as (Hne & Hmap & Hdec).
  unfold ParseGetAssertionAuthData, signed_data. rewrite parse_auth_data_layout.
  - cbn [mbind result_bind ad_Extensions]. by rewrite Hdec.
  - split_and!; try done; try by destruct uv. apply sha256_bytes.
Qed.

Definition signing_outputs (signature : list Z) : GetClientOutputs :=
  MkGetClientOutputs None None None None (Some (MkPreviewSignOutputs None (Some signature))).

Lemma signing_outputs_ok digest arguments rp signature :
  get_outputs (signing_request digest arguments) (sign_inputs credential_id key_handle digest arguments)
    (signed_response rp signature) = Ok (signing_outputs signature).
Proof using.
  unfold get_outputs. cbn [signing_request gq_backend gq_read gq_write gq_extensions gq_previewSign].
  assert (Hp : getPreviewSignOutput (Some (sign_request digest arguments)) (signed_response rp signature) =
    Ok (Some (MkPreviewSignOutputs None (Some signature)))).
  { unfold getPreviewSignOutput, get_signed_output. cbn -[flags_of]. by destruct uv. }
  rewrite Hp. cbn -[flags_of]. by destruct uv.
Qed.

(** The exchange, inside the loop over the assertions. *)
Lemma loop_command command b st body st' v l log : auth (command :: b) st = (CTAP2_OK, body, st') -> exists log',
  command_cbor (loop_transport T) (loop_emit (W := world) None) command b (at_state info (st, v) log, l) =
    (Ok (MkCBORResponse CTAP2_OK body), (at_state info (st', v) log', l)).
Proof using.
  intros Ha. destruct (goes_command auth info command b st body st' v Ha log) as [log' Hc]. exists log'.
  revert Hc. unfold command_cbor, cbor, Client.exchange. cbn [fmap option_fmap option_map loop_emit client_emit loop_transport client_transport tr_CBOR beside cbor_only].
  unfold inside. cbn [fst snd]. by intros ->.
Qed.

Context (Hblinding : 0 < blinding < p256ScalarOrder).

Lemma client_signing v l log hash digest arguments keyHandle context s : len hash = 32 ->
  read_arguments arguments = Some (ARKG, keyHandle, context) ->
  derive_secret blinding kem keyHandle context = Some s -> s <> 0 -> exists log',
  forall (body : GetAssertionResponse Any + error -> M (device world * loop) bool),
  Client.GetAssertion false (loop_transport T) (loop_emit None) 0 None rpID hash allowed
    (Some (signing_extensions digest arguments)) ∅ body (at_state info (Signer true, v) log, l) =
  (body (inl (signed_response rpID (p256_sign s digest)));; mret tt) (at_state info (Signer true, v) log', l).
Proof using HL.
  intros Hh Hr Hs Hne.
  set (r := MkGetAssertionRequest rpID hash allowed (signing_extensions digest arguments) ∅ None 0).
  destruct (Marshal_signing (MGetAssertion r) eq_refl) as (b & Hm & Hread).
  destruct (loop_command AuthenticatorGetAssertion b (Signer true)
    (write_signed (MkDescriptor "public-key" (Some credential_id) []) (signed_data uv rpID (p256_sign s digest)))
    (Signer true) v l log) as [log' Hcall].
  { unfold signing_authenticator. rewrite Hread. cbn [Z.eqb Pos.eqb AuthenticatorGetAssertion AuthenticatorGetInfo].
    unfold handle_signing, r. cbn -[bool_decide allows signing_key]. unfold allows. cbn [sg_created andb].
    rewrite bool_decide_eq_true_2 by by left. unfold signing_key. rewrite Hr, Z.eqb_refl, Hs.
    cbn [mbind option_bind]. rewrite (proj2 (Z.eqb_neq _ _)) by done. by rewrite bool_decide_eq_true_2. }
  exists log'. intros body. set (d := (at_state _ _ log, l)) in *. set (d' := (at_state _ _ log', l)) in *.
  unfold Client.GetAssertion, sequence.
  rewrite (M_bind_Ok _ _ d (inl (signed_response rpID (p256_sign s digest))) d').
  - unfold mbind, M_bind. cbn. destruct (body _ d') as [[[]| | |] w]; reflexivity.
  - apply try_Ok. rewrite (M_bind_Ok _ _ d tt d) by (unfold validateClientDataHash; by rewrite Hh).
    rewrite (M_bind_Ok _ _ d tt d) by done. rewrite (M_bind_Ok _ _ d (None, 0) d) by done. cbv beta iota.
    change (default zero_get_inputs (Some ?x)) with x. fold r.
    rewrite (lift_bind _ _ _ _ Hm), (M_bind_Ok _ _ _ _ _ Hcall). cbn [Data].
    rewrite (lift_bind _ _ _ _ (Unmarshal_signed _ _)). cbn [gr_AuthDataRaw].
    rewrite (lift_bind _ _ _ _ (parse_signed _ _)). reflexivity.
Qed.

Lemma goes_signing key iv nonce fuel digest arguments keyHandle context s v v'
    (yield : assertion + error -> M (device world) bool) :
  arguments_for keyHandle context arguments -> derive_secret blinding kem keyHandle context = Some s -> s <> 0 ->
  goes (yield (inl (signed_response rpID (p256_sign s digest), signing_outputs (p256_sign s digest))))
    (Signer true, v) true (Signer true, v') ->
  goes (Credentials.GetAssertion false T None range range_sign fuel key iv nonce None rpID (client_data "webauthn.get")
          allowed (Some (sign_inputs credential_id key_handle digest arguments)) ∅ yield) (Signer true, v) tt (Signer true, v').
Proof using HL Hpreview Hrange Hid_some Hid_bytes Hassert.
  intros Ha Hs Hne Hy. unfold Credentials.GetAssertion.
  change (default zero_get_client_inputs (Some ?x)) with x.
  eapply goes_bind; [apply goes_try, (goes_prepare _ _ _ _ _ _ _ Ha)|].
  intros log. destruct (client_signing v (MkLoop [] false) log (sha256 (client_data "webauthn.get")) digest arguments
    keyHandle context s (proj1 (sha256_bytes _)) (proj2 (proj2 Ha)) Hs Hne) as [log1 Hc].
  destruct (Hy log1) as [log2 Hyield]. exists log2. unfold get_loop. cbn [signing_request gq_protocol gq_extensions].
  fold (signing_request digest arguments). rewrite Hc. unfold get_body. rewrite signing_outputs_ok.
  unfold emitAssertion, inside, mbind, M_bind. cbn [signing_request gq_backend fst snd].
  rewrite bool_decide_eq_false_2 by done. unfold assertion in *. cbn [fst snd]. rewrite Hyield. reflexivity.
Qed.

(** ** The derived key *)

Lemma keyInteger_any (key : Key) label name v a :
  default ∅ key !! label = Some v -> any_integer v = Some a -> keyInteger key label name = Ok a.
Proof using. unfold keyInteger, any_integer. intros ->. by destruct v; try case_match; intros [= <-]. Qed.

Context (Hseed : public_seed signing_seed blinding kem).
Context (algorithm : any) (Hdkalg : signing_seed !! (-3) = Some (SScalar algorithm)).
Context (Halgorithm : any_integer algorithm = Some AlgorithmES256 \/ any_integer algorithm = Some (-9)).

#[local] Abbreviation arkgContext := (bytes_of_string rpID).
#[local] Abbreviation kemContext := (tagged "ARKG-Derive-Key-KEM." (contextWithLength arkgContext)).

(** The private key behind the handle that the platform makes of its key
    material. *)
Definition derived_private (material : list Z) : option Z :=
  match p256Encapsulate (PublicKeyBytes kem) material kemContext with
  | Ok (_, keyHandle) => derive_secret blinding kem keyHandle arkgContext
  | _ => None
  end.

Lemma DeriveP256_private material s : derived_private material = Some s -> s <> 0 -> exists keyHandle,
  derive_secret blinding kem keyHandle arkgContext = Some s /\ 0 < s < p256ScalarOrder /\
  DeriveP256 false signing_seed material arkgContext =
    Ok (derived_key (Bytes (base s)) (Some (SScalar algorithm)), keyHandle).
Proof using HL Hseed Hblinding Hdkalg.
  intros Hs Hne. rewrite (DeriveP256_seed signing_seed blinding kem) by done.
  pose proof (encapsulate_opens kem material arkgContext) as He. cbv zeta in He. revert Hs. unfold derived_private.
  case_bool_decide; [destruct He as [err ->]; done|]. destruct He as (shared & keyHandle & -> & Hd).
  intros Hs. rewrite (Hd blinding) in Hs. injection Hs as Hs. exists keyHandle.
  assert (Hr : 0 <= s < p256ScalarOrder) by (subst s; by apply Z.mod_pos_bound).
  split; [by rewrite Hd, Hs|]. split; [lia|]. cbn [mbind result_bind]. unfold blinding_factor, p256Scalar.
  fold (scalar shared (tagged "ARKG-BL-EC.ARKG-P256" (tagged "ARKG-Derive-Key-BL." (contextWithLength arkgContext)))).
  rewrite mult_base by apply scalar_range. cbn [wrap_err mbind result_bind]. rewrite add_base, Hs, infinity_base by done.
  rewrite bool_decide_eq_false_2 by done. by rewrite Hdkalg.
Qed.

Lemma derive_ok material s seed_bytes object :
  Unmarshal_seed seed_bytes = Ok signing_seed -> inputKeyMaterial c = Ok material ->
  derived_private material = Some s -> s <> 0 -> exists keyHandle arguments encoded,
    derive_secret blinding kem keyHandle arkgContext = Some s /\ 0 < s < p256ScalarOrder /\
    arguments_for keyHandle arkgContext arguments /\
    derive false c (generated seed_bytes object) =
      Ok (derived_key (Bytes (base s)) (Some (SScalar algorithm)), arguments, encoded).
Proof using HL Hseed Hblinding Hdkalg.
  intros Hu Hm Hs Hne. destruct (DeriveP256_private material s Hs Hne) as (keyHandle & Hsecret & Hr & Hderive).
  destruct (arguments_ok keyHandle arkgContext) as (arguments & Ha & Hfor).
  destruct (Marshal_verification (derived_key (Bytes (base s)) (Some (SScalar algorithm)))) as [encoded Hencoded].
  exists keyHandle, arguments, encoded. split; [done|]. split; [done|]. split; [done|]. unfold derive. cbn [generated gk_PublicKey gk_Algorithm].
  rewrite Hu. cbn [wrap_err mbind result_bind]. rewrite Hm. cbn [wrap_err mbind result_bind]. rewrite Hderive.
  cbn [wrap_err mbind result_bind]. rewrite Ha. cbn [wrap_err mbind result_bind]. by rewrite Hencoded.
Qed.

(** The derived key as a verification key. *)
Lemma derived_key_read s : 0 < s < p256ScalarOrder -> valid_encoding P256 (Bytes (base s)) = true ->
  let key := as_cose_key (derived_key (Bytes (base s)) (Some (SScalar algorithm))) in
  exists a, (a = AlgorithmES256 \/ a = -9) /\ Algorithm key = Ok a /\
    PublicKey false key = Ok (ECDSAPublicKey (Some (P256, Bytes (base s)))).
Proof using Halgorithm.
  intros Hs Hvalid key. destruct (Bytes_base s Hs) as (x & y & HB & Hx & Hy).
  destruct (derived_key_members x y (Some (SScalar algorithm)) Hx Hy) as (Kx & Ky & Kkty & Kcrv & Kalg).
  subst key. rewrite HB in Hvalid |- *. set (k := derived_key _ _) in *.
  assert (Hl : forall label v, k !! label = Some (SScalar v) -> default ∅ (as_cose_key k) !! label = Some v).
  { intros label v Hk. exact (eq_trans (lookup_fmap _ k label) (f_equal (fmap _) Hk)). }
  apply Hl in Kx, Ky, Kkty, Kcrv, Kalg.
  assert (Ha : exists a, (a = AlgorithmES256 \/ a = -9) /\ Algorithm (as_cose_key k) = Ok a).
  { destruct Halgorithm as [Hc|Hc]; eexists; (split; [|by apply (keyInteger_any _ _ _ _ _ Kalg Hc)]); auto. }
  destruct Ha as (a & Hcase & Ha). exists a. split; [done|]. split; [done|].
  unfold PublicKey. unfold as_cose_key at 1. fold (as_cose_key k).
  assert (Hkty : keyInteger (as_cose_key k) KeyParameterKty "kty" = Ok KeyTypeEC2) by (unfold keyInteger; by rewrite Kkty).
  rewrite Hkty. cbn [mbind result_bind KeyTypeEC2 KeyTypeOKP Z.eqb Pos.eqb].
  assert (Hec : ec2PublicKey false (as_cose_key k) = Ok (ECDSAPublicKey (Some (P256, 4 :: x ++ y)))).
  { unfold ec2PublicKey, keyInteger, Signature.keyBytes. rewrite Kcrv, Kx, Ky. cbn [mbind result_bind].
    cbn [ec2_curve EllipticCurveP256 Z.eqb Pos.eqb mbind result_bind curve_params snd]. rewrite Hx, Hy.
    cbn [Z.eqb Pos.eqb negb orb app]. by rewrite Hvalid. }
  rewrite Hec. cbn [mbind result_bind]. rewrite Ha. cbn [mbind result_bind]. by destruct Hcase as [-> | ->].
Qed.

Lemma verify_ok s : 0 < s < p256ScalarOrder -> valid_encoding P256 (Bytes (base s)) = true -> exists a,
  verify false (derived_key (Bytes (base s)) (Some (SScalar algorithm))) (p256_sign s (sha256 message)) = Ok a.
Proof using Halgorithm.
  intros Hs Hvalid. destruct (derived_key_read s Hs Hvalid) as (a & Hcase & Ha & Hpk). exists a.
  unfold verify. rewrite Ha. cbn [mbind result_bind]. rewrite Hpk. cbn [mbind result_bind].
  assert (Hv : VerifySignature false (Some (ECDSAPublicKey (Some (P256, Bytes (base s))))) a message
    (p256_sign s (sha256 message)) = Ok tt).
  { pose proof (p256_sign_verifies s (sha256 message) Hs) as Hok.
    transitivity (valid (ecdsa_VerifyASN1 P256 (Bytes (base s)) (sha256 message) (p256_sign s (sha256 message))));
      [by destruct Hcase as [-> | ->]|by rewrite Hok]. }
  by rewrite Hv.
Qed.

(** ** The program *)

Context (NFC : list Z -> list Z) (Hinfo : Unmarshal_Info info_bytes = Ok info).

#[local] Abbreviation prun := (run_program false NFC range range_sign (cbor_only (called auth))).

(** Standard output after some lines. *)
Definition after_lines (out : string) (lines : list string) : string :=
  foldl (fun out line => out +:+ (line +:+ Examples.newline)) out lines.

Definition transcript (k : PreviewSignGeneratedKey) (encoded signature : list Z) (a : Z) : list string :=
  ["Touch the authenticator to create a credential and signing key.";
   "Credential ID: " +:+ EncodeToString credential_id;
   "Signing key handle: " +:+ EncodeToString key_handle;
   "Signing algorithm: " +:+ pretty ARKG;
   "Signing public seed (COSE): " +:+ Examples.hex_of_bytes (gk_PublicKey k);
   "Signing key attestation: " +:+ pretty (len (gk_AttestationObject k)) +:+ " bytes";
   "Derived signing public key (COSE): " +:+ Examples.hex_of_bytes encoded;
   "Touch the authenticator to sign the message.";
   "Message: " +:+ quoted (Examples.string_of_bytes message);
   "Signature: " +:+ Examples.hex_of_bytes signature;
   "Verification algorithm: " +:+ pretty a;
   "Signature verified."].

Lemma goes_println st v line : goes (prun (Println line)) (st, v) tt
  (st, SignVars (sv_stdout v +:+ (line +:+ Examples.newline)) (assertionSignature v)).
Proof using. cbn. eapply goes_bind; [apply goes_load|apply goes_store]. Qed.

Lemma goes_no_token key iv permission s : goes (prun (token_with [] key iv permission)) s None s.
Proof using. intros log. by exists log. Qed.

Lemma goes_key_report st v k : goes (prun (key_report credential_id k)) (st, v) tt
  (st, SignVars (after_lines (sv_stdout v)
    ["Credential ID: " +:+ EncodeToString credential_id; "Signing key handle: " +:+ EncodeToString (gk_KeyHandle k);
     "Signing algorithm: " +:+ pretty (gk_Algorithm k);
     "Signing public seed (COSE): " +:+ Examples.hex_of_bytes (gk_PublicKey k);
     "Signing key attestation: " +:+ pretty (len (gk_AttestationObject k)) +:+ " bytes"]) (assertionSignature v)).
Proof using.
  unfold key_report. do 4 (eapply goes_then; [apply goes_println|]). exact (goes_println _ _ _).
Qed.

Lemma goes_signature_report st v signature a : goes (prun (signature_report signature a)) (st, v) tt
  (st, SignVars (after_lines (sv_stdout v)
    ["Message: " +:+ quoted (Examples.string_of_bytes message); "Signature: " +:+ Examples.hex_of_bytes signature;
     "Verification algorithm: " +:+ pretty a; "Signature verified."]) (assertionSignature v)).
Proof using.
  unfold signature_report. do 3 (eapply goes_then; [apply goes_println|]). exact (goes_println _ _ _).
Qed.

Lemma goes_keep_signature st v signature :
  goes (prun (keep_signature (inl (signed_response rpID signature, signing_outputs signature)))) (st, v) true
    (st, SignVars (sv_stdout v) (Some signature)).
Proof using.
  cbn. eapply goes_bind; [apply goes_load|]. eapply goes_bind; [apply goes_store|]. apply goes_ret.
Qed.

Lemma goes_run st v fuel material s : inputKeyMaterial c = Ok material ->
  derived_private material = Some s -> s <> 0 -> valid_encoding P256 (Bytes (base s)) = true ->
  let signature := p256_sign s (sha256 message) in
  exists k encoded a, gk_KeyHandle k = key_handle /\
    goes (prun (SignExample.run false [] c fuel)) (st, v) tt
      (Signer true, SignVars (after_lines (sv_stdout v) (transcript k encoded signature a)) (Some signature)).
Proof using HL Hid Hid_some Hid_bytes Hhandle Hpreview Hcreate Hassert Hrange Hblinding Hseed Hdkalg Halgorithm.
  intros Hm Hs Hne Hvalid signature.
  destruct (goes_registration (create_key c) (create_iv c) st
    (SignVars (after_lines (sv_stdout v) ["Touch the authenticator to create a credential and signing key."])
       (assertionSignature v))) as (unsigned & seed_bytes & object & Hu & Hregister).
  destruct (derive_ok material s seed_bytes object Hu Hm Hs Hne) as (keyHandle & arguments & encoded & Hsecret & Hr & Hfor & Hderive).
  destruct (verify_ok s Hr Hvalid) as (a & Hverify). set (k := generated seed_bytes object) in *.
  exists k, encoded, a. split; [done|]. unfold SignExample.run.
  eapply goes_then; [apply (goes_cached info)|]. cbn [negb]. cbv beta iota.
  rewrite (proj2 (contains_true _ _) Hpreview). cbn [negb].
  eapply goes_then; [apply goes_no_token|]. eapply goes_then; [apply goes_println|].
  eapply goes_then; [exact Hregister|]. eapply goes_then; [by apply goes_lift|]. cbv beta iota.
  eapply goes_then; [apply goes_key_report|]. eapply goes_then; [apply goes_lift, Hderive|]. cbv beta iota.
  eapply goes_then; [apply goes_println|]. eapply goes_then; [apply goes_no_token|]. eapply goes_then; [apply goes_println|].
  eapply goes_then.
  { eapply goes_signing; [exact Hfor|exact Hsecret|exact Hne|]. apply goes_keep_signature. }
  eapply goes_then; [apply goes_load|]. cbn [assertionSignature]. change (bytes_of (Some ?x)) with x.
  assert (Hlen : (len (p256_sign s (sha256 message)) =? 0) = false).
  { pose proof (p256_sign_some s (sha256 message)). by destruct (p256_sign s (sha256 message)). }
  rewrite Hlen. eapply goes_then; [apply goes_lift, Hverify|]. apply goes_signature_report.
Qed.
(** C4. The previewSign example works, end to end. Run without a PIN over any
    connection to an authenticator that follows the specification, it creates
    the credential with its signing key, accepts the attestation of the key,
    derives a verification key and a handle from the attested ARKG seed, has
    the authenticator sign the digest of the message under the private key
    the authenticator derives from the handle, and verifies that signature:
    it ends without an error, having printed each step up to the line that the
    signature is verified. *)
Theorem derived_signature_verified st v fuel material s :
  inputKeyMaterial c = Ok material -> derived_private material = Some s -> s <> 0 ->
  valid_encoding P256 (Bytes (base s)) = true ->
  let run {W : Type} (cbor : list Z -> M W CBORResponse) :=
    run_application false NFC range range_sign (cbor_only cbor) (SignExample.run false [] c fuel) in
  let signature := p256_sign s (sha256 message) in
  exists script k encoded a, gk_KeyHandle k = key_handle /\
    let v' := SignVars (after_lines (sv_stdout v) (transcript k encoded signature a)) (Some signature) in
    run (called auth) ((st, []), v) = (Ok tt, ((Signer true, script), v')) /\
    forall W In Out (cbor : list Z -> M W CBORResponse) (L : Link In Out cbor) arrived written rest,
      carried cbor script arrived written -> Forall link_ok rest ->
      run cbor (link_at (arrived ++ rest) [], v) = (Ok tt, (link_at rest written, v')).
Proof using HL Hid Hid_some Hid_bytes Hhandle Hpreview Hcreate Hassert Hrange Hblinding Hseed Hdkalg Halgorithm Hinfo.
  intros Hm Hs Hne Hvalid run signature.
  destruct (goes_run st v fuel material s Hm Hs Hne Hvalid) as (k & encoded & a & Hk & Hgo).
  destruct (application_goes auth info false NFC range range_sign info_bytes Hinfo (SignExample.run false [] c fuel)
    st st v tt _ _ eq_refl Hgo) as (script & Hrun & Hlinks).
  by exists script, k, encoded, a.
Qed.
End Session.

(** ** A run that ends *)

Section Ends.
Context `{Primitives} `{PreviewSignCodec} `{P256Group} `{SignatureSchemes} `{SigningCBOR}.
Context (fips_enabled : bool).
Context (NFC : list Z -> list Z) (range : gmap string PRFValues -> list (string * PRFValues)).
Context (range_sign : gmap string PreviewSignSignInputs -> list string).
Context {W : Type} (T : transport_ops W).

#[local] Existing Instances sign_ret sign_bind.
#[local] Abbreviation runs := (run_program (St := sign_vars) fips_enabled NFC range range_sign T).

Lemma runs_then {A B} (p : program sign_vars A) (k : A -> program sign_vars B) d b d' :
  runs (p ≫= k) d = (Ok b, d') -> exists a d1, runs p d = (Ok a, d1) /\ runs (k a) d1 = (Ok b, d').
Proof using.
  intros Hr. change ((runs p ≫= (fun a => runs (k a))) d = (Ok b, d')) in Hr.
  unfold mbind, M_bind in Hr. destruct (runs p d) as [[a| | |] d1]; try done. by exists a, d1.
Qed.

Lemma runs_lift {A} (r : result A) d a d' : runs (Lift r) d = (Ok a, d') -> r = Ok a /\ d' = d.
Proof using. destruct r; try done. by intros [= <- <-]. Qed.

Lemma runs_println line d u d' : runs (Println line) d = (Ok u, d') ->
  sv_stdout (dv_world d').2 = sv_stdout (dv_world d).2 +:+ (line +:+ Examples.newline) /\
  assertionSignature (dv_world d').2 = assertionSignature (dv_world d).2.
Proof using. intros [= _ <-]. done. Qed.

Lemma derive_Ok c k key arguments encoded : derive fips_enabled c k = Ok (key, arguments, encoded) ->
  exists publicSeed material keyHandle, Unmarshal_seed (gk_PublicKey k) = Ok publicSeed /\
    inputKeyMaterial c = Ok material /\
    DeriveP256 fips_enabled publicSeed material (bytes_of_string rpID) = Ok (key, keyHandle) /\
    Marshal_sign_arguments (gk_Algorithm k) keyHandle (bytes_of_string rpID) = Ok arguments.
Proof using.
  unfold derive. destruct (Unmarshal_seed _) as [publicSeed| | |]; try done. cbn [wrap_err mbind result_bind].
  destruct (inputKeyMaterial c) as [material| | |]; try done. cbn [wrap_err mbind result_bind].
  destruct (DeriveP256 _ _ _ _) as [[key' keyHandle]| | |] eqn:Hd; try done. cbn [wrap_err mbind result_bind].
  destruct (Marshal_sign_arguments _ _ _) as [b| | |] eqn:Hm; try done. cbn [wrap_err mbind result_bind].
  destruct (Marshal_verification_key _) as [e| | |]; try done. intros [= <- <- <-]. by exists publicSeed, material, keyHandle.
Qed.

Lemma verify_Ok key signature a : verify fips_enabled key signature = Ok a -> exists publicKey,
  Algorithm (as_cose_key key) = Ok a /\ PublicKey fips_enabled (as_cose_key key) = Ok publicKey /\
  VerifySignature fips_enabled (Some publicKey) a message signature = Ok tt.
Proof using.
  unfold verify. destruct (Algorithm _) as [a'| | |]; try done. cbn [mbind result_bind].
  destruct (PublicKey _ _) as [publicKey| | |]; try done. cbn [mbind result_bind].
  destruct (VerifySignature _ _ _ _ _) as [[]| | |] eqn:Hv; try done. intros [= <-]. by exists publicKey.
Qed.

(** The schemes accept the signature of a message under a COSE key: the key
    is well formed and of the algorithm it declares. *)
Definition accepted (key : Key) (message signature : list Z) : Prop := exists publicKey a,
  Algorithm key = Ok a /\ PublicKey false key = Ok publicKey /\
  well_formed publicKey /\ verdict false publicKey a message signature.

Context (parse_total : forall signature, (exists s, ParseDERSignature signature = Ok s) \/
  exists err, ParseDERSignature signature = Err err).

(** C5. The previewSign example never reports a signature that is not one.
    Whatever the authenticator and the connection do, a run that ends without
    an error ran outside FIPS 140-3 mode, and its last line reports a
    non-empty signature that the signature scheme accepts for the message
    under the key derived from the seed of the signing key that
    MakeCredential returned in this run and from the run's own key material,
    a key that is well formed and of the algorithm it declares. *)
Theorem verified_signature_valid pin c fuel d d' :
  runs (SignExample.run fips_enabled pin c fuel) d = (Ok tt, d') ->
  fips_enabled = false /\
  exists token d1 r d2 credentialID k publicSeed material key keyHandle signature out,
    run_operation fips_enabled NFC (beside sign_vars T)
      (registration_request (create_key c) (create_iv c) token) d1 = (Ok r, d2) /\
    registered r = Ok (credentialID, k) /\ Unmarshal_seed (gk_PublicKey k) = Ok publicSeed /\
    inputKeyMaterial c = Ok material /\
    DeriveP256 false publicSeed material (bytes_of_string rpID) = Ok (key, keyHandle) /\
    assertionSignature (dv_world d').2 = Some signature /\ signature <> [] /\
    accepted (as_cose_key key) message signature /\
    sv_stdout (dv_world d').2 = out +:+ ("Signature verified." +:+ Examples.newline).
Proof using parse_total.
  unfold SignExample.run. intros Hr. apply runs_then in Hr as ([info ok] & d0 & _ & Hr).
  destruct ok; [cbn [negb] in Hr|done]. destruct (contains _ _); [cbn [negb] in Hr|done].
  apply runs_then in Hr as (token & d0' & _ & Hr). apply runs_then in Hr as (? & d1 & _ & Hr).
  apply runs_then in Hr as (r & d2 & Hcreate & Hr). apply runs_then in Hr as ([credentialID k] & d3 & Hreg & Hr).
  apply runs_lift in Hreg as [Hreg ->]. apply runs_then in Hr as (? & d4 & _ & Hr).
  apply runs_then in Hr as ([[key arguments] encoded] & d5 & Hderive & Hr). apply runs_lift in Hderive as [Hderive ->].
  apply derive_Ok in Hderive as (publicSeed & material & keyHandle & Hseed & Hmaterial & Hderive & _).
  apply runs_then in Hr as (? & d5 & _ & Hr). apply runs_then in Hr as (token' & d6 & _ & Hr).
  apply runs_then in Hr as (? & d7 & _ & Hr). apply runs_then in Hr as (? & d8 & _ & Hr).
  apply runs_then in Hr as (v & d9 & Hload & Hr). injection Hload as <- <-.
  destruct (Z.eqb_spec (len (bytes_of (assertionSignature (dv_world d8).2))) 0) as [|Hlen]; [done|].
  apply runs_then in Hr as (a & d9 & Hverify & Hr). apply runs_lift in Hverify as [Hverify ->].
  apply verify_Ok in Hverify as (publicKey & Ha & Hpk & Hv).
  apply runs_then in Hr as (? & e1 & [_ H1']%runs_println & Hr). apply runs_then in Hr as (? & e2 & [_ H2']%runs_println & Hr).
  apply runs_then in Hr as (? & e3 & [_ H3']%runs_println & Hr). apply runs_println in Hr as [Hout H4'].
  assert (Hf : fips_enabled = false) by (destruct fips_enabled; [by unfold DeriveP256 in Hderive|done]).
  split; [done|]. rewrite Hf in *.
  destruct (assertionSignature (dv_world d8).2) as [signature|] eqn:Hsig; [|done]. change (bytes_of (Some ?x)) with x in *.
  exists token, d1, r, d2, credentialID, k, publicSeed, material, key, keyHandle, signature, (sv_stdout (dv_world e3).2).
  split_and!; try done.
  - congruence.
  - by intros ->.
  - assert (Hwf : well_formed publicKey) by (by apply PublicKey_Ok in Hpk as [? _]).
    exists publicKey, a. split_and!; [done..|]. by apply (VerifySignature_verdict false parse_total).
Qed.
End Ends.

(** ** A run with the sample primitives

    The residues as a group, one of them encoded as a point of the curve: the
    key that the sample run derives. *)

Definition curve_point : list Z := sample_public false.

Lemma residue_not_point k : residue_bytes k <> curve_point.
Proof.
  intros He. destruct (residue_coordinates k) as [Hx Hy]. rewrite He in Hx, Hy. rewrite <- Hy in Hx.
  revert Hx. apply (bool_decide_eq_false _). vm_compute. reflexivity.
Qed.

Section Group.
Context (k0 : Z).

Definition point_bytes (k : Z) : list Z := if k =? k0 then curve_point else residue_bytes k.
Definition point_of (e : list Z) : result Z := if bool_decide (e = curve_point) then Ok k0 else residue_of e.

Lemma point_back k : 0 <= k < p256ScalarOrder -> point_of (point_bytes k) = Ok k.
Proof using.
  intros Hk. unfold point_of, point_bytes. destruct (Z.eqb_spec k k0) as [->|Hne]; [by rewrite bool_decide_eq_true_2|].
  rewrite bool_decide_eq_false_2 by apply residue_not_point. by apply residue_back.
Qed.

Lemma point_split k : exists x y, point_bytes k = 4 :: x ++ y /\ len x = 32 /\ len y = 32.
Proof using.
  unfold point_bytes. destruct (k =? k0); [|apply residue_split].
  exists (take 32 (drop 1 curve_point)), (drop 33 curve_point). by vm_compute.
Qed.

Definition signing_group : P256Group := residue_group point_bytes point_of.
Definition signing_group_laws : @P256Laws signing_group := residue_group_laws point_bytes point_of point_back point_split.

Definition sample_signer : @P256Signer signing_group signing_group_laws sample_schemes.
Proof.
  refine (@Build_P256Signer signing_group signing_group_laws sample_schemes
    (fun s digest => sample_hash (point_bytes s ++ digest)) _ _).
  - intros s digest Hn. destruct (sample_hash_bytes (point_bytes s ++ digest)) as [Hl _]. by rewrite Hn in Hl.
  - intros s digest _. cbn. by apply bool_decide_eq_true.
Defined.
End Group.

Definition output_tuple (o : PreviewSignOutput) := (pso_Algorithm o, pso_Flags o, pso_Signature o).
Definition of_output_tuple t : PreviewSignOutput := let '(a, f, s) := t in MkPreviewSignOutput a f s.

Definition sample_signing_info : AuthenticatorGetInfoResponse :=
  GetInfoResponse [FIDO_2_1] [ExtensionIdentifierPreviewSign] [] ∅ 0 [] 0 0 [] [] 0 false 0 None 0 None 0 None ∅ None
    [] [] None None [] [] None [] 0 [] [].

(** As package cose decodes the seed: its maps are not integers. *)
Definition sample_seed_key : Key := Some {[ 1 := VInt64 KeyTypeARKGPublicSeedPlaceholder; -1 := VOther; -2 := VOther ]}.

Definition signing_codec : Codec := {|
  Any := list Z;
  Marshal m := match m with
               | MMakeCredential r => Ok (1 :: number_bytes (create_request_tuple r))
               | MGetAssertion r => Ok (2 :: number_bytes (get_request_tuple r))
               | _ => Err io_EOF
               end;
  Unmarshal_ClientPIN b := Err io_EOF;
  Unmarshal_Bio b := Err io_EOF;
  Unmarshal_CredMgmt b := Err io_EOF;
  Unmarshal_LargeBlobs b := Err io_EOF;
  Unmarshal_Info b := Ok sample_signing_info;
  Unmarshal_MakeCredential b := match read_number b with
    | Some (data, object) => Ok (MkMakeCredentialResponse "none" data None ∅ false []
        ({[ ExtensionIdentifierPreviewSign := object ]} : gmap string (list Z)))
    | None => Err io_EOF
    end;
  Unmarshal_GetAssertion b := match read_number b with
    | Some (d, data) => Ok (MkGetAssertionResponse (of_descriptor_tuple d) data None [] None 0 false [] ∅)
    | None => Err io_EOF
    end;
  decode_cose_key b := match b with
    | 8 :: _ => Ok (sample_seed_key, 1)
    | _ => Ok (sample_credential_key, 1)
    end;
  decode_any_map b := Ok (true, len b);
  Decode_CreateExtensionOutputs b := match read_number b with
    | Some t => Ok (MkCreateExtensionOutputs 0 None 0 None None None (Some (of_output_tuple t)))
    | None => Err io_EOF
    end;
  Decode_GetExtensionOutputs b := match read_number b with
    | Some s => Ok (MkGetExtensionOutputs None None None (Some (MkPreviewSignOutput None None (Some s))))
    | None => Err io_EOF
    end;
  remarshal_supported a := Err io_EOF;
  remarshal_GetLargeBlobOutput a := Err io_EOF;
  remarshal_AttestationObject a := Ok (Some a);
  Marshal_LargeBlobArray l := Err io_EOF;
  Unmarshal_LargeBlobArray b := Err io_EOF |}.

Definition signing_preview : @PreviewSignCodec signing_codec :=
  @Build_PreviewSignCodec signing_codec
    (fun b => match read_number b with
              | Some (a, h, c) => Ok (Some [(LUint 3, number_bytes (a : Z)); (LInt (-1), h); (LInt (-2), c)])
              | None => Err io_EOF
              end)
    (fun b => match read_number (A := Z) b with Some a => Ok (LInt a) | None => Err io_EOF end)
    (fun b => Ok (MkSigningKeyAttestation "none" (Some b) (Some ∅)))
    (fun _ => Ok [9]) (fun _ data _ => Ok data).

(** The seed of the blinding key 5 and the KEM key 7, for ESP256 keys. *)
Definition sample_signing_seed : seed := <[-3 := SScalar (VInt64 (-9))]> sample_seed.

Definition signing_cbor : SigningCBOR := {|
  Unmarshal_seed _ := Ok sample_signing_seed;
  Marshal_sign_arguments a keyHandle context := Ok (number_bytes (a, keyHandle, context));
  Marshal_verification_key _ := Ok [] |}.

Definition read_signing (b : list Z) : option Messages.message :=
  match b with
  | 1 :: b => (fun t => MMakeCredential (of_create_request_tuple t)) <$> read_number b
  | 2 :: b => (fun t => MGetAssertion (of_get_request_tuple t)) <$> read_number b
  | _ => None
  end.

Definition signing_wire : @SigningWire signing_codec signing_preview signing_cbor.
Proof.
  refine (@Build_SigningWire signing_codec signing_preview signing_cbor read_signing (fun b => read_number b)
    (fun data object => number_bytes (data, object)) (fun d data => number_bytes (descriptor_tuple d, data))
    (fun o => number_bytes (output_tuple o)) (fun s => number_bytes s) (fun data => data)
    sample_credential_key [7] sample_seed_key [8] sample_signing_seed _ _ _ _ _ _ _ _ _ _ _).
  - intros [r| | | | | | | |r|r] Hm; try done; eexists; (split; [reflexivity|]); unfold read_signing;
      rewrite read_number_bytes; cbn [fmap option_fmap option_map]; do 2 f_equal.
    + apply create_request_back.
    + apply get_request_back.
  - intros data object. exists object. split; [|done]. cbn [Unmarshal_MakeCredential signing_codec].
    by rewrite read_number_bytes.
  - intros [] data. cbn [Unmarshal_GetAssertion signing_codec]. by rewrite read_number_bytes.
  - intros []. split_and!; [done|done|]. cbn [Decode_CreateExtensionOutputs signing_codec]. by rewrite read_number_bytes.
  - intros s. split_and!; [done|done|]. cbn [Decode_GetExtensionOutputs signing_codec]. by rewrite read_number_bytes.
  - intros data. exists data. by split.
  - done.
  - done.
  - by exists [9].
  - intros a keyHandle context _. eexists _, _, (number_bytes a), keyHandle, context.
    split; [reflexivity|]. split; [done|]. split; [apply read_number_bytes|].
    cbn [Unmarshal_arguments signing_preview Unmarshal_value]. rewrite !read_number_bytes. by split_and!.
  - intros k. by exists [].
Defined.

Definition sample_material : list Z := [1; 2; 3].
Definition sample_choices : @run_choices sample_primitives :=
  @RunChoices sample_primitives false [] false [] (Ok sample_material) false [] false [] [].

(** The private key of the run. *)
Definition sample_private : Z := Eval vm_compute in
  default 0 (@derived_private sample_primitives sample_group 5 7 sample_material).

#[local] Abbreviation SG := (signing_group sample_private).
#[local] Abbreviation SL := (signing_group_laws sample_private).

Lemma sample_seed_public : @public_seed SG SL sample_signing_seed 5 7.
Proof.
  split; [done|]. split; [by left|]. split; [by intros a [= <-]|]. split.
  - exists (point_key (residue_bytes 5)). split; [done|by apply sample_holds].
  - exists (point_key (residue_bytes 7)). split; [by vm_compute|by apply sample_holds].
Qed.

(** The hypotheses of the theorems hold in the sample. *)
Ltac sample_hypothesis :=
  match goal with
  | |- exists _, _ => idtac
  | |- public_seed _ _ _ => exact sample_seed_public
  | |- forall m, _ ≡ₚ _ => intros m; reflexivity
  | |- _ <> _ => discriminate
  | |- _ ∈ _ => left
  | |- Forall _ _ => apply (bool_decide_unpack _); vm_compute; exact I
  | |- _ \/ _ => right; reflexivity
  | |- _ /\ _ => split; reflexivity
  | |- _ => vm_compute; reflexivity
  end.

Definition sample_authenticator : list Z -> signer -> Z * list Z * signer :=
  @signing_authenticator sample_primitives signing_codec signing_preview signing_cbor signing_wire
    SG SL sample_schemes (sample_signer sample_private) false [1; 2] [3] 5 7 [1].
Definition sample_run : @program sample_primitives signing_codec sign_vars unit :=
  @SignExample.run sample_primitives signing_codec SG sample_schemes signing_cbor false [] sample_choices 0.
Definition sample_signature : list Z := sample_hash (curve_point ++ sample_hash message).

Lemma derived_signature_verified_witness : exists script k encoded a,
  @run_application sample_primitives signing_codec signing_preview false (fun s => s) (fun _ => [])
    (fun m => (map_to_list m).*1) (signer * list exchange) sign_vars
    (cbor_only (called sample_authenticator)) unit sample_run ((Signer false, []), SignVars "" None) =
    (Ok tt, ((Signer true, script), SignVars
      (after_lines "" (transcript [1; 2] [3] k encoded sample_signature a))
      (Some sample_signature))).
Proof.
  destruct (@derived_signature_verified sample_primitives sample_laws signing_codec signing_preview signing_cbor
    signing_wire SG SL sample_schemes (sample_signer sample_private) false [1; 2] [3] 5 7 [1] sample_signing_info
    sample_choices) with (range := fun _ : gmap string PRFValues => @nil (string * PRFValues))
      (range_sign := fun m : gmap string PreviewSignSignInputs => (map_to_list m).*1) (algorithm := VInt64 (-9))
      (NFC := fun s : list Z => s) (st := Signer false) (v := SignVars "" None) (fuel := 0%nat)
      (material := sample_material) (s := sample_private) as (script & k & encoded & a & _ & Hrun & _).
  all: sample_hypothesis.
  exists script, k, encoded, a. exact Hrun.
Defined.

(** The same run, as far as the theorem below needs it. *)
Lemma sample_goes : exists k encoded a,
  goes (S := signer) (St := sign_vars) sample_signing_info
    (@run_program sample_primitives signing_codec signing_preview false (fun s => s) (fun _ => [])
       (fun m => (map_to_list m).*1) (signer * list exchange) sign_vars (cbor_only (called sample_authenticator)) unit
       sample_run) (Signer false, SignVars "" None) tt
    (Signer true, SignVars (after_lines "" (transcript [1; 2] [3] k encoded sample_signature a)) (Some sample_signature)).
Proof.
  destruct (@goes_run sample_primitives sample_laws signing_codec signing_preview signing_cbor
    signing_wire SG SL sample_schemes (sample_signer sample_private) false [1; 2] [3] 5 7 [1] sample_signing_info
    sample_choices) with (range := fun _ : gmap string PRFValues => @nil (string * PRFValues))
      (range_sign := fun m : gmap string PreviewSignSignInputs => (map_to_list m).*1) (algorithm := VInt64 (-9))
      (NFC := fun s : list Z => s) (st := Signer false) (v := SignVars "" None) (fuel := 0%nat)
      (material := sample_material) (s := sample_private) as (k & encoded & a & _ & Hgo).
  all: sample_hypothesis.
  exists k, encoded, a. exact Hgo.
Qed.

Lemma verified_signature_valid_witness : exists d' signature publicKey a,
  @run_program sample_primitives signing_codec signing_preview false (fun s => s) (fun _ => [])
    (fun m => (map_to_list m).*1) (signer * list exchange) sign_vars
    (cbor_only (called sample_authenticator)) unit sample_run
    (MkDevice ((Signer false, []), SignVars "" None) sample_signing_info true) = (Ok tt, d') /\
  assertionSignature (dv_world d').2 = Some signature /\
  @verdict sample_primitives sample_schemes false publicKey a message signature.
Proof.
  destruct sample_goes as (k & encoded & a & Hgo). destruct (Hgo []) as [log Hrun].
  destruct (@verified_signature_valid sample_primitives signing_codec signing_preview SG sample_schemes signing_cbor
    false (fun s => s) (fun _ => []) (fun m => (map_to_list m).*1) (signer * list exchange)%type
    (cbor_only (called sample_authenticator)) ltac:(intros signature; left; eexists; reflexivity) [] sample_choices 0%nat
    _ _ Hrun) as (_ & token & d1 & r & d2 & credentialID & k' & publicSeed & material & key & keyHandle & signature
    & out & _ & _ & _ & _ & _ & Hsig & _ & (publicKey & a' & _ & _ & _ & Hverdict) & _).
  eexists _, signature, publicKey, a'. split; [exact Hrun|]. split; [exact Hsig|exact Hverdict].
Defined.
