(* ===== verification/Diagnostic.v ===== *)
(** * The diagnostic renderer (src/client/diagnostic.go)

    One side of an exchange, raw CBOR, as indented diagnostic notation: the
    integer keys a message type knows carry the field's name, and the values
    of the fields tagged [redact] are replaced. The types a schema is made of
    are [go_type], as much of [reflect.Type] as the renderer reads. The CBOR
    decoder, encoder and diagnostic mode are the class [DiagnosticCodec]; the
    formatter's list of redacted fields is the state of the monad. *)
From S2P Require Import Prelude GoError.
From Stdlib Require Import Ascii.
From stdpp Require Import sorting.
#[local] Open Scope Z_scope.

Definition diagnosticRedacted : string := "[REDACTED]".
Definition diagnosticRedactedComment : string := "/" +:+ diagnosticRedacted +:+ "/".

(** ** Types *)

(** The members of a [reflect.StructField] but its type; a tag is its
    key-value pairs. *)
Record field_header := FieldHeader {
  f_Name : string;
  f_PkgPath : string;      (* empty for an exported field *)
  f_Anonymous : bool;
  f_Tag : list (string * string) }.

(** [reflect.Type]; [TOther] is any type the renderer does not look into.
    Of a map type it reads the element type only. *)
Inductive go_type :=
  | TOther
  | TPointer (elem : go_type)
  | TArray (elem : go_type)
  | TSlice (elem : go_type)
  | TMap (elem : go_type)
  | TStruct (name : string) (fields : list (field_header * go_type)).

(** [Tag.Lookup] and [Tag.Get]. *)
Definition Tag_Lookup (tag : list (string * string)) (key : string) : option string :=
  snd <$> List.find (fun kv => bool_decide (kv.1 = key)) tag.
Definition Tag_Get (tag : list (string * string)) (key : string) : string :=
  default "" (Tag_Lookup tag key).

Fixpoint indirect (value : go_type) : go_type :=
  match value with TPointer elem => indirect elem | _ => value end.
Definition indirectType (value : option go_type) : option go_type := indirect <$> value.

Definition collectionElementType (value : option go_type) : option go_type :=
  match indirectType value with
  | Some (TArray elem) | Some (TSlice elem) => Some elem
  | _ => None
  end.

(** The element type of a map schema, as [renderMap] reads it. *)
Definition mapElementType (value : option go_type) : option go_type :=
  match indirectType value with Some (TMap elem) => Some elem | _ => None end.

(** ** Strings *)

Definition newline : string := String (Ascii.ascii_of_nat 10) "".
Definition dquote : string := String (Ascii.ascii_of_nat 34) "".

(** [strings.Split(s, ",")]: never empty. *)
Fixpoint Split (sep : Ascii.ascii) (s : string) : list string :=
  match s with
  | EmptyString => [""]
  | String c s' =>
      if bool_decide (c = sep) then "" :: Split sep s'
      else match Split sep s' with
           | part :: parts => String c part :: parts
           | [] => [String c ""]
           end
  end.

(** [strconv.ParseInt(s, 10, 64)]: an optional sign and decimal digits. *)
Fixpoint digits (s : string) (acc : Z) : option Z :=
  match s with
  | EmptyString => Some acc
  | String c s' =>
      let d := Z.of_nat (Ascii.nat_of_ascii c) - 48 in
      if (0 <=? d) && (d <=? 9) then digits s' (10 * acc + d) else None
  end.
Definition ParseInt (s : string) : option Z :=
  let '(negative, s) :=
    match s with
    | String c s' => if bool_decide (c = "-"%char) then (true, s')
                     else if bool_decide (c = "+"%char) then (false, s') else (false, s)
    | EmptyString => (false, s)
    end in
  if bool_decide (s = "") then None
  else match digits s 0 with
       | None => None
       | Some n =>
           let z := if (negative : bool) then - n else n in
           if (- 2 ^ 63 <=? z) && (z <? 2 ^ 63) then Some z else None
       end.

(** [unicode.IsUpper], [IsLower] and [ToLower] on ASCII, which Go field
    names of the repository are. *)
Definition code (c : Ascii.ascii) : nat := Ascii.nat_of_ascii c.
Definition IsUpper (c : Ascii.ascii) : bool := (65 <=? code c)%nat && (code c <=? 90)%nat.
Definition IsLower (c : Ascii.ascii) : bool := (97 <=? code c)%nat && (code c <=? 122)%nat.
Definition ToLower (c : Ascii.ascii) : Ascii.ascii :=
  if IsUpper c then Ascii.ascii_of_nat (code c + 32) else c.

(** The loop [for end < len(runes) && unicode.IsUpper(runes[end])]. *)
Fixpoint upper_prefix (runes : list Ascii.ascii) : nat :=
  match runes with
  | c :: runes' => if IsUpper c then S (upper_prefix runes') else O
  | [] => O
  end.

Definition lowerCamel (name : string) : string :=
  let runes := String.list_ascii_of_string name in
  if negb (0 <? upper_prefix runes)%nat then name
  else
    let e := upper_prefix runes in
    let e := if (1 <? e)%nat && (e <? length runes)%nat && IsLower (nth e runes Ascii.zero)
             then (e - 1)%nat else e in
    String.string_of_list_ascii ((ToLower <$> take e runes) ++ drop e runes).

Fixpoint writeDiagnosticIndent (depth : nat) : string :=
  match depth with O => "" | S depth' => "  " +:+ writeDiagnosticIndent depth' end.

Definition joinDiagnosticPath (parent child : string) : string :=
  if bool_decide (parent = "") then child else parent +:+ "." +:+ child.

(** ** Fields *)

Record diagnosticField := DiagnosticField {
  df_name : string;
  df_goName : string;
  df_path : string;
  df_typeInfo : go_type;
  df_integerKey : bool;
  df_redact : bool }.

Definition fieldPath (parent : string) (field : option diagnosticField) : string :=
  match field with None => parent | Some f => df_path f end.

(** The loop over the options of a ctapdiag tag. *)
Fixpoint diagnosticTag_options (options : list string) (redact : bool) : result bool :=
  match options with
  | [] => Ok redact
  | option :: options' =>
      if bool_decide (option = "") then diagnosticTag_options options' redact
      else if bool_decide (option = "redact") then diagnosticTag_options options' true
      else Err (EText "unknown ctapdiag option")
  end.

Definition diagnosticTag (field : field_header) : result (string * bool) :=
  let name := lowerCamel (f_Name field) in
  match Tag_Lookup (f_Tag field) "ctapdiag" with
  | None => Ok (name, false)
  | Some tag =>
      let parts := Split "," tag in
      let first := hd "" parts in
      let name := if negb (bool_decide (first = "")) && negb (bool_decide (first = "-"))
                  then first else name in
      diagnosticTag_options (tl parts) false ≫= fun redact => Ok (name, redact)
  end.

(** ** The CBOR library *)

(** [RawMessage]s are byte lists. The keys of a [map[any]RawMessage] are
    comparable values, the text strings among them Go strings. *)
Class DiagnosticCodec := {
  Key : Type;
  Key_eq_dec :: EqDecision Key;
  Key_countable :: Countable Key;
  key_string : Key -> option string;             (* key.(string) *)
  Marshal_key : Key -> result (list Z);
  Marshal_string : string -> result (list Z);
  Marshal_int64 : Z -> result (list Z);
  Unmarshal_array : list Z -> result (list (list Z));
  Unmarshal_map : list Z -> result (gmap Key (list Z));
  Unmarshal_tag : list Z -> result (Z * list Z);
  Unmarshal_uint64 : list Z -> result Z;
  DiagMode : result (list Z -> result string) }.

(** [raw[0] >> 5]. *)
Definition majorType (head : Z) : Z := Z.shiftr head 5.

Section Formatter.
Context `{DiagnosticCodec}.

(** The loop of [collectFields] over the fields of a struct, into the map
    from encoded keys. A pointer is followed as [indirectType] does before
    each call. *)
Fixpoint collectFields (schema : go_type) (path : string)
    (result : gmap (list Z) diagnosticField) : GoError.result (gmap (list Z) diagnosticField) :=
  match schema with
  | TPointer elem => collectFields elem path result
  | TStruct _ fields =>
      (fix loop (fields : list (field_header * go_type)) (result : gmap (list Z) diagnosticField) :=
         match fields with
         | [] => Ok result
         | (fieldInfo, fieldType) :: fields' =>
             if negb (bool_decide (f_PkgPath fieldInfo = "")) then loop fields' result
             else
               let cborParts := Split "," (Tag_Get (f_Tag fieldInfo) "cbor") in
               let wireName := hd "" cborParts in
               if bool_decide (wireName = "-") then loop fields' result
               else if f_Anonymous fieldInfo && bool_decide (wireName = "")
               then collectFields fieldType path result ≫= loop fields'
               else
                 let wireName := if bool_decide (wireName = "") then f_Name fieldInfo else wireName in
                 let integerKey := contains (tl cborParts) "keyasint" in
                 (if (integerKey : bool)
                  then match ParseInt wireName with
                       | None => Err (EText "invalid integer cbor tag")
                       | Some value => Marshal_int64 value
                       end
                  else Marshal_string wireName) ≫= fun encodedKey =>
                 diagnosticTag fieldInfo ≫= fun '(name, redact) =>
                 loop fields' (<[encodedKey := DiagnosticField name (f_Name fieldInfo)
                   (joinDiagnosticPath path (f_Name fieldInfo)) fieldType integerKey redact]> result)
         end) fields result
  | _ => Ok result
  end.

Definition fields (schema : option go_type) (path : string)
    : result (gmap (list Z) diagnosticField) :=
  match schema with None => Ok ∅ | Some schema => collectFields schema path ∅ end.

(** ** Redacted values *)

Definition redactedCollection (open close : string) (depth : nat) : string :=
  open +:+ newline +:+ writeDiagnosticIndent (depth + 1) +:+ diagnosticRedactedComment +:+
  newline +:+ writeDiagnosticIndent depth +:+ close.

(** The value that stands for a redacted item. The recursion through tags
    takes as many calls as there are tags, [fuel] at most. *)
Fixpoint redactedNotation (fuel : nat) (raw : list Z) (depth : nat) : result string :=
  match fuel, raw with
  | _, [] => Err (EText "empty CBOR item")
  | O, _ => Blocked
  | S fuel', head :: _ =>
      match majorType head with
      | 0 => Ok (diagnosticRedactedComment +:+ " 0")
      | 1 => Ok (diagnosticRedactedComment +:+ " -1")
      | 2 => Ok ("h'" +:+ diagnosticRedactedComment +:+ "'")
      | 3 => Ok (diagnosticRedactedComment +:+ " " +:+ dquote +:+ dquote)
      | 4 => Ok (redactedCollection "[" "]" depth)
      | 5 => Ok (redactedCollection "{" "}" depth)
      | 6 => Unmarshal_tag raw ≫= fun '(number, content) =>
             redactedNotation fuel' content depth ≫= fun content =>
             Ok (pretty number +:+ "(" +:+ content +:+ ")")
      | 7 => let info := Z.land head 0x1f in
             if (info =? 20) || (info =? 21) then Ok (diagnosticRedactedComment +:+ " false")
             else if info =? 22 then Ok (diagnosticRedactedComment +:+ " null")
             else if info =? 23 then Ok (diagnosticRedactedComment +:+ " undefined")
             else if (info =? 25) || (info =? 26) || (info =? 27)
             then Ok (diagnosticRedactedComment +:+ " 0.0")
             else Ok (diagnosticRedactedComment +:+ " simple(0)")
      | _ => Panic
      end
  end.

(** ** Map entries *)

Record entry := Entry {
  e_key : Key;
  e_keyCBOR : list Z;
  e_valueCBOR : list Z;
  e_field : option diagnosticField }.

Definition is_SubCommand (field : option diagnosticField) : bool :=
  match field with Some f => bool_decide (df_goName f = "SubCommand") | None => false end.

(** [_ = f.decoder.Unmarshal(value, &subCommand)]: unchanged on an error. *)
Definition read_SubCommand (value : list Z) (subCommand : Z) : Z :=
  match Unmarshal_uint64 value with Ok n => n | _ => subCommand end.

(** The loop over the decoded map, in the order [range] gives it. *)
Fixpoint collect_entries (fs : gmap (list Z) diagnosticField) (values : list (Key * list Z))
    (subCommand : Z) : result (list entry * Z) :=
  match values with
  | [] => Ok ([], subCommand)
  | (key, value) :: values' =>
      Marshal_key key ≫= fun keyCBOR =>
      let field := fs !! keyCBOR in
      let subCommand := if is_SubCommand field then read_SubCommand value subCommand
                        else subCommand in
      collect_entries fs values' subCommand ≫= fun '(entries, subCommand) =>
      Ok (Entry key keyCBOR value field :: entries, subCommand)
  end.

(** [bytes.Compare]. *)
Fixpoint bytes_Compare (a b : list Z) : Z :=
  match a, b with
  | [], [] => 0
  | [], _ => -1
  | _, [] => 1
  | x :: a', y :: b' => if x <? y then -1 else if y <? x then 1 else bytes_Compare a' b'
  end.

(** The comparison of [slices.SortFunc], and its order. *)
Definition compare_keys (a b : list Z) : Z :=
  if negb (len a =? len b) then len a - len b else bytes_Compare a b.
Definition entry_le (a b : entry) : Prop := compare_keys (e_keyCBOR a) (e_keyCBOR b) <= 0.

#[export] Instance entry_le_dec : RelDecision entry_le.
Proof. intros a b. unfold entry_le. apply _. Defined.

(** ** Rendering *)

Context (diagnose : list Z -> result string).
Context (subCommandParams : gmap Z go_type).
Context (mapValueTypes : gmap (string * string) go_type).
(** The order of [for key, value := range values]. *)
Context (range : gmap Key (list Z) -> list (Key * list Z)).

(** The schema of an entry's value. *)
Definition entry_schema (mapValueType : option go_type) (path : string) (subCommand : Z)
    (e : entry) : option go_type :=
  let childSchema :=
    match key_string (e_key e) with
    | Some key => match mapValueTypes !! (path, key) with
                  | Some variant => Some variant
                  | None => mapValueType
                  end
    | None => mapValueType
    end in
  match e_field e with
  | None => childSchema
  | Some field =>
      if bool_decide (df_goName field = "SubCommandParams") then
        match subCommandParams !! subCommand with
        | Some variant => Some variant
        | None => Some (df_typeInfo field)
        end
      else Some (df_typeInfo field)
  end.

(** The name before an integer key. *)
Definition entry_comment (e : entry) : result string :=
  match e_field e with
  | Some field =>
      if df_integerKey field then
        if contains (String.list_ascii_of_string (df_name field)) "/"%char
        then Err (EText "invalid ctapdiag name")
        else Ok ("/" +:+ df_name field +:+ "/ ")
      else Ok ""
  | None => Ok ""
  end.

Definition separator {A} (rest : list A) : string := if rest is [] then "" else ",".

(** The elements of an array, and the entries of a map, one line each. *)
Fixpoint render_elements (render : list Z -> M (list string) (string * Z)) (depth : nat)
    (values : list (list Z)) : M (list string) string :=
  match values with
  | [] => mret ""
  | value :: values' =>
      '(notation, _) ← render value;
      rest ← render_elements render depth values';
      mret (writeDiagnosticIndent (depth + 1) +:+ notation +:+ separator values' +:+ newline +:+ rest)
  end.

(** The notation of a value that is redacted, whose field is recorded; empty
    for any other value. *)
Definition redacted_value (field : option diagnosticField) (value : list Z) (depth : nat)
    : M (list string) string :=
  match field with
  | Some field =>
      if df_redact field then
        valueNotation ← lift (redactedNotation (length value) value depth);
        modify (fun redacted => redacted ++ [df_path field]);;
        mret valueNotation
      else mret ""
  | None => mret ""
  end.

Definition render_entry
    (render : list Z -> option go_type -> string -> M (list string) (string * Z))
    (mapValueType : option go_type) (path : string) (depth : nat) (subCommand : Z) (e : entry)
    : M (list string) string :=
  comment ← lift (entry_comment e);
  keyNotation ← lift (diagnose (e_keyCBOR e));
  let childSchema := entry_schema mapValueType path subCommand e in
  valueNotation ← redacted_value (e_field e) (e_valueCBOR e) (depth + 1);
  valueNotation ← (if bool_decide (valueNotation = "") then
    '(notation, _) ← render (e_valueCBOR e) childSchema (fieldPath path (e_field e));
    mret notation
  else mret valueNotation);
  mret (comment +:+ keyNotation +:+ ": " +:+ valueNotation).

Fixpoint render_entries (render_one : entry -> M (list string) string) (depth : nat)
    (entries : list entry) : M (list string) string :=
  match entries with
  | [] => mret ""
  | e :: entries' =>
      line ← render_one e;
      rest ← render_entries render_one depth entries';
      mret (writeDiagnosticIndent (depth + 1) +:+ line +:+ separator entries' +:+ newline +:+ rest)
  end.

Definition renderMap
    (render : list Z -> option go_type -> string -> M (list string) (string * Z))
    (raw : list Z) (schema : option go_type) (path : string) (depth : nat)
    : M (list string) (string * Z) :=
  values ← lift (Unmarshal_map raw);
  fs ← lift (fields schema path);
  '(entries, subCommand) ← lift (collect_entries fs (range values) 0);
  match merge_sort entry_le entries with
  | [] => mret ("{}", subCommand)
  | sorted =>
      body ← render_entries (render_entry render (mapElementType schema) path depth subCommand)
               depth sorted;
      mret ("{" +:+ newline +:+ body +:+ writeDiagnosticIndent depth +:+ "}", subCommand)
  end.

(** Each level of nesting takes a call; an item nests no deeper than it is
    long. *)
Fixpoint render (fuel : nat) (raw : list Z) (schema : option go_type) (path : string)
    (depth : nat) : M (list string) (string * Z) :=
  match fuel, raw with
  | _, [] => fail (EText "empty CBOR item")
  | O, _ => blocked
  | S fuel', head :: _ =>
      match majorType head with
      | 4 =>
          values ← lift (Unmarshal_array raw);
          let childSchema := collectionElementType schema in
          match values with
          | [] => mret ("[]", 0)
          | _ =>
              body ← render_elements
                (fun value => render fuel' value childSchema path (depth + 1)) depth values;
              mret ("[" +:+ newline +:+ body +:+ writeDiagnosticIndent depth +:+ "]", 0)
          end
      | 5 => renderMap (fun value childSchema childPath =>
               render fuel' value childSchema childPath (depth + 1)) raw schema path depth
      | _ => notation ← lift (diagnose raw); mret (notation, 0)
      end
  end.
End Formatter.

(** ** Messages *)

(** [diagnostic.Message]. *)
Record Message := MkMessage {
  Notation_ : string;
  Bytes : Z;
  RedactedFields : list string;
  Error_ : string }.

Record diagnosticMessageSchema := DiagnosticMessageSchema {
  typeInfo : option go_type;
  ms_subCommandParams : gmap Z go_type;
  ms_mapValueTypes : gmap (string * string) go_type }.

(** [slices.Compact]. *)
Fixpoint Compact (l : list string) : list string :=
  match l with
  | x :: (y :: _) as l' => if bool_decide (x = y) then Compact l' else x :: Compact l'
  | _ => l
  end.

Section Render.
Context `{DiagnosticCodec}.
Context (range : gmap Key (list Z) -> list (Key * list Z)).
(** [err.Error()]. *)
Context (Error : error -> string).

Definition renderDiagnostic (raw : list Z) (schema : diagnosticMessageSchema) : result (Message * Z) :=
  if bool_decide (raw = []) then Ok (MkMessage "" 0 [] "", 0)
  else
    match DiagMode with
    | Err err => Ok (MkMessage "" (len raw) [] (Error err), 0)
    | Panic => Panic
    | Blocked => Blocked
    | Ok diagnose =>
        match render diagnose (ms_subCommandParams schema) (ms_mapValueTypes schema) range
                (length raw) raw (typeInfo schema) "" 0 [] with
        | (Err err, _) => Ok (MkMessage "" (len raw) [] (Error err), 0)
        | (Ok (notation, subCommand), redacted) =>
            Ok (MkMessage notation (len raw) (Compact (merge_sort String.le redacted)) "", subCommand)
        | (Panic, _) => Panic
        | (Blocked, _) => Blocked
        end
    end.
End Render.
