(* ===== verification/Schemas.v ===== *)
(** * What a diagnostic event shows (src/client/exchange_diagnostic.go)

    The message types of src/protocol and src/credential as the renderer sees
    them through reflection - the fields in order, each with its cbor and
    ctapdiag tags and its type - the schema of every command, and the event
    the client hands to the sink after an exchange. The json pairs of the
    tags, and the types of the fields that are no CBOR members, are not read
    and are left out. *)
From S2P Require Import Prelude GoError Transport Protocol Pin Preflight Messages Client Diagnostic.
#[local] Open Scope Z_scope.

(** A field with its cbor tag, and with a ctapdiag tag as well; an embedded
    struct without tags. *)
Definition plain (name cbor : string) (t : go_type) : field_header * go_type :=
  (FieldHeader name "" false [("cbor", cbor)], t).
Definition diag (name cbor ctapdiag : string) (t : go_type) : field_header * go_type :=
  (FieldHeader name "" false [("cbor", cbor); ("ctapdiag", ctapdiag)], t).
Definition embedded (name : string) (t : go_type) : field_header * go_type :=
  (FieldHeader name "" true [], t).

Definition PublicKeyCredentialRpEntity_type : go_type := TStruct "PublicKeyCredentialRpEntity" [
  plain "ID" "id" TOther;
  plain "Name" "name,omitempty" TOther].

Definition PublicKeyCredentialUserEntity_type : go_type := TStruct "PublicKeyCredentialUserEntity" [
  plain "ID" "id" (TSlice TOther);
  plain "DisplayName" "displayName,omitempty" TOther;
  plain "Name" "name,omitempty" TOther;
  plain "Icon" "icon,omitempty" TOther].

Definition PublicKeyCredentialParameters_type : go_type := TStruct "PublicKeyCredentialParameters" [
  plain "Type" "type" TOther;
  plain "Algorithm" "alg" TOther].

Definition PublicKeyCredentialDescriptor_type : go_type := TStruct "PublicKeyCredentialDescriptor" [
  plain "Type" "type" TOther;
  plain "ID" "id" (TSlice TOther);
  plain "Transports" "transports,omitempty" (TSlice TOther)].

Definition CreateCredProtectInput_type : go_type := TStruct "CreateCredProtectInput" [
  plain "CredProtect" "credProtect,omitzero" TOther].

Definition CreateCredBlobInput_type : go_type := TStruct "CreateCredBlobInput" [
  diag "CredBlob" "credBlob,omitzero" "-,redact" (TSlice TOther)].

Definition CreateLargeBlobKeyInput_type : go_type := TStruct "CreateLargeBlobKeyInput" [
  plain "LargeBlobKey" "largeBlobKey,omitzero" TOther].

Definition CreateLargeBlobParams_type : go_type := TStruct "CreateLargeBlobParams" [
  plain "Support" "support" TOther].

Definition CreateLargeBlobInput_type : go_type := TStruct "CreateLargeBlobInput" [
  plain "LargeBlob" "largeBlob,omitzero" CreateLargeBlobParams_type].

Definition CreateMinPinLengthInput_type : go_type := TStruct "CreateMinPinLengthInput" [
  plain "MinPinLength" "minPinLength,omitzero" TOther].

Definition CreatePinComplexityPolicyInput_type : go_type := TStruct "CreatePinComplexityPolicyInput" [
  plain "PinComplexityPolicy" "pinComplexityPolicy,omitzero" TOther].

Definition CreateHMACSecretInput_type : go_type := TStruct "CreateHMACSecretInput" [
  plain "HMACSecret" "hmac-secret,omitzero" TOther].

Definition HMACSecret_type : go_type := TStruct "HMACSecret" [
  plain "KeyAgreement" "1,keyasint" (TMap TOther);
  diag "SaltEnc" "2,keyasint" "-,redact" (TSlice TOther);
  diag "SaltAuth" "3,keyasint" "-,redact" (TSlice TOther);
  plain "PinUvAuthProtocol" "4,keyasint,omitempty" TOther].

Definition CreateHMACSecretMCInput_type : go_type := TStruct "CreateHMACSecretMCInput" [
  plain "HMACSecret" "hmac-secret-mc,omitzero" HMACSecret_type].

Definition CreateThirdPartyPaymentInput_type : go_type := TStruct "CreateThirdPartyPaymentInput" [
  plain "ThirdPartyPayment" "thirdPartyPayment,omitzero" TOther].

Definition PreviewSignGenerateKeyInput_type : go_type := TStruct "PreviewSignGenerateKeyInput" [
  diag "Algorithms" "3,keyasint" "alg" (TSlice TOther);
  plain "Flags" "4,keyasint,omitempty" (TPointer TOther)].

Definition CreatePreviewSignInput_type : go_type := TStruct "CreatePreviewSignInput" [
  plain "PreviewSign" "previewSign,omitzero" PreviewSignGenerateKeyInput_type].

Definition CreateExtensionInputs_type : go_type := TStruct "CreateExtensionInputs" [
  embedded "CreateCredProtectInput" CreateCredProtectInput_type;
  embedded "CreateCredBlobInput" CreateCredBlobInput_type;
  embedded "CreateLargeBlobKeyInput" CreateLargeBlobKeyInput_type;
  embedded "CreateLargeBlobInput" CreateLargeBlobInput_type;
  embedded "CreateMinPinLengthInput" CreateMinPinLengthInput_type;
  embedded "CreatePinComplexityPolicyInput" CreatePinComplexityPolicyInput_type;
  embedded "CreateHMACSecretInput" CreateHMACSecretInput_type;
  embedded "CreateHMACSecretMCInput" CreateHMACSecretMCInput_type;
  embedded "CreateThirdPartyPaymentInput" CreateThirdPartyPaymentInput_type;
  embedded "CreatePreviewSignInput" CreatePreviewSignInput_type].

Definition AuthenticatorMakeCredentialRequest_type : go_type := TStruct "AuthenticatorMakeCredentialRequest" [
  plain "ClientDataHash" "1,keyasint" (TSlice TOther);
  plain "RP" "2,keyasint" PublicKeyCredentialRpEntity_type;
  plain "User" "3,keyasint" PublicKeyCredentialUserEntity_type;
  plain "PubKeyCredParams" "4,keyasint" (TSlice PublicKeyCredentialParameters_type);
  plain "ExcludeList" "5,keyasint,omitempty" (TSlice PublicKeyCredentialDescriptor_type);
  plain "Extensions" "6,keyasint,omitzero" CreateExtensionInputs_type;
  plain "Options" "7,keyasint,omitempty" (TMap TOther);
  diag "PinUvAuthParam" "8,keyasint,omitzero" "-,redact" (TSlice TOther);
  plain "PinUvAuthProtocol" "9,keyasint,omitempty" TOther;
  plain "EnterpriseAttestation" "10,keyasint,omitempty" TOther;
  plain "AttestationFormatsPreference" "11,keyasint,omitempty" (TSlice TOther)].

Definition AuthenticatorMakeCredentialResponse_type : go_type := TStruct "AuthenticatorMakeCredentialResponse" [
  diag "Format" "1,keyasint" "fmt" TOther;
  diag "AuthDataRaw" "2,keyasint" "authData,redact" (TSlice TOther);
  plain "AuthData" "-" (TPointer TOther);
  diag "AttestationStatement" "3,keyasint,omitzero" "attStmt" (TMap TOther);
  diag "EnterpriseAttestation" "4,keyasint,omitzero" "epAtt" TOther;
  diag "LargeBlobKey" "5,keyasint,omitempty" "-,redact" (TSlice TOther);
  plain "UnsignedExtensionOutputs" "6,keyasint,omitempty" (TMap TOther);
  plain "ExtensionOutputs" "-" (TPointer TOther)].

Definition GetCredBlobInput_type : go_type := TStruct "GetCredBlobInput" [
  plain "CredBlob" "credBlob,omitzero" TOther].

Definition GetLargeBlobKeyInput_type : go_type := TStruct "GetLargeBlobKeyInput" [
  plain "LargeBlobKey" "largeBlobKey,omitzero" TOther].

Definition GetLargeBlobParams_type : go_type := TStruct "GetLargeBlobParams" [
  plain "Read" "read,omitempty" TOther;
  diag "Write" "write,omitzero" "-,redact" (TSlice TOther);
  plain "OriginalSize" "originalSize,omitempty" (TPointer TOther)].

Definition GetLargeBlobInput_type : go_type := TStruct "GetLargeBlobInput" [
  plain "LargeBlob" "largeBlob,omitzero" GetLargeBlobParams_type].

Definition GetHMACSecretInput_type : go_type := TStruct "GetHMACSecretInput" [
  plain "HMACSecret" "hmac-secret,omitzero" HMACSecret_type].

Definition GetThirdPartyPaymentInput_type : go_type := TStruct "GetThirdPartyPaymentInput" [
  plain "ThirdPartyPayment" "thirdPartyPayment,omitzero" TOther].

Definition PreviewSignSignInput_type : go_type := TStruct "PreviewSignSignInput" [
  diag "KeyHandle" "2,keyasint" "kh" (TSlice TOther);
  diag "ToBeSigned" "6,keyasint" "tbs,redact" (TSlice TOther);
  diag "AdditionalArguments" "7,keyasint,omitzero" "args" (TSlice TOther)].

Definition GetPreviewSignInput_type : go_type := TStruct "GetPreviewSignInput" [
  plain "PreviewSign" "previewSign,omitzero" PreviewSignSignInput_type].

Definition GetExtensionInputs_type : go_type := TStruct "GetExtensionInputs" [
  embedded "GetCredBlobInput" GetCredBlobInput_type;
  embedded "GetLargeBlobKeyInput" GetLargeBlobKeyInput_type;
  embedded "GetLargeBlobInput" GetLargeBlobInput_type;
  embedded "GetHMACSecretInput" GetHMACSecretInput_type;
  embedded "GetThirdPartyPaymentInput" GetThirdPartyPaymentInput_type;
  embedded "GetPreviewSignInput" GetPreviewSignInput_type].

Definition AuthenticatorGetAssertionRequest_type : go_type := TStruct "AuthenticatorGetAssertionRequest" [
  diag "RPID" "1,keyasint" "rpId" TOther;
  plain "ClientDataHash" "2,keyasint" (TSlice TOther);
  plain "AllowList" "3,keyasint,omitempty" (TSlice PublicKeyCredentialDescriptor_type);
  plain "Extensions" "4,keyasint,omitzero" GetExtensionInputs_type;
  plain "Options" "5,keyasint,omitempty" (TMap TOther);
  diag "PinUvAuthParam" "6,keyasint,omitzero" "-,redact" (TSlice TOther);
  plain "PinUvAuthProtocol" "7,keyasint,omitempty" TOther].

Definition AuthenticatorGetAssertionResponse_type : go_type := TStruct "AuthenticatorGetAssertionResponse" [
  plain "Credential" "1,keyasint,omitzero" PublicKeyCredentialDescriptor_type;
  diag "AuthDataRaw" "2,keyasint" "authData,redact" (TSlice TOther);
  plain "AuthData" "-" (TPointer TOther);
  plain "Signature" "3,keyasint" (TSlice TOther);
  plain "User" "4,keyasint,omitempty" (TPointer PublicKeyCredentialUserEntity_type);
  plain "NumberOfCredentials" "5,keyasint,omitzero" TOther;
  plain "UserSelected" "6,keyasint,omitzero" TOther;
  diag "LargeBlobKey" "7,keyasint,omitempty" "-,redact" (TSlice TOther);
  plain "UnsignedExtensionOutputs" "8,keyasint,omitempty" (TMap TOther);
  plain "ExtensionOutputs" "-" (TPointer TOther)].

Definition AuthenticatorGetInfoResponse_type : go_type := TStruct "AuthenticatorGetInfoResponse" [
  plain "Versions" "1,keyasint" (TSlice TOther);
  plain "Extensions" "2,keyasint,omitempty" (TSlice TOther);
  plain "AAGUID" "3,keyasint" (TArray TOther);
  plain "Options" "4,keyasint,omitempty" (TMap TOther);
  plain "MaxMsgSize" "5,keyasint,omitzero" TOther;
  plain "PinUvAuthProtocols" "6,keyasint,omitempty" (TSlice TOther);
  plain "MaxCredentialCountInList" "7,keyasint,omitzero" TOther;
  plain "MaxCredentialIdLength" "8,keyasint,omitzero" TOther;
  plain "Transports" "9,keyasint,omitempty" (TSlice TOther);
  plain "Algorithms" "10,keyasint,omitempty" (TSlice PublicKeyCredentialParameters_type);
  plain "MaxSerializedLargeBlobArray" "11,keyasint,omitzero" TOther;
  plain "ForcePINChange" "12,keyasint,omitzero" TOther;
  plain "MinPINLength" "13,keyasint,omitzero" TOther;
  plain "FirmwareVersion" "14,keyasint,omitzero" (TPointer TOther);
  plain "MaxCredBlobLength" "15,keyasint,omitzero" TOther;
  plain "MaxRPIDsForSetMinPINLength" "16,keyasint,omitzero" (TPointer TOther);
  plain "PreferredPlatformUvAttempts" "17,keyasint,omitzero" TOther;
  plain "UvModality" "18,keyasint,omitzero" (TPointer TOther);
  plain "Certifications" "19,keyasint,omitempty" (TMap TOther);
  plain "RemainingDiscoverableCredentials" "20,keyasint,omitzero" (TPointer TOther);
  plain "VendorPrototypeConfigCommands" "21,keyasint,omitzero" (TSlice TOther);
  plain "AttestationFormats" "22,keyasint,omitempty" (TSlice TOther);
  plain "UvCountSinceLastPinEntry" "23,keyasint,omitzero" (TPointer TOther);
  plain "LongTouchForReset" "24,keyasint,omitzero" (TPointer TOther);
  plain "EncIdentifier" "25,keyasint,omitempty" (TSlice TOther);
  plain "TransportsForReset" "26,keyasint,omitempty" (TSlice TOther);
  plain "PinComplexityPolicy" "27,keyasint,omitzero" (TPointer TOther);
  plain "PinComplexityPolicyURL" "28,keyasint,omitempty" (TSlice TOther);
  plain "MaxPINLength" "29,keyasint,omitzero" TOther;
  plain "EncCredStoreState" "30,keyasint,omitempty" (TSlice TOther);
  plain "AuthenticatorConfigCommands" "31,keyasint,omitzero" (TSlice TOther)].

Definition AuthenticatorClientPINRequest_type : go_type := TStruct "AuthenticatorClientPINRequest" [
  plain "PinUvAuthProtocol" "1,keyasint,omitzero" TOther;
  plain "SubCommand" "2,keyasint" TOther;
  plain "KeyAgreement" "3,keyasint,omitzero" (TMap TOther);
  diag "PinUvAuthParam" "4,keyasint,omitempty" "-,redact" (TSlice TOther);
  diag "NewPinEnc" "5,keyasint,omitempty" "-,redact" (TSlice TOther);
  diag "PinHashEnc" "6,keyasint,omitempty" "-,redact" (TSlice TOther);
  plain "Permissions" "9,keyasint,omitempty" TOther;
  diag "RPID" "10,keyasint,omitempty" "rpId" TOther].

Definition AuthenticatorClientPINResponse_type : go_type := TStruct "AuthenticatorClientPINResponse" [
  plain "KeyAgreement" "1,keyasint,omitzero" (TMap TOther);
  diag "PinUvAuthToken" "2,keyasint,omitempty" "-,redact" (TSlice TOther);
  plain "PinRetries" "3,keyasint,omitzero" (TPointer TOther);
  plain "PowerCycleState" "4,keyasint,omitzero" (TPointer TOther);
  plain "UvRetries" "5,keyasint,omitzero" (TPointer TOther)].

Definition BioEnrollmentSubCommandParams_type : go_type := TStruct "BioEnrollmentSubCommandParams" [
  diag "TemplateID" "1,keyasint,omitempty" "templateId" (TSlice TOther);
  plain "TemplateFriendlyName" "2,keyasint,omitzero" (TPointer TOther);
  plain "TimeoutMilliseconds" "3,keyasint,omitempty" TOther].

Definition AuthenticatorBioEnrollmentRequest_type : go_type := TStruct "AuthenticatorBioEnrollmentRequest" [
  plain "Modality" "1,keyasint,omitempty" TOther;
  plain "SubCommand" "2,keyasint,omitempty" TOther;
  plain "SubCommandParams" "3,keyasint,omitzero" BioEnrollmentSubCommandParams_type;
  plain "PinUvAuthProtocol" "4,keyasint,omitempty" TOther;
  diag "PinUvAuthParam" "5,keyasint,omitempty" "-,redact" (TSlice TOther);
  plain "GetModality" "6,keyasint,omitempty" TOther].

Definition TemplateInfo_type : go_type := TStruct "TemplateInfo" [
  diag "TemplateID" "1,keyasint" "templateId" (TSlice TOther);
  plain "TemplateFriendlyName" "2,keyasint,omitempty" TOther].

Definition AuthenticatorBioEnrollmentResponse_type : go_type := TStruct "AuthenticatorBioEnrollmentResponse" [
  plain "Modality" "1,keyasint,omitzero" TOther;
  plain "FingerprintKind" "2,keyasint,omitzero" TOther;
  plain "MaxCaptureSamplesRequiredForEnroll" "3,keyasint,omitempty" (TPointer TOther);
  diag "TemplateID" "4,keyasint,omitempty" "templateId" (TSlice TOther);
  plain "LastEnrollSampleStatus" "5,keyasint,omitempty" (TPointer TOther);
  plain "RemainingSamples" "6,keyasint,omitempty" (TPointer TOther);
  plain "TemplateInfos" "7,keyasint,omitzero" (TSlice TemplateInfo_type);
  plain "MaxTemplateFriendlyName" "8,keyasint,omitempty" (TPointer TOther)].

Definition CredentialManagementSubCommandParams_type : go_type := TStruct "CredentialManagementSubCommandParams" [
  diag "RPIDHash" "1,keyasint,omitempty" "rpIDHash" (TSlice TOther);
  plain "CredentialID" "2,keyasint,omitzero" PublicKeyCredentialDescriptor_type;
  plain "User" "3,keyasint,omitzero" PublicKeyCredentialUserEntity_type].

Definition AuthenticatorCredentialManagementRequest_type : go_type := TStruct "AuthenticatorCredentialManagementRequest" [
  plain "SubCommand" "1,keyasint" TOther;
  plain "SubCommandParams" "2,keyasint,omitzero" CredentialManagementSubCommandParams_type;
  plain "PinUvAuthProtocol" "3,keyasint,omitempty" TOther;
  diag "PinUvAuthParam" "4,keyasint,omitempty" "-,redact" (TSlice TOther)].

Definition AuthenticatorCredentialManagementResponse_type : go_type := TStruct "AuthenticatorCredentialManagementResponse" [
  plain "ExistingResidentCredentialsCount" "1,keyasint,omitempty" (TPointer TOther);
  plain "MaxPossibleRemainingResidentCredentialsCount" "2,keyasint,omitempty" (TPointer TOther);
  plain "RP" "3,keyasint,omitzero" PublicKeyCredentialRpEntity_type;
  diag "RPIDHash" "4,keyasint,omitempty" "rpIDHash" (TSlice TOther);
  plain "TotalRPs" "5,keyasint,omitzero" TOther;
  plain "User" "6,keyasint,omitzero" PublicKeyCredentialUserEntity_type;
  plain "CredentialID" "7,keyasint,omitzero" PublicKeyCredentialDescriptor_type;
  plain "PublicKey" "8,keyasint,omitempty" (TMap TOther);
  plain "TotalCredentials" "9,keyasint,omitzero" TOther;
  plain "CredProtect" "10,keyasint,omitzero" TOther;
  diag "LargeBlobKey" "11,keyasint,omitempty" "-,redact" (TSlice TOther);
  plain "ThirdPartyPayment" "12,keyasint,omitempty" (TPointer TOther)].

Definition AuthenticatorLargeBlobsRequest_type : go_type := TStruct "AuthenticatorLargeBlobsRequest" [
  plain "Get" "1,keyasint,omitzero" (TPointer TOther);
  diag "Set" "2,keyasint,omitzero" "-,redact" (TSlice TOther);
  plain "Offset" "3,keyasint" TOther;
  plain "Length" "4,keyasint,omitempty" TOther;
  diag "PinUvAuthParam" "5,keyasint,omitempty" "-,redact" (TSlice TOther);
  plain "PinUvAuthProtocol" "6,keyasint,omitempty" TOther].

Definition AuthenticatorLargeBlobsResponse_type : go_type := TStruct "AuthenticatorLargeBlobsResponse" [
  diag "Config" "1,keyasint,omitzero" "-,redact" (TSlice TOther)].

Definition AuthenticatorConfigRequest_type : go_type := TStruct "AuthenticatorConfigRequest" [
  plain "SubCommand" "1,keyasint" TOther;
  plain "SubCommandParams" "2,keyasint,omitzero" TOther;
  plain "PinUvAuthProtocol" "3,keyasint,omitempty" TOther;
  diag "PinUvAuthParam" "4,keyasint,omitempty" "-,redact" (TSlice TOther)].

Definition SetMinPINLengthConfigSubCommandParams_type : go_type := TStruct "SetMinPINLengthConfigSubCommandParams" [
  plain "NewMinPINLength" "1,keyasint,omitzero" (TPointer TOther);
  plain "MinPINLengthRPIDs" "2,keyasint,omitempty" (TSlice TOther);
  plain "ForceChangePIN" "3,keyasint,omitzero" TOther;
  plain "PINComplexityPolicy" "4,keyasint,omitzero" TOther].

Definition CreateLargeBlobOutput_type : go_type := TStruct "CreateLargeBlobOutput" [
  plain "Supported" "supported" TOther].

Definition PreviewSignUnsignedOutput_type : go_type := TStruct "PreviewSignUnsignedOutput" [
  diag "AttestationObject" "7,keyasint" "attestationObject" (TSlice TOther)].

Definition GetLargeBlobOutput_type : go_type := TStruct "GetLargeBlobOutput" [
  plain "Written" "written,omitempty" (TPointer TOther);
  diag "Blob" "blob,omitzero" "-,redact" (TSlice TOther);
  plain "OriginalSize" "originalSize,omitempty" (TPointer TOther)].

(** ** The schema of an exchange *)

Record diagnosticExchangeSchema := DiagnosticExchangeSchema {
  requestType : option go_type;
  responseType : option go_type;
  requestSubCommandParams : gmap Z go_type;
  responseMapValueTypes : gmap (string * string) go_type }.

Definition unsignedExtensionOutputLargeBlobKey : string * string :=
  ("UnsignedExtensionOutputs", ExtensionIdentifierLargeBlob).
Definition unsignedExtensionOutputPreviewSignKey : string * string :=
  ("UnsignedExtensionOutputs", ExtensionIdentifierPreviewSign).
Definition getAssertionDiagnosticMapValueTypes : gmap (string * string) go_type :=
  {[ unsignedExtensionOutputLargeBlobKey := GetLargeBlobOutput_type ]}.

(** An entry of the table with a request and a response type only. *)
Definition schema_of (request response : option go_type) : diagnosticExchangeSchema :=
  DiagnosticExchangeSchema request response ∅ ∅.

Definition diagnosticExchangeSchemas : gmap Z diagnosticExchangeSchema := list_to_map [
  (AuthenticatorMakeCredential, DiagnosticExchangeSchema
    (Some AuthenticatorMakeCredentialRequest_type) (Some AuthenticatorMakeCredentialResponse_type) ∅
    (<[unsignedExtensionOutputLargeBlobKey := CreateLargeBlobOutput_type]>
       {[ unsignedExtensionOutputPreviewSignKey := PreviewSignUnsignedOutput_type ]}));
  (AuthenticatorGetAssertion, DiagnosticExchangeSchema
    (Some AuthenticatorGetAssertionRequest_type) (Some AuthenticatorGetAssertionResponse_type) ∅
    getAssertionDiagnosticMapValueTypes);
  (AuthenticatorGetNextAssertion, DiagnosticExchangeSchema
    None (Some AuthenticatorGetAssertionResponse_type) ∅ getAssertionDiagnosticMapValueTypes);
  (AuthenticatorGetInfo, schema_of None (Some AuthenticatorGetInfoResponse_type));
  (AuthenticatorClientPIN, schema_of
    (Some AuthenticatorClientPINRequest_type) (Some AuthenticatorClientPINResponse_type));
  (AuthenticatorBioEnrollment, schema_of
    (Some AuthenticatorBioEnrollmentRequest_type) (Some AuthenticatorBioEnrollmentResponse_type));
  (PrototypeAuthenticatorBioEnrollment, schema_of
    (Some AuthenticatorBioEnrollmentRequest_type) (Some AuthenticatorBioEnrollmentResponse_type));
  (AuthenticatorCredentialManagement, schema_of
    (Some AuthenticatorCredentialManagementRequest_type)
    (Some AuthenticatorCredentialManagementResponse_type));
  (PrototypeAuthenticatorCredentialManagement, schema_of
    (Some AuthenticatorCredentialManagementRequest_type)
    (Some AuthenticatorCredentialManagementResponse_type));
  (AuthenticatorLargeBlobs, schema_of
    (Some AuthenticatorLargeBlobsRequest_type) (Some AuthenticatorLargeBlobsResponse_type));
  (AuthenticatorConfig, DiagnosticExchangeSchema (Some AuthenticatorConfigRequest_type) None
    {[ ConfigSubCommandSetMinPINLength := SetMinPINLengthConfigSubCommandParams_type ]} ∅)].

(** The zero schema stands for a command that is not in the table. *)
Definition exchangeSchemas (command : Z) : diagnosticMessageSchema * diagnosticMessageSchema :=
  let schema := default (schema_of None None) (diagnosticExchangeSchemas !! command) in
  (DiagnosticMessageSchema (requestType schema) (requestSubCommandParams schema) ∅,
   DiagnosticMessageSchema (responseType schema) ∅ (responseMapValueTypes schema)).

(** ** The event *)

(** [diagnostic.Exchange]. *)
Record Exchange := MkExchange {
  StartedAt : Z;
  Duration : Z;
  Command : Z;
  SubCommand : Z;
  Request : Message;
  Response : Message;
  Status : option Z;
  ExchangeErr : option error }.

Definition exchangeStatus (response : CBORResponse) (err : option error) : option Z :=
  match err with
  | Some e => snd <$> errors_As as_CTAPError e
  | None => Some (StatusCode response)
  end.

Section Event.
Context `{DiagnosticCodec}.
Context (range : gmap Key (list Z) -> list (Key * list Z)) (Error : error -> string).

(** The event [emitDiagnostic] hands to the sink. *)
Definition diagnosticEvent (started duration : Z) (data : list Z) (response : CBORResponse)
    (err : option error) : result Exchange :=
  let '(command, requestBody) :=
    match data with [] => (0, []) | command :: body => (command, body) end in
  let '(requestSchema, responseSchema) := exchangeSchemas command in
  renderDiagnostic range Error requestBody requestSchema ≫= fun '(request, subCommand) =>
  renderDiagnostic range Error (Data response) responseSchema ≫= fun '(responseDiagnostic, _) =>
  Ok (MkExchange started duration command subCommand request responseDiagnostic
        (exchangeStatus response err) err).

(** [emitDiagnostic] as the client calls it: with the response, or with the
    zero response and the error. *)
Definition emitDiagnostic {W} (sink : Exchange -> M W unit) (started duration : Z)
    (data : list Z) (r : CBORResponse + error) : M W unit :=
  event ← lift (match r with
                | inl response => diagnosticEvent started duration data response None
                | inr err => diagnosticEvent started duration data (MkCBORResponse 0 []) (Some err)
                end);
  sink event.
End Event.
