(* ===== verification/Options.v ===== *)
(** * Options of clients and devices (src/options/options.go)

    An option is a function that sets a field of [Options]; [NewOptions] runs
    them in order over the defaults, [client.NewClient] copies the outcome,
    and [authenticator.New] adds its own transport last. The CBOR modes are
    values of another module: [codec] is the codec two of them give, and a
    mode that is nil, which panics when it is first used, is left out. *)
From S2P Require Import Diagnostic.
From S2P Require Import Prelude GoError Transport Protocol Crypto Messages Client Management Device.
From S2P Require Schemas.

Section Options.
Context `{DiagnosticCodec} {EncMode DecMode W : Type}.
Context (CTAP2EncOptions : EncMode) (UTF8DecodeInvalid : DecMode).
Context (codec : EncMode -> DecMode -> Codec).
Context (range : gmap Key (list Z) -> list (Key * list Z)).
Context (Error : error -> string) (started duration : Z).

Record Options := MkOptions {
  DiagnosticSink : option (Schemas.Exchange -> M W unit);
  opt_EncMode : EncMode;
  opt_DecMode : DecMode;
  opt_Transport : option (list Z -> M W CBORResponse) }.

Definition Option_ : Type := Options -> Options.

Definition WithDiagnosticSink (sink : option (Schemas.Exchange -> M W unit)) : Option_ := fun oo =>
  MkOptions sink (opt_EncMode oo) (opt_DecMode oo) (opt_Transport oo).
Definition WithEncMode (encMode : EncMode) : Option_ := fun oo =>
  MkOptions (DiagnosticSink oo) encMode (opt_DecMode oo) (opt_Transport oo).
Definition WithDecMode (decMode : DecMode) : Option_ := fun oo =>
  MkOptions (DiagnosticSink oo) (opt_EncMode oo) decMode (opt_Transport oo).
Definition WithTransport (transport : option (list Z -> M W CBORResponse)) : Option_ := fun oo =>
  MkOptions (DiagnosticSink oo) (opt_EncMode oo) (opt_DecMode oo) transport.

Definition NewOptions (opts : list Option_) : Options :=
  foldl (fun oo opt => opt oo) (MkOptions None CTAP2EncOptions UTF8DecodeInvalid None) opts.

(** [client.Client]. *)
Record client := MkClient {
  diagnosticSink : option (Schemas.Exchange -> M W unit);
  encMode : EncMode;
  decMode : DecMode;
  cl_transport : list Z -> M W CBORResponse }.

Definition NewClient (opts : list Option_) : result client :=
  let oo := NewOptions opts in
  match opt_Transport oo with
  | None => Err ErrTransportNotConfigured
  | Some transport => Ok (MkClient (DiagnosticSink oo) (opt_EncMode oo) (opt_DecMode oo) transport)
  end.

(** The emitter of a client with a sink. *)
Definition client_emitter (sink : option (Schemas.Exchange -> M W unit))
    : option (list Z -> CBORResponse + error -> M W unit) :=
  (fun sink data r => Schemas.emitDiagnostic range Error sink started duration data r) <$> sink.

(** [client.GetInfo] of a client. *)
Definition client_GetInfo (cl : client) : M W AuthenticatorGetInfoResponse :=
  let _ := codec (encMode cl) (decMode cl) in
  Client.GetInfo (Some (cl_transport cl)) (client_emitter (diagnosticSink cl)).

(** [authenticator.New], with its checks before the first command. *)
Definition New (transport : option (transport_ops W)) (opts : list Option_) : M W (device W) := fun w =>
  match transport with
  | None => (Err (EText "device: nil transport"), w)
  | Some transport =>
      match NewClient (opts ++ [WithTransport (Some (tr_CBOR transport))]) with
      | Ok ctapClient =>
          match client_GetInfo ctapClient w with
          | (Ok info, w') => (Ok (MkDevice w' info true), w')
          | (Err err, w') => (Err err, w')
          | (Panic, w') => (Panic, w')
          | (Blocked, w') => (Blocked, w')
          end
      | Err err => (Err err, w)
      | Panic => (Panic, w)
      | Blocked => (Blocked, w)
      end
  end.

(** The sink and the modes are those the caller's options leave; the client
    of a device is bound to the device's own transport whatever they set. *)
Theorem New_uses_own_transport transport opts :
  let oo := NewOptions opts in
  New (Some transport) opts ≡
    @Device.New (codec (opt_EncMode oo) (opt_DecMode oo)) W transport (client_emitter (DiagnosticSink oo)).
Proof. intros oo w. unfold New, NewClient, NewOptions. by rewrite foldl_app. Qed.

(** A client needs a transport, and has the last one that was set. *)
Theorem NewClient_transport opts :
  match NewClient opts with
  | Ok cl => opt_Transport (NewOptions opts) = Some (cl_transport cl)
  | Err err => opt_Transport (NewOptions opts) = None /\ err = ErrTransportNotConfigured
  | _ => False
  end.
Proof. unfold NewClient. by destruct (opt_Transport _). Qed.
End Options.
