(* ===== verification/Redaction.v ===== *)
(** * Diagnostics do not show redacted values

    What one observer of diagnostic events can learn: two exchanges that
    differ only in the values of fields tagged [redact] give the same event,
    apart from the sizes, in whatever order Go ranges over the decoded maps;
    and an event is always produced. The relation [redacted_equal] says what
    "differ only" means for a message and its schema. *)
From S2P Require Import Prelude GoError Transport Messages Client Diagnostic Schemas.
From stdpp Require Import sorting.
#[local] Open Scope Z_scope.

(** ** What the CBOR library guarantees *)

(** A call that returns, with a value or an error. *)
Definition returns {A} (r : result A) : Prop :=
  match r with Ok _ | Err _ => True | _ => False end.

(** A raw message taken out of another one: at least the head is before it. *)
Definition inside (v raw : list Z) : Prop := exists pre post, pre <> [] /\ raw = pre ++ v ++ post.

Class DiagnosticLaws `{DiagnosticCodec} := {
  (* the keys of a decoded map can be encoded, each in its own way *)
  keys_marshal : forall raw m k v, Unmarshal_map raw = Ok m -> m !! k = Some v ->
    exists b, Marshal_key k = Ok b;
  keys_inj : forall raw m k k' b, Unmarshal_map raw = Ok m -> k ∈ dom m -> k' ∈ dom m ->
    Marshal_key k = Ok b -> Marshal_key k' = Ok b -> k = k';
  (* raw messages are parts of the input *)
  array_inside : forall raw vs v, Unmarshal_array raw = Ok vs -> v ∈ vs -> inside v raw;
  map_inside : forall raw m k v, Unmarshal_map raw = Ok m -> m !! k = Some v -> inside v raw;
  tag_inside : forall raw n v, Unmarshal_tag raw = Ok (n, v) -> inside v raw;
  (* the calls return *)
  array_returns : forall raw, returns (Unmarshal_array raw);
  map_returns : forall raw, returns (Unmarshal_map raw);
  tag_returns : forall raw, returns (Unmarshal_tag raw);
  string_returns : forall s, returns (Marshal_string s);
  int64_returns : forall z, returns (Marshal_int64 z);
  mode_returns : returns DiagMode;
  diagnose_returns : forall diagnose raw, DiagMode = Ok diagnose -> returns (diagnose raw) }.

Lemma inside_length v raw : inside v raw -> (length v < length raw)%nat.
Proof.
  intros (pre & post & Hpre & ->). rewrite !length_app.
  destruct pre; [done|]. simpl. lia.
Qed.

Lemma inside_bytes v raw : inside v raw -> Forall is_byte raw -> Forall is_byte v.
Proof. intros (pre & post & _ & ->). rewrite !Forall_app. tauto. Qed.

(** ** The order of encoded keys *)

Lemma bytes_Compare_refl a : bytes_Compare a a = 0.
Proof. induction a as [|x a IH]; simpl; [done|]. by rewrite Z.ltb_irrefl. Qed.

Lemma bytes_Compare_antisym a b : bytes_Compare b a = - bytes_Compare a b.
Proof.
  revert b. induction a as [|x a IH]; intros [|y b]; simpl; [done..|].
  destruct (Z.ltb_spec x y), (Z.ltb_spec y x); try lia. apply IH.
Qed.

Lemma bytes_Compare_eq a b : bytes_Compare a b = 0 -> a = b.
Proof.
  revert b. induction a as [|x a IH]; intros [|y b]; simpl; try done.
  destruct (Z.ltb_spec x y), (Z.ltb_spec y x); try lia. intros E%IH. f_equal; [lia|done].
Qed.

Lemma bytes_Compare_trans a b c :
  bytes_Compare a b <= 0 -> bytes_Compare b c <= 0 -> bytes_Compare a c <= 0.
Proof.
  revert b c. induction a as [|x a IH]; intros [|y b] [|z c]; simpl; try lia.
  destruct (Z.ltb_spec x y), (Z.ltb_spec y x), (Z.ltb_spec y z), (Z.ltb_spec z y),
    (Z.ltb_spec x z), (Z.ltb_spec z x); try lia. apply IH.
Qed.

Definition key_le (a b : list Z) : Prop := compare_keys a b <= 0.

Lemma compare_keys_antisym a b : compare_keys b a = - compare_keys a b.
Proof.
  unfold compare_keys. destruct (Z.eqb_spec (len a) (len b)) as [E|E].
  - rewrite E, Z.eqb_refl. apply bytes_Compare_antisym.
  - destruct (Z.eqb_spec (len b) (len a)); simpl; lia.
Qed.

#[local] Instance key_le_trans : Transitive key_le.
Proof.
  intros a b c. unfold key_le, compare_keys.
  destruct (Z.eqb_spec (len a) (len b)), (Z.eqb_spec (len b) (len c)),
    (Z.eqb_spec (len a) (len c)); simpl; try lia. apply bytes_Compare_trans.
Qed.

#[local] Instance key_le_antisym : AntiSymm (=) key_le.
Proof.
  intros a b. unfold key_le. intros Hab Hba. rewrite compare_keys_antisym in Hba.
  unfold compare_keys in *. destruct (Z.eqb_spec (len a) (len b)); simpl in *; [|lia].
  apply bytes_Compare_eq. lia.
Qed.

#[local] Instance entry_le_total `{DiagnosticCodec} : Total entry_le.
Proof.
  intros a b. unfold entry_le. rewrite (compare_keys_antisym (e_keyCBOR a)). lia.
Qed.

(** ** Schemas *)

(** The names of the fields [collectFields] meets in a type, those of
    embedded structs included. *)
Fixpoint flat_names (t : go_type) : list string :=
  match t with
  | TPointer elem => flat_names elem
  | TStruct _ fields =>
      flat_map (fun '(h, t') => f_Name h :: if f_Anonymous h then flat_names t' else []) fields
  | _ => []
  end.

(** No struct of the type, at any depth, has two fields named SubCommand. *)
Fixpoint one_subCommand (t : go_type) : bool :=
  (length (filter (fun s => s = "SubCommand") (flat_names t)) <=? 1)%nat &&
  match t with
  | TOther => true
  | TPointer elem | TArray elem | TSlice elem | TMap elem => one_subCommand elem
  | TStruct _ fields => forallb (fun '(_, t') => one_subCommand t') fields
  end.

Definition one_subCommand_schema (schema : option go_type) : Prop :=
  match schema with Some t => one_subCommand t = true | None => True end.

(** Induction on a type with its fields. *)
Section go_type_ind.
Context (P : go_type -> Prop).
Hypothesis other_case : P TOther.
Hypothesis pointer_case : forall t, P t -> P (TPointer t).
Hypothesis array_case : forall t, P t -> P (TArray t).
Hypothesis slice_case : forall t, P t -> P (TSlice t).
Hypothesis map_case : forall t, P t -> P (TMap t).
Hypothesis struct_case : forall name fields, Forall (fun f => P f.2) fields -> P (TStruct name fields).

Fixpoint go_type_nested_ind (t : go_type) : P t :=
  match t with
  | TOther => other_case
  | TPointer e => pointer_case e (go_type_nested_ind e)
  | TArray e => array_case e (go_type_nested_ind e)
  | TSlice e => slice_case e (go_type_nested_ind e)
  | TMap e => map_case e (go_type_nested_ind e)
  | TStruct name fields => struct_case name fields
      ((fix all (fs : list (field_header * go_type)) : Forall (fun f => P f.2) fs :=
          match fs with
          | [] => Forall_nil_2 _
          | f :: fs' => Forall_cons_2 _ f fs' (go_type_nested_ind f.2) (all fs')
          end) fields)
  end.
End go_type_ind.

Lemma one_subCommand_elem t elem :
  one_subCommand t = true -> t = TPointer elem \/ t = TArray elem \/ t = TSlice elem \/ t = TMap elem ->
  one_subCommand elem = true.
Proof. intros Ht [->|[->|[->| ->]]]; simpl in Ht; by to_prop. Qed.

Lemma one_subCommand_indirect t : one_subCommand t = true -> one_subCommand (indirect t) = true.
Proof.
  induction t; try done. intros Ht. apply IHt, (one_subCommand_elem (TPointer t)); auto.
Qed.

Lemma one_subCommand_collection schema :
  one_subCommand_schema schema -> one_subCommand_schema (collectionElementType schema).
Proof.
  destruct schema as [t|]; [|done]. intros Ht%one_subCommand_indirect.
  unfold collectionElementType. simpl. destruct (indirect t) eqn:E; try done;
    cbn; eapply one_subCommand_elem; eauto.
Qed.

Lemma one_subCommand_map schema :
  one_subCommand_schema schema -> one_subCommand_schema (mapElementType schema).
Proof.
  destruct schema as [t|]; [|done]. intros Ht%one_subCommand_indirect.
  unfold mapElementType. simpl. destruct (indirect t) eqn:E; try done;
    cbn; eapply one_subCommand_elem; eauto.
Qed.

Section Fields.
Context `{DiagnosticCodec}.

(** [collectFields] adds at most as many SubCommand fields as the type has,
    each with a type that is part of it. *)
Definition count_SubCommand (names : list string) : nat :=
  length (filter (fun s => s = "SubCommand") names).

Lemma count_SubCommand_hd name names :
  (count_SubCommand [name] <= count_SubCommand (name :: names))%nat.
Proof.
  unfold count_SubCommand. destruct (decide (name = "SubCommand")).
  - rewrite !filter_cons_True by done. simpl. lia.
  - rewrite (filter_cons_False _ name []) by done. apply Nat.le_0_l.
Qed.

Definition collected (names : list string) (ok : bool) (r r' : gmap (list Z) diagnosticField) : Prop :=
  (exists added, (length added <= count_SubCommand names)%nat /\
    forall b, is_SubCommand (r' !! b) = true -> is_SubCommand (r !! b) = true \/ b ∈ added) /\
  (ok = true -> forall b f, r' !! b = Some f -> r !! b = Some f \/ one_subCommand (df_typeInfo f) = true).

Lemma collected_refl r : collected [] true r r.
Proof. split; [exists []|]; simpl; auto. Qed.

Lemma collected_trans names1 names2 ok1 ok2 r r1 r2 :
  collected names1 ok1 r r1 -> collected names2 ok2 r1 r2 ->
  collected (names1 ++ names2) (ok1 && ok2) r r2.
Proof.
  intros [(a1 & Hl1 & Ha1) Ht1] [(a2 & Hl2 & Ha2) Ht2]. split.
  - exists (a1 ++ a2). unfold count_SubCommand in *. rewrite filter_app, !length_app. split; [lia|].
    intros b [Hb|Hb]%Ha2; [apply Ha1 in Hb as [|]|]; rewrite ?elem_of_app; auto.
  - intros [-> ->]%andb_true_iff b f [Hb|]%Ht2; auto.
Qed.

Lemma collected_weaken names names' ok ok' r r' :
  collected names ok r r' -> (count_SubCommand names <= count_SubCommand names')%nat ->
  (ok' = true -> ok = true) -> collected names' ok' r r'.
Proof. intros [(a & Hl & Ha) Ht] Hn Hok. split; [exists a; split; [lia|done]|auto]. Qed.

Lemma collected_insert r b f :
  collected [df_goName f] (one_subCommand (df_typeInfo f)) r (<[b := f]> r).
Proof.
  split.
  - exists (if is_SubCommand (Some f) then [b] else []). unfold count_SubCommand. split.
    + simpl. rewrite filter_cons. unfold is_SubCommand. do 2 case_decide; simpl; try done; lia.
    + intros b'. destruct (decide (b = b')) as [<-|Hne].
      * rewrite lookup_insert_eq. intros ->. right. by left.
      * rewrite lookup_insert_ne by done. auto.
  - intros Hf b' f'. destruct (decide (b = b')) as [<-|Hne].
    + rewrite lookup_insert_eq. intros [= <-]. auto.
    + rewrite lookup_insert_ne by done. auto.
Qed.

Lemma collectFields_collected t : forall path r r',
  collectFields t path r = Ok r' -> collected (flat_names t) (one_subCommand t) r r'.
Proof.
  induction t as [|t IH|t _|t _|t _|name fs IH] using go_type_nested_ind; intros path r r' Hr;
    try (injection Hr as <-; eapply collected_weaken; [apply collected_refl|simpl; lia|done]).
  - eapply collected_weaken; [by apply (IH path)|done|]. simpl. intros ?. by to_prop.
  - apply (collected_weaken (flat_map (fun '(h, t') => f_Name h :: if f_Anonymous h then flat_names t' else []) fs)
      _ (forallb (fun '(_, t') => one_subCommand t') fs)); [|done|simpl; intros ?; by to_prop].
    simpl in Hr. revert r Hr. induction IH as [|[h t] fs Ht _ IHfs]; intros r Hr.
    { injection Hr as <-. apply collected_refl. }
    change (collected ((f_Name h :: if f_Anonymous h then flat_names t else []) ++
      flat_map (fun '(h, t') => f_Name h :: if f_Anonymous h then flat_names t' else []) fs)
      (one_subCommand t && forallb (fun '(_, t') => one_subCommand t') fs) r r').
    assert (Hskip : collected (f_Name h :: if f_Anonymous h then flat_names t else [])
              (one_subCommand t) r r).
    { eapply collected_weaken; [apply collected_refl|apply Nat.le_0_l|done]. }
    destruct (negb (bool_decide (f_PkgPath h = ""))).
    { eapply collected_trans; [exact Hskip|by apply IHfs]. }
    destruct (bool_decide (_ = "-")).
    { eapply collected_trans; [exact Hskip|by apply IHfs]. }
    destruct (f_Anonymous h && _) eqn:Eanon.
    + apply andb_true_iff in Eanon as [Eanon _]. rewrite Eanon.
      destruct (collectFields t path r) as [r1| | |] eqn:E1; try discriminate Hr.
      eapply collected_trans; [|by apply (IHfs r1)].
      eapply collected_weaken; [by apply (Ht path)| |done].
      unfold count_SubCommand. rewrite filter_cons. case_decide; simpl; lia.
    + match type of Hr with (?m ≫= _) = _ => destruct m as [encodedKey| | |] end; try discriminate Hr.
      simpl in Hr. destruct (diagnosticTag h) as [[name' redact]| | |]; try discriminate Hr. simpl in Hr.
      eapply collected_trans; [|by eapply IHfs].
      eapply collected_weaken; [apply collected_insert| |done].
      apply count_SubCommand_hd.
Qed.

Definition one_field (fs : gmap (list Z) diagnosticField) : Prop :=
  forall b b', is_SubCommand (fs !! b) = true -> is_SubCommand (fs !! b') = true -> b = b'.

Lemma fields_one schema path fs :
  one_subCommand_schema schema -> fields schema path = Ok fs ->
  one_field fs /\ forall b f, fs !! b = Some f -> one_subCommand (df_typeInfo f) = true.
Proof.
  destruct schema as [t|]; simpl.
  2: { intros _ [= <-]. split; [intros b b'|intros b f]; by rewrite lookup_empty. }
  intros Ht Hfs. apply collectFields_collected in Hfs as [(added & Hl & Ha) Hf].
  assert (Hcount : (count_SubCommand (flat_names t) <= 1)%nat).
  { assert (exists b, one_subCommand t = (count_SubCommand (flat_names t) <=? 1)%nat && b) as [b Eb]
      by (destruct t; eexists; reflexivity).
    rewrite Eb in Ht. apply andb_true_iff in Ht as [Ht _]. by apply Nat.leb_le in Ht. }
  split.
  - assert (Hin : forall b, is_SubCommand (fs !! b) = true -> b ∈ added).
    { intros b [Hb|]%Ha; [by rewrite lookup_empty in Hb|done]. }
    intros b b' Hb%Hin Hb'%Hin. destruct added as [|x [|y added]]; [by apply elem_of_nil in Hb| |simpl in *; lia].
    apply list_elem_of_singleton in Hb, Hb'. congruence.
  - intros b f [Hb|]%(Hf Ht); [by rewrite lookup_empty in Hb|done].
Qed.
End Fields.

(** ** The entries of a map *)

Section Entries.
Context `{DiagnosticLaws}.
Implicit Types (m : gmap Key (list Z)) (fs : gmap (list Z) diagnosticField).

(** An entry as the loop makes it from the map. *)
Definition entry_of m fs (e : entry) : Prop :=
  m !! e_key e = Some (e_valueCBOR e) /\ Marshal_key (e_key e) = Ok (e_keyCBOR e) /\
  e_field e = fs !! e_keyCBOR e.

(** The number of the subcommand of a message. *)
Definition subCommand_of m fs (n : Z) : Prop :=
  (exists k b v, m !! k = Some v /\ Marshal_key k = Ok b /\ is_SubCommand (fs !! b) = true /\
     n = read_SubCommand v 0) \/
  (n = 0 /\ forall k b v, m !! k = Some v -> Marshal_key k = Ok b -> is_SubCommand (fs !! b) = false).

Lemma key_unique raw m k k' v v' b :
  Unmarshal_map raw = Ok m -> m !! k = Some v -> m !! k' = Some v' ->
  Marshal_key k = Ok b -> Marshal_key k' = Ok b -> k = k'.
Proof.
  intros Hm Hk Hk' Hb Hb'. apply (keys_inj raw m k k' b); try done.
  - by apply elem_of_dom_2 in Hk.
  - by apply elem_of_dom_2 in Hk'.
Qed.

Lemma subCommand_of_unique raw m fs n n' :
  Unmarshal_map raw = Ok m -> one_field fs -> subCommand_of m fs n -> subCommand_of m fs n' -> n = n'.
Proof.
  intros Hm Hone [(k & b & v & Hk & Hb & Hs & ->)|[-> Hno]] [(k' & b' & v' & Hk' & Hb' & Hs' & ->)|[-> Hno']].
  - rewrite (Hone _ _ Hs Hs') in Hb.
    assert (k = k') as <- by eauto using key_unique. congruence.
  - by rewrite (Hno' _ _ _ Hk Hb) in Hs.
  - by rewrite (Hno _ _ _ Hk' Hb') in Hs'.
  - done.
Qed.

Lemma collect_entries_spec raw m fs l s :
  Unmarshal_map raw = Ok m -> one_field fs -> NoDup l.*1 -> (forall k v, (k, v) ∈ l -> m !! k = Some v) ->
  exists es n, collect_entries fs l s = Ok (es, n) /\ e_key <$> es = l.*1 /\ Forall (entry_of m fs) es /\
    ((exists k b v, (k, v) ∈ l /\ Marshal_key k = Ok b /\ is_SubCommand (fs !! b) = true /\
        n = read_SubCommand v s) \/
     (n = s /\ forall k b v, (k, v) ∈ l -> Marshal_key k = Ok b -> is_SubCommand (fs !! b) = false)).
Proof.
  intros Hm Hone. revert s. induction l as [|[k v] l IH]; intros s Hnd Hl.
  { exists [], s. split_and!; [done..|]. right. split; [done|]. intros ??? []%elem_of_nil. }
  apply NoDup_cons in Hnd as [Hk Hnd].
  assert (Hkv : m !! k = Some v) by (apply Hl; left).
  destruct (keys_marshal raw m k v Hm Hkv) as [b Hb].
  destruct (IH (if is_SubCommand (fs !! b) then read_SubCommand v s else s) Hnd) as (es & n & Hes & Hkeys & Hall & Hn).
  { intros k' v' Hin. apply Hl. by right. }
  exists (Entry k b v (fs !! b) :: es), n. split_and!.
  - simpl. rewrite Hb. simpl. rewrite Hes. done.
  - by rewrite !fmap_cons, Hkeys.
  - by constructor.
  - destruct (is_SubCommand (fs !! b)) eqn:Es.
    + destruct Hn as [(k' & b' & v' & Hin & Hb' & Es' & ->)|[-> _]].
      * exfalso. apply Hk. rewrite (Hone _ _ Es' Es) in Hb'.
        assert (k' = k) as ->.
        { apply (key_unique raw m k' k v' v b); [done| |done..]. apply Hl. by right. }
        apply list_elem_of_fmap. by exists (k, v').
      * left. exists k, b, v. split_and!; [left|done..].
    + destruct Hn as [(k' & b' & v' & Hin & ?)|[-> Hno]].
      * left. exists k', b', v'. split_and!; [by right|tauto..].
      * right. split; [done|]. intros k' b' v' [[= -> ->]|Hin]%elem_of_cons Hb'; [congruence|eauto].
Qed.

(** Entries of the same key in two messages. *)
Definition paired m m' fs (e e' : entry) : Prop :=
  exists k b v v', m !! k = Some v /\ m' !! k = Some v' /\ Marshal_key k = Ok b /\
    e = Entry k b v (fs !! b) /\ e' = Entry k b v' (fs !! b).

Definition encoded (k : Key) : list Z := match Marshal_key k with Ok b => b | _ => [] end.

Lemma entry_of_encoded m fs es :
  Forall (entry_of m fs) es -> e_keyCBOR <$> es = encoded <$> (e_key <$> es).
Proof.
  induction 1 as [|e es (_ & Hb & _) _ IH]; [done|]. rewrite !fmap_cons, <- IH. f_equal.
  unfold encoded. by rewrite Hb.
Qed.

Lemma same_keys_perm m m' : (forall k, is_Some (m !! k) <-> is_Some (m' !! k)) ->
  (map_to_list m).*1 ≡ₚ (map_to_list m').*1.
Proof.
  intros Hk. apply NoDup_Permutation; [apply NoDup_fst_map_to_list..|].
  intros k. rewrite !list_elem_of_fmap. split; intros ([? v] & -> & Hv%elem_of_map_to_list); simpl.
  - assert (is_Some (m' !! k0)) as [v' Hv'] by (apply Hk; eauto).
    exists (k0, v'). by rewrite elem_of_map_to_list.
  - assert (is_Some (m !! k0)) as [v' Hv'] by (apply Hk; eauto).
    exists (k0, v'). by rewrite elem_of_map_to_list.
Qed.

(** Sorting brings the entries of two messages with the same keys to the
    same order, whatever the order they were in. *)
Lemma sorted_entries raw m m' fs es es' :
  Unmarshal_map raw = Ok m -> (forall k, is_Some (m !! k) <-> is_Some (m' !! k)) ->
  Forall (entry_of m fs) es -> Forall (entry_of m' fs) es' ->
  e_key <$> es ≡ₚ (map_to_list m).*1 -> e_key <$> es' ≡ₚ (map_to_list m').*1 ->
  Forall2 (paired m m' fs) (merge_sort entry_le es) (merge_sort entry_le es').
Proof.
  intros Hm Hsame Hes Hes' Hp Hp'.
  assert (Hcbor : e_keyCBOR <$> merge_sort entry_le es = e_keyCBOR <$> merge_sort entry_le es').
  { apply (Sorted_unique key_le).
    - apply (Sorted_fmap _ entry_le); [done|apply Sorted_merge_sort, _].
    - apply (Sorted_fmap _ entry_le); [done|apply Sorted_merge_sort, _].
    - rewrite !merge_sort_Permutation. rewrite (entry_of_encoded m fs es), (entry_of_encoded m' fs es') by done.
      by rewrite Hp, Hp', (same_keys_perm m m'). }
  rewrite <- (merge_sort_Permutation entry_le es) in Hes.
  rewrite <- (merge_sort_Permutation entry_le es') in Hes'.
  revert Hes Hes' Hcbor. generalize (merge_sort entry_le es) (merge_sort entry_le es').
  intros l l' Hl. revert l'. induction Hl as [|e l (Hk & Hb & Hf) _ IH]; intros [|e' l'] Hl' Heq;
    try discriminate Heq; [constructor|].
  apply Forall_cons in Hl' as [(Hk' & Hb' & Hf') Hl'].
  rewrite !fmap_cons in Heq. injection Heq as Heb Heq. constructor; [|by apply IH].
  assert (is_Some (m !! e_key e')) as [v Hv] by (apply Hsame; eauto).
  assert (e_key e = e_key e') as Ek by (rewrite <- Heb in Hb'; eauto using key_unique).
  exists (e_key e), (e_keyCBOR e), (e_valueCBOR e), (e_valueCBOR e'). split_and!; try done.
  - by rewrite Ek.
  - destruct e; simpl in *. by subst.
  - destruct e, e'; simpl in *. by subst.
Qed.

(** What one map gives in any two orders. *)
Lemma collect_entries_range raw m fs (range : gmap Key (list Z) -> list (Key * list Z)) :
  Unmarshal_map raw = Ok m -> one_field fs -> range m ≡ₚ map_to_list m ->
  exists es n, collect_entries fs (range m) 0 = Ok (es, n) /\ e_key <$> es ≡ₚ (map_to_list m).*1 /\
    Forall (entry_of m fs) es /\ subCommand_of m fs n.
Proof.
  intros Hm Hone Hr.
  assert (Hin : forall k v, (k, v) ∈ range m <-> m !! k = Some v).
  { intros k v. rewrite Hr. apply elem_of_map_to_list. }
  destruct (collect_entries_spec raw m fs (range m) 0 Hm Hone) as (es & n & Hes & Hkeys & Hall & Hn).
  { rewrite Hr. apply NoDup_fst_map_to_list. }
  { intros k v. by rewrite Hin. }
  exists es, n. split_and!; [done|by rewrite Hkeys, Hr|done|].
  unfold subCommand_of. setoid_rewrite Hin in Hn. done.
Qed.
End Entries.

(** ** Values that redaction makes equal *)

(** What remains of a head outside tags: the major type, and the kind of a
    simple or floating-point value. *)
Definition simple_kind (info : Z) : Z :=
  if (info =? 20) || (info =? 21) then 0
  else if info =? 22 then 1 else if info =? 23 then 2
  else if (info =? 25) || (info =? 26) || (info =? 27) then 3 else 4.
Definition head_kind (head : Z) : Z * Z :=
  (majorType head, if majorType head =? 7 then simple_kind (Z.land head 0x1f) else 0).

Section Relation.
Context `{DiagnosticCodec}.

(** Two values of one kind: all that redaction shows. *)
Inductive same_shape : list Z -> list Z -> Prop :=
  | shape_head h h' r r' :
      majorType h <> 6 -> head_kind h = head_kind h' -> same_shape (h :: r) (h' :: r')
  | shape_tag h h' r r' n c c' :
      majorType h = 6 -> majorType h' = 6 ->
      Unmarshal_tag (h :: r) = Ok (n, c) -> Unmarshal_tag (h' :: r') = Ok (n, c') ->
      same_shape c c' -> same_shape (h :: r) (h' :: r').

Definition redacts (field : option diagnosticField) : bool :=
  match field with Some f => df_redact f | None => false end.

Context (subCommandParams : gmap Z go_type) (mapValueTypes : gmap (string * string) go_type).

(** Two items of a schema that differ only in redacted values: equal items;
    arrays of such items; maps with the same keys and subcommand number,
    whose values are of one kind under a redacted field and such items
    elsewhere. *)
Inductive redacted_equal : option go_type -> string -> list Z -> list Z -> Prop :=
  | re_same schema path raw : redacted_equal schema path raw raw
  | re_array schema path h h' r r' vs vs' :
      majorType h = 4 -> majorType h' = 4 ->
      Unmarshal_array (h :: r) = Ok vs -> Unmarshal_array (h' :: r') = Ok vs' ->
      Forall2 (redacted_equal (collectionElementType schema) path) vs vs' ->
      redacted_equal schema path (h :: r) (h' :: r')
  | re_map schema path h h' r r' m m' fs n :
      majorType h = 5 -> majorType h' = 5 ->
      Unmarshal_map (h :: r) = Ok m -> Unmarshal_map (h' :: r') = Ok m' ->
      (forall k, is_Some (m !! k) <-> is_Some (m' !! k)) ->
      fields schema path = Ok fs -> subCommand_of m fs n -> subCommand_of m' fs n ->
      (forall k b v v', m !! k = Some v -> m' !! k = Some v' -> Marshal_key k = Ok b ->
         redacts (fs !! b) = true -> v = v' \/ same_shape v v') ->
      (forall k b v v', m !! k = Some v -> m' !! k = Some v' -> Marshal_key k = Ok b ->
         redacts (fs !! b) = false ->
         redacted_equal (entry_schema subCommandParams mapValueTypes (mapElementType schema) path n
                           (Entry k b v (fs !! b)))
           (fieldPath path (fs !! b)) v v') ->
      redacted_equal schema path (h :: r) (h' :: r').
End Relation.

Section Shape.
Context `{DiagnosticLaws}.

Lemma redactedNotation_fuel v : forall n n' depth,
  (length v <= n)%nat -> (length v <= n')%nat -> redactedNotation n v depth = redactedNotation n' v depth.
Proof.
  remember (length v) as k eqn:Ek. revert v Ek. induction (lt_wf k) as [k _ IH].
  intros [|h r] -> [|n] [|n'] depth Hn Hn'; simpl in Hn, Hn'; try done; try lia.
  cbn [redactedNotation].
  destruct (Z.eq_dec (majorType h) 6) as [E|E].
  - rewrite E. destruct (Unmarshal_tag (h :: r)) as [[t c]| | |] eqn:Et; [|done..]. cbn.
    apply tag_inside, inside_length in Et. simpl in Et.
    by rewrite (IH (length c) ltac:(simpl; lia) c eq_refl n n' depth ltac:(lia) ltac:(lia)).
  - by destruct (majorType h) as [|[[[p|p|]|[p|p|]|]|[[p|p|]|[p|p|]|]|]|].
Qed.

Lemma redactedNotation_nonempty n v depth s : redactedNotation n v depth = Ok s -> s <> "".
Proof.
  destruct n, v as [|h r]; try done. cbn [redactedNotation].
  destruct (majorType h) as [|[[[p|p|]|[p|p|]|]|[[p|p|]|[p|p|]|]|]|]; try (by intros [= <-]); try done.
  - intros Hs. repeat case_match; by injection Hs as <-.
  - destruct (Unmarshal_tag (h :: r)) as [[t c]| | |]; try done. cbn.
    destruct (redactedNotation n c depth); try done. intros [= <-]. by destruct (pretty t).
Qed.

Lemma redactedNotation_shape v v' : same_shape v v' -> forall n n' depth,
  (length v <= n)%nat -> (length v' <= n')%nat -> redactedNotation n v depth = redactedNotation n' v' depth.
Proof.
  induction 1 as [h h' r r' Ht Hk|h h' r r' t c c' Ht Ht' Hc Hc' _ IH]; intros [|n] [|n'] depth Hn Hn';
    simpl in Hn, Hn'; try lia; cbn [redactedNotation].
  - injection Hk as Ek Es. rewrite <- Ek in Es |- *.
    destruct (majorType h) as [|[[[p|p|]|[p|p|]|]|[[p|p|]|[p|p|]|]|]|]; try done.
    change (simple_kind (Z.land h 31) = simple_kind (Z.land h' 31)) in Es. unfold simple_kind in Es.
    by repeat case_match.
  - rewrite Ht, Ht', Hc, Hc'. cbn. apply tag_inside, inside_length in Hc, Hc'. simpl in Hc, Hc'.
    by rewrite (IH n n' depth) by lia.
Qed.
End Shape.

(** ** Rendering two such messages *)

Lemma Forall2_members {A B} (P : A -> B -> Prop) l l' :
  Forall2 P l l' -> Forall2 (fun x y => x ∈ l /\ y ∈ l' /\ P x y) l l'.
Proof.
  induction 1 as [|x y l l' HP _ IH]; constructor.
  - split_and!; [left|left|done].
  - eapply Forall2_impl; [exact IH|]. intros ?? (? & ? & ?). split_and!; [by right|by right|done].
Qed.

Lemma render_elements_ext f g depth vs vs' :
  Forall2 (fun v v' => forall st, f v st = g v' st) vs vs' ->
  forall st, render_elements f depth vs st = render_elements g depth vs' st.
Proof.
  induction 1 as [|v v' vs vs' Hv Hall IH]; intros st; [done|].
  cbn [render_elements]. unfold mbind, M_bind. rewrite Hv. destruct (g v' st) as [[[notation ?]| | |] st1]; try done.
  rewrite IH. by destruct Hall.
Qed.

Lemma render_entries_ext `{DiagnosticCodec} f g depth (es es' : list entry) :
  Forall2 (fun e e' => forall st, f e st = g e' st) es es' ->
  forall st, render_entries f depth es st = render_entries g depth es' st.
Proof.
  induction 1 as [|e e' es es' He Hall IH]; intros st; [done|].
  cbn [render_entries]. unfold mbind, M_bind. rewrite He. destruct (g e' st) as [[line| | |] st1]; try done.
  rewrite IH. by destruct Hall.
Qed.

Section Rendering.
Context `{DiagnosticLaws}.
Context (diagnose : list Z -> result string).
Context (subCommandParams : gmap Z go_type) (mapValueTypes : gmap (string * string) go_type).
Context (range range' : gmap Key (list Z) -> list (Key * list Z)).
Hypothesis range_spec : forall m, range m ≡ₚ map_to_list m.
Hypothesis range'_spec : forall m, range' m ≡ₚ map_to_list m.
Hypothesis params_ok : forall k t, subCommandParams !! k = Some t -> one_subCommand t = true.
Hypothesis values_ok : forall k t, mapValueTypes !! k = Some t -> one_subCommand t = true.

#[local] Abbreviation schema_at := (entry_schema subCommandParams mapValueTypes).

Lemma entry_schema_one (schema : option go_type) (path : string) (n : Z) (fs : gmap (list Z) diagnosticField) (e : entry) :
  one_subCommand_schema schema ->
  (forall b f, fs !! b = Some f -> one_subCommand (df_typeInfo f) = true) ->
  e_field e = fs !! e_keyCBOR e ->
  one_subCommand_schema (schema_at (mapElementType schema) path n e).
Proof using params_ok values_ok.
  intros Hs Hfs He. apply one_subCommand_map in Hs. unfold entry_schema. rewrite He.
  destruct (fs !! e_keyCBOR e) as [f|] eqn:Ef.
  - case_bool_decide; [destruct (subCommandParams !! n) eqn:En; [by eapply params_ok|]|];
      by apply (Hfs _ _ Ef).
  - destruct (key_string (e_key e)) as [key|]; [|done].
    destruct (mapValueTypes !! (path, key)) eqn:Ek; [|done]. by eapply values_ok.
Qed.

(** Two renderings of one entry. *)
Lemma render_entry_ext f g mapType (path : string) depth (n : Z) k b v v' (field : option diagnosticField) st :
  (redacts field = true -> v = v' \/ same_shape v v') ->
  (redacts field = false -> forall st,
     f v (schema_at mapType path n (Entry k b v field)) (fieldPath path field) st =
     g v' (schema_at mapType path n (Entry k b v field)) (fieldPath path field) st) ->
  render_entry diagnose subCommandParams mapValueTypes f mapType path depth n (Entry k b v field) st =
  render_entry diagnose subCommandParams mapValueTypes g mapType path depth n (Entry k b v' field) st.
Proof.
  intros Hshape Hsame. unfold render_entry.
  change (entry_comment (Entry k b v' field)) with (entry_comment (Entry k b v field)).
  change (schema_at mapType path n (Entry k b v' field)) with (schema_at mapType path n (Entry k b v field)).
  cbn [e_keyCBOR e_valueCBOR e_field]. unfold mbind, M_bind, lift.
  destruct (entry_comment _); try done. destruct (diagnose b); try done.
  destruct (redacts field) eqn:Er.
  - destruct field as [fd|]; [|done]. simpl in Er. unfold redacted_value. rewrite Er.
    assert (Hv : redactedNotation (length v) v (depth + 1) = redactedNotation (length v') v' (depth + 1)).
    { destruct (Hshape eq_refl) as [->|Hs]; [done|]. by apply redactedNotation_shape. }
    rewrite <- Hv. unfold mbind, M_bind, lift.
    destruct (redactedNotation (length v) v (depth + 1)) as [s| | |] eqn:Es; try done.
    apply redactedNotation_nonempty in Es. cbn. by rewrite bool_decide_false.
  - assert (Hnone : forall w d, redacted_value field w d = mret "").
    { intros w d. destruct field as [fd|]; [simpl in Er; simpl; by rewrite Er|done]. }
    rewrite !Hnone. cbn. rewrite bool_decide_true by done. unfold mbind, M_bind. by rewrite Hsame.
Qed.

Lemma renderMap_ext f g raw raw' m m' schema path depth fs n st :
  one_subCommand_schema schema ->
  Unmarshal_map raw = Ok m -> Unmarshal_map raw' = Ok m' ->
  (forall k, is_Some (m !! k) <-> is_Some (m' !! k)) ->
  fields schema path = Ok fs -> subCommand_of m fs n -> subCommand_of m' fs n ->
  (forall k b v v' st, m !! k = Some v -> m' !! k = Some v' -> Marshal_key k = Ok b ->
     render_entry diagnose subCommandParams mapValueTypes f (mapElementType schema) path depth n
       (Entry k b v (fs !! b)) st =
     render_entry diagnose subCommandParams mapValueTypes g (mapElementType schema) path depth n
       (Entry k b v' (fs !! b)) st) ->
  renderMap diagnose subCommandParams mapValueTypes range f raw schema path depth st =
  renderMap diagnose subCommandParams mapValueTypes range' g raw' schema path depth st.
Proof using All.
  intros Hs Hm Hm' Hsame Hfs Hn Hn' Hentry.
  destruct (fields_one schema path fs Hs Hfs) as [Hone _].
  destruct (collect_entries_range raw m fs range Hm Hone (range_spec m)) as (es & n1 & Hes & Hp & Hall & Hn1).
  destruct (collect_entries_range raw' m' fs range' Hm' Hone (range'_spec m')) as (es' & n2 & Hes' & Hp' & Hall' & Hn2).
  rewrite (subCommand_of_unique raw m fs n1 n Hm Hone Hn1 Hn) in Hes.
  rewrite (subCommand_of_unique raw' m' fs n2 n Hm' Hone Hn2 Hn') in Hes'.
  unfold renderMap, mbind, M_bind, lift. rewrite Hm, Hm', Hfs, Hes, Hes'.
  pose proof (sorted_entries raw m m' fs es es' Hm Hsame Hall Hall' Hp Hp') as Hsorted.
  assert (Hlines : forall st, render_entries (render_entry diagnose subCommandParams mapValueTypes f
      (mapElementType schema) path depth n) depth (merge_sort entry_le es) st =
    render_entries (render_entry diagnose subCommandParams mapValueTypes g
      (mapElementType schema) path depth n) depth (merge_sort entry_le es') st).
  { apply render_entries_ext. eapply Forall2_impl; [exact Hsorted|].
    intros e e' (k & b & v & v' & Hk & Hk' & Hb & -> & ->) st'. by apply Hentry. }
  revert Hlines. destruct Hsorted; intros Hlines; [done|].
  unfold mbind, M_bind. by rewrite Hlines.
Qed.

(** The three kinds of item [render] tells apart. *)
Lemma render_array rg n h r schema path depth : majorType h = 4 ->
  render diagnose subCommandParams mapValueTypes rg (S n) (h :: r) schema path depth =
  (values ← lift (Unmarshal_array (h :: r));
   match values with
   | [] => mret ("[]", 0)
   | _ =>
       body ← render_elements (fun value => render diagnose subCommandParams mapValueTypes rg n value
                (collectionElementType schema) path (depth + 1)) depth values;
       mret ("[" +:+ newline +:+ body +:+ writeDiagnosticIndent depth +:+ "]", 0)
   end).
Proof using. intros E. cbn [render]. by rewrite E. Qed.

Lemma render_map rg n h r schema path depth : majorType h = 5 ->
  render diagnose subCommandParams mapValueTypes rg (S n) (h :: r) schema path depth =
  renderMap diagnose subCommandParams mapValueTypes rg (fun value childSchema childPath =>
    render diagnose subCommandParams mapValueTypes rg n value childSchema childPath (depth + 1))
    (h :: r) schema path depth.
Proof using. intros E. cbn [render]. by rewrite E. Qed.

Lemma render_leaf rg n h r schema path depth : majorType h <> 4 -> majorType h <> 5 ->
  render diagnose subCommandParams mapValueTypes rg (S n) (h :: r) schema path depth =
  (notation ← lift (diagnose (h :: r)); mret (notation, 0)).
Proof using.
  intros E4 E5. cbn [render].
  by destruct (majorType h) as [|[[[p|p|]|[p|p|]|]|[[p|p|]|[p|p|]|]|]|].
Qed.

Lemma array_elements f g depth vs vs' st :
  Forall2 (fun v v' => forall st, f v st = g v' st) vs vs' ->
  (match vs with
   | [] => mret ("[]", 0)
   | _ => body ← render_elements f depth vs;
          mret ("[" +:+ newline +:+ body +:+ writeDiagnosticIndent depth +:+ "]", 0)
   end : M (list string) (string * Z)) st =
  (match vs' with
   | [] => mret ("[]", 0)
   | _ => body ← render_elements g depth vs';
          mret ("[" +:+ newline +:+ body +:+ writeDiagnosticIndent depth +:+ "]", 0)
   end : M (list string) (string * Z)) st.
Proof using.
  intros Hall. pose proof (render_elements_ext f g depth vs vs' Hall) as Hlines.
  revert Hlines. destruct Hall; intros Hlines; [done|]. unfold mbind, M_bind. by rewrite Hlines.
Qed.

(** Items of at most [n] bytes render alike when they agree outside what is
    redacted. *)
Definition renders_alike (n : nat) : Prop := forall n' raw raw' schema path depth st,
  (length raw <= n)%nat -> (length raw' <= n')%nat -> one_subCommand_schema schema ->
  redacted_equal subCommandParams mapValueTypes schema path raw raw' ->
  render diagnose subCommandParams mapValueTypes range n raw schema path depth st =
  render diagnose subCommandParams mapValueTypes range' n' raw' schema path depth st.

Lemma render_array_alike n k h h' r r' vs vs' schema path depth st :
  renders_alike n -> (length (h :: r) <= S n)%nat -> (length (h' :: r') <= S k)%nat ->
  one_subCommand_schema schema -> majorType h = 4 -> majorType h' = 4 ->
  Unmarshal_array (h :: r) = Ok vs -> Unmarshal_array (h' :: r') = Ok vs' ->
  Forall2 (redacted_equal subCommandParams mapValueTypes (collectionElementType schema) path) vs vs' ->
  render diagnose subCommandParams mapValueTypes range (S n) (h :: r) schema path depth st =
  render diagnose subCommandParams mapValueTypes range' (S k) (h' :: r') schema path depth st.
Proof using All.
  intros IH Hl Hl' Hs Hh Hh' Hvs Hvs' Hall. rewrite !render_array by done.
  unfold mbind, M_bind, lift. rewrite Hvs, Hvs'. apply array_elements.
  eapply Forall2_impl; [by apply Forall2_members|]. intros v v' (Hv & Hv' & Hr) st'.
  pose proof (array_inside _ _ _ Hvs Hv) as Hi%inside_length.
  pose proof (array_inside _ _ _ Hvs' Hv') as Hi'%inside_length.
  simpl in *. apply IH; [lia|lia|by apply one_subCommand_collection|done].
Qed.

Lemma render_map_alike n k h h' r r' m m' fs sub schema path depth st :
  renders_alike n -> (length (h :: r) <= S n)%nat -> (length (h' :: r') <= S k)%nat ->
  one_subCommand_schema schema -> majorType h = 5 -> majorType h' = 5 ->
  Unmarshal_map (h :: r) = Ok m -> Unmarshal_map (h' :: r') = Ok m' ->
  (forall k, is_Some (m !! k) <-> is_Some (m' !! k)) ->
  fields schema path = Ok fs -> subCommand_of m fs sub -> subCommand_of m' fs sub ->
  (forall k b v v', m !! k = Some v -> m' !! k = Some v' -> Marshal_key k = Ok b ->
     redacts (fs !! b) = true -> v = v' \/ same_shape v v') ->
  (forall k b v v', m !! k = Some v -> m' !! k = Some v' -> Marshal_key k = Ok b ->
     redacts (fs !! b) = false ->
     redacted_equal subCommandParams mapValueTypes
       (schema_at (mapElementType schema) path sub (Entry k b v (fs !! b)))
       (fieldPath path (fs !! b)) v v') ->
  render diagnose subCommandParams mapValueTypes range (S n) (h :: r) schema path depth st =
  render diagnose subCommandParams mapValueTypes range' (S k) (h' :: r') schema path depth st.
Proof using All.
  intros IH Hl Hl' Hs Hh Hh' Hm Hm' Hsame Hfs Hn Hn' Hred Hrest. rewrite !render_map by done.
  apply (renderMap_ext _ _ _ _ m m' _ _ _ fs sub); try done.
  intros k0 b v v' st' Hk Hk' Hb. apply render_entry_ext; [by eapply Hred|].
  intros Er st''. pose proof (map_inside _ _ _ _ Hm Hk) as Hi%inside_length.
  pose proof (map_inside _ _ _ _ Hm' Hk') as Hi'%inside_length.
  simpl in *. apply IH; [lia|lia| |by eapply Hrest].
  destruct (fields_one schema path fs Hs Hfs) as [_ Htypes].
  by apply (entry_schema_one schema path sub fs).
Qed.

(** The same item, whatever the orders of its maps. *)
Lemma render_same n k h r schema path depth st :
  renders_alike n -> (length (h :: r) <= S n)%nat -> (length (h :: r) <= S k)%nat -> one_subCommand_schema schema ->
  render diagnose subCommandParams mapValueTypes range (S n) (h :: r) schema path depth st =
  render diagnose subCommandParams mapValueTypes range' (S k) (h :: r) schema path depth st.
Proof using All.
  intros IH Hl Hl' Hs.
  destruct (Z.eq_dec (majorType h) 4) as [E4|E4]; [|destruct (Z.eq_dec (majorType h) 5) as [E5|E5]].
  - destruct (Unmarshal_array (h :: r)) as [vs| | |] eqn:Hvs;
      [|by rewrite !render_array by done; unfold mbind, M_bind, lift; rewrite Hvs..].
    apply (render_array_alike n k h h r r vs vs); try done.
    apply Forall_Forall2_diag, Forall_forall. intros v _. constructor.
  - destruct (Unmarshal_map (h :: r)) as [m| | |] eqn:Hm;
      [|by rewrite !render_map by done; unfold renderMap; rewrite Hm..].
    destruct (fields schema path) as [fs| | |] eqn:Hfs;
      [|by rewrite !render_map by done; unfold renderMap, mbind, M_bind, lift; rewrite Hm, Hfs..].
    destruct (fields_one schema path fs Hs Hfs) as [Hone _].
    destruct (collect_entries_range _ m fs range Hm Hone (range_spec m)) as (_ & sub & _ & _ & _ & Hsub).
    apply (render_map_alike n k h h r r m m fs sub); try done.
    + intros k0 b v v' Hk Hk' _ _. left. congruence.
    + intros k0 b v v' Hk Hk' _ _. assert (v' = v) as -> by congruence. constructor.
  - by rewrite !render_leaf.
Qed.

Lemma render_redacted n : renders_alike n.
Proof using All.
  induction n as [|n IH]; intros n' raw raw' schema path depth st Hl Hl' Hs Hr.
  { destruct raw; simpl in Hl; [|lia]. inversion Hr; subst. by destruct n'. }
  destruct Hr as [schema path [|h r]|schema path h h' r r' vs vs' Hh Hh' Hvs Hvs' Hall
                 |schema path h h' r r' m m' fs sub Hh Hh' Hm Hm' Hsame Hfs Hn Hn' Hred Hrest];
    [by destruct n'|..]; (destruct n' as [|n']; [simpl in Hl'; lia|]).
  - by apply render_same.
  - by apply (render_array_alike n n' h h' r r' vs vs').
  - by apply (render_map_alike n n' h h' r r' m m' fs sub).
Qed.
End Rendering.

(** ** Rendering returns *)

Definition M_returns {W A} (m : M W A) : Prop := forall st, returns (m st).1.

Lemma returns_bind {A B} (r : result A) (f : A -> result B) :
  returns r -> (forall a, r = Ok a -> returns (f a)) -> returns (r ≫= f).
Proof. destruct r; simpl; auto. Qed.

Lemma M_returns_bind {W A B} (m : M W A) (f : A -> M W B) :
  M_returns m -> (forall a, M_returns (f a)) -> M_returns (m ≫= f).
Proof.
  intros Hm Hf st. unfold mbind, M_bind. specialize (Hm st).
  destruct (m st) as [[a| | |] st']; try done. apply Hf.
Qed.

Lemma M_returns_lift {W A} (r : result A) : returns r -> M_returns (W := W) (lift r).
Proof. by intros ? st. Qed.

Lemma M_returns_ret {W A} (a : A) : M_returns (W := W) (mret a).
Proof. by intros st. Qed.

Lemma majorType_range h : is_byte h -> 0 <= majorType h <= 7.
Proof.
  unfold is_byte, majorType. intros Hh. rewrite Z.shiftr_div_pow2 by lia.
  change (2 ^ 5) with 32. pose proof (Z.div_pos h 32). pose proof (Z.div_lt_upper_bound h 32 8). lia.
Qed.

Lemma diagnosticTag_options_returns l redact : returns (diagnosticTag_options l redact).
Proof.
  revert redact. induction l as [|option l IH]; intros redact; [done|].
  simpl. by repeat case_bool_decide.
Qed.

Lemma diagnosticTag_returns h : returns (diagnosticTag h).
Proof.
  unfold diagnosticTag. destruct (Tag_Lookup _ _); [|done].
  apply returns_bind; [apply diagnosticTag_options_returns|done].
Qed.

Section Returns.
Context `{DiagnosticLaws}.

Lemma collectFields_returns t : forall path r, returns (collectFields t path r).
Proof.
  induction t as [|t IH|t _|t _|t _|name fs IH] using go_type_nested_ind; intros path r; try done.
  - apply IH.
  - cbn [collectFields]. revert r. induction IH as [|[h t] fs Ht _ IHfs]; intros r; [done|].
    destruct (negb (bool_decide (f_PkgPath h = ""))); [done|].
    destruct (bool_decide (_ = "-")); [done|].
    destruct (f_Anonymous h && _); [apply returns_bind; [apply Ht|]; intros; apply IHfs|].
    apply returns_bind.
    + destruct (contains _ "keyasint"); [|apply string_returns].
      destruct (ParseInt _); [apply int64_returns|done].
    + intros b _. apply returns_bind; [apply diagnosticTag_returns|]. intros [name' redact] _. apply IHfs.
Qed.

Lemma fields_returns schema path : returns (fields schema path).
Proof. destruct schema; [apply collectFields_returns|done]. Qed.

Lemma redactedNotation_returns v : forall n depth, Forall is_byte v -> (length v <= n)%nat ->
  returns (redactedNotation n v depth).
Proof.
  remember (length v) as k eqn:Ek. revert v Ek. induction (lt_wf k) as [k _ IH].
  intros [|h r] -> [|n] depth Hb Hn; simpl in Hn; try done; try lia.
  cbn [redactedNotation]. pose proof Hb as [Hh _]%Forall_cons. apply majorType_range in Hh.
  destruct (Z.eq_dec (majorType h) 6) as [E|E].
  - rewrite E. pose proof (tag_returns (h :: r)) as Ht.
    apply returns_bind; [done|]. intros [t c] Hc. apply tag_inside in Hc.
    pose proof (inside_length _ _ Hc) as Hl. simpl in Hl.
    apply returns_bind; [|done]. apply (IH (length c)); [simpl; lia|done|by eapply inside_bytes|lia].
  - destruct (majorType h) as [|[[[p|p|]|[p|p|]|]|[[p|p|]|[p|p|]|]|]|]; try done; try lia.
    by repeat case_match.
Qed.

Lemma render_elements_returns f depth vs :
  Forall (fun v => M_returns (f v)) vs -> M_returns (render_elements f depth vs).
Proof.
  induction 1 as [|v vs Hv _ IH]; [apply M_returns_ret|]. cbn [render_elements].
  apply M_returns_bind; [done|]. intros [notation ?]. apply M_returns_bind; [done|]. intros ?. apply M_returns_ret.
Qed.

Lemma render_entries_returns f depth (es : list entry) :
  Forall (fun e => M_returns (f e)) es -> M_returns (render_entries f depth es).
Proof.
  induction 1 as [|e es He _ IH]; [apply M_returns_ret|]. cbn [render_entries].
  apply M_returns_bind; [done|]. intros line. apply M_returns_bind; [done|]. intros ?. apply M_returns_ret.
Qed.
End Returns.

Section RenderReturns.
Context `{HL : DiagnosticLaws}.
Context (diagnose : list Z -> result string) (diagnose_ok : forall raw, returns (diagnose raw)).
Context (subCommandParams : gmap Z go_type) (mapValueTypes : gmap (string * string) go_type).
Context (range : gmap Key (list Z) -> list (Key * list Z)).
Hypothesis range_spec : forall m, range m ≡ₚ map_to_list m.
Hypothesis params_ok : forall k t, subCommandParams !! k = Some t -> one_subCommand t = true.
Hypothesis values_ok : forall k t, mapValueTypes !! k = Some t -> one_subCommand t = true.

Lemma render_entry_returns f mapType path depth n e :
  Forall is_byte (e_valueCBOR e) ->
  M_returns (f (e_valueCBOR e) (entry_schema subCommandParams mapValueTypes mapType path n e)
               (fieldPath path (e_field e))) ->
  M_returns (render_entry diagnose subCommandParams mapValueTypes f mapType path depth n e).
Proof using diagnose_ok HL.
  intros Hb Hf. unfold render_entry.
  apply M_returns_bind.
  { apply M_returns_lift. unfold entry_comment. by repeat case_match. }
  intros comment. apply M_returns_bind; [by apply M_returns_lift|].
  intros keyNotation. apply M_returns_bind.
  { unfold redacted_value. destruct (e_field e) as [fd|]; [|apply M_returns_ret].
    destruct (df_redact fd); [|apply M_returns_ret].
    apply M_returns_bind; [by apply M_returns_lift, redactedNotation_returns|].
    intros notation st. done. }
  intros valueNotation. apply M_returns_bind; [|intros; apply M_returns_ret].
  case_bool_decide; [|apply M_returns_ret].
  apply M_returns_bind; [done|]. intros [notation ?]. apply M_returns_ret.
Qed.

Lemma render_returns n : forall raw schema path depth,
  Forall is_byte raw -> (length raw <= n)%nat -> one_subCommand_schema schema ->
  M_returns (render diagnose subCommandParams mapValueTypes range n raw schema path depth).
Proof using All.
  induction n as [|n IH]; intros [|h r] schema path depth Hb Hl Hs; try done; [simpl in Hl; lia|].
  destruct (Z.eq_dec (majorType h) 4) as [E4|E4]; [|destruct (Z.eq_dec (majorType h) 5) as [E5|E5]].
  - rewrite render_array by done. intros st. unfold mbind, M_bind, lift.
    pose proof (array_returns (h :: r)) as Ha.
    destruct (Unmarshal_array (h :: r)) as [vs| | |] eqn:Hvs; try done.
    assert (Hvals : Forall (fun v => M_returns (render diagnose subCommandParams mapValueTypes range n v
              (collectionElementType schema) path (depth + 1))) vs).
    { apply Forall_forall. intros v Hv. pose proof (array_inside _ _ _ Hvs Hv) as Hi.
      pose proof (inside_length _ _ Hi). apply IH; [by eapply inside_bytes|lia|by apply one_subCommand_collection]. }
    apply (render_elements_returns (fun v => render diagnose subCommandParams mapValueTypes range n v
              (collectionElementType schema) path (depth + 1)) depth) in Hvals.
    destruct vs; [done|]. apply M_returns_bind; [done|]. intros ?. apply M_returns_ret.
  - rewrite render_map by done. unfold renderMap. intros st. unfold mbind, M_bind, lift.
    pose proof (map_returns (h :: r)) as Hmr.
    destruct (Unmarshal_map (h :: r)) as [m| | |] eqn:Hm; try done.
    pose proof (fields_returns schema path) as Hfr.
    destruct (fields schema path) as [fs| | |] eqn:Hfs; try done.
    destruct (fields_one schema path fs Hs Hfs) as [Hone Htypes].
    destruct (collect_entries_range _ m fs range Hm Hone (range_spec m)) as (es & sub & Hes & _ & Hall & _).
    rewrite Hes.
    assert (Hentries : M_returns (render_entries (render_entry diagnose subCommandParams mapValueTypes
        (fun value childSchema childPath => render diagnose subCommandParams mapValueTypes range n value
           childSchema childPath (depth + 1)) (mapElementType schema) path depth sub) depth
        (merge_sort entry_le es))).
    { apply render_entries_returns. rewrite merge_sort_Permutation.
      eapply Forall_impl; [exact Hall|]. intros e (Hk & Hmk & Hf).
      pose proof (map_inside _ _ _ _ Hm Hk) as Hi. pose proof (inside_length _ _ Hi).
      apply render_entry_returns; [by eapply inside_bytes|].
      apply IH; [by eapply inside_bytes|lia|by eapply entry_schema_one]. }
    destruct (merge_sort entry_le es); [done|]. apply M_returns_bind; [done|]. intros ?. apply M_returns_ret.
  - rewrite render_leaf by done. apply M_returns_bind; [by apply M_returns_lift|].
    intros ?. apply M_returns_ret.
Qed.
End RenderReturns.

(** ** The schemas of the commands *)

Definition values_one {K} `{Countable K} (m : gmap K go_type) : bool :=
  forallb (fun kt => one_subCommand kt.2) (map_to_list m).
Definition schema_one (schema : option go_type) : bool :=
  match schema with Some t => one_subCommand t | None => true end.
Definition exchange_one (s : diagnosticExchangeSchema) : bool :=
  schema_one (requestType s) && schema_one (responseType s) &&
  values_one (requestSubCommandParams s) && values_one (responseMapValueTypes s).

Lemma values_one_lookup {K} `{Countable K} (m : gmap K go_type) k t :
  values_one m = true -> m !! k = Some t -> one_subCommand t = true.
Proof.
  intros Hm Hk%elem_of_map_to_list. unfold values_one in Hm. rewrite forallb_forall in Hm.
  apply (Hm (k, t)). by apply list_elem_of_In.
Qed.

Lemma diagnosticExchangeSchemas_one :
  forallb (fun s => exchange_one s.2) (map_to_list diagnosticExchangeSchemas) = true.
Proof. by vm_compute. Qed.

Definition message_one (s : diagnosticMessageSchema) : Prop :=
  one_subCommand_schema (typeInfo s) /\
  (forall k t, ms_subCommandParams s !! k = Some t -> one_subCommand t = true) /\
  (forall k t, ms_mapValueTypes s !! k = Some t -> one_subCommand t = true).

Lemma exchangeSchemas_one command :
  message_one (exchangeSchemas command).1 /\ message_one (exchangeSchemas command).2.
Proof.
  unfold exchangeSchemas, message_one.
  destruct (diagnosticExchangeSchemas !! command) as [s|] eqn:E; cbn.
  2: { split_and!; try done; intros k t Hk; by rewrite lookup_empty in Hk. }
  pose proof diagnosticExchangeSchemas_one as Hall. rewrite forallb_forall in Hall.
  specialize (Hall (command, s)). simpl in Hall.
  assert (Hs : exchange_one s = true) by (apply Hall, list_elem_of_In; by apply elem_of_map_to_list).
  unfold exchange_one in Hs. repeat (apply andb_true_iff in Hs as [Hs ?]).
  split_and!; try (intros k t Hk; by rewrite lookup_empty in Hk); try (intros k t; by apply values_one_lookup).
  - by destruct (requestType s).
  - by destruct (responseType s).
Qed.

(** ** Events *)

(** Two messages that differ only in redacted values. *)
Definition same_message `{DiagnosticCodec} (schema : diagnosticMessageSchema) (raw raw' : list Z) : Prop :=
  redacted_equal (ms_subCommandParams schema) (ms_mapValueTypes schema) (typeInfo schema) "" raw raw'.

(** A message, and an event, of other sizes. *)
Definition resize (m : Message) (n : Z) : Message :=
  MkMessage (Notation_ m) n (RedactedFields m) (Error_ m).
Definition resize_event (e : Exchange) (request response : Z) : Exchange :=
  MkExchange (StartedAt e) (Duration e) (Command e) (SubCommand e) (resize (Request e) request)
    (resize (Response e) response) (Status e) (ExchangeErr e).

Section Events.
Context `{HL : DiagnosticLaws}.
Context (Error : error -> string).

Lemma same_message_nil schema raw raw' : same_message schema raw raw' -> raw = [] <-> raw' = [].
Proof. unfold same_message. by inversion 1. Qed.

Lemma renderDiagnostic_spec range range' schema raw :
  (forall m, range m ≡ₚ map_to_list m) -> (forall m, range' m ≡ₚ map_to_list m) -> message_one schema ->
  Forall is_byte raw ->
  exists m sub, renderDiagnostic range Error raw schema = Ok (m, sub) /\
    forall raw', same_message schema raw raw' ->
      renderDiagnostic range' Error raw' schema = Ok (resize m (len raw'), sub).
Proof.
  intros Hr Hr' (Hs & Hp & Hv) Hb. unfold renderDiagnostic.
  assert (Hnil : forall raw', same_message schema raw raw' -> raw' = [] <-> raw = []).
  { intros raw' Hraw. symmetry. by eapply same_message_nil. }
  assert (Hbytes : forall raw', same_message schema raw raw' ->
    bool_decide (raw' = []) = bool_decide (raw = [])).
  { intros raw' Hraw. by apply bool_decide_ext, Hnil. }
  case_bool_decide as Enil.
  { eexists _, _. split; [done|]. intros raw' Hraw. rewrite Hbytes by done.
    by rewrite (proj2 (Hnil raw' Hraw) Enil). }
  pose proof mode_returns as Hmode. destruct DiagMode as [diagnose|err| |] eqn:Emode; try done.
  2: { eexists _, _. split; [done|]. intros raw' Hraw. rewrite Hbytes by done.
    done. }
  pose proof (render_returns diagnose (fun raw => diagnose_returns diagnose raw Emode) _ _ range Hr Hp Hv
    (length raw) raw (typeInfo schema) "" 0 Hb ltac:(lia) Hs []) as Hret.
  assert (Hsame : forall raw', same_message schema raw raw' ->
    render diagnose (ms_subCommandParams schema) (ms_mapValueTypes schema) range'
      (length raw') raw' (typeInfo schema) "" 0 [] =
    render diagnose (ms_subCommandParams schema) (ms_mapValueTypes schema) range
      (length raw) raw (typeInfo schema) "" 0 []).
  { intros raw' Hraw. symmetry. by apply render_redacted. }
  destruct (render _ _ _ _ _ _ _ _ _ _) as [[[notation sub]|err| |] redacted]; try done.
  - eexists _, _. split; [done|]. intros raw' Hraw. rewrite Hbytes by done.
    by rewrite Hsame.
  - eexists _, _. split; [done|]. intros raw' Hraw. rewrite Hbytes by done.
    by rewrite Hsame.
Qed.

Lemma diagnosticEvent_spec range range' started duration command body response err :
  (forall m, range m ≡ₚ map_to_list m) -> (forall m, range' m ≡ₚ map_to_list m) ->
  Forall is_byte body -> Forall is_byte (Data response) ->
  exists e, diagnosticEvent range Error started duration (command :: body) response err = Ok e /\
    forall body' response', same_message (exchangeSchemas command).1 body body' ->
      same_message (exchangeSchemas command).2 (Data response) (Data response') ->
      StatusCode response' = StatusCode response ->
      diagnosticEvent range' Error started duration (command :: body') response' err =
        Ok (resize_event e (len body') (len (Data response'))).
Proof.
  intros Hr Hr' Hb Hd. destruct (exchangeSchemas_one command) as [Hone1 Hone2].
  unfold diagnosticEvent. destruct (exchangeSchemas command) as [s1 s2]. simpl in Hone1, Hone2 |- *.
  destruct (renderDiagnostic_spec range range' s1 body Hr Hr' Hone1 Hb) as (m1 & sub & -> & H1').
  destruct (renderDiagnostic_spec range range' s2 (Data response) Hr Hr' Hone2 Hd) as (m2 & sub2 & -> & H2').
  simpl. eexists. split; [done|]. intros body' response' Hs1 Hs2 Hstatus.
  rewrite (H1' _ Hs1). simpl. rewrite (H2' _ Hs2). simpl. unfold resize_event, exchangeStatus. simpl.
  by rewrite Hstatus.
Qed.

Lemma exchange_observed {W} range (sink : Exchange -> M W unit) (CBOR : list Z -> M W CBORResponse)
    started duration data w :
  (forall m, range m ≡ₚ map_to_list m) -> Forall is_byte data ->
  (forall r w', CBOR data w = (Ok r, w') -> Forall is_byte (Data r)) ->
  (forall e w, (sink e w).1 = Ok tt) -> returns (CBOR data w).1 ->
  exists e, exchange (Some (emitDiagnostic range Error sink started duration)) CBOR data w =
    ((CBOR data w).1, (sink e (CBOR data w).2).2).
Proof.
  intros Hr Hb Hresp Hsink Hret. unfold exchange, mbind, M_bind, try_.
  destruct (CBOR data w) as [r w1] eqn:Er. simpl in Hret |- *.
  assert (Hevent : forall response err, Forall is_byte (Data response) ->
    exists e, diagnosticEvent range Error started duration data response err = Ok e).
  { intros response err Hd. destruct data as [|command body].
    - destruct (exchangeSchemas_one 0) as [Hone1 Hone2].
      destruct (renderDiagnostic_spec range range (exchangeSchemas 0).1 [] Hr Hr Hone1 Hb) as (m1 & sub & Hm1 & _).
      destruct (renderDiagnostic_spec range range (exchangeSchemas 0).2 (Data response) Hr Hr Hone2 Hd)
        as (m2 & sub2 & Hm2 & _).
      unfold diagnosticEvent. destruct (exchangeSchemas 0) as [s1 s2]. simpl in Hm1, Hm2.
      rewrite Hm1. simpl. rewrite Hm2. simpl. eauto.
    - apply Forall_cons in Hb as [_ Hb].
      destruct (diagnosticEvent_spec range range started duration command body response err Hr Hr Hb Hd)
        as (e & He & _). eauto. }
  destruct r as [response|err| |]; try done.
  - destruct (Hevent response None (Hresp _ _ eq_refl)) as [e He]. exists e.
    unfold emitDiagnostic, mbind, M_bind, lift. rewrite He.
    specialize (Hsink e w1). by destruct (sink e w1) as [? w2]; simpl in Hsink |- *; subst.
  - destruct (Hevent (MkCBORResponse 0 []) (Some err)) as [e He]; [by constructor|]. exists e.
    unfold emitDiagnostic, mbind, M_bind, lift. rewrite He.
    specialize (Hsink e w1). by destruct (sink e w1) as [? w2]; simpl in Hsink |- *; subst.
Qed.

(** C22. Diagnostics keep what is redacted from the sink. Every exchange gives
    an event - rendering its messages never panics and always ends - and two
    exchanges of a command that differ only in redacted values, as [same_message]
    says for its schemas, give the same event but for the sizes, in whatever
    order Go ranges over the decoded maps. With a sink that returns, the client
    hands it exactly one event and returns what it returns without it. *)
Theorem diagnostics_redacted range range' :
  (forall m, range m ≡ₚ map_to_list m) -> (forall m, range' m ≡ₚ map_to_list m) ->
  (forall started duration command body response err,
     Forall is_byte body -> Forall is_byte (Data response) ->
     exists e, diagnosticEvent range Error started duration (command :: body) response err = Ok e /\
       forall body' response', same_message (exchangeSchemas command).1 body body' ->
         same_message (exchangeSchemas command).2 (Data response) (Data response') ->
         StatusCode response' = StatusCode response ->
         diagnosticEvent range' Error started duration (command :: body') response' err =
           Ok (resize_event e (len body') (len (Data response')))) /\
  (forall W (sink : Exchange -> M W unit) (CBOR : list Z -> M W CBORResponse) started duration data w,
     Forall is_byte data -> (forall r w', CBOR data w = (Ok r, w') -> Forall is_byte (Data r)) ->
     (forall e w, (sink e w).1 = Ok tt) -> returns (CBOR data w).1 ->
     exists e, exchange (Some (emitDiagnostic range Error sink started duration)) CBOR data w =
       ((CBOR data w).1, (sink e (CBOR data w).2).2)).
Proof.
  intros Hr Hr'. split.
  - intros. by apply diagnosticEvent_spec.
  - intros. by apply exchange_observed.
Qed.
End Events.

(** ** A codec for the samples

    CBOR items of definite length with arguments of at most two bytes; the
    keys of a decoded map are the encoded keys, and the notation of an item
    is the list of its bytes. *)
Module Sample.

(** The major type, the argument and the length of a head. *)
Definition head (raw : list Z) : option (Z * Z * nat) :=
  match raw with
  | [] => None
  | h :: r =>
      let info := Z.land h 31 in
      if info <? 24 then Some (majorType h, info, 1%nat)
      else match r with
           | a :: r' =>
               if info =? 24 then Some (majorType h, a, 2%nat)
               else match r' with
                    | b :: _ => if info =? 25 then Some (majorType h, get_be16 a b, 3%nat) else None
                    | [] => None
                    end
           | [] => None
           end
  end.

(** [count] items off the front, each as long as [item_length] says. *)
Fixpoint take_items (item_length : list Z -> option nat) (count : nat) (raw : list Z)
    : option (list (list Z) * list Z) :=
  match count with
  | O => Some ([], raw)
  | S count' =>
      n ← item_length raw;
      '(items, rest) ← take_items item_length count' (drop n raw);
      Some (take n raw :: items, rest)
  end.

Fixpoint item_length (fuel : nat) (raw : list Z) : option nat :=
  match fuel with
  | O => None
  | S fuel' =>
      '(major, arg, n) ← head raw;
      let children count :=
        '(items, _) ← take_items (item_length fuel') count (drop n raw);
        Some (n + length (concat items))%nat in
      if (major =? 2) || (major =? 3) then Some (n + Z.to_nat arg)%nat
      else if major =? 4 then children (Z.to_nat arg)
      else if major =? 5 then children (2 * Z.to_nat arg)%nat
      else if major =? 6 then children 1%nat
      else Some n
  end.

(** The items after a head of the given major type, and its argument. *)
Definition content (major : Z) (count : Z -> nat) (raw : list Z) : option (Z * list (list Z)) :=
  '(m, arg, n) ← head raw;
  if m =? major then
    '(items, rest) ← take_items (item_length (length raw)) (count arg) (drop n raw);
    if bool_decide (rest = []) then Some (arg, items) else None
  else None.

Fixpoint pairs (items : list (list Z)) : list (list Z * list Z) :=
  match items with
  | key :: value :: items' => (key, value) :: pairs items'
  | _ => []
  end.

Definition CBORError : error := EForeign 7.
Definition of_option {A} (o : option A) : result A :=
  match o with Some a => Ok a | None => Err CBORError end.

Definition encode_head (major n : Z) : list Z :=
  if n <? 24 then [32 * major + n] else [32 * major + 24; n].

#[export] Instance codec : DiagnosticCodec := {|
  Key := list Z;
  key_string := fun key => Some (String.string_of_list_ascii
    ((fun z => Ascii.ascii_of_nat (Z.to_nat z)) <$> drop 1 key));
  Marshal_key := fun key => Ok key;
  Marshal_string := fun s => Ok (encode_head 3 (Z.of_nat (String.length s)) ++ bytes_of_string s);
  Marshal_int64 := fun z => Ok (if z <? 0 then encode_head 1 (-1 - z) else encode_head 0 z);
  Unmarshal_array := fun raw => of_option (snd <$> content 4 Z.to_nat raw);
  Unmarshal_map := fun raw => of_option
    ((fun c => list_to_map (reverse (pairs c.2))) <$> content 5 (fun n => (2 * Z.to_nat n)%nat) raw);
  Unmarshal_tag := fun raw => of_option
    (c ← content 6 (fun _ => 1%nat) raw;
     match c.2 with [item] => Some (c.1, item) | _ => None end);
  Unmarshal_uint64 := fun raw => of_option
    ('(m, arg, _) ← head raw; if m =? 0 then Some arg else None);
  DiagMode := Ok (fun raw => Ok (foldr (fun b s => pretty b +:+ " " +:+ s) "" raw)) |}.

Lemma take_items_concat f count raw items rest :
  take_items f count raw = Some (items, rest) -> raw = concat items ++ rest.
Proof.
  revert raw items rest. induction count as [|count IH]; intros raw items rest; simpl.
  { by intros [= <- <-]. }
  destruct (f raw) as [n|]; [|done]. simpl.
  destruct (take_items f count (drop n raw)) as [[items' rest']|] eqn:E; [|done].
  simpl. intros [= <- <-]. apply IH in E. rewrite concat_cons, <- app_assoc, <- E.
  by rewrite take_drop.
Qed.

Lemma content_inside major count raw arg items item :
  content major count raw = Some (arg, items) -> item ∈ items -> inside item raw.
Proof.
  unfold content. destruct (head raw) as [[[m a] n]|] eqn:Eh; [|done]. simpl.
  destruct (m =? major); [|done].
  destruct (take_items _ _ _) as [[items' rest]|] eqn:E; [|done]. simpl.
  case_bool_decide; [|done]. intros [= <- <-] Hin. apply take_items_concat in E.
  apply list_elem_of_split in Hin as (l1 & l2 & ->).
  exists (take n raw ++ concat l1), (concat l2 ++ rest). split.
  - destruct raw as [|h r]; [done|]. destruct n as [|n]; [|done].
    simpl in Eh. by repeat case_match.
  - rewrite <- (take_drop n raw) at 1. rewrite E, concat_app, concat_cons. by rewrite <- !(assoc_L (++)).
Qed.

Lemma pairs_elem items key value : (key, value) ∈ pairs items -> value ∈ items.
Proof.
  remember (length items) as n eqn:En. revert items En. induction (lt_wf n) as [n _ IH].
  intros [|k [|v items]] ->; simpl; try by intros []%elem_of_nil.
  intros [[= -> ->]|Hin]%elem_of_cons; [right; left|]. right. right.
  by apply (IH (length items) ltac:(simpl; lia) items).
Qed.

Lemma of_option_returns {A} (o : option A) : returns (of_option o).
Proof. by destruct o. Qed.

#[export] Instance laws : DiagnosticLaws.
Proof.
  split; try (intros; apply of_option_returns); try done.
  - intros raw m k v _ _. by exists k.
  - intros raw m k k' b _ _ _ [= ->] [= ->]. done.
  - intros raw vs v Hvs Hv. cbn in Hvs. destruct (content 4 _ raw) as [[arg items]|] eqn:E; [|done].
    injection Hvs as <-. by eapply content_inside.
  - intros raw m k v Hm Hk. cbn in Hm. destruct (content 5 _ raw) as [[arg items]|] eqn:E; [|done].
    injection Hm as <-. apply elem_of_list_to_map_2 in Hk. rewrite elem_of_reverse in Hk.
    apply pairs_elem in Hk. by eapply content_inside.
  - intros raw n v Ht. cbn in Ht. destruct (content 6 _ raw) as [[arg items]|] eqn:E; [|done].
    simpl in Ht. destruct items as [|item [|]]; try done. injection Ht as <- <-.
    eapply content_inside; [done|left].
  - by intros diagnose raw [= <-].
Qed.

(** getPinUvAuthToken with a PIN, under two PIN hashes and two tokens. *)
Definition request_map (pinHashEnc : list Z) : gmap (list Z) (list Z) :=
  <[[1] := [1]]> (<[[2] := [5]]> {[ [6] := pinHashEnc ]}).
Definition request (pinHashEnc : list Z) : list Z := [0xa3; 1; 1; 2; 5; 6] ++ pinHashEnc.
Definition response (token : list Z) : list Z := [0xa1; 2] ++ token.

Definition hash1 : list Z := [0x42; 10; 11].
Definition hash2 : list Z := [0x43; 12; 13; 14].
Definition token1 : list Z := [0x42; 0xaa; 0xbb].
Definition token2 : list Z := [0x41; 0xcc].

Definition client_fields (t : go_type) : gmap (list Z) diagnosticField :=
  match fields (Some t) "" with Ok fs => fs | _ => ∅ end.

Lemma request_values pinHashEnc k v : request_map pinHashEnc !! k = Some v ->
  (k = [1] /\ v = [1]) \/ (k = [2] /\ v = [5]) \/ (k = [6] /\ v = pinHashEnc).
Proof.
  unfold request_map. rewrite !lookup_insert_Some, lookup_singleton_Some. naive_solver.
Qed.

Lemma request_subCommand pinHashEnc :
  subCommand_of (request_map pinHashEnc) (client_fields AuthenticatorClientPINRequest_type) 5.
Proof. left. exists [2], [2], [5]. by split_and!. Qed.

Lemma same_request : same_message (exchangeSchemas 6).1 (request hash1) (request hash2).
Proof.
  eapply (@re_map codec _ _ _ _ 0xa3 0xa3 _ _ (request_map hash1) (request_map hash2)
    (client_fields AuthenticatorClientPINRequest_type) 5);
    [done|done|by vm_compute|by vm_compute| |by vm_compute|..].
  - intros k. unfold request_map, is_Some. setoid_rewrite lookup_insert_Some.
    setoid_rewrite lookup_insert_Some. setoid_rewrite lookup_singleton_Some.
    destruct (decide ([1] = k)); [naive_solver|]. destruct (decide ([2] = k)); naive_solver.
  - apply request_subCommand.
  - apply request_subCommand.
  - intros k b v v' Hv Hv' [= <-] Hred.
    apply request_values in Hv as [[-> ->]|[[-> ->]|[-> ->]]]; [by vm_compute in Hred..|].
    apply request_values in Hv' as [[? _]|[[? _]|[_ ->]]]; try done. right. by apply shape_head.
  - intros k b v v' Hv Hv' [= <-] Hred.
    apply request_values in Hv as [[-> ->]|[[-> ->]|[-> ->]]]; [..|by vm_compute in Hred];
      apply request_values in Hv' as [[? ->]|[[? ->]|[? _]]]; try done; constructor.
Qed.

Lemma same_response : same_message (exchangeSchemas 6).2 (response token1) (response token2).
Proof.
  eapply (@re_map codec _ _ _ _ 0xa1 0xa1 _ _ {[ [2] := token1 ]} {[ [2] := token2 ]}
    (client_fields AuthenticatorClientPINResponse_type) 0);
    [done|done|by vm_compute|by vm_compute| |by vm_compute|..].
  - intros k. unfold is_Some. setoid_rewrite lookup_singleton_Some. naive_solver.
  - right. split; [done|]. intros k b v [<- <-]%lookup_singleton_Some [= <-]. by vm_compute.
  - right. split; [done|]. intros k b v [<- <-]%lookup_singleton_Some [= <-]. by vm_compute.
  - intros k b v v' [<- <-]%lookup_singleton_Some [_ <-]%lookup_singleton_Some _ _.
    right. by apply shape_head.
  - intros k b v v' [<- <-]%lookup_singleton_Some _ [= <-] Hred. by vm_compute in Hred.
Qed.

Definition error_text (e : error) : string := "error".
Definition event (range : gmap (list Z) (list Z) -> list (list Z * list Z)) (body data : list Z)
    : result Exchange :=
  diagnosticEvent range error_text 0 0 (AuthenticatorClientPIN :: body) (MkCBORResponse 0 data) None.
Definition backwards (m : gmap (list Z) (list Z)) : list (list Z * list Z) := reverse (map_to_list m).

Lemma backwards_spec m : backwards m ≡ₚ map_to_list m.
Proof. apply reverse_Permutation. Qed.

(** A CBOR tag before the message hides its fields from the renderer: the
    token of a tagged response, which decoders that ignore tags accept, is in
    the event. *)
Example tagged_message_shown :
  Notation_ ∘ Response <$> event map_to_list [] (0xc1 :: response token1) = Ok "193 161 2 66 170 187 " /\
  Notation_ ∘ Response <$> event map_to_list [] (0xc1 :: response token2) = Ok "193 161 2 65 204 ".
Proof. split; by vm_compute. Qed.
End Sample.

Lemma diagnostics_redacted_witness :
  exists e, Sample.event map_to_list (Sample.request Sample.hash1) (Sample.response Sample.token1) = Ok e /\
    Sample.event Sample.backwards (Sample.request Sample.hash2) (Sample.response Sample.token2) =
      Ok (resize_event e 10 4).
Proof.
  destruct (@diagnostics_redacted Sample.codec Sample.laws Sample.error_text map_to_list Sample.backwards (fun m => reflexivity _)
    Sample.backwards_spec) as [Hevents _].
  destruct (Hevents 0 0 AuthenticatorClientPIN (Sample.request Sample.hash1)
    (MkCBORResponse 0 (Sample.response Sample.token1)) None) as (e & He & Hsame);
    [by apply (bool_decide_unpack _); vm_compute..|].
  exists e. split; [exact He|].
  apply (Hsame (Sample.request Sample.hash2) (MkCBORResponse 0 (Sample.response Sample.token2)));
    [exact Sample.same_request|exact Sample.same_response|reflexivity].
Defined.
