(* ===== verification/Names.v ===== *)
(** * Names of commands, subcommands and codes (src/protocol/names.go,
      enrollment_feedback.go, src/transport/status_names.go and the files
      stringer generates: src/protocol/consts_string.go,
      src/transport/status_string.go, src/transport/ctaphid/consts_string.go)

    A generated [String] method cuts the identifier of a constant out of one
    long string by a table of offsets; the [Name] methods give the name the
    specification has. The tables are checked against the constants. *)
From S2P Require Import Prelude GoError Protocol Messages Preflight Diagnostic.
#[local] Open Scope Z_scope.

(** ** Constants *)

Definition find_key {A} (table : list (Z * A)) (key : Z) : option A :=
  snd <$> List.find (fun kv => kv.1 =? key) table.

Definition ConfigSubCommandVendorPrototype : Z := 0xff.

Definition Command_constants : list (Z * string) := [
  (1, "AuthenticatorMakeCredential");
  (2, "AuthenticatorGetAssertion");
  (8, "AuthenticatorGetNextAssertion");
  (4, "AuthenticatorGetInfo");
  (6, "AuthenticatorClientPIN");
  (7, "AuthenticatorReset");
  (9, "AuthenticatorBioEnrollment");
  (0xa, "AuthenticatorCredentialManagement");
  (0xb, "AuthenticatorSelection");
  (0xc, "AuthenticatorLargeBlobs");
  (0xd, "AuthenticatorConfig");
  (0x40, "PrototypeAuthenticatorBioEnrollment");
  (0x41, "PrototypeAuthenticatorCredentialManagement")].

Definition ClientPINSubCommand_constants : list (Z * string) := [
  (1, "ClientPINSubCommandGetPINRetries");
  (2, "ClientPINSubCommandGetKeyAgreement");
  (3, "ClientPINSubCommandSetPIN");
  (4, "ClientPINSubCommandChangePIN");
  (5, "ClientPINSubCommandGetPinToken");
  (6, "ClientPINSubCommandGetPinUvAuthTokenUsingUvWithPermissions");
  (7, "ClientPINSubCommandGetUVRetries");
  (9, "ClientPINSubCommandGetPinUvAuthTokenUsingPinWithPermissions")].

Definition BioEnrollmentSubCommand_constants : list (Z * string) := [
  (1, "BioEnrollmentSubCommandEnrollBegin");
  (2, "BioEnrollmentSubCommandEnrollCaptureNextSample");
  (3, "BioEnrollmentSubCommandCancelCurrentEnrollment");
  (4, "BioEnrollmentSubCommandEnumerateEnrollments");
  (5, "BioEnrollmentSubCommandSetFriendlyName");
  (6, "BioEnrollmentSubCommandRemoveEnrollment");
  (7, "BioEnrollmentSubCommandGetFingerprintSensorInfo")].

Definition CredentialManagementSubCommand_constants : list (Z * string) := [
  (1, "CredentialManagementSubCommandGetCredsMetadata");
  (2, "CredentialManagementSubCommandEnumerateRPsBegin");
  (3, "CredentialManagementSubCommandEnumerateRPsGetNextRP");
  (4, "CredentialManagementSubCommandEnumerateCredentialsBegin");
  (5, "CredentialManagementSubCommandEnumerateCredentialsGetNextCredential");
  (6, "CredentialManagementSubCommandDeleteCredential");
  (7, "CredentialManagementSubCommandUpdateUserInformation")].

Definition ConfigSubCommand_constants : list (Z * string) := [
  (1, "ConfigSubCommandEnableEnterpriseAttestation");
  (2, "ConfigSubCommandToggleAlwaysUv");
  (3, "ConfigSubCommandSetMinPINLength");
  (4, "ConfigSubCommandEnableLongTouchForReset")].

Definition StatusCode_constants : list (Z * string) := [
  (0, "CTAP2_OK");
  (1, "CTAP1_ERR_INVALID_COMMAND");
  (2, "CTAP1_ERR_INVALID_PARAMETER");
  (3, "CTAP1_ERR_INVALID_LENGTH");
  (4, "CTAP1_ERR_INVALID_SEQ");
  (5, "CTAP1_ERR_TIMEOUT");
  (6, "CTAP1_ERR_CHANNEL_BUSY");
  (0xa, "CTAP1_ERR_LOCK_REQUIRED");
  (0xb, "CTAP1_ERR_INVALID_CHANNEL");
  (0x11, "CTAP2_ERR_CBOR_UNEXPECTED_TYPE");
  (0x12, "CTAP2_ERR_INVALID_CBOR");
  (0x14, "CTAP2_ERR_MISSING_PARAMETER");
  (0x15, "CTAP2_ERR_LIMIT_EXCEEDED");
  (0x17, "CTAP2_ERR_FP_DATABASE_FULL");
  (0x18, "CTAP2_ERR_LARGE_BLOB_STORAGE_FULL");
  (0x19, "CTAP2_ERR_CREDENTIAL_EXCLUDED");
  (0x21, "CTAP2_ERR_PROCESSING");
  (0x22, "CTAP2_ERR_INVALID_CREDENTIAL");
  (0x23, "CTAP2_ERR_USER_ACTION_PENDING");
  (0x24, "CTAP2_ERR_OPERATION_PENDING");
  (0x25, "CTAP2_ERR_NO_OPERATIONS");
  (0x26, "CTAP2_ERR_UNSUPPORTED_ALGORITHM");
  (0x27, "CTAP2_ERR_OPERATION_DENIED");
  (0x28, "CTAP2_ERR_KEY_STORE_FULL");
  (0x2b, "CTAP2_ERR_UNSUPPORTED_OPTION");
  (0x2c, "CTAP2_ERR_INVALID_OPTION");
  (0x2d, "CTAP2_ERR_KEEPALIVE_CANCEL");
  (0x2e, "CTAP2_ERR_NO_CREDENTIALS");
  (0x2f, "CTAP2_ERR_USER_ACTION_TIMEOUT");
  (0x30, "CTAP2_ERR_NOT_ALLOWED");
  (0x31, "CTAP2_ERR_PIN_INVALID");
  (0x32, "CTAP2_ERR_PIN_BLOCKED");
  (0x33, "CTAP2_ERR_PIN_AUTH_INVALID");
  (0x34, "CTAP2_ERR_PIN_AUTH_BLOCKED");
  (0x35, "CTAP2_ERR_PIN_NOT_SET");
  (0x36, "CTAP2_ERR_PUAT_REQUIRED");
  (0x37, "CTAP2_ERR_PIN_POLICY_VIOLATION");
  (0x38, "RESERVED_FOR_FUTURE_USE");
  (0x39, "CTAP2_ERR_REQUEST_TOO_LARGE");
  (0x3a, "CTAP2_ERR_ACTION_TIMEOUT");
  (0x3b, "CTAP2_ERR_UP_REQUIRED");
  (0x3c, "CTAP2_ERR_UV_BLOCKED");
  (0x3d, "CTAP2_ERR_INTEGRITY_FAILURE");
  (0x3e, "CTAP2_ERR_INVALID_SUBCOMMAND");
  (0x3f, "CTAP2_ERR_UV_INVALID");
  (0x40, "CTAP2_ERR_UNAUTHORIZED_PERMISSION");
  (0x7f, "CTAP1_ERR_OTHER");
  (0xdf, "CTAP2_ERR_SPEC_LAST");
  (0xe0, "CTAP2_ERR_EXTENSION_FIRST");
  (0xef, "CTAP2_ERR_EXTENSION_LAST");
  (0xf0, "CTAP2_ERR_VENDOR_FIRST");
  (0xff, "CTAP2_ERR_VENDOR_LAST")].

Definition HIDCommand_constants : list (Z * string) := [
  (3, "CTAPHID_MSG");
  (0x10, "CTAPHID_CBOR");
  (6, "CTAPHID_INIT");
  (1, "CTAPHID_PING");
  (0x11, "CTAPHID_CANCEL");
  (0x3f, "CTAPHID_ERROR");
  (0x3b, "CTAPHID_KEEPALIVE");
  (8, "CTAPHID_WINK");
  (4, "CTAPHID_LOCK");
  (0x40, "CTAPHID_VENDOR_FIRST");
  (0x7f, "CTAPHID_VENDOR_LAST")].

Definition CapabilityFlag_constants : list (Z * string) := [
  (1, "CAPABILITY_WINK");
  (2, "CAPABILITY_LOCK");
  (4, "CAPABILITY_CBOR");
  (8, "CAPABILITY_NMSG")].

Definition Error_constants : list (Z * string) := [
  (1, "ERR_INVALID_CMD");
  (2, "ERR_INVALID_PAR");
  (3, "ERR_INVALID_LEN");
  (4, "ERR_INVALID_SEQ");
  (5, "ERR_MSG_TIMEOUT");
  (6, "ERR_CHANNEL_BUSY");
  (0xa, "ERR_LOCK_REQUIRED");
  (0xb, "ERR_INVALID_CHANNEL");
  (0x7f, "ERR_OTHER")].

Definition KeepaliveStatusCode_constants : list (Z * string) := [
  (1, "STATUS_PROCESSING");
  (2, "STATUS_UPNEEDED")].

(** ** The generated methods *)

(** Go's [s[lo:hi]] and the elements of an index table, which panic out of
    range. *)
Definition slice_string (s : string) (lo hi : Z) : result string :=
  if (0 <=? lo) && (lo <=? hi) && (hi <=? Z.of_nat (String.length s))
  then Ok (String.substring (Z.to_nat lo) (Z.to_nat (hi - lo)) s) else Panic.
Definition table_at (table : list Z) (i : Z) : result Z :=
  if (0 <=? i) && (i <? len table) then Ok (nth (Z.to_nat i) table 0) else Panic.
Definition name_slice (name : string) (index : list Z) (i : Z) : result string :=
  table_at index i ≫= fun lo => table_at index (i + 1) ≫= fun hi => slice_string name lo hi.

(** The text of a value without a constant. *)
Definition unnamed (type : string) (i : Z) : string := type +:+ "(" +:+ pretty i +:+ ")".

Definition _Command_name_0 : string :=
  "AuthenticatorMakeCredentialAuthenticatorGetAssertion".
Definition _Command_name_1 : string :=
  "AuthenticatorGetInfo".
Definition _Command_name_2 : string :=
  "AuthenticatorClientPINAuthenticatorResetAuthenticatorGetNextAssertionAuthe" +:+
  "nticatorBioEnrollmentAuthenticatorCredentialManagementAuthenticatorSelecti" +:+
  "onAuthenticatorLargeBlobsAuthenticatorConfig".
Definition _Command_name_3 : string :=
  "PrototypeAuthenticatorBioEnrollmentPrototypeAuthenticatorCredentialManagem" +:+
  "ent".
Definition _ClientPINSubCommand_name_0 : string :=
  "ClientPINSubCommandGetPINRetriesClientPINSubCommandGetKeyAgreementClientPI" +:+
  "NSubCommandSetPINClientPINSubCommandChangePINClientPINSubCommandGetPinToke" +:+
  "nClientPINSubCommandGetPinUvAuthTokenUsingUvWithPermissionsClientPINSubCom" +:+
  "mandGetUVRetries".
Definition _ClientPINSubCommand_name_1 : string :=
  "ClientPINSubCommandGetPinUvAuthTokenUsingPinWithPermissions".
Definition _BioEnrollmentSubCommand_name : string :=
  "BioEnrollmentSubCommandEnrollBeginBioEnrollmentSubCommandEnrollCaptureNext" +:+
  "SampleBioEnrollmentSubCommandCancelCurrentEnrollmentBioEnrollmentSubComman" +:+
  "dEnumerateEnrollmentsBioEnrollmentSubCommandSetFriendlyNameBioEnrollmentSu" +:+
  "bCommandRemoveEnrollmentBioEnrollmentSubCommandGetFingerprintSensorInfo".
Definition _CredentialManagementSubCommand_name : string :=
  "CredentialManagementSubCommandGetCredsMetadataCredentialManagementSubComma" +:+
  "ndEnumerateRPsBeginCredentialManagementSubCommandEnumerateRPsGetNextRPCred" +:+
  "entialManagementSubCommandEnumerateCredentialsBeginCredentialManagementSub" +:+
  "CommandEnumerateCredentialsGetNextCredentialCredentialManagementSubCommand" +:+
  "DeleteCredentialCredentialManagementSubCommandUpdateUserInformation".
Definition _ConfigSubCommand_name : string :=
  "ConfigSubCommandEnableEnterpriseAttestationConfigSubCommandToggleAlwaysUvC" +:+
  "onfigSubCommandSetMinPINLengthConfigSubCommandEnableLongTouchForReset".
Definition _Command_index_0 : list Z := [0; 27; 52].
Definition _Command_index_2 : list Z := [0; 22; 40; 69; 95; 128; 150; 173; 192].
Definition _Command_index_3 : list Z := [0; 35; 77].
Definition _ClientPINSubCommand_index_0 : list Z := [0; 32; 66; 91; 119; 149; 207; 238].
Definition _BioEnrollmentSubCommand_index : list Z := [0; 34; 80; 126; 169; 207; 246; 293].
Definition _CredentialManagementSubCommand_index : list Z := [0; 46; 93; 144; 199; 266; 312; 363].
Definition _ConfigSubCommand_index : list Z := [0; 43; 73; 104; 143].

Definition Command_String (i : Z) : result string :=
  if (1 <=? i) && (i <=? 2) then name_slice _Command_name_0 _Command_index_0 (i - 1)
  else if i =? 4 then Ok _Command_name_1
  else if (6 <=? i) && (i <=? 13) then name_slice _Command_name_2 _Command_index_2 (i - 6)
  else if (64 <=? i) && (i <=? 65) then name_slice _Command_name_3 _Command_index_3 (i - 64)
  else Ok (unnamed "Command" i).

Definition ClientPINSubCommand_String (i : Z) : result string :=
  if (1 <=? i) && (i <=? 7) then name_slice _ClientPINSubCommand_name_0 _ClientPINSubCommand_index_0 (i - 1)
  else if i =? 9 then Ok _ClientPINSubCommand_name_1
  else Ok (unnamed "ClientPINSubCommand" i).

Definition BioEnrollmentSubCommand_String (i : Z) : result string :=
  let idx := i - 1 in
  if (i <? 1) || (len _BioEnrollmentSubCommand_index - 1 <=? idx) then
    Ok (unnamed "BioEnrollmentSubCommand" i)
  else name_slice _BioEnrollmentSubCommand_name _BioEnrollmentSubCommand_index idx.

Definition CredentialManagementSubCommand_String (i : Z) : result string :=
  let idx := i - 1 in
  if (i <? 1) || (len _CredentialManagementSubCommand_index - 1 <=? idx) then
    Ok (unnamed "CredentialManagementSubCommand" i)
  else name_slice _CredentialManagementSubCommand_name _CredentialManagementSubCommand_index idx.

Definition ConfigSubCommand_text (i : Z) : result string :=
  let idx := i - 1 in
  if (i <? 1) || (len _ConfigSubCommand_index - 1 <=? idx) then
    Ok (unnamed "ConfigSubCommand" i)
  else name_slice _ConfigSubCommand_name _ConfigSubCommand_index idx.

Definition _StatusCode_name : string :=
  "CTAP2_OKCTAP1_ERR_INVALID_COMMANDCTAP1_ERR_INVALID_PARAMETERCTAP1_ERR_INVA" +:+
  "LID_LENGTHCTAP1_ERR_INVALID_SEQCTAP1_ERR_TIMEOUTCTAP1_ERR_CHANNEL_BUSYCTAP" +:+
  "1_ERR_LOCK_REQUIREDCTAP1_ERR_INVALID_CHANNELCTAP2_ERR_CBOR_UNEXPECTED_TYPE" +:+
  "CTAP2_ERR_INVALID_CBORCTAP2_ERR_MISSING_PARAMETERCTAP2_ERR_LIMIT_EXCEEDEDC" +:+
  "TAP2_ERR_FP_DATABASE_FULLCTAP2_ERR_LARGE_BLOB_STORAGE_FULLCTAP2_ERR_CREDEN" +:+
  "TIAL_EXCLUDEDCTAP2_ERR_PROCESSINGCTAP2_ERR_INVALID_CREDENTIALCTAP2_ERR_USE" +:+
  "R_ACTION_PENDINGCTAP2_ERR_OPERATION_PENDINGCTAP2_ERR_NO_OPERATIONSCTAP2_ER" +:+
  "R_UNSUPPORTED_ALGORITHMCTAP2_ERR_OPERATION_DENIEDCTAP2_ERR_KEY_STORE_FULLC" +:+
  "TAP2_ERR_UNSUPPORTED_OPTIONCTAP2_ERR_INVALID_OPTIONCTAP2_ERR_KEEPALIVE_CAN" +:+
  "CELCTAP2_ERR_NO_CREDENTIALSCTAP2_ERR_USER_ACTION_TIMEOUTCTAP2_ERR_NOT_ALLO" +:+
  "WEDCTAP2_ERR_PIN_INVALIDCTAP2_ERR_PIN_BLOCKEDCTAP2_ERR_PIN_AUTH_INVALIDCTA" +:+
  "P2_ERR_PIN_AUTH_BLOCKEDCTAP2_ERR_PIN_NOT_SETCTAP2_ERR_PUAT_REQUIREDCTAP2_E" +:+
  "RR_PIN_POLICY_VIOLATIONRESERVED_FOR_FUTURE_USECTAP2_ERR_REQUEST_TOO_LARGEC" +:+
  "TAP2_ERR_ACTION_TIMEOUTCTAP2_ERR_UP_REQUIREDCTAP2_ERR_UV_BLOCKEDCTAP2_ERR_" +:+
  "INTEGRITY_FAILURECTAP2_ERR_INVALID_SUBCOMMANDCTAP2_ERR_UV_INVALIDCTAP2_ERR" +:+
  "_UNAUTHORIZED_PERMISSIONCTAP1_ERR_OTHERCTAP2_ERR_SPEC_LASTCTAP2_ERR_EXTENS" +:+
  "ION_FIRSTCTAP2_ERR_EXTENSION_LASTCTAP2_ERR_VENDOR_FIRSTCTAP2_ERR_VENDOR_LA" +:+
  "ST".
Definition _StatusCode_map : list (Z * (Z * Z)) := [
  (0, (0, 8)); (1, (8, 33)); (2, (33, 60)); (3, (60, 84));
  (4, (84, 105)); (5, (105, 122)); (6, (122, 144)); (10, (144, 167));
  (11, (167, 192)); (17, (192, 222)); (18, (222, 244)); (20, (244, 271));
  (21, (271, 295)); (23, (295, 321)); (24, (321, 354)); (25, (354, 383));
  (33, (383, 403)); (34, (403, 431)); (35, (431, 460)); (36, (460, 487));
  (37, (487, 510)); (38, (510, 541)); (39, (541, 567)); (40, (567, 591));
  (43, (591, 619)); (44, (619, 643)); (45, (643, 669)); (46, (669, 693));
  (47, (693, 722)); (48, (722, 743)); (49, (743, 764)); (50, (764, 785));
  (51, (785, 811)); (52, (811, 837)); (53, (837, 858)); (54, (858, 881));
  (55, (881, 911)); (56, (911, 934)); (57, (934, 961)); (58, (961, 985));
  (59, (985, 1006)); (60, (1006, 1026)); (61, (1026, 1053)); (62, (1053, 1081));
  (63, (1081, 1101)); (64, (1101, 1134)); (127, (1134, 1149)); (223, (1149, 1168));
  (224, (1168, 1193)); (239, (1193, 1217)); (240, (1217, 1239)); (255, (1239, 1260))].

Definition StatusCode_String (i : Z) : result string :=
  match find_key _StatusCode_map i with
  | Some (lo, hi) => slice_string _StatusCode_name lo hi
  | None => Ok (unnamed "StatusCode" i)
  end.

Definition HID_Command_name_0 : string :=
  "CTAPHID_PING".
Definition HID_Command_name_1 : string :=
  "CTAPHID_MSGCTAPHID_LOCK".
Definition HID_Command_name_2 : string :=
  "CTAPHID_INIT".
Definition HID_Command_name_3 : string :=
  "CTAPHID_WINK".
Definition HID_Command_name_4 : string :=
  "CTAPHID_CBORCTAPHID_CANCEL".
Definition HID_Command_name_5 : string :=
  "CTAPHID_KEEPALIVE".
Definition HID_Command_name_6 : string :=
  "CTAPHID_ERRORCTAPHID_VENDOR_FIRST".
Definition HID_Command_name_7 : string :=
  "CTAPHID_VENDOR_LAST".
Definition HID_CapabilityFlag_name_0 : string :=
  "CAPABILITY_WINKCAPABILITY_LOCK".
Definition HID_CapabilityFlag_name_1 : string :=
  "CAPABILITY_CBOR".
Definition HID_CapabilityFlag_name_2 : string :=
  "CAPABILITY_NMSG".
Definition HID_Error_name_0 : string :=
  "ERR_INVALID_CMDERR_INVALID_PARERR_INVALID_LENERR_INVALID_SEQERR_MSG_TIMEOU" +:+
  "TERR_CHANNEL_BUSY".
Definition HID_Error_name_1 : string :=
  "ERR_LOCK_REQUIREDERR_INVALID_CHANNEL".
Definition HID_Error_name_2 : string :=
  "ERR_OTHER".
Definition HID_KeepaliveStatusCode_name : string :=
  "STATUS_PROCESSINGSTATUS_UPNEEDED".
Definition HID_Command_index_1 : list Z := [0; 11; 23].
Definition HID_Command_index_4 : list Z := [0; 12; 26].
Definition HID_Command_index_6 : list Z := [0; 13; 33].
Definition HID_CapabilityFlag_index_0 : list Z := [0; 15; 30].
Definition HID_Error_index_0 : list Z := [0; 15; 30; 45; 60; 75; 91].
Definition HID_Error_index_1 : list Z := [0; 17; 36].
Definition HID_KeepaliveStatusCode_index : list Z := [0; 17; 32].

Definition HIDCommand_String (i : Z) : result string :=
  if i =? 1 then Ok HID_Command_name_0
  else if (3 <=? i) && (i <=? 4) then name_slice HID_Command_name_1 HID_Command_index_1 (i - 3)
  else if i =? 6 then Ok HID_Command_name_2
  else if i =? 8 then Ok HID_Command_name_3
  else if (16 <=? i) && (i <=? 17) then name_slice HID_Command_name_4 HID_Command_index_4 (i - 16)
  else if i =? 59 then Ok HID_Command_name_5
  else if (63 <=? i) && (i <=? 64) then name_slice HID_Command_name_6 HID_Command_index_6 (i - 63)
  else if i =? 127 then Ok HID_Command_name_7
  else Ok (unnamed "Command" i).

Definition HIDCapabilityFlag_String (i : Z) : result string :=
  if (1 <=? i) && (i <=? 2) then name_slice HID_CapabilityFlag_name_0 HID_CapabilityFlag_index_0 (i - 1)
  else if i =? 4 then Ok HID_CapabilityFlag_name_1
  else if i =? 8 then Ok HID_CapabilityFlag_name_2
  else Ok (unnamed "CapabilityFlag" i).

Definition HIDError_String (i : Z) : result string :=
  if (1 <=? i) && (i <=? 6) then name_slice HID_Error_name_0 HID_Error_index_0 (i - 1)
  else if (10 <=? i) && (i <=? 11) then name_slice HID_Error_name_1 HID_Error_index_1 (i - 10)
  else if i =? 127 then Ok HID_Error_name_2
  else Ok (unnamed "Error" i).

Definition HIDKeepaliveStatusCode_String (i : Z) : result string :=
  let idx := i - 1 in
  if (i <? 1) || (len HID_KeepaliveStatusCode_index - 1 <=? idx) then
    Ok (unnamed "KeepaliveStatusCode" i)
  else name_slice HID_KeepaliveStatusCode_name HID_KeepaliveStatusCode_index idx.

(** ** The specification's names *)

Definition name_or_none (names : list (Z * string)) (c : Z) : string * bool :=
  match find_key names c with Some name => (name, true) | None => ("", false) end.

Definition Command_Name (c : Z) : string * bool :=
  name_or_none [
    (AuthenticatorMakeCredential, "authenticatorMakeCredential");
    (AuthenticatorGetAssertion, "authenticatorGetAssertion");
    (AuthenticatorGetNextAssertion, "authenticatorGetNextAssertion");
    (AuthenticatorGetInfo, "authenticatorGetInfo");
    (AuthenticatorClientPIN, "authenticatorClientPIN");
    (AuthenticatorReset, "authenticatorReset");
    (AuthenticatorBioEnrollment, "authenticatorBioEnrollment");
    (AuthenticatorCredentialManagement, "authenticatorCredentialManagement");
    (AuthenticatorSelection, "authenticatorSelection");
    (AuthenticatorLargeBlobs, "authenticatorLargeBlobs");
    (AuthenticatorConfig, "authenticatorConfig");
  (PrototypeAuthenticatorBioEnrollment, "prototypeAuthenticatorBioEnrollment");
  (PrototypeAuthenticatorCredentialManagement, "prototypeAuthenticatorCredentialManagement")] c.

Definition ClientPINSubCommand_Name (c : Z) : string * bool :=
  name_or_none [
    (ClientPINSubCommandGetPINRetries, "getPINRetries");
  (ClientPINSubCommandGetKeyAgreement, "getKeyAgreement");
  (ClientPINSubCommandSetPIN, "setPIN");
  (ClientPINSubCommandChangePIN, "changePIN");
  (ClientPINSubCommandGetPinToken, "getPinToken");
  (ClientPINSubCommandGetPinUvAuthTokenUsingUvWithPermissions, "getPinUvAuthTokenUsingUvWithPermissions");
  (ClientPINSubCommandGetUVRetries, "getUVRetries");
  (ClientPINSubCommandGetPinUvAuthTokenUsingPinWithPermissions, "getPinUvAuthTokenUsingPinWithPermissions")] c.

Definition BioEnrollmentSubCommand_Name (c : Z) : string * bool :=
  name_or_none [
    (BioEnrollmentSubCommandEnrollBegin, "enrollBegin");
  (BioEnrollmentSubCommandEnrollCaptureNextSample, "enrollCaptureNextSample");
  (BioEnrollmentSubCommandCancelCurrentEnrollment, "cancelCurrentEnrollment");
  (BioEnrollmentSubCommandEnumerateEnrollments, "enumerateEnrollments");
  (BioEnrollmentSubCommandSetFriendlyName, "setFriendlyName");
  (BioEnrollmentSubCommandRemoveEnrollment, "removeEnrollment");
  (BioEnrollmentSubCommandGetFingerprintSensorInfo, "getFingerprintSensorInfo")] c.

Definition CredentialManagementSubCommand_Name (c : Z) : string * bool :=
  name_or_none [
    (CredentialManagementSubCommandGetCredsMetadata, "getCredsMetadata");
  (CredentialManagementSubCommandEnumerateRPsBegin, "enumerateRPsBegin");
  (CredentialManagementSubCommandEnumerateRPsGetNextRP, "enumerateRPsGetNextRP");
  (CredentialManagementSubCommandEnumerateCredentialsBegin, "enumerateCredentialsBegin");
  (CredentialManagementSubCommandEnumerateCredentialsGetNextCredential, "enumerateCredentialsGetNextCredential");
  (CredentialManagementSubCommandDeleteCredential, "deleteCredential");
  (CredentialManagementSubCommandUpdateUserInformation, "updateUserInformation")] c.

Definition ConfigSubCommand_Name (c : Z) : string * bool :=
  name_or_none [
    (ConfigSubCommandEnableEnterpriseAttestation, "enableEnterpriseAttestation");
  (ConfigSubCommandToggleAlwaysUv, "toggleAlwaysUv");
  (ConfigSubCommandSetMinPINLength, "setMinPINLength");
  (ConfigSubCommandEnableLongTouchForReset, "enableLongTouchForReset");
  (ConfigSubCommandVendorPrototype, "vendorPrototype")] c.

Definition LastEnrollSampleStatus_names : list (Z * string) := [
  (0, "CTAP2_ENROLL_FEEDBACK_FP_GOOD");
  (1, "CTAP2_ENROLL_FEEDBACK_FP_TOO_HIGH");
  (2, "CTAP2_ENROLL_FEEDBACK_FP_TOO_LOW");
  (3, "CTAP2_ENROLL_FEEDBACK_FP_TOO_LEFT");
  (4, "CTAP2_ENROLL_FEEDBACK_FP_TOO_RIGHT");
  (5, "CTAP2_ENROLL_FEEDBACK_FP_TOO_FAST");
  (6, "CTAP2_ENROLL_FEEDBACK_FP_TOO_SLOW");
  (7, "CTAP2_ENROLL_FEEDBACK_FP_POOR_QUALITY");
  (8, "CTAP2_ENROLL_FEEDBACK_FP_TOO_SKEWED");
  (9, "CTAP2_ENROLL_FEEDBACK_FP_TOO_SHORT");
  (10, "CTAP2_ENROLL_FEEDBACK_FP_MERGE_FAILURE");
  (11, "CTAP2_ENROLL_FEEDBACK_FP_EXISTS");
  (13, "CTAP2_ENROLL_FEEDBACK_NO_USER_ACTIVITY");
  (14, "CTAP2_ENROLL_FEEDBACK_NO_USER_PRESENCE_TRANSITION")].

Definition LastEnrollSampleStatus_String (s : Z) : string :=
  match find_key LastEnrollSampleStatus_names s with
  | Some name => name
  | None => "unknown(0x" +:+ hex 2 s +:+ ")"
  end.

(** [StatusCode.Name]: the generated map, with its presence. *)
Definition StatusCode_Name (s : Z) : result (string * bool) :=
  match find_key _StatusCode_map s with
  | Some (lo, hi) => slice_string _StatusCode_name lo hi ≫= fun name => Ok (name, true)
  | None => Ok ("", false)
  end.

(** ** What the tables should say *)

(** The identifier of the constant with a value. *)
Definition identifier (constants : list (Z * string)) (type : string) (v : Z) : string :=
  default (unnamed type v) (find_key constants v).

(** The identifier without its type, its first letter in lower case. *)
Definition decapitalise (s : string) : string :=
  match s with String c s' => String (ToLower c) s' | EmptyString => "" end.
Definition spec_name (constants : list (Z * string)) (type : string) (v : Z) : string * bool :=
  match find_key constants v with
  | Some name => (decapitalise (String.substring (String.length type) (String.length name) name), true)
  | None => ("", false)
  end.

Definition bytes : list Z := Z.of_nat <$> seq 0 256.

Lemma elem_of_bytes c : is_byte c -> c ∈ bytes.
Proof.
  intros [H0 H1]. apply list_elem_of_fmap. exists (Z.to_nat c). split; [lia|]. apply elem_of_seq. lia.
Qed.

(** A check of every byte. *)
Lemma all_bytes (P : Z -> bool) : forallb P bytes = true -> forall c, is_byte c -> P c = true.
Proof. rewrite forallb_forall. intros HP c Hc. apply HP, list_elem_of_In. by apply elem_of_bytes. Qed.

#[local] Instance result_string_eq_dec : EqDecision (result string).
Proof. solve_decision. Defined.
#[local] Instance result_named_eq_dec : EqDecision (result (string * bool)).
Proof. solve_decision. Defined.

Ltac by_bytes :=
  intros c Hc; apply (bool_decide_eq_true_1 _); revert c Hc; apply all_bytes; vm_compute; reflexivity.

Lemma strings_correct :
  (forall c, is_byte c -> Command_String c = Ok (identifier Command_constants "Command" c)) /\
  (forall c, is_byte c -> ClientPINSubCommand_String c =
     Ok (identifier ClientPINSubCommand_constants "ClientPINSubCommand" c)) /\
  (forall c, is_byte c -> BioEnrollmentSubCommand_String c =
     Ok (identifier BioEnrollmentSubCommand_constants "BioEnrollmentSubCommand" c)) /\
  (forall c, is_byte c -> CredentialManagementSubCommand_String c =
     Ok (identifier CredentialManagementSubCommand_constants "CredentialManagementSubCommand" c)) /\
  (forall c, is_byte c -> StatusCode_String c = Ok (identifier StatusCode_constants "StatusCode" c)) /\
  (forall c, is_byte c -> HIDCommand_String c = Ok (identifier HIDCommand_constants "Command" c)) /\
  (forall c, is_byte c -> HIDCapabilityFlag_String c =
     Ok (identifier CapabilityFlag_constants "CapabilityFlag" c)) /\
  (forall c, is_byte c -> HIDError_String c = Ok (identifier Error_constants "Error" c)) /\
  (forall c, is_byte c -> HIDKeepaliveStatusCode_String c =
     Ok (identifier KeepaliveStatusCode_constants "KeepaliveStatusCode" c)).
Proof. split_and!; by_bytes. Qed.

(** A [ConfigSubCommand] is a uint: beyond the constants the text is the
    number. *)
Lemma ConfigSubCommand_text_correct i :
  0 <= i -> ConfigSubCommand_text i = Ok (identifier ConfigSubCommand_constants "ConfigSubCommand" i).
Proof.
  intros Hi. destruct (Z.le_gt_cases i 4) as [H4|H4].
  - assert (i = 0 \/ i = 1 \/ i = 2 \/ i = 3 \/ i = 4) as [-> | [-> | [-> | [-> | ->]]]] by lia;
      by vm_compute.
  - unfold ConfigSubCommand_text. rewrite (proj2 (orb_true_iff _ _)).
    2: { right. apply Z.leb_le. vm_compute len. lia. }
    unfold identifier, find_key, ConfigSubCommand_constants. cbn [List.find fst].
    by repeat (case Z.eqb_spec; intros ?; [lia|]).
Qed.

Lemma names_of_bytes :
  (forall c, is_byte c -> Command_Name c = spec_name Command_constants "" c) /\
  (forall c, is_byte c -> ClientPINSubCommand_Name c =
     spec_name ClientPINSubCommand_constants "ClientPINSubCommand" c) /\
  (forall c, is_byte c -> BioEnrollmentSubCommand_Name c =
     spec_name BioEnrollmentSubCommand_constants "BioEnrollmentSubCommand" c) /\
  (forall c, is_byte c -> CredentialManagementSubCommand_Name c =
     spec_name CredentialManagementSubCommand_constants "CredentialManagementSubCommand" c) /\
  (forall c, is_byte c -> StatusCode_Name c =
     Ok match find_key StatusCode_constants c with Some name => (name, true) | None => ("", false) end).
Proof. split_and!; by_bytes. Qed.

(** The names agree with the constants: every generated [String] returns the
    identifier of the constant with the value, or the type with the number
    when there is none, and never panics; [Name] is that identifier without
    its type, or nothing. The one name without an identifier is the vendor
    prototype's, whose constant has no type. *)
Theorem names_correct :
  (forall c, is_byte c ->
     Command_String c = Ok (identifier Command_constants "Command" c) /\
     ClientPINSubCommand_String c = Ok (identifier ClientPINSubCommand_constants "ClientPINSubCommand" c) /\
     BioEnrollmentSubCommand_String c =
       Ok (identifier BioEnrollmentSubCommand_constants "BioEnrollmentSubCommand" c) /\
     CredentialManagementSubCommand_String c =
       Ok (identifier CredentialManagementSubCommand_constants "CredentialManagementSubCommand" c) /\
     StatusCode_String c = Ok (identifier StatusCode_constants "StatusCode" c) /\
     HIDCommand_String c = Ok (identifier HIDCommand_constants "Command" c) /\
     HIDCapabilityFlag_String c = Ok (identifier CapabilityFlag_constants "CapabilityFlag" c) /\
     HIDError_String c = Ok (identifier Error_constants "Error" c) /\
     HIDKeepaliveStatusCode_String c = Ok (identifier KeepaliveStatusCode_constants "KeepaliveStatusCode" c) /\
     Command_Name c = spec_name Command_constants "" c /\
     ClientPINSubCommand_Name c = spec_name ClientPINSubCommand_constants "ClientPINSubCommand" c /\
     BioEnrollmentSubCommand_Name c =
       spec_name BioEnrollmentSubCommand_constants "BioEnrollmentSubCommand" c /\
     CredentialManagementSubCommand_Name c =
       spec_name CredentialManagementSubCommand_constants "CredentialManagementSubCommand" c /\
     StatusCode_Name c =
       Ok match find_key StatusCode_constants c with Some name => (name, true) | None => ("", false) end) /\
  (forall i, 0 <= i ->
     ConfigSubCommand_text i = Ok (identifier ConfigSubCommand_constants "ConfigSubCommand" i) /\
     ConfigSubCommand_Name i = if i =? ConfigSubCommandVendorPrototype then ("vendorPrototype", true)
                               else spec_name ConfigSubCommand_constants "ConfigSubCommand" i).
Proof.
  destruct strings_correct as (? & ? & ? & ? & ? & ? & ? & ? & ?).
  destruct names_of_bytes as (? & ? & ? & ? & ?). split.
  - intros c Hc. split_and!; auto.
  - intros i Hi. split; [by apply ConfigSubCommand_text_correct|].
    unfold ConfigSubCommand_Name, spec_name, name_or_none, find_key, ConfigSubCommand_constants,
      ConfigSubCommandVendorPrototype, ConfigSubCommandEnableEnterpriseAttestation,
      ConfigSubCommandToggleAlwaysUv, ConfigSubCommandSetMinPINLength, ConfigSubCommandEnableLongTouchForReset.
    cbn [List.find fst]. rewrite (Z.eqb_sym i 255).
    by repeat (case Z.eqb_spec; [intros <-; by vm_compute|intros ?]).
Qed.
