(* ===== verification/Tools.v ===== *)
(** * The inspection examples (src/examples)

    The programs that show which authenticators there are and what they say
    about themselves: transports, ble, iso7816, namedpipe, and the choice of a
    reader in token2. What is printed goes to the state beside the connection;
    an enumerator is the list of what it yields, which the loops never cut
    short but on an error; the texts of errors, UUIDs and JSON are arguments,
    because other modules write them. [transports_closes_devices] shows what the loop of transports does:
    every device it is given is closed once, in order, whether it answers or
    not. *)
From stdpp Require Import sorting.
From S2P Require Import Diagnostic.
From S2P Require Import Prelude GoError Transport Protocol Crypto Messages Client Management Device.
From S2P Require Import PreviewSign Application.
From S2P Require Schemas Names Examples.

Definition newline : string := Examples.newline.

(** ** transports *)

Section Transports.
Context `{Codec} `{Diagnostic.DiagnosticCodec} {W : Type}.
Context (range : gmap Diagnostic.Key (list Z) -> list (Diagnostic.Key * list Z)).
Context (Error : error -> string) (started duration : Z).

#[local] Abbreviation console := (W * string)%type.

Definition Print (text : string) : M console unit := modify (fun w => (w.1, w.2 +:+ text)).
Definition Println (line : string) : M console unit := Print (line +:+ newline).

(** The diagnostic sink. *)
Definition printGetInfo (exchange : Schemas.Exchange) : M console unit :=
  if negb (Schemas.Command exchange =? AuthenticatorGetInfo) then mret tt
  else match Schemas.ExchangeErr exchange with
  | Some err => Println ("getInfo failed: " +:+ Error err)
  | None =>
      (match Schemas.Status exchange with
       | Some status => name ← lift (Names.StatusCode_String status); Println ("status: " +:+ name)
       | None => mret tt
       end);;
      if bool_decide (Diagnostic.Notation_ (Schemas.Response exchange) = "") then Println "{}"
      else Println (Diagnostic.Notation_ (Schemas.Response exchange))
  end.

Definition emit_getInfo : option (list Z -> CBORResponse + error -> M console unit) :=
  Some (fun data r => Schemas.emitDiagnostic range Error printGetInfo started duration data r).

(** [device.Close()] and [deviceTransport.Close()], whose error is printed. *)
Definition report_close (closeErr : option error) : M console unit :=
  match closeErr with
  | Some err => Println ("close failed: " +:+ Error err)
  | None => mret tt
  end.
Definition close_device (T : transport_ops console) (d : device console) : M console (option error) := fun _ =>
  let '(r, d') := Device.Close T d in (r, dv_world d').

(** One authenticator: its getInfo printed, and the device closed. *)
Definition show_authenticator (T : transport_ops console) : M console unit :=
  device ← try_ (Device.New T emit_getInfo);
  match device with
  | inr _ => closeErr ← tr_Close T; report_close closeErr
  | inl device => closeErr ← close_device T device; report_close closeErr
  end.

(** The body of the loop, on the count so far; it never stops the sequence. *)
Definition show_item (count : nat) (item : transport_ops console + error) : M console nat :=
  match item with
  | inr err => Println ("error: " +:+ Error err);; mret count
  | inl T =>
      Println (newline +:+ "--- authenticator " +:+ pretty (S count) +:+ " ---");;
      show_authenticator T;; mret (S count)
  end.

Record source := Source {
  source_name : string;
  source_items : list (transport_ops console + error) }.

Fixpoint show_items (count : nat) (items : list (transport_ops console + error)) : M console nat :=
  match items with
  | [] => mret count
  | item :: rest => count ← show_item count item; show_items count rest
  end.

Definition show_source (s : source) : M console unit :=
  Println (newline +:+ "=== " +:+ source_name s +:+ " ===");;
  count ← show_items 0 (source_items s);
  if (count =? 0)%nat then Println "no authenticators" else mret tt.

Fixpoint run (sources : list source) : M console unit :=
  match sources with
  | [] => mret tt
  | s :: rest => show_source s;; run rest
  end.
End Transports.

(** ** Readers and peripherals *)

Definition strings_Contains (s substr : string) : bool :=
  match String.index 0 substr s with Some _ => true | None => false end.

Fixpoint findReader (filter : string) (readers : list (string + error)) : result string :=
  match readers with
  | [] => Err (EText ("no PC/SC reader matching " +:+ filter))
  | inr err :: _ => Err err
  | inl name :: rest =>
      if bool_decide (filter = "") then Ok name
      else if strings_Contains name filter then Ok name
      else findReader filter rest
  end.

(** [gble.DeviceInfo]. *)
Record DeviceInfo := MkDeviceInfo { ID : string; Name : string; RSSI : Z }.

Definition tab : string := String (Ascii.ascii_of_nat 9) "".
Definition advertisement_line (a : DeviceInfo) : string :=
  ID a +:+ tab +:+ Name a +:+ tab +:+ "RSSI " +:+ pretty (RSSI a) +:+ " dBm" +:+ newline.

(** The scan of ble: what was printed, and the advertisements or the error it
    ends with. The scan that ran out of its time has just ended. *)
Fixpoint scan_advertisements (scanErr : option error) (scan : list (DeviceInfo + error))
    (out : string) (advertisements : list DeviceInfo) : string * result (list DeviceInfo) :=
  match scan with
  | [] => (out, Ok advertisements)
  | inr err :: _ =>
      if errors_Is err context_DeadlineExceeded &&
         match scanErr with Some e => errors_Is e context_DeadlineExceeded | None => false end
      then (out, Ok advertisements)
      else (out, Err err)
  | inl a :: rest => scan_advertisements scanErr rest (out +:+ advertisement_line a) (advertisements ++ [a])
  end.

Definition choose_identifier (peripheralIdentifier : string) (advertisements : list DeviceInfo) : result string :=
  if bool_decide (peripheralIdentifier = "") then
    match advertisements with
    | [] => Err (EText "no FIDO BLE authenticators found")
    | [a] => Ok (ID a)
    | _ => Err (EText "multiple authenticators found; select one with -id")
    end
  else Ok peripheralIdentifier.

(** ** Programs of the device API *)

(** [%v] of a slice of strings and of a map, whose keys are sorted. *)
Definition print_list (l : list string) : string := "[" +:+ strings_Join l " " +:+ "]".
Definition print_options (m : gmap string bool) : string :=
  "map[" +:+ strings_Join ((fun key => key +:+ ":" +:+
    match m !! key with Some true => "true" | _ => "false" end)
    <$> merge_sort String.le (map_to_list m).*1) " " +:+ "]".

Section Programs.
Context `{Primitives} `{PreviewSignCodec}.
Context (uuid_String : list Z -> string).
Context (MarshalIndent : AuthenticatorGetInfoResponse -> result string).

#[local] Instance tools_ret : MRet (program Examples.vars) := fun _ => Return.
#[local] Instance tools_bind : MBind (program Examples.vars) := fun _ _ k p => Then p k.

Definition iso7816_run : program Examples.vars unit :=
  '(info, valid) ← Call OpGetInfoCached;
  if negb valid then Throw (EText "authenticator info cache is unexpectedly invalid")
  else
    Examples.printf ("CTAP versions: " +:+ print_list (Versions info) +:+ newline);;
    Examples.printf ("AAGUID: " +:+ uuid_String (AAGUID info) +:+ newline);;
    Examples.printf ("Options: " +:+ print_options (Options info) +:+ newline).

Definition ble_show : program Examples.vars unit :=
  '(info, ok) ← Call OpGetInfoCached;
  if negb ok then Throw (EText "authenticatorGetInfo response is unavailable")
  else encoded ← Lift (MarshalIndent info); Examples.printf (encoded +:+ newline).

(** From the ping on, which only CTAPHID has. *)
Definition namedpipe_main (random_key : PrivateKey) (iv pin : list Z) : program Examples.vars unit :=
  info ← Call OpGetInfo;
  Examples.printf ("versions: " +:+ print_list (Versions info) +:+ newline);;
  Examples.printf ("AAGUID: " +:+ uuid_String (AAGUID info) +:+ newline);;
  Examples.printf ("named-pipe CTAPHID ping: OK" +:+ newline);;
  if bool_decide (pin = []) then Throw Examples.pin_not_set
  else
    token ← Call (OpGetPinUvAuthTokenUsingPIN random_key iv pin PermissionCredentialManagement "");
    Examples.printCredentials token.
End Programs.

(** ** What transports does with the devices *)

Section Closings.
Context `{Codec} `{Diagnostic.DiagnosticCodec} {W : Type}.
Context (range : gmap Diagnostic.Key (list Z) -> list (Diagnostic.Key * list Z)).
Context (Error : error -> string) (started duration : Z).

#[local] Abbreviation console := (W * string)%type.
#[local] Abbreviation emit := (emit_getInfo (W := W) range Error started duration).

(** The ledger of the devices closed so far, a part of the world. *)
Context (closed : W -> list nat).

Definition closes {A} (l : list nat) (m : M console A) : Prop :=
  forall w r w', m w = (r, w') -> closed w'.1 = closed w.1 ++ l.
Abbreviation idle := (closes []).

Lemma idle_lift {A} (r : result A) : idle (lift r).
Proof. intros w r' w' [= <- <-]. by rewrite app_nil_r. Qed.
Lemma idle_print text : idle (Print text).
Proof. intros w r' w' [= <- <-]. by rewrite app_nil_r. Qed.
Lemma idle_println line : idle (Println line).
Proof. apply idle_print. Qed.

Lemma idle_try {A} (m : M console A) : idle m -> idle (try_ m).
Proof. intros Hm w r w'. unfold try_. destruct (m w) as [[] w1] eqn:E; intros [= <- <-]; by apply (Hm _ _ _ E). Qed.

Lemma idle_bind {A B} (m : M console A) (f : A -> M console B) :
  idle m -> (forall a, idle (f a)) -> idle (m ≫= f).
Proof.
  intros Hm Hf w r w'. unfold mbind, M_bind. destruct (m w) as [[a| | |] w1] eqn:E.
  2-4: intros [= <- <-]; by apply (Hm _ _ _ E).
  intros Hr. apply Hf in Hr. apply Hm in E. rewrite Hr, E. by rewrite !app_nil_r.
Qed.

Lemma idle_sink exchange : idle (printGetInfo (W := W) Error exchange).
Proof.
  unfold printGetInfo. destruct (negb _); [apply idle_lift|].
  destruct (Schemas.ExchangeErr exchange); [apply idle_println|].
  apply idle_bind; [|intros; case_bool_decide; apply idle_println].
  destruct (Schemas.Status exchange); [|apply idle_lift].
  apply idle_bind; [apply idle_lift|intros; apply idle_println].
Qed.

(** A transport under the name [i]: a command closes nothing, [Close] closes
    it and returns, and [New] over it comes back, with a device or an error. *)
Record named (T : transport_ops console) (i : nat) : Prop := Named {
  named_CBOR : forall data, idle (tr_CBOR T data);
  named_Close : closes [i] (tr_Close T);
  named_returns : forall w, exists r w', tr_Close T w = (Ok r, w');
  named_New : forall w, exists r w', try_ (Device.New T emit) w = (Ok r, w') }.

Lemma idle_New T i : named T i -> idle (try_ (Device.New T emit)).
Proof.
  intros HT. apply idle_try. intros w r w'. unfold Device.New.
  assert (Hk : idle (Client.GetInfo (Some (tr_CBOR T)) emit)).
  { apply idle_bind; [|intros; apply idle_lift]. cbn. apply idle_bind; [apply idle_try, HT|]. intros a.
    apply idle_bind; [apply idle_bind; [apply idle_lift|apply idle_sink]|].
    intros []. destruct a; apply idle_lift. }
  destruct (Client.GetInfo _ _ w) as [[] w1] eqn:E; intros [= <- <-]; by apply (Hk _ _ _ E).
Qed.

(** A call that returns, having closed the devices of [l]. *)
Definition finishes {A} (l : list nat) (m : M console A) (Q : A -> Prop) : Prop :=
  forall w, exists a w', m w = (Ok a, w') /\ closed w'.1 = closed w.1 ++ l /\ Q a.

Lemma finishes_bind {A B} l l' (m : M console A) (f : A -> M console B) (P : A -> Prop) Q :
  finishes l m P -> (forall a, P a -> finishes l' (f a) Q) -> finishes (l ++ l') (m ≫= f) Q.
Proof.
  intros Hm Hf w. destruct (Hm w) as (a & w1 & E & Hl & Ha). destruct (Hf a Ha w1) as (b & w2 & E' & Hl' & Hb).
  exists b, w2. rewrite (M_bind_Ok _ _ _ _ _ E). split_and!; [done| |done]. by rewrite Hl', Hl, app_assoc.
Qed.

Lemma finishes_closes {A} l (m : M console A) :
  closes l m -> (forall w, exists r w', m w = (Ok r, w')) -> finishes l m (fun _ => True).
Proof. intros Hc Hr w. destruct (Hr w) as (a & w' & E). exists a, w'. by split_and!; [|apply (Hc _ _ _ E)|]. Qed.

Lemma finishes_println line : finishes [] (Println line) (fun _ => True).
Proof. apply finishes_closes; [apply idle_println|]. by eexists _, _. Qed.

Lemma finishes_ret {A} (a : A) (Q : A -> Prop) : Q a -> finishes [] (mret a) Q.
Proof. intros Ha w. exists a, w. by rewrite app_nil_r. Qed.

Lemma finishes_report closeErr : finishes [] (report_close (W := W) Error closeErr) (fun _ => True).
Proof. destruct closeErr; [apply finishes_println|by apply finishes_ret]. Qed.

Lemma finishes_authenticator T i :
  named T i -> finishes [i] (show_authenticator range Error started duration T) (fun _ => True).
Proof.
  intros HT w. unfold show_authenticator. pose proof (idle_New T i HT) as Hk.
  assert (Hclose : finishes ([i] ++ []) (closeErr ← tr_Close T; report_close Error closeErr) (fun _ => True)).
  { eapply finishes_bind; [by apply finishes_closes; apply HT|]. intros; apply finishes_report. }
  destruct (named_New T i HT w) as (r & w1 & E). rewrite (M_bind_Ok _ _ _ _ _ E).
  assert (Hl : closed w1.1 = closed w.1) by (rewrite (Hk _ _ _ E); apply app_nil_r).
  destruct (Hclose w1) as (a & w2 & E' & Hl' & _). exists a, w2. rewrite Hl', Hl.
  split_and!; [|done..]. destruct r as [d|e]; [|done].
  rewrite <- E'. unfold mbind, M_bind, close_device, Device.Close, on_world.
  assert (Hd : dv_world d = w1).
  { unfold try_, Device.New in E. destruct (Client.GetInfo _ _ w) as [[] ?]; by simplify_eq/=. }
  rewrite Hd. by destruct (tr_Close T w1).
Qed.

(** What an enumerator yields, an error or a device with its name. *)
Definition yields (items : list (transport_ops console + error)) (names : list nat) : Prop :=
  Forall2 named (omap (fun item => match item with inl T => Some T | inr _ => None end) items) names.

Lemma finishes_items items names count : yields items names ->
  finishes names (show_items range Error started duration count items) (fun n => n = (count + length names)%nat).
Proof.
  unfold yields. revert names count. induction items as [|[T|e] items IH]; intros names count; cbn [omap list_omap].
  - intros ->%Forall2_nil_inv_l. apply finishes_ret. cbn. lia.
  - intros (i & rest & Hi & Hrest & ->)%Forall2_cons_inv_l. cbn [show_items].
    apply (finishes_bind [i] rest _ _ (fun n => n = S count)).
    + eapply (finishes_bind [] [i]); [apply finishes_println|]. intros _ _.
      eapply (finishes_bind [i] []); [by apply finishes_authenticator|]. intros. by apply finishes_ret.
    + intros n ->. intros w. destruct (IH rest (S count) Hrest w) as (a & w' & E & Hl & ->).
      exists (S count + length rest)%nat, w'. split_and!; [done..|]. cbn. lia.
  - intros Hr. cbn [show_items]. apply (finishes_bind [] names _ _ (fun n => n = count)).
    + eapply (finishes_bind [] []); [apply finishes_println|]. intros. by apply finishes_ret.
    + intros n ->. by apply IH.
Qed.

(** The program returns, and it has closed every device the sources gave,
    once each and in the order they came. *)
Theorem transports_closes_devices (sources : list source) names w :
  Forall2 (fun s => yields (source_items s)) sources names ->
  exists w', run range Error started duration sources w = (Ok tt, w') /\
    closed w'.1 = closed w.1 ++ concat names.
Proof.
  intros Hs. cut (finishes (concat names) (run range Error started duration sources) (fun _ => True)).
  { intros Hf. destruct (Hf w) as ([] & w' & E & Hl & _). by exists w'. }
  clear w. induction Hs as [|s l sources names Hl _ IH]; cbn [run concat]; [by apply finishes_ret|].
  eapply finishes_bind; [|intros; apply IH].
  eapply (finishes_bind [] l); [apply finishes_println|]. intros _ _. rewrite <- (app_nil_r l).
  eapply finishes_bind; [by apply finishes_items|]. intros n _. cbn beta.
  destruct (n =? 0)%nat; [apply finishes_println|by apply finishes_ret].
Qed.
End Closings.

(** ** The choice of a reader *)

(** The reader found is the first whose name has the filter in it, none of
    the readers before it having failed. *)
Theorem findReader_first filter readers name :
  findReader filter readers = Ok name <->
  exists before after, readers = (inl <$> before) ++ inl name :: after /\
    strings_Contains name filter = true /\ Forall (fun n => strings_Contains n filter = false) before.
Proof.
  assert (Hempty : forall n, strings_Contains n "" = true) by by intros [].
  induction readers as [|[n|e] rest IH]; cbn [findReader].
  - split; [done|]. by intros ([] & ? & ? & _).
  - assert (Hhit : strings_Contains n filter = true -> forall name, n = name <->
      exists before after, inl n :: rest = (inl (B := error) <$> before) ++ inl name :: after /\
        strings_Contains name filter = true /\ Forall (fun n => strings_Contains n filter = false) before).
    { intros Hn name'. split; [intros <-; by exists [], rest|].
      intros ([|b before] & after & Heq & _ & Hb); simplify_eq/=; [done|].
      apply Forall_cons in Hb as [Hb _]. congruence. }
    case_bool_decide as Hf.
    + rewrite <- Hhit by (by rewrite Hf). split; congruence.
    + destruct (strings_Contains n filter) eqn:Hn.
      * rewrite <- Hhit by done. split; congruence.
      * rewrite IH. split.
        -- intros (before & after & -> & Hc & Hb). exists (n :: before), after. split_and!; [done..|by constructor].
        -- intros ([|b before] & after & Heq & Hc & Hb); simplify_eq/=; [congruence|].
           apply Forall_cons in Hb as [_ Hb]. by exists before, after.
  - split; [done|]. by intros ([] & ? & ? & _).
Qed.
