(* ===== verification/Tcp.v ===== *)
(** * CTAPHID reports over TCP (src/backend/tcp/tcp.go)

    A [Device] carries 64-byte reports over a byte stream: a read assembles
    one report from whatever pieces arrive, a write sends a report without
    its report ID, and a context that ends interrupts either through the
    connection's deadline, which is cleared before the call returns. The
    connection is the history of what its reads and writes do; the mutexes
    make each call one step. *)
From S2P Require Import Prelude GoError HidFraming.

Definition inputReportSize : Z := 64.
Definition outputReportSize : Z := inputReportSize + 1.

Definition os_ErrDeadlineExceeded : error := ESentinel "i/o timeout".

(** ** The connection *)

(** What a blocked [conn.Read] sees next: bytes that arrive together, an
    error ([io.EOF] from a peer that closed), or the end of the context of
    the call, after which [context.AfterFunc] moves the deadline. *)
Inductive conn_event :=
  | Segment (data : list Z)
  | ReadFailed (e : error)
  | ContextDone (e : error).

(** What one [conn.Write] does: the most bytes it takes, its error, and the
    error of the context if that ends during the write. *)
Record write_outcome := WriteOutcome {
  w_takes : nat;
  w_err : option error;
  w_ctx : option error }.

(** [incoming] and [writes] list what comes, in order; a write beyond
    [writes] takes everything. [resets] lists the results of the calls that
    clear a deadline, nothing listed meaning success. [expired] says whether
    the deadline of the call in progress is in the past, [ctx_err] is its
    context's error, and [outgoing] what the peer has been sent. *)
Record conn := Conn {
  incoming : list conn_event;
  writes : list write_outcome;
  resets : list (option error);
  expired : bool;
  ctx_err : option error;
  outgoing : list Z;
  conn_closed : nat }.

Definition set_incoming (ev : list conn_event) (w : conn) : conn :=
  Conn ev (writes w) (resets w) (expired w) (ctx_err w) (outgoing w) (conn_closed w).
Definition set_context (e : option error) (past : bool) (w : conn) : conn :=
  Conn (incoming w) (writes w) (resets w) past e (outgoing w) (conn_closed w).
Definition set_writes (l : list write_outcome) (out : list Z) (w : conn) : conn :=
  Conn (incoming w) l (resets w) (expired w) (ctx_err w) out (conn_closed w).
Definition set_resets (l : list (option error)) (past : bool) (w : conn) : conn :=
  Conn (incoming w) (writes w) l past (ctx_err w) (outgoing w) (conn_closed w).

(** [conn.Read(p)] with [len(p) = max]: the bytes and the error. *)
Definition conn_Read (max : nat) : M conn (list Z * option error) := fun w =>
  if expired w then (Ok ([], Some os_ErrDeadlineExceeded), w)
  else match incoming w with
       | [] => (Blocked, w)
       | Segment data :: rest =>
           let left := drop max data in
           (Ok (take max data, None),
            set_incoming (if bool_decide (left = []) then rest else Segment left :: rest) w)
       | ReadFailed e :: rest => (Ok ([], Some e), set_incoming rest w)
       | ContextDone e :: rest =>
           (Ok ([], Some os_ErrDeadlineExceeded), set_context (Some e) true (set_incoming rest w))
       end.

(** [conn.Write(p)]: the number of bytes taken and the error. *)
Definition conn_Write (p : list Z) : M conn (nat * option error) := fun w =>
  if expired w then (Ok (0%nat, Some os_ErrDeadlineExceeded), w)
  else match writes w with
       | [] => (Ok (length p, None), set_writes [] (outgoing w ++ p) w)
       | o :: writes' =>
           let w' := set_writes writes' (outgoing w ++ take (w_takes o) p) w in
           (Ok (Nat.min (w_takes o) (length p), w_err o),
            match w_ctx o with Some e => set_context (Some e) true w' | None => w' end)
       end.

(** [setDeadline(time.Time{})]: a deadline that cannot be cleared stays. *)
Definition clear_deadline : M conn (option error) := fun w =>
  match resets w with
  | [] => (Ok None, set_resets [] false w)
  | None :: resets' => (Ok None, set_resets resets' false w)
  | Some e :: resets' => (Ok (Some e), set_resets resets' (expired w) w)
  end.

(** ** The standard library's loop *)

(** [io.ReadFull], that is [io.ReadAtLeast] with the length of the buffer.
    Every round but the last takes an event off the history. *)
Fixpoint read_full (fuel : nat) (want : nat) (got : list Z) : M conn (list Z * option error) :=
  if (want <=? length got)%nat then mret (got, None)
  else match fuel with
       | O => blocked
       | S fuel' =>
           '(data, err) ← conn_Read (want - length got);
           let got := got ++ data in
           match err with
           | None => read_full fuel' want got
           | Some e =>
               mret (got, if (want <=? length got)%nat then None
                          else if bool_decide (got <> []) && bool_decide (e = io_EOF)
                          then Some io_ErrUnexpectedEOF else Some e)
           end
       end.
Definition io_ReadFull (want : nat) : M conn (list Z * option error) := fun w =>
  read_full (S (length (incoming w))) want [] w.

(** ** The device *)

(** [early] is what the context reports at the start, [late] its error if it
    ends after the operation and before the last look, with whether the
    [AfterFunc] still runs then. *)
Record looks := Looks { early : option error; late : option (error * bool) }.

Definition interruptOnCancel {A} (ctx : looks) (zero : A) (operation : M conn (A * option error))
    : M conn (A * option error) :=
  match early ctx with
  | Some err => mret (zero, Some err)
  | None =>
      modify (fun w => set_context None (expired w) w);;
      '(n, err) ← operation;
      modify (fun w => match late ctx with
                       | Some (e, runs) =>
                           set_context (Some (default e (ctx_err w))) (expired w || runs) w
                       | None => w
                       end);;
      resetErr ← clear_deadline;
      w ← get;
      match ctx_err w with
      | Some ctxErr => mret (n, Some ctxErr)
      | None => mret (n, errors_Join err resetErr)
      end
  end.

(** The loop of [writeFull] after [written] bytes; every round takes at least
    one byte or is the last. *)
Fixpoint writeFull_loop (fuel : nat) (data : list Z) (written : nat) : M conn (nat * option error) :=
  if (length data <=? written)%nat then mret (written, None)
  else match fuel with
       | O => blocked
       | S fuel' =>
           '(n, err) ← conn_Write (drop written data);
           let written := (written + n)%nat in
           match err with
           | Some e => mret (written, Some e)
           | None => if (n =? 0)%nat then mret (written, Some io_ErrShortWrite)
                     else writeFull_loop fuel' data written
           end
       end.
Definition writeFull (data : list Z) : M conn (nat * option error) :=
  writeFull_loop (length data) data 0.

(** [Read] into a buffer of [size] bytes: the bytes read, and the error. *)
Definition Read (ctx : looks) (size : Z) : M conn (list Z * option error) :=
  if negb (size =? inputReportSize) then mret ([], Some (EText "tcp: input report size"))
  else interruptOnCancel ctx [] (io_ReadFull (Z.to_nat size)).

(** [Write] of a report: the number of bytes, counting the report ID, and
    the error. *)
Definition Write (ctx : looks) (report : list Z) : M conn (Z * option error) :=
  if negb (len report =? outputReportSize)
  then mret (0, Some (EText "tcp: output report size"))
  else if negb (nth 0 report 0 =? 0) then mret (0, Some (EText "tcp: output report ID"))
  else
    '(n, err) ← interruptOnCancel ctx 0%nat (writeFull (drop 1 report));
    mret (Z.of_nat n + 1, err).

Definition Close : M conn unit :=
  modify (fun w => Conn (incoming w) (writes w) (resets w) (expired w) (ctx_err w) (outgoing w)
                     (S (conn_closed w))).

(** ** Reading *)

Definition segments (segs : list (list Z)) : list conn_event := Segment <$> segs.
Definition nonempty (segs : list (list Z)) : Prop := Forall (fun s => s <> []) segs.

(** Pieces that do not fill the buffer are taken whole. *)
Lemma read_full_pieces segs : forall fuel want got w rest,
  expired w = false -> incoming w = segments segs ++ rest ->
  (length got + length (concat segs) < want)%nat -> (length segs <= fuel)%nat ->
  read_full fuel want got w =
    read_full (fuel - length segs) want (got ++ concat segs) (set_incoming rest w).
Proof.
  induction segs as [|s segs IH]; intros fuel want got w rest Hexp Hin Hlen Hfuel.
  { simpl. rewrite Nat.sub_0_r, app_nil_r. f_equal. destruct w. simpl in *. by subst. }
  destruct fuel as [|fuel]; simpl in Hfuel; [lia|].
  rewrite concat_cons, length_app in Hlen.
  cbn [read_full]. rewrite (proj2 (Nat.leb_gt _ _)) by lia.
  unfold mbind at 1, M_bind, conn_Read. rewrite Hexp, Hin. cbn [segments fmap list_fmap app].
  rewrite drop_ge, bool_decide_true by (done || lia). rewrite take_ge by lia.
  rewrite (IH _ _ _ _ rest); [|done|done|rewrite length_app; lia|lia].
  simpl. by rewrite <- (assoc_L (++)).
Qed.

(** Pieces that hold enough: the bytes wanted are returned and the others
    stay, in pieces again. *)
Lemma read_full_enough segs : forall fuel want got w rest,
  expired w = false -> incoming w = segments segs ++ rest -> nonempty segs ->
  (length got <= want <= length got + length (concat segs))%nat -> (length segs < fuel)%nat ->
  exists segs', read_full fuel want got w =
      (Ok (got ++ take (want - length got) (concat segs), None),
       set_incoming (segments segs' ++ rest) w) /\
    concat segs' = drop (want - length got) (concat segs) /\ nonempty segs'.
Proof.
  induction segs as [|s segs IH]; intros fuel want got w rest Hexp Hin Hne Hlen Hfuel;
    destruct fuel as [|fuel]; try lia; cbn [read_full].
  - rewrite (proj2 (Nat.leb_le _ _)) by (simpl in Hlen; lia). exists []. simpl in Hlen.
    cbn [concat]. rewrite take_nil, drop_nil, app_nil_r. split_and!; try done. simpl. destruct w. simpl in *. by subst.
  - destruct (Nat.leb_spec want (length got)) as [Hle|Hlt].
    { exists (s :: segs). replace (want - length got)%nat with 0%nat by lia.
      rewrite take_0, drop_0, app_nil_r. split_and!; try done. rewrite <- Hin. by destruct w. }
    unfold mbind, M_bind, conn_Read. rewrite Hexp, Hin. cbn [segments fmap list_fmap app].
    apply Forall_cons in Hne as [Hs Hne]. rewrite concat_cons, length_app in Hlen.
    rewrite concat_cons. case_bool_decide as Hdrop.
    + assert (Hfit : (length s <= want - length got)%nat).
      { apply (f_equal length) in Hdrop. rewrite length_drop in Hdrop. simpl in Hdrop. lia. }
      rewrite (take_ge s) by done.
      destruct (IH fuel want (got ++ s) (set_incoming (segments segs ++ rest) w) rest) as (segs' & Hr & Hc & Hn);
        [done|done|done|rewrite length_app; lia|simpl in Hfuel; lia|].
      exists segs'. unfold segments in Hr at 1. rewrite Hr. rewrite length_app in Hc |- *.
      rewrite take_app_ge, drop_app_ge by lia. rewrite <- (assoc_L (++)).
      replace (want - (length got + length s))%nat with (want - length got - length s)%nat in * by lia.
      split_and!; done.
    + assert (Hfit : (want - length got < length s)%nat).
      { destruct (Nat.le_gt_cases (length s) (want - length got)); [|done]. by rewrite drop_ge in Hdrop. }
      exists (drop (want - length got) s :: segs).
      rewrite take_app_le, drop_app_le by lia. split_and!; [|done|by constructor].
      destruct fuel as [|fuel]; cbn [read_full]; rewrite length_app, length_take, (proj2 (Nat.leb_le _ _)) by lia;
        done.
Qed.

(** ** Interrupting *)

(** A connection between calls: the deadline clear, and no trouble clearing
    it later. *)
Definition ready (w : conn) : Prop := expired w = false /\ Forall (fun r => r = None) (resets w).

(** The context's error at the end of a call. *)
Definition final_ctx (ctx : looks) (w : conn) : option error :=
  match late ctx with Some (e, _) => Some (default e (ctx_err w)) | None => ctx_err w end.

(** What a call leaves as its operation left it. *)
Definition same_traffic (w w' : conn) : Prop :=
  incoming w' = incoming w /\ writes w' = writes w /\ outgoing w' = outgoing w /\
  conn_closed w' = conn_closed w.

Lemma interruptOnCancel_spec {A} ctx zero (operation : M conn (A * option error)) w n err w1 :
  early ctx = None -> ready w ->
  operation (set_context None false w) = (Ok (n, err), w1) -> resets w1 = resets w ->
  exists w2, interruptOnCancel ctx zero operation w =
      (Ok (n, match final_ctx ctx w1 with Some e => Some e | None => err end), w2) /\
    ready w2 /\ same_traffic w1 w2.
Proof.
  intros He [Hexp Hres] Hop Hr. unfold interruptOnCancel. rewrite He.
  unfold mbind, M_bind, modify. rewrite Hexp, Hop.
  unfold clear_deadline, get, final_ctx, ready, same_traffic.
  destruct (late ctx) as [[e runs]|]; cbn [resets set_context]; rewrite Hr;
    (destruct (resets w) as [|r l];
      [|apply Forall_cons in Hres as [-> Hres]]); cbn;
    (destruct (ctx_err w1); cbn; eexists; split_and!; (done || by destruct err)).
Qed.

(** A call that does not start leaves the connection alone. *)
Lemma interruptOnCancel_early {A} ctx zero (operation : M conn (A * option error)) w e :
  early ctx = Some e -> interruptOnCancel ctx zero operation w = (Ok (zero, Some e), w).
Proof. intros He. unfold interruptOnCancel. by rewrite He. Qed.

Lemma Read_unfold ctx : Read ctx inputReportSize = interruptOnCancel ctx [] (io_ReadFull 64).
Proof. done. Qed.

Lemma Read_early ctx w e :
  early ctx = Some e -> Read ctx inputReportSize w = (Ok ([], Some e), w).
Proof. intros He. by apply interruptOnCancel_early. Qed.

(** The three ends of a read: the report is there; the context ends before;
    the connection fails before. *)
Lemma Read_enough ctx segs rest w :
  early ctx = None -> ready w -> incoming w = segments segs ++ rest -> nonempty segs ->
  (64 <= length (concat segs))%nat ->
  exists segs' w', Read ctx inputReportSize w = (Ok (take 64 (concat segs), fst <$> late ctx), w') /\
    ready w' /\ incoming w' = segments segs' ++ rest /\ concat segs' = drop 64 (concat segs) /\ nonempty segs' /\
    outgoing w' = outgoing w.
Proof.
  intros He Hw Hin Hne Hlen. rewrite Read_unfold.
  destruct (read_full_enough segs (S (length (incoming w))) 64 [] (set_context None false w) rest)
    as (segs' & Hr & Hc & Hn); [done|done|done|simpl; lia|rewrite Hin, length_app; unfold segments; rewrite length_fmap; lia|].
  destruct (interruptOnCancel_spec ctx [] (io_ReadFull 64) w _ _ _ He Hw Hr eq_refl) as (w2 & Hi & Hready & Ht).
  exists segs', w2. destruct Ht as (Hi2 & _ & Ho & _).
  split_and!; [rewrite Hi|done..]. unfold final_ctx.
  by destruct (late ctx) as [[e runs]|].
Qed.

Lemma Read_interrupted ctx segs e rest w :
  early ctx = None -> ready w -> incoming w = segments segs ++ ContextDone e :: rest ->
  (length (concat segs) < 64)%nat ->
  exists w', Read ctx inputReportSize w = (Ok (concat segs, Some e), w') /\ ready w' /\ incoming w' = rest /\
    outgoing w' = outgoing w.
Proof.
  intros He Hw Hin Hlen. rewrite Read_unfold.
  assert (Hr : io_ReadFull 64 (set_context None false w) =
    (Ok (concat segs, Some os_ErrDeadlineExceeded), set_context (Some e) true (set_incoming rest w))).
  { unfold io_ReadFull. rewrite (read_full_pieces segs _ 64 [] _ (ContextDone e :: rest));
      [|done|done|simpl; lia|cbn; rewrite Hin, length_app; unfold segments; rewrite length_fmap; lia].
    cbn [incoming set_context]. rewrite Hin, length_app. unfold segments. rewrite length_fmap. cbn [length app].
    replace (S (length segs + S (length rest)) - length segs)%nat with (S (S (length rest))) by lia.
    cbn [read_full]. rewrite (proj2 (Nat.leb_gt _ _)) by lia.
    unfold mbind, M_bind, conn_Read. cbn [expired set_incoming set_context incoming].
    rewrite app_nil_r, (proj2 (Nat.leb_gt _ _)) by lia. by rewrite andb_false_r. }
  destruct (interruptOnCancel_spec ctx [] (io_ReadFull 64) w _ _ _ He Hw Hr eq_refl) as (w2 & Hi & Hready & Ht).
  exists w2. destruct Ht as (Hi2 & _ & Ho & _). split_and!; [|done|done|done].
  rewrite Hi. unfold final_ctx. by destruct (late ctx) as [[e' runs]|].
Qed.

Lemma Read_failed ctx segs e rest w :
  early ctx = None -> late ctx = None -> ready w -> incoming w = segments segs ++ ReadFailed e :: rest ->
  (length (concat segs) < 64)%nat ->
  exists w', Read ctx inputReportSize w =
      (Ok (concat segs, Some (if bool_decide (concat segs <> []) && bool_decide (e = io_EOF)
                              then io_ErrUnexpectedEOF else e)), w') /\
    ready w' /\ incoming w' = rest.
Proof.
  intros He Hl Hw Hin Hlen. rewrite Read_unfold.
  assert (Hr : io_ReadFull 64 (set_context None false w) =
    (Ok (concat segs, Some (if bool_decide (concat segs <> []) && bool_decide (e = io_EOF)
                            then io_ErrUnexpectedEOF else e)), set_incoming rest (set_context None false w))).
  { unfold io_ReadFull. rewrite (read_full_pieces segs _ 64 [] _ (ReadFailed e :: rest));
      [|done|done|simpl; lia|cbn; rewrite Hin, length_app; unfold segments; rewrite length_fmap; lia].
    cbn [incoming set_context]. rewrite Hin, length_app. unfold segments. rewrite length_fmap. cbn [length app].
    replace (S (length segs + S (length rest)) - length segs)%nat with (S (S (length rest))) by lia.
    cbn [read_full]. rewrite (proj2 (Nat.leb_gt _ _)) by lia.
    unfold mbind, M_bind, conn_Read. cbn [expired set_incoming set_context incoming].
    rewrite app_nil_r, (proj2 (Nat.leb_gt _ _)) by lia. by case_match. }
  destruct (interruptOnCancel_spec ctx [] (io_ReadFull 64) w _ _ _ He Hw Hr eq_refl) as (w2 & Hi & Hready & Ht).
  exists w2. destruct Ht as (Hi2 & _). split_and!; [|done|done].
  rewrite Hi. unfold final_ctx. rewrite Hl. done.
Qed.

(** ** Writing *)

(** A write that takes something and meets no error. *)
Definition progress (o : write_outcome) : Prop :=
  (0 < w_takes o)%nat /\ w_err o = None /\ w_ctx o = None.

(** The loop makes one write of however many it takes. *)
Lemma writeFull_progress data : forall fuel written w,
  expired w = false -> Forall progress (writes w) ->
  (written <= length data)%nat -> (length data - written <= fuel)%nat ->
  exists l, writeFull_loop fuel data written w =
      (Ok (length data, None), set_writes l (outgoing w ++ drop written data) w) /\ Forall progress l.
Proof.
  induction fuel as [|fuel IH]; intros written w Hexp Hw Hle Hfuel; cbn [writeFull_loop].
  { rewrite (proj2 (Nat.leb_le _ _)) by lia. exists (writes w).
    rewrite drop_ge, app_nil_r by lia. replace written with (length data) by lia. split; [by destruct w|done]. }
  destruct (Nat.leb_spec (length data) written) as [H1|H1].
  { exists (writes w). rewrite drop_ge, app_nil_r by lia.
    replace written with (length data) by lia. split; [by destruct w|done]. }
  unfold mbind, M_bind, conn_Write. rewrite Hexp. destruct (writes w) as [|o l] eqn:El.
  - rewrite length_drop. rewrite (proj2 (Nat.eqb_neq _ _)) by lia.
    edestruct (IH (written + (length data - written))%nat (set_writes [] (outgoing w ++ drop written data) w))
      as (l & Hl & Hp); [done|cbn; constructor|lia|lia|].
    exists l. rewrite Hl. split; [|done]. cbn [outgoing set_writes].
    rewrite (drop_ge data (written + (length data - written))) by lia. by rewrite app_nil_r.
  - apply Forall_cons in Hw as [(Ht & He & Hc) Hw]. rewrite He, Hc, length_drop.
    rewrite (proj2 (Nat.eqb_neq _ _)) by lia.
    edestruct (IH (written + Nat.min (w_takes o) (length data - written))%nat
      (set_writes l (outgoing w ++ take (w_takes o) (drop written data)) w)) as (l' & Hl & Hp); [done|done|lia|lia|].
    exists l'. rewrite Hl. split; [|done]. cbn [outgoing set_writes]. unfold set_writes. cbn. f_equal. f_equal.
    rewrite <- (assoc_L (++)). f_equal. rewrite <- (take_drop (w_takes o) (drop written data)) at 2.
    f_equal. rewrite drop_drop. destruct (Nat.le_gt_cases (w_takes o) (length data - written)).
    + f_equal. lia.
    + rewrite !drop_ge by lia. done.
Qed.

Lemma Write_ready ctx report w :
  early ctx = None -> late ctx = None -> ready w -> Forall progress (writes w) ->
  len report = outputReportSize -> nth 0 report 0 = 0 ->
  exists w', Write ctx report w = (Ok (outputReportSize, None), w') /\ ready w' /\
    Forall progress (writes w') /\ outgoing w' = outgoing w ++ drop 1 report /\ incoming w' = incoming w.
Proof.
  intros He Hl Hw Hp Hlen Hid. unfold Write. rewrite Hlen, Hid. cbn [Z.eqb negb].
  change (negb (outputReportSize =? outputReportSize)) with false. cbn match.
  assert (Hd : length (drop 1 report) = 64%nat).
  { rewrite length_drop. unfold len, outputReportSize, inputReportSize in Hlen. lia. }
  destruct (writeFull_progress (drop 1 report) (length (drop 1 report)) 0 (set_context None false w))
    as (l & Hr & Hpl); [done|done|lia|lia|].
  destruct (interruptOnCancel_spec ctx 0%nat (writeFull (drop 1 report)) w _ _ _ He Hw Hr eq_refl)
    as (w2 & Hi & Hready & Ht). destruct Ht as (Hi2 & Hw2 & Ho2 & _).
  exists w2. split_and!; [|done|by rewrite Hw2|by rewrite Ho2|by rewrite Hi2].
  rewrite (M_bind_Ok _ _ _ _ _ Hi). unfold final_ctx. rewrite Hl. cbn match. by rewrite Hd.
Qed.

(** Writes that leave part of the data are made one after the other. *)
Fixpoint taken (l : list write_outcome) : nat :=
  match l with [] => 0 | o :: l => w_takes o + taken l end.

Lemma writeFull_step data fuel written o l w :
  expired w = false -> progress o -> writes w = o :: l -> (written + w_takes o < length data)%nat ->
  writeFull_loop (S fuel) data written w =
    writeFull_loop fuel data (written + w_takes o)
      (set_writes l (outgoing w ++ take (w_takes o) (drop written data)) w).
Proof.
  intros Hexp (Ht & He & Hc) Hw Hlen. cbn [writeFull_loop]. rewrite (proj2 (Nat.leb_gt _ _)) by lia.
  unfold mbind at 1, M_bind, conn_Write. rewrite Hexp, Hw, He, Hc, length_drop, Nat.min_l by lia.
  by rewrite (proj2 (Nat.eqb_neq _ _)) by lia.
Qed.

Lemma writeFull_partial data l : forall fuel written w rest,
  expired w = false -> Forall progress l -> writes w = l ++ rest ->
  (written + taken l < length data)%nat -> (length data - written <= fuel)%nat ->
  exists fuel', writeFull_loop fuel data written w =
      writeFull_loop (S fuel') data (written + taken l)
        (set_writes rest (outgoing w ++ take (taken l) (drop written data)) w) /\
    (length data - (written + taken l) <= S fuel')%nat.
Proof.
  induction l as [|o l IH]; intros fuel written w rest Hexp Hp Hw Hlen Hfuel; cbn [taken] in *.
  - exists (pred fuel). rewrite take_0, app_nil_r, Nat.add_0_r. destruct fuel; [lia|]. cbn in Hw.
    split; [|cbn; lia]. rewrite <- Hw. by destruct w.
  - apply Forall_cons in Hp as [Ho Hp]. destruct fuel as [|fuel]; [lia|].
    destruct (IH fuel (written + w_takes o)%nat
      (set_writes (l ++ rest) (outgoing w ++ take (w_takes o) (drop written data)) w) rest)
      as (fuel' & Hl & Hf); [done|done|done|lia|destruct Ho; lia|].
    exists fuel'. split; [|lia].
    rewrite (writeFull_step data fuel written o (l ++ rest) w) by (done || lia). rewrite Hl.
    cbn [outgoing set_writes]. rewrite <- (assoc_L (++)), <- drop_drop, take_take_drop.
    by rewrite (Nat.add_assoc written).
Qed.

(** The outcome that ends the write with [e]: the context ends, [conn.Write]
    fails, or it takes nothing. *)
Definition ends_write (o : write_outcome) (e : error) : Prop :=
  match w_ctx o, w_err o with
  | Some ctxErr, _ => e = ctxErr
  | None, Some err => e = err
  | None, None => w_takes o = 0%nat /\ e = io_ErrShortWrite
  end.

Lemma writeFull_ends data fuel written o rest w e :
  expired w = false -> ctx_err w = None -> writes w = o :: rest -> ends_write o e ->
  (written < length data)%nat -> (length data - written <= S fuel)%nat ->
  exists err w', writeFull_loop (S fuel) data written w =
      (Ok ((written + Nat.min (w_takes o) (length data - written))%nat, err), w') /\
    default e (ctx_err w') = e /\ (ctx_err w' = None -> err = Some e) /\
    outgoing w' = outgoing w ++ take (w_takes o) (drop written data) /\ resets w' = resets w.
Proof.
  intros Hexp Hctx Hw He Hlen Hfuel. cbn [writeFull_loop]. rewrite (proj2 (Nat.leb_gt _ _)) by lia.
  unfold mbind, M_bind, conn_Write. rewrite Hexp, Hw, length_drop. unfold ends_write in He.
  destruct (w_ctx o) as [c|], (w_err o) as [err|].
  - eexists _, _. split; [reflexivity|]. cbn. by subst.
  - subst e. destruct (Nat.eqb_spec (Nat.min (w_takes o) (length data - written)) 0) as [|Hn].
    { eexists _, _. split; [reflexivity|]. done. }
    destruct fuel as [|fuel]; cbn [writeFull_loop].
    { rewrite (proj2 (Nat.leb_le _ _)) by lia. eexists _, _. split; [reflexivity|]. done. }
    destruct (Nat.leb_spec (length data) (written + Nat.min (w_takes o) (length data - written))).
    { eexists _, _. split; [reflexivity|]. done. }
    unfold mbind, M_bind, conn_Write. cbn [expired set_context]. rewrite Nat.add_0_r.
    eexists _, _. split; [reflexivity|]. done.
  - subst e. eexists _, _. split; [reflexivity|]. cbn. by rewrite Hctx.
  - destruct He as [Ht ->]. rewrite Ht. cbn [Nat.min Nat.eqb]. eexists _, _. split; [reflexivity|].
    cbn. by rewrite Hctx.
Qed.

(** A write that fails, after however many that did not, stops the report
    there. *)
Lemma Write_failed ctx report l o e w writes' :
  early ctx = None -> late ctx = None -> ready w -> len report = outputReportSize -> nth 0 report 0 = 0 ->
  Forall progress l -> (taken l < 64)%nat -> ends_write o e -> writes w = l ++ o :: writes' ->
  exists w', Write ctx report w = (Ok (Z.of_nat (Nat.min (taken l + w_takes o) 64) + 1, Some e), w') /\
    ready w' /\ outgoing w' = outgoing w ++ take (taken l + w_takes o) (drop 1 report).
Proof.
  intros He Hl Hw Hlen Hid Hp Hk Ho Hwr. unfold Write. rewrite Hlen, Hid. cbn [Z.eqb negb].
  change (negb (outputReportSize =? outputReportSize)) with false. cbn match.
  assert (Hd : length (drop 1 report) = 64%nat).
  { rewrite length_drop. unfold len, outputReportSize, inputReportSize in Hlen. lia. }
  set (data := drop 1 report) in *.
  destruct (writeFull_partial data l (length data) 0 (set_context None false w) (o :: writes'))
    as (fuel & Hloop & Hfuel); [done|done|done|lia|lia|].
  cbn [Nat.add] in Hloop, Hfuel. rewrite drop_0 in Hloop.
  set (w1 := set_writes _ _ _) in Hloop.
  destruct (writeFull_ends data fuel (taken l) o writes' w1 e) as (err & w2 & Hr & Hce & Herr & Hout & Hrs);
    [done|done|done|done|lia|lia|].
  assert (Hop : writeFull data (set_context None false w) =
    (Ok (Nat.min (taken l + w_takes o) 64, err), w2)).
  { unfold writeFull. rewrite Hloop, Hr. do 3 f_equal. lia. }
  destruct (interruptOnCancel_spec ctx 0%nat (writeFull data) w _ _ _ He Hw Hop Hrs)
    as (w3 & Hi & Hready & Ht). destruct Ht as (_ & _ & Ho2 & _).
  exists w3. split_and!; [|done|].
  - rewrite (M_bind_Ok _ _ _ _ _ Hi). unfold final_ctx. rewrite Hl.
    destruct (ctx_err w2) as [c|]; cbn in Hce; [by subst c|by rewrite (Herr eq_refl)].
  - rewrite Ho2, Hout. cbn [outgoing w1 set_writes set_context].
    by rewrite <- (assoc_L (++)), take_take_drop.
Qed.

(** ** Messages over a connection *)

Definition quiet : looks := Looks None None.

(** The reports of a message written one by one, as [Message.WriteTo] does
    through the channel, and [count] reports read one by one. *)
Fixpoint write_reports (reports : list (list Z)) : M conn Z :=
  match reports with
  | [] => mret 0
  | report :: rest =>
      '(n, err) ← Write quiet report;
      match err with
      | Some e => fail e
      | None => total ← write_reports rest; mret (n + total)
      end
  end.
Fixpoint read_reports (count : nat) : M conn (list (list Z)) :=
  match count with
  | O => mret []
  | S count' =>
      '(raw, err) ← Read quiet inputReportSize;
      match err with
      | Some e => fail e
      | None => rest ← read_reports count'; mret (raw :: rest)
      end
  end.

Lemma write_reports_spec reports : forall w,
  Forall (fun r => len r = outputReportSize /\ nth 0 r 0 = 0) reports -> ready w -> Forall progress (writes w) ->
  exists w', write_reports reports w = (Ok (outputReportSize * len reports), w') /\
    ready w' /\ outgoing w' = outgoing w ++ concat (drop 1 <$> reports) /\ incoming w' = incoming w.
Proof.
  induction reports as [|r reports IH]; intros w Hall Hw Hp.
  { exists w. split_and!; [done|done| |done]. by rewrite app_nil_r. }
  apply Forall_cons in Hall as [[Hlen Hid] Hall].
  destruct (Write_ready quiet r w eq_refl eq_refl Hw Hp Hlen Hid) as (w1 & H1 & Hw1 & Hp1 & Ho1 & Hi1).
  destruct (IH w1 Hall Hw1 Hp1) as (w2 & H2 & Hw2 & Ho2 & Hi2).
  exists w2. split_and!; [|done| |by rewrite Hi2].
  - cbn [write_reports]. rewrite (M_bind_Ok _ _ _ _ _ H1). cbn. rewrite (M_bind_Ok _ _ _ _ _ H2).
    unfold mret, M_ret. f_equal. f_equal. rewrite len_cons. lia.
  - rewrite Ho2, Ho1, fmap_cons, concat_cons. by rewrite (assoc_L (++)).
Qed.

Lemma read_reports_spec raws : forall segs rest w,
  Forall (fun r => length r = 64%nat) raws -> nonempty segs -> concat segs = concat raws ->
  ready w -> incoming w = segments segs ++ rest ->
  exists w', read_reports (length raws) w = (Ok raws, w') /\ ready w' /\ incoming w' = rest.
Proof.
  induction raws as [|raw raws IH]; intros segs rest w Hall Hne Hc Hw Hin.
  { exists w. split_and!; [done|done|]. destruct segs as [|s segs]; [done|].
    apply Forall_cons in Hne as [Hs _]. by destruct s. }
  apply Forall_cons in Hall as [Hlen Hall]. rewrite concat_cons in Hc.
  destruct (Read_enough quiet segs rest w eq_refl Hw Hin Hne) as (segs' & w1 & H1 & Hw1 & Hi1 & Hc1 & Hn1 & _).
  { rewrite Hc, length_app. lia. }
  rewrite Hc, <- Hlen, take_app_length in H1. rewrite Hc, <- Hlen, drop_app_length in Hc1.
  destruct (IH segs' rest w1 Hall Hn1 Hc1 Hw1 Hi1) as (w2 & H2 & Hw2 & Hi2).
  exists w2. split_and!; [|done|done]. cbn [read_reports length].
  rewrite (M_bind_Ok _ _ _ _ _ H1). cbn. by rewrite (M_bind_Ok _ _ _ _ _ H2).
Qed.

(** The bytes of a message on the stream. *)
Definition stream (m : Message) : list Z := concat (packet_WriteTo <$> m).

Lemma message_sent cid cmd data m w :
  NewMessage cid cmd data = Ok m -> ready w -> Forall progress (writes w) ->
  exists w', write_reports (OutputReports m) w = (Ok (outputReportSize * len m), w') /\
    ready w' /\ outgoing w' = outgoing w ++ stream m.
Proof.
  intros HN Hw Hp. pose proof (NewMessage_fits _ _ _ _ HN) as Hfits.
  destruct (write_reports_spec (OutputReports m) w) as (w' & H1 & H2 & H3 & _); [|done|done|].
  - unfold OutputReports. apply Forall_fmap. eapply Forall_impl; [exact Hfits|].
    intros p Hpf. split; [|done]. simpl. rewrite len_cons, len_packet_WriteTo by done. done.
  - exists w'. split_and!; [|done|].
    + rewrite H1. unfold OutputReports. by rewrite len_fmap.
    + rewrite H3. unfold stream, OutputReports. by rewrite <- list_fmap_compose.
Qed.

Lemma message_received cid cmd data m segs rest w :
  0 <= cmd < 128 -> NewMessage cid cmd data = Ok m ->
  nonempty segs -> concat segs = stream m -> ready w -> incoming w = segments segs ++ rest ->
  exists raws w', read_reports (length m) w = (Ok raws, w') /\ ready w' /\ incoming w' = rest /\
    forall h, rx h = Report <$> raws -> ReadFrom h = (Ok (m, hidPacketSize * len m), set_rx [] h).
Proof.
  intros Hcmd HN Hne Hc Hw Hin. pose proof (NewMessage_fits _ _ _ _ HN) as Hfits.
  destruct (read_reports_spec (packet_WriteTo <$> m) segs rest w) as (w' & H1 & H2 & H3); try done.
  { apply Forall_fmap. eapply Forall_impl; [exact Hfits|]. intros p Hp%len_packet_WriteTo.
    unfold len, hidPacketSize in Hp. simpl. lia. }
  rewrite length_fmap in H1. exists (packet_WriteTo <$> m), w'. split_and!; [done..|].
  intros h Hh. apply (ReadFrom_wire cid cmd data); [done|done|]. rewrite app_nil_r, Hh.
  unfold wire. by rewrite <- list_fmap_compose.
Qed.

(** C23. TCP carries CTAPHID messages. Written report by report on one end,
    however few bytes each write takes, a message of any payload is put on the
    stream without report IDs; on the other end, in whatever pieces the bytes
    arrive, reading report by report and decoding gives the message back, and
    what follows stays for the next read. A read whose context ends, or whose
    connection fails, in the middle of a report returns the bytes it has with
    that error. A write that fails at any of the writes a report takes - with
    an error, by taking nothing, or because its context ends - returns the
    number of bytes sent so far with that error, and nothing more is sent. In
    each case the deadline is clear again for the next call. *)
Theorem tcp_carries_messages :
  (forall cid cmd data m w, NewMessage cid cmd data = Ok m -> ready w -> Forall progress (writes w) ->
     exists w', write_reports (OutputReports m) w = (Ok (outputReportSize * len m), w') /\
       ready w' /\ outgoing w' = outgoing w ++ stream m) /\
  (forall cid cmd data m segs rest w, 0 <= cmd < 128 -> NewMessage cid cmd data = Ok m ->
     nonempty segs -> concat segs = stream m -> ready w -> incoming w = segments segs ++ rest ->
     exists raws w', read_reports (length m) w = (Ok raws, w') /\ ready w' /\ incoming w' = rest /\
       Payload m = Ok data /\
       forall h, rx h = Report <$> raws -> ReadFrom h = (Ok (m, hidPacketSize * len m), set_rx [] h)) /\
  (forall ctx segs e rest w, early ctx = None -> ready w -> (length (concat segs) < 64)%nat ->
     incoming w = segments segs ++ ContextDone e :: rest ->
     exists w', Read ctx inputReportSize w = (Ok (concat segs, Some e), w') /\ ready w' /\ incoming w' = rest) /\
  (forall ctx segs e rest w, early ctx = None -> late ctx = None -> ready w ->
     (length (concat segs) < 64)%nat -> incoming w = segments segs ++ ReadFailed e :: rest ->
     exists w', Read ctx inputReportSize w =
       (Ok (concat segs, Some (if bool_decide (concat segs <> []) && bool_decide (e = io_EOF)
                               then io_ErrUnexpectedEOF else e)), w') /\ ready w' /\ incoming w' = rest) /\
  (forall ctx report l o e w writes', early ctx = None -> late ctx = None -> ready w ->
     len report = outputReportSize -> nth 0 report 0 = 0 ->
     Forall progress l -> (taken l < 64)%nat -> ends_write o e -> writes w = l ++ o :: writes' ->
     exists w', Write ctx report w = (Ok (Z.of_nat (Nat.min (taken l + w_takes o) 64) + 1, Some e), w') /\
       ready w' /\ outgoing w' = outgoing w ++ take (taken l + w_takes o) (drop 1 report)).
Proof.
  split_and!.
  - intros. by eapply message_sent.
  - intros cid cmd data m segs rest w Hcmd HN Hne Hc Hw Hin.
    destruct (message_received cid cmd data m segs rest w Hcmd HN Hne Hc Hw Hin) as (raws & w' & H1 & H2 & H3 & H4).
    exists raws, w'. split_and!; try done. pose proof (payload_NewMessage _ _ _ _ HN) as Hp.
    destruct m; [|by rewrite <- Hp]. unfold NewMessage in HN. case_all HN.
  - intros ctx segs e rest w He Hw Hlen Hin.
    destruct (Read_interrupted ctx segs e rest w He Hw Hin Hlen) as (w' & H1 & H2 & H3 & _). eauto.
  - intros ctx segs e rest w He Hl Hw Hlen Hin. by apply Read_failed.
  - intros. by eapply Write_failed.
Qed.

(** A PING of 60 bytes, two packets, through writes of 40 bytes at most and
    in three pieces. *)
Definition sample_data : list Z := replicate 60 7.
Definition sample_conn (incoming : list conn_event) (writes : list write_outcome) : conn :=
  Conn incoming writes [] false None [] 0.
Definition sample_message : Message :=
  match NewMessage (CID 1 2 3 4) CTAPHID_PING sample_data with Ok m => m | _ => [] end.
Definition sample_pieces : list (list Z) :=
  [take 17 (stream sample_message); take 60 (drop 17 (stream sample_message)); drop 77 (stream sample_message)].

Lemma tcp_carries_messages_witness :
  (exists w', write_reports (OutputReports sample_message)
       (sample_conn [] (replicate 6 (WriteOutcome 40 None None))) = (Ok 130, w') /\
     outgoing w' = stream sample_message) /\
  (exists raws w', read_reports 2
       (sample_conn (segments sample_pieces ++ [ReadFailed io_EOF]) []) = (Ok raws, w') /\
     incoming w' = [ReadFailed io_EOF]) /\
  (exists w', Read quiet inputReportSize
       (sample_conn [Segment [1; 2; 3]; ContextDone context_Canceled; Segment [4]] []) =
     (Ok ([1; 2; 3], Some context_Canceled), w') /\ incoming w' = [Segment [4]]) /\
  (exists w', Write quiet (0 :: replicate 64 7)
       (sample_conn [] [WriteOutcome 40 None None; WriteOutcome 10 (Some io_ErrClosedPipe) None]) =
     (Ok (51, Some io_ErrClosedPipe), w') /\ outgoing w' = replicate 50 7).
Proof.
  destruct tcp_carries_messages as (Hsend & Hreceive & Hinterrupt & _ & Hfail).
  assert (HN : NewMessage (CID 1 2 3 4) CTAPHID_PING sample_data = Ok sample_message) by reflexivity.
  split_and!.
  - destruct (Hsend (CID 1 2 3 4) CTAPHID_PING sample_data sample_message
      (sample_conn [] (replicate 6 (WriteOutcome 40 None None))) HN) as (w' & Hw & _ & Ho).
    + by split.
    + repeat constructor.
    + exists w'. split; [exact Hw|exact Ho].
  - destruct (Hreceive (CID 1 2 3 4) CTAPHID_PING sample_data sample_message sample_pieces [ReadFailed io_EOF]
      (sample_conn (segments sample_pieces ++ [ReadFailed io_EOF]) [])) as (raws & w' & Hw & _ & Hi & _).
    + by vm_compute.
    + exact HN.
    + by repeat constructor.
    + reflexivity.
    + by split.
    + reflexivity.
    + exists raws, w'. split; [exact Hw|exact Hi].
  - destruct (Hinterrupt quiet [[1; 2; 3]] context_Canceled [Segment [4]]
      (sample_conn [Segment [1; 2; 3]; ContextDone context_Canceled; Segment [4]] []))
      as (w' & Hw & _ & Hi); [done|by split|simpl; lia|done|].
    exists w'. split; [exact Hw|exact Hi].
  - destruct (Hfail quiet (0 :: replicate 64 7) [WriteOutcome 40 None None]
      (WriteOutcome 10 (Some io_ErrClosedPipe) None) io_ErrClosedPipe
      (sample_conn [] [WriteOutcome 40 None None; WriteOutcome 10 (Some io_ErrClosedPipe) None]) [])
      as (w' & Hw & _ & Ho); [done|done|by split|done|done|by repeat constructor|cbn; lia|done|done|].
    exists w'. split; [exact Hw|exact Ho].
Defined.
