(* ===== verification/Backend.v ===== *)
(** * The platform backends (src/backend)

    Each backend lists the platform's devices, opens them and hands the
    transports to its consumer as a sequence: hid, pcsc, token2 and ble, the
    connection of tcp, and hidproxy where it is not supported (HidProxy has
    its Windows build). The platform is the history of what its calls return;
    a transport is named by the native device it owns, and what its
    constructor - [ctaphid.Open], [iso7816.New], [token2.New], [ctapble.Open] -
    answers is part of the history. *)
From S2P Require Import Prelude GoError Client Token2.

(** A native device: an open HID endpoint, card, peripheral or connection. *)
Abbreviation handle := nat.

(** What a device is opened by: the path of a HID endpoint, the name of a
    reader, the identifier of a peripheral, a network address. *)
Abbreviation address := string.

(** What happened: the device of an address was opened, closed, or handed to
    the consumer - or an error was - who answers whether to go on; [EListed] is
    an item of a sequence that lists devices without opening them. *)
Inductive event :=
  | EOpened (a : address) (d : handle)
  | EClosed (d : handle)
  | EYielded (item : handle + error) (go_on : bool)
  | EListed (item : address + error) (go_on : bool).

(** [ctx_looks], [scan_looks]: what the next looks at the context, and at the
    context of the scan, report. [open_results]: whether the next native open
    succeeds. [new_results], [close_results]: the errors of the next transport
    constructors and closings. Nothing listed means no error. [answers]: what
    the consumer answers next, nothing listed meaning to go on. [opened_count]
    names the devices. *)
Record platform := Platform {
  ctx_looks : list (option error);
  scan_looks : list (option error);
  open_results : list (option error);
  new_results : list (option error);
  close_results : list (option error);
  answers : list bool;
  opened_count : nat;
  events : list event }.

Definition log (ev : event) (w : platform) : platform :=
  Platform (ctx_looks w) (scan_looks w) (open_results w) (new_results w) (close_results w) (answers w)
    (opened_count w) (events w ++ [ev]).

Definition next {A} (default : A) (l : list A) : A := hd default l.

(** [ctx.Err()] and [scanCtx.Err()]. *)
Definition ctx_Err : M platform (option error) := fun w =>
  (Ok (next None (ctx_looks w)),
   Platform (tl (ctx_looks w)) (scan_looks w) (open_results w) (new_results w) (close_results w) (answers w)
     (opened_count w) (events w)).
Definition scanCtx_Err : M platform (option error) := fun w =>
  (Ok (next None (scan_looks w)),
   Platform (ctx_looks w) (tl (scan_looks w)) (open_results w) (new_results w) (close_results w) (answers w)
     (opened_count w) (events w)).

(** The native open of a device, the constructor of its transport, which
    does not close it, and its closing. *)
Definition native_open (a : address) : M platform handle := fun w =>
  match next None (open_results w) with
  | Some e =>
      (Err e, Platform (ctx_looks w) (scan_looks w) (tl (open_results w)) (new_results w) (close_results w)
                (answers w) (opened_count w) (events w))
  | None =>
      (Ok (opened_count w),
       Platform (ctx_looks w) (scan_looks w) (tl (open_results w)) (new_results w) (close_results w)
         (answers w) (S (opened_count w)) (events w ++ [EOpened a (opened_count w)]))
  end.
Definition transport_New (d : handle) : M platform handle := fun w =>
  (match next None (new_results w) with Some e => Err e | None => Ok d end,
   Platform (ctx_looks w) (scan_looks w) (open_results w) (tl (new_results w)) (close_results w) (answers w)
     (opened_count w) (events w)).
Definition native_Close (d : handle) : M platform (option error) := fun w =>
  (Ok (next None (close_results w)),
   log (EClosed d) (Platform (ctx_looks w) (scan_looks w) (open_results w) (new_results w)
     (tl (close_results w)) (answers w) (opened_count w) (events w))).

(** The consumer's [yield], recorded, for transports and for a list. *)
Definition consumer (item : handle + error) : M platform bool := fun w =>
  (Ok (next true (answers w)),
   log (EYielded item (next true (answers w))) (Platform (ctx_looks w) (scan_looks w) (open_results w)
     (new_results w) (close_results w) (tl (answers w)) (opened_count w) (events w))).

Definition lister {Info} (Address : Info -> address) (item : Info + error) : M platform bool := fun w =>
  (Ok (next true (answers w)),
   log (EListed (sum_map Address (fun e => e) item) (next true (answers w))) (Platform (ctx_looks w) (scan_looks w) (open_results w)
     (new_results w) (close_results w) (tl (answers w)) (opened_count w) (events w))).

(** ** Opening *)

(** The constructor on an opened device, which is closed when it fails:
    [return nil, errors.Join(err, device.Close())]. *)
Definition new_or_close (d : handle) : M platform handle :=
  r ← try_ (transport_New d);
  match r with
  | inl transport => mret transport
  | inr err =>
      closeErr ← native_Close d;
      match errors_Join (Some err) closeErr with Some e => fail e | None => mret d end
  end.

(** [Open] of hid, pcsc and token2, which look at the context first; they
    differ in the native call and in the transport. *)
Definition Open (a : address) : M platform handle :=
  err ← ctx_Err;
  match err with
  | Some e => fail e
  | None => d ← native_open a; new_or_close d
  end.
Definition hid_Open (path : address) : M platform handle := Open path.
Definition pcsc_Open (reader : address) : M platform handle := Open reader.
Definition token2_Open (reader : address) : M platform handle := Open reader.

(** [openWith] of ble, with its [Open], and [Open] of tcp: the native call has
    the context. *)
Definition openWith (id : address) (openPeripheral : address -> M platform handle) : M platform handle :=
  d ← openPeripheral id; new_or_close d.
Definition ble_Open (id : address) : M platform handle := openWith id native_open.
Definition tcp_Dial (a : address) : M platform handle := native_open a.
Definition tcp_Open (a : address) : M platform handle := d ← tcp_Dial a; new_or_close d.

(** ** Sequences

    A loop over a sequence is the sequence run on the loop's body; the body
    says whether to go on, [break] and [return] being false. *)

(** A native sequence: the items and errors it will produce. *)
Fixpoint native {A} (items : list (A + error)) (body : A + error -> M platform bool) : M platform unit :=
  match items with
  | [] => mret tt
  | item :: items' =>
      go_on ← body item;
      if (go_on : bool) then native items' body else mret tt
  end.

Definition yield_and_return {A} (yield : A + error -> M platform bool) (err : error) : M platform bool :=
  yield (inr err);; mret false.

Section Backends.
(** The native library's description of a device, and the member it is
    opened by: [info.Path], [reader.Name], [info.ID]. *)
Context {Info : Type} (Address : Info -> address).

(** [Devices] of hid. *)
Definition hid_Devices (enumerate : list (Info + error)) (yield : Info + error -> M platform bool)
    : M platform unit :=
  err ← ctx_Err;
  match err with
  | Some e => yield (inr e);; mret tt
  | None => native enumerate (fun item =>
      err ← ctx_Err;
      match err with Some e => yield_and_return yield e | None => yield item end)
  end.

(** [Devices] of pcsc: the readers with a card. *)
Definition pcsc_Devices (present : Info -> bool) (enumerate : list (Info + error))
    (yield : Info + error -> M platform bool) : M platform unit :=
  err ← ctx_Err;
  match err with
  | Some e => yield (inr e);; mret tt
  | None => native enumerate (fun item =>
      err ← ctx_Err;
      match err, item with
      | Some e, _ => yield_and_return yield e
      | None, inr e => yield_and_return yield e
      | None, inl reader => if negb (present reader) then mret true else yield (inl reader)
      end)
  end.

(** [Enumerate] of hid, pcsc and hidproxy over their [Devices]: the body of
    its loop, and the loop. *)
Definition Enumerate_item (open : address -> M platform handle) (yield : handle + error -> M platform bool)
    (item : Info + error) : M platform bool :=
  match item with
  | inr err => yield_and_return yield err
  | inl info => r ← try_ (open (Address info)); yield r
  end.

Definition Enumerate (devices : (Info + error -> M platform bool) -> M platform unit)
    (open : address -> M platform handle) (yield : handle + error -> M platform bool) : M platform unit :=
  devices (Enumerate_item open yield).

Definition hid_Enumerate (enumerate : list (Info + error)) : (handle + error -> M platform bool) -> M platform unit :=
  Enumerate (hid_Devices enumerate) hid_Open.
Definition pcsc_Enumerate (present : Info -> bool) (enumerate : list (Info + error))
    : (handle + error -> M platform bool) -> M platform unit :=
  Enumerate (pcsc_Devices present enumerate) pcsc_Open.

(** token2: cards that do not have the applet are passed over. *)
Definition as_APDUError (e : error) : option (Z * Z) :=
  match e with EAPDU sw1 sw2 => Some (sw1, sw2) | _ => None end.
Definition isUnsupportedCard (err : error) : bool :=
  bool_decide (errors_As as_APDUError err <> None) || errors_Is err ErrInvalidResponse.

Definition token2_Enumerate_item (yield : handle + error -> M platform bool) (item : Info + error)
    : M platform bool :=
  match item with
  | inr err => yield_and_return yield err
  | inl reader =>
      r ← try_ (token2_Open (Address reader));
      match r with
      | inr err => if isUnsupportedCard err then mret true else yield (inr err)
      | inl transport => yield (inl transport)
      end
  end.

Definition token2_Enumerate (present : Info -> bool) (enumerate : list (Info + error))
    (yield : handle + error -> M platform bool) : M platform unit :=
  pcsc_Devices present enumerate (token2_Enumerate_item yield).

(** [Devices] of token2 opens a card to see whether it has the applet and
    closes it again. *)
Definition token2_Devices_item (yield : Info + error -> M platform bool) (item : Info + error)
    : M platform bool :=
  match item with
  | inr err => yield_and_return yield err
  | inl reader =>
      r ← try_ (token2_Open (Address reader));
      match r with
      | inr err => if isUnsupportedCard err then mret true else yield (inr err)
      | inl transport =>
          closeErr ← native_Close transport;
          match closeErr with Some err => yield (inr err) | None => yield (inl reader) end
      end
  end.

Definition token2_Devices (present : Info -> bool) (enumerate : list (Info + error))
    (yield : Info + error -> M platform bool) : M platform unit :=
  pcsc_Devices present enumerate (token2_Devices_item yield).

(** The scan of ble: every advertised device once, in the order found. The
    result is the candidates, or [None] when the sequence has ended. A
    context that has ended stays so, and its error with it: one look stands
    for both. *)
Fixpoint ble_scan (scan : list (Info + error)) (candidates : list address)
    (yield : handle + error -> M platform bool) : M platform (option (list address)) :=
  match scan with
  | [] => mret (Some candidates)
  | inr err :: _ =>
      ctxErr ← ctx_Err;
      match ctxErr with
      | Some e => yield (inr e);; mret None
      | None =>
          (if errors_Is err context_DeadlineExceeded then
             scanErr ← scanCtx_Err;
             mret (match scanErr with Some e => errors_Is e context_DeadlineExceeded | None => false end)
           else mret false) ≫= fun scanned =>
          if (scanned : bool) then mret (Some candidates)
          else yield (inr err);; mret None
      end
  | inl info :: scan' =>
      if contains candidates (Address info) then ble_scan scan' candidates yield
      else ble_scan scan' (candidates ++ [Address info]) yield
  end.

Fixpoint ble_open (candidates : list address) (yield : handle + error -> M platform bool) : M platform unit :=
  match candidates with
  | [] => mret tt
  | id :: candidates' =>
      err ← ctx_Err;
      match err with
      | Some e => yield (inr e);; mret tt
      | None =>
          r ← try_ (ble_Open id);
          go_on ← yield r;
          if (go_on : bool) then ble_open candidates' yield else mret tt
      end
  end.

Definition ble_enumerator (scan : list (Info + error))
    (yield : handle + error -> M platform bool) : M platform unit :=
  err ← ctx_Err;
  match err with
  | Some e => yield (inr e);; mret tt
  | None =>
      candidates ← ble_scan scan [] yield;
      match candidates with None => mret tt | Some candidates => ble_open candidates yield end
  end.

(** hidproxy outside Windows. *)
Definition ErrNotSupported : error := ESentinel "hidproxy: not supported on this platform".
Definition hidproxy_Devices (yield : Info + error -> M platform bool) : M platform unit :=
  yield (inr ErrNotSupported);; mret tt.
Definition hidproxy_openPath (path : address) : M platform handle := fail ErrNotSupported.
Definition hidproxy_Open (path : address) : M platform handle := d ← hidproxy_openPath path; new_or_close d.
Definition hidproxy_Enumerate : (handle + error -> M platform bool) -> M platform unit :=
  Enumerate hidproxy_Devices hidproxy_Open.
End Backends.

(** ** Ownership *)

Definition opened (evs : list event) : list handle :=
  omap (fun ev => match ev with EOpened _ d => Some d | _ => None end) evs.
Definition closed (evs : list event) : list handle :=
  omap (fun ev => match ev with EClosed d => Some d | _ => None end) evs.
Definition handed (evs : list event) : list handle :=
  omap (fun ev => match ev with EYielded (inl d) _ => Some d | _ => None end) evs.

(** The consumer said no. *)
Definition stops (ev : event) : bool :=
  match ev with EYielded _ go_on | EListed _ go_on => negb go_on | _ => false end.

(** The devices opened are those closed and those handed over. *)
Definition balanced (evs : list event) : Prop := opened evs ≡ₚ closed evs ++ handed evs.

(** Nothing happens after the consumer has said no. *)
Definition ended (evs : list event) : Prop :=
  forall evs1 ev evs2, evs = evs1 ++ ev :: evs2 -> stops ev = true -> evs2 = [].
Definition going_on (evs : list event) : Prop := Forall (fun ev => stops ev = false) evs.

(** The events of one run: from the log before to the log after, with the
    devices numbered on; and what holds of the result and them. *)
Definition ran (w : platform) (evs : list event) (w' : platform) : Prop :=
  events w' = events w ++ evs /\
  opened evs = seq (opened_count w) (opened_count w' - opened_count w) /\
  (opened_count w <= opened_count w')%nat.
Definition runs {A} (m : M platform A) (P : A -> list event -> Prop) : Prop :=
  forall w, exists a w' evs, m w = (Ok a, w') /\ ran w evs w' /\ P a evs.

#[export] Instance runs_proper {A} : Proper ((≡) ==> (=) ==> iff) (@runs A).
Proof.
  intros m m' Hm P ? <-. split; intros Hr w; destruct (Hr w) as (a & w' & evs & Heq & ?);
    exists a, w', evs; (split; [|done]); by rewrite <- Heq.
Qed.

Lemma ran_refl w : ran w [] w.
Proof. unfold ran. rewrite app_nil_r, Nat.sub_diag. by split_and!. Qed.

Lemma ran_trans w evs w1 evs1 w2 : ran w evs w1 -> ran w1 evs1 w2 -> ran w (evs ++ evs1) w2.
Proof.
  intros (He & Ho & Hle) (He1 & Ho1 & Hle1). split_and!.
  - by rewrite He1, He, (assoc_L (++)).
  - unfold opened in *. rewrite omap_app, Ho, Ho1.
    replace (opened_count w2 - opened_count w)%nat
      with ((opened_count w1 - opened_count w) + (opened_count w2 - opened_count w1))%nat by lia.
    rewrite seq_app. do 2 f_equal. lia.
  - lia.
Qed.

Lemma runs_bind {A B} (m : M platform A) (f : A -> M platform B) P Q :
  runs m P -> (forall a evs, P a evs -> runs (f a) (fun b evs' => Q b (evs ++ evs'))) -> runs (m ≫= f) Q.
Proof.
  intros Hm Hf w. destruct (Hm w) as (a & w1 & evs & H1 & Hr & HP).
  destruct (Hf a evs HP w1) as (b & w2 & evs' & H2 & Hr' & HQ).
  exists b, w2, (evs ++ evs'). split_and!; [|by eapply ran_trans|done].
  by rewrite (M_bind_Ok _ _ _ _ _ H1).
Qed.

Lemma runs_ret {A} (a : A) (P : A -> list event -> Prop) : P a [] -> runs (mret a) P.
Proof. intros HP w. exists a, w, []. split_and!; [done|apply ran_refl|done]. Qed.

Lemma runs_weaken {A} (m : M platform A) (P Q : A -> list event -> Prop) :
  runs m P -> (forall a evs, P a evs -> Q a evs) -> runs m Q.
Proof. intros Hm HPQ w. destruct (Hm w) as (a & w' & evs & ? & ? & ?). exists a, w', evs. auto. Qed.

(** A quiet step: nothing happens to the devices. *)
Lemma runs_ctx_Err : runs ctx_Err (fun _ evs => evs = []).
Proof.
  intros w. eexists _, _, []. split_and!; [done| |done]. unfold ran. cbn.
  rewrite app_nil_r, Nat.sub_diag. by split_and!.
Qed.
Lemma runs_scanCtx_Err : runs scanCtx_Err (fun _ evs => evs = []).
Proof.
  intros w. eexists _, _, []. split_and!; [done| |done]. unfold ran. cbn.
  rewrite app_nil_r, Nat.sub_diag. by split_and!.
Qed.

Lemma runs_consumer item : runs (consumer item) (fun b evs => evs = [EYielded item b]).
Proof.
  intros w. eexists _, _, _. split_and!; [done| |done]. unfold ran. cbn.
  rewrite Nat.sub_diag. by split_and!.
Qed.
Lemma runs_lister {Info} (Address : Info -> address) (item : Info + error) :
  runs (lister Address item) (fun b evs => evs = [EListed (sum_map Address (fun e => e) item) b]).
Proof.
  intros w. eexists _, _, _. split_and!; [done| |done]. unfold ran. cbn.
  rewrite Nat.sub_diag. by split_and!.
Qed.
Lemma runs_native_Close d : runs (native_Close d) (fun _ evs => evs = [EClosed d]).
Proof.
  intros w. eexists _, _, _. split_and!; [done| |done]. unfold ran. cbn.
  rewrite Nat.sub_diag. by split_and!.
Qed.

(** An attempt to open an address: a transport on its device just opened, or
    an error, the device closed again if it was opened. *)
Definition attempted (a : address) (r : handle + error) (evs : list event) : Prop :=
  match r with
  | inl d => evs = [EOpened a d]
  | inr _ => evs = [] \/ exists d, evs = [EOpened a d; EClosed d]
  end.

Lemma runs_ble_Open a : runs (try_ (ble_Open a)) (attempted a).
Proof.
  intros w. unfold ble_Open, openWith, native_open, try_, mbind, M_bind.
  destruct (next None (open_results w)) as [e|].
  { eexists _, _, []. split_and!; [done| |by left]. unfold ran. cbn. rewrite app_nil_r, Nat.sub_diag. by split_and!. }
  unfold new_or_close, transport_New, try_, mbind, M_bind, native_Close. cbn.
  destruct (next None (new_results w)) as [e|]; cbn.
  - destruct (next None (close_results w)) as [e'|]; cbn;
      eexists _, _, [EOpened a (opened_count w); EClosed (opened_count w)];
      (split_and!; [done| |by right; exists (opened_count w)]); unfold ran; cbn;
      rewrite <- (assoc_L (++)); (split_and!; [done| |lia]);
      by replace (S (opened_count w) - opened_count w)%nat with 1%nat by lia.
  - eexists _, _, [EOpened a (opened_count w)]. split_and!; [done| |done]. unfold ran. cbn.
    split_and!; [done| |lia]. by replace (S (opened_count w) - opened_count w)%nat with 1%nat by lia.
Qed.

Lemma try_Open a : try_ (Open a) ≡
  err ← ctx_Err; match err with Some e => mret (inr e) | None => try_ (ble_Open a) end.
Proof. intros w. unfold Open, ble_Open, openWith, try_, mbind, M_bind, ctx_Err. by destruct (next None (ctx_looks w)). Qed.

Lemma runs_Open a : runs (try_ (Open a)) (attempted a).
Proof.
  rewrite try_Open. eapply runs_bind; [apply runs_ctx_Err|].
  intros [e|] evs ->; [apply runs_ret; by left|apply runs_ble_Open].
Qed.

(** ** Loops *)

Lemma ended_one ev : ended [ev].
Proof. intros [|? [|]] ev' evs2 [= -> <-]; done. Qed.

Lemma ended_app evs evs' : going_on evs -> ended evs' -> ended (evs ++ evs').
Proof.
  induction evs as [|ev evs IH]; intros Hg He; [done|].
  apply Forall_cons in Hg as [Hev Hg]. intros [|ev1 evs1] ev' evs2 [= -> Heq] Hs; [congruence|].
  by apply (IH Hg He _ _ _ Heq).
Qed.

Lemma going_on_ended evs : going_on evs -> ended evs.
Proof.
  intros Hg. rewrite <- (app_nil_r evs). apply ended_app; [done|].
  intros evs1 ev evs2 H. by destruct evs1.
Qed.

(** What holds of the events of a sequence: the devices are accounted for,
    nothing follows the consumer's no, and there are no events but the allowed
    ones. The body of a loop goes on only if there was no no. *)
Section Fairness.
Context (allowed : event -> Prop).

Definition fair (evs : list event) : Prop := balanced evs /\ ended evs /\ Forall allowed evs.
Definition fair_body (go_on : bool) (evs : list event) : Prop :=
  fair evs /\ (go_on = true -> going_on evs).

Lemma balanced_app evs evs' : balanced evs -> balanced evs' -> balanced (evs ++ evs').
Proof.
  unfold balanced, opened, closed, handed. intros Hb Hb'. rewrite !omap_app, Hb, Hb'. solve_Permutation.
Qed.

Lemma fair_app evs evs' : fair evs -> going_on evs -> fair evs' -> fair (evs ++ evs').
Proof.
  intros (Hb & _ & Ha) Hg (Hb' & He & Ha'). split_and!;
    [by apply balanced_app|by apply ended_app|by apply Forall_app].
Qed.

Lemma fair_nil : fair [].
Proof. split_and!; [constructor|apply going_on_ended; constructor|constructor]. Qed.

Lemma fair_body_nil b : fair_body b [].
Proof. split; [apply fair_nil|by constructor]. Qed.

Lemma runs_native {A} (items : list (A + error)) body :
  (forall item, runs (body item) fair_body) -> runs (native items body) (fun _ => fair).
Proof.
  intros Hbody. induction items as [|item items IH]; [apply runs_ret, fair_nil|].
  cbn [native]. eapply runs_bind; [apply Hbody|]. intros [] evs [Hf Hg].
  - eapply runs_weaken; [exact IH|]. intros [] evs' Hf'. apply fair_app; auto.
  - apply runs_ret. by rewrite app_nil_r.
Qed.

(** What a loop asks of its body, and the sequences that keep the promise. *)
Definition kind_yield {A} (yield : A + error -> M platform bool) : Prop :=
  forall item, runs (yield item) fair_body.

Section Sequences.
Context {Info : Type} (yield : Info + error -> M platform bool) (Hyield : kind_yield yield).

Lemma runs_yield_and_return err : runs (yield_and_return yield err) fair_body.
Proof using Hyield.
  eapply runs_bind; [apply Hyield|]. intros b evs [Hf _]. apply runs_ret.
  rewrite app_nil_r. by split.
Qed.

Lemma runs_yield_only err : runs (yield (inr err);; mret tt) (fun _ => fair).
Proof using Hyield.
  eapply runs_bind; [apply Hyield|]. intros b evs [Hf _]. apply runs_ret. by rewrite app_nil_r.
Qed.

Lemma runs_after_ctx_Err {A} (f : option error -> M platform A) P :
  (forall err, runs (f err) P) -> runs (ctx_Err ≫= f) P.
Proof using. intros Hf. eapply runs_bind; [apply runs_ctx_Err|]. intros err evs ->. apply Hf. Qed.

Lemma runs_hid_Devices enumerate : runs (hid_Devices enumerate yield) (fun _ => fair).
Proof using Hyield.
  apply runs_after_ctx_Err. intros [e|]; [apply runs_yield_only|].
  apply runs_native. intros item. apply runs_after_ctx_Err. intros [e|]; [apply runs_yield_and_return|apply Hyield].
Qed.

Lemma runs_pcsc_Devices present enumerate : runs (pcsc_Devices present enumerate yield) (fun _ => fair).
Proof using Hyield.
  apply runs_after_ctx_Err. intros [e|]; [apply runs_yield_only|].
  apply runs_native. intros item. apply runs_after_ctx_Err. intros [e|]; [apply runs_yield_and_return|].
  destruct item as [reader|e]; [|apply runs_yield_and_return].
  destruct (negb (present reader)); [apply runs_ret, fair_body_nil|apply Hyield].
Qed.

Lemma runs_hidproxy_Devices : runs (hidproxy_Devices yield) (fun _ => fair).
Proof using Hyield. by apply runs_yield_only. Qed.
End Sequences.
End Fairness.

(** ** The bodies of the loops *)

Definition any (ev : event) : Prop := True.
Definition no_handover (ev : event) : Prop := handed [ev] = [].

Lemma any_all evs : Forall any evs.
Proof. by apply Forall_true. Qed.

Lemma attempt_going_on a r evs : attempted a r evs -> going_on evs.
Proof.
  destruct r as [d|e]; simpl; [intros ->; by repeat constructor|].
  intros [->|[d ->]]; by repeat constructor.
Qed.

(** An item handed to the consumer after an attempt to open. *)
Lemma fair_attempt a r evs go_on : attempted a r evs -> fair_body any go_on (evs ++ [EYielded r go_on]).
Proof.
  intros Ha. pose proof (attempt_going_on _ _ _ Ha) as Hg. split; [split_and!|].
  - unfold balanced. destruct r as [d|e]; simpl in Ha; [by subst|]. by destruct Ha as [->|[d ->]].
  - apply ended_app; [done|apply ended_one].
  - apply any_all.
  - intros ->. apply Forall_app. split; [done|by repeat constructor].
Qed.

(** An attempt that fails leaves nothing open. *)
Lemma fair_failed allowed a e evs go_on :
  (forall d, allowed (EOpened a d) /\ allowed (EClosed d)) -> attempted a (inr e) evs -> fair_body allowed go_on evs.
Proof.
  intros Hal Ha. pose proof (attempt_going_on _ _ _ Ha) as Hg. split; [split_and!|done].
  - unfold balanced. by destruct Ha as [->|[d ->]].
  - by apply going_on_ended.
  - destruct Ha as [->|[d ->]]; [constructor|]. destruct (Hal d). by repeat constructor.
Qed.

Lemma runs_yield_error err : runs (yield_and_return consumer err) (fair_body any).
Proof.
  eapply runs_bind; [apply runs_consumer|]. intros b evs ->. apply runs_ret. rewrite app_nil_r.
  split; [split_and!; [constructor|apply ended_one|apply any_all]|done].
Qed.

Lemma runs_open_and_yield a open :
  runs (try_ open) (attempted a) -> runs (r ← try_ open; consumer r) (fair_body any).
Proof.
  intros Ho. eapply runs_bind; [exact Ho|]. intros r evs Ha.
  eapply runs_weaken; [apply runs_consumer|]. intros b evs' ->. by eapply fair_attempt.
Qed.

Lemma kind_Enumerate_item {Info} (Address : Info -> address) (open : address -> M platform handle) :
  (forall a, runs (try_ (open a)) (attempted a)) -> kind_yield any (Enumerate_item Address open consumer).
Proof. intros Ho [info|err]; [by eapply runs_open_and_yield|apply runs_yield_error]. Qed.

(** token2 passes over the cards without the applet. *)
Lemma kind_token2_Enumerate_item {Info} (Address : Info -> address) :
  kind_yield any (token2_Enumerate_item Address consumer).
Proof.
  intros [info|err]; [|apply runs_yield_error].
  eapply runs_bind; [apply runs_Open|]. intros [d|e] evs Ha.
  - eapply runs_weaken; [apply runs_consumer|]. intros b evs' ->. by eapply fair_attempt.
  - destruct (isUnsupportedCard e).
    + apply runs_ret. rewrite app_nil_r. by eapply fair_failed.
    + eapply runs_weaken; [apply runs_consumer|]. intros b evs' ->. by eapply fair_attempt.
Qed.

Lemma no_handover_handed evs : Forall no_handover evs -> handed evs = [].
Proof.
  induction 1 as [|ev evs Hev _ IH]; [done|]. unfold no_handover, handed in *. cbn in *. rewrite IH.
  by destruct ev as [| |[]|].
Qed.

(** Its listing closes what it opens. *)
Definition opens (evs : list event) : Prop :=
  Forall no_handover evs /\ going_on evs /\ opened evs = closed evs.

Lemma fair_listed item evs b : opens evs -> fair_body no_handover b (evs ++ [EListed item b]).
Proof.
  intros (Ha & Hg & Heq). split; [split_and!|].
  - pose proof (no_handover_handed _ Ha) as Hh. unfold balanced, opened, closed, handed in *.
    by rewrite !omap_app, Heq, Hh, !app_nil_r.
  - apply ended_app; [done|apply ended_one].
  - apply Forall_app. split; [done|by repeat constructor].
  - intros ->. apply Forall_app. split; [done|by repeat constructor].
Qed.

Lemma opens_failed a e evs : attempted a (inr e) evs -> opens evs.
Proof. intros [->|[d ->]]; by repeat constructor. Qed.

Lemma runs_list_after {Info} (Address : Info -> address) (item : Info + error) evs :
  opens evs -> runs (lister Address item) (fun b evs' => fair_body no_handover b (evs ++ evs')).
Proof. intros Ho. eapply runs_weaken; [apply runs_lister|]. intros b evs' ->. by apply fair_listed. Qed.

Lemma kind_lister {Info} (Address : Info -> address) : kind_yield no_handover (lister Address).
Proof. intros item. by apply (runs_list_after Address item []); repeat constructor. Qed.

Lemma kind_token2_Devices_item {Info} (Address : Info -> address) :
  kind_yield no_handover (token2_Devices_item Address (lister Address)).
Proof.
  intros [info|err]; [|apply runs_yield_and_return, kind_lister].
  eapply runs_bind; [apply runs_Open|]. intros [d|e] evs Ha.
  - eapply runs_bind; [apply runs_native_Close|]. intros closeErr evs' ->.
    assert (opens (evs ++ [EClosed d])) by (rewrite Ha; by repeat constructor).
    destruct closeErr as [err|]; (eapply runs_weaken; [by apply runs_list_after|]);
      intros b evs'; by rewrite (assoc_L (++)).
  - destruct (isUnsupportedCard e).
    + apply runs_ret. rewrite app_nil_r. by eapply fair_failed.
    + apply runs_list_after. by eapply opens_failed.
Qed.

(** ** The scan of ble *)

Lemma runs_ble_scan {Info} (Address : Info -> address) (scan : list (Info + error)) candidates :
  runs (ble_scan Address scan candidates consumer) (fun r evs => fair any evs /\ (r <> None -> evs = [])).
Proof.
  assert (Hstop : forall e, runs (consumer (inr e);; mret (@None (list address)))
      (fun r evs => fair any evs /\ (r <> None -> evs = []))).
  { intros e. eapply runs_bind; [apply runs_consumer|]. intros b evs ->. apply runs_ret. split; [|done].
    rewrite app_nil_r. split_and!; [constructor|apply ended_one|apply any_all]. }
  revert candidates. induction scan as [|[info|err] scan IH]; intros candidates; cbn [ble_scan].
  - apply runs_ret. split; [apply fair_nil|done].
  - by destruct (contains candidates (Address info)).
  - apply runs_after_ctx_Err. intros [e|]; [apply Hstop|].
    eapply (runs_bind _ _ (fun _ evs => evs = [])).
    + destruct (errors_Is err context_DeadlineExceeded); [|by apply runs_ret].
      eapply runs_bind; [apply runs_scanCtx_Err|]. intros r evs ->. by apply runs_ret.
    + intros [] evs ->; [|apply Hstop]. apply runs_ret. split; [apply fair_nil|done].
Qed.

Lemma runs_ble_open candidates : runs (ble_open candidates consumer) (fun _ => fair any).
Proof.
  induction candidates as [|id candidates IH]; [apply runs_ret, fair_nil|]. cbn [ble_open].
  apply runs_after_ctx_Err. intros [e|].
  - eapply runs_bind; [apply runs_consumer|]. intros b evs ->. apply runs_ret.
    rewrite app_nil_r. split_and!; [constructor|apply ended_one|apply any_all].
  - eapply runs_bind; [apply runs_ble_Open|]. intros r evs Ha.
    eapply runs_bind; [apply runs_consumer|]. intros b evs' ->.
    destruct (fair_attempt _ r evs b Ha) as [Hf Hg]. destruct b.
    + eapply runs_weaken; [exact IH|]. intros [] evs' Hf'. rewrite (assoc_L (++)). apply fair_app; auto.
    + apply runs_ret. by rewrite app_nil_r.
Qed.

(** ** The backends *)

Lemma runs_Enumerate {Info} (Address : Info -> address) (open : address -> M platform handle) devices :
  (forall yield, kind_yield any yield -> runs (devices yield) (fun _ => fair any)) ->
  (forall a, runs (try_ (open a)) (attempted a)) ->
  runs (Enumerate Address devices open consumer) (fun _ => fair any).
Proof. intros Hd Ho. apply Hd. by apply kind_Enumerate_item. Qed.

Lemma runs_hidproxy_Open path : runs (try_ (hidproxy_Open path)) (attempted path).
Proof. intros w. eexists _, w, []. split_and!; [done|apply ran_refl|by left]. Qed.

(** *** Without failures

    Nothing fails; the consumer answers what it answers. Each device is opened
    by its address and handed over, in order, until the consumer says no. *)
Definition quiet (ans : list bool) (count : nat) (evs : list event) : platform :=
  Platform [] [] [] [] [] ans count evs.

Fixpoint delivered (devices : list address) (ans : list bool) (d : handle) : list event :=
  match devices with
  | [] => []
  | a :: devices' =>
      EOpened a d :: EYielded (inl d) (next true ans) ::
        (if next true ans then delivered devices' (tl ans) (S d) else [])
  end.

(** The cards of token2 are opened, closed and listed. *)
Fixpoint listed (devices : list address) (ans : list bool) (d : handle) : list event :=
  match devices with
  | [] => []
  | a :: devices' =>
      EOpened a d :: EClosed d :: EListed (inl a) (next true ans) ::
        (if next true ans then listed devices' (tl ans) (S d) else [])
  end.

(** What one device of a loop makes happen. *)
Definition step_events (evs_of : address -> list bool -> handle -> list event)
    (all : list address -> list bool -> handle -> list event) : Prop :=
  (forall ans d, all [] ans d = []) /\
  (forall a devices ans d, all (a :: devices) ans d =
     evs_of a ans d ++ (if next true ans then all devices (tl ans) (S d) else [])).

(** A body that opens a device it keeps. *)
Definition delivers {Info} (Address : Info -> address) (keep : Info -> bool)
    (evs_of : address -> list bool -> handle -> list event) (body : Info + error -> M platform bool) : Prop :=
  forall i ans d evs, body (inl i) (quiet ans d evs) =
    if keep i then (Ok (next true ans), quiet (tl ans) (S d) (evs ++ evs_of (Address i) ans d))
    else (Ok true, quiet ans d evs).

Lemma native_delivers {Info} (Address : Info -> address) (keep : Info -> bool) evs_of all body infos ans d evs :
  step_events evs_of all -> delivers Address keep evs_of body ->
  events (snd (native (inl <$> infos) body (quiet ans d evs)))
  = evs ++ all (Address <$> base.filter keep infos) ans d.
Proof.
  intros [Hnil Hcons] Hb. revert ans d evs. induction infos as [|i infos IH]; intros ans d evs.
  { cbn. by rewrite Hnil, app_nil_r. }
  rewrite fmap_cons. cbn [native]. unfold mbind at 1, M_bind at 1. rewrite Hb, filter_cons.
  destruct (keep i) eqn:Hk.
  - rewrite decide_True, fmap_cons, Hcons by done.
    destruct (next true ans); [rewrite IH; by rewrite <- (assoc_L (++))|cbn; by rewrite app_nil_r].
  - rewrite decide_False by (by intros []). apply IH.
Qed.

Definition delivery (a : address) (ans : list bool) (d : handle) : list event :=
  [EOpened a d; EYielded (inl d) (next true ans)].
Definition listing (a : address) (ans : list bool) (d : handle) : list event :=
  [EOpened a d; EClosed d; EListed (inl a) (next true ans)].

Lemma step_delivered : step_events delivery delivered.
Proof. by split. Qed.
Lemma step_listed : step_events listing listed.
Proof. by split. Qed.

Lemma filter_keep_all {A} (l : list A) : base.filter (fun _ => true) l = l.
Proof. induction l as [|x l IH]; [done|]. by rewrite filter_cons_True, IH. Qed.

Lemma quiet_ctx_Err {A} (f : option error -> M platform A) ans d evs :
  (ctx_Err ≫= f) (quiet ans d evs) = f None (quiet ans d evs).
Proof. done. Qed.

Lemma quiet_Open a ans d evs :
  try_ (Open a) (quiet ans d evs) = (Ok (inl d), quiet ans (S d) (evs ++ [EOpened a d])).
Proof. done. Qed.

Lemma quiet_ble_Open a ans d evs :
  try_ (ble_Open a) (quiet ans d evs) = (Ok (inl d), quiet ans (S d) (evs ++ [EOpened a d])).
Proof. done. Qed.

Lemma quiet_handed d ans c evs :
  consumer (inl d) (quiet ans c evs) =
  (Ok (next true ans), quiet (tl ans) c (evs ++ [EYielded (inl d) (next true ans)])).
Proof. done. Qed.

Lemma quiet_open a ans d evs :
  (r ← try_ (Open a); consumer r) (quiet ans d evs) =
  (Ok (next true ans), quiet (tl ans) (S d) (evs ++ delivery a ans d)).
Proof.
  rewrite (M_bind_Ok _ _ _ _ _ (quiet_Open a ans d evs)), quiet_handed. by rewrite <- (assoc_L (++)).
Qed.

Section Deliveries.
Context {Info : Type} (Address : Info -> address) (present : Info -> bool) (infos : list Info) (ans : list bool).

Lemma hid_delivers :
  events (snd (hid_Enumerate Address (inl <$> infos) consumer (quiet ans 0 [])))
  = delivered (Address <$> infos) ans 0.
Proof using.
  unfold hid_Enumerate, Enumerate, hid_Devices. rewrite quiet_ctx_Err.
  rewrite (native_delivers Address (fun _ => true) _ _ _ _ _ _ _ step_delivered); [by rewrite filter_keep_all|].
  intros i ans' d evs. rewrite quiet_ctx_Err. apply quiet_open.
Qed.

Lemma pcsc_delivers :
  events (snd (pcsc_Enumerate Address present (inl <$> infos) consumer (quiet ans 0 [])))
  = delivered (Address <$> base.filter present infos) ans 0.
Proof using.
  unfold pcsc_Enumerate, Enumerate, pcsc_Devices. rewrite quiet_ctx_Err.
  rewrite (native_delivers Address present _ _ _ _ _ _ _ step_delivered); [done|].
  intros i ans' d evs. rewrite quiet_ctx_Err. destruct (present i); [apply quiet_open|done].
Qed.

Lemma token2_delivers :
  events (snd (token2_Enumerate Address present (inl <$> infos) consumer (quiet ans 0 [])))
  = delivered (Address <$> base.filter present infos) ans 0.
Proof using.
  unfold token2_Enumerate, pcsc_Devices. rewrite quiet_ctx_Err.
  rewrite (native_delivers Address present _ _ _ _ _ _ _ step_delivered); [done|].
  intros i ans' d evs. rewrite quiet_ctx_Err.
  destruct (present i); [|done]. cbn [token2_Enumerate_item negb].
  rewrite (M_bind_Ok _ _ _ _ _ (quiet_Open (Address i) ans' d evs)), quiet_handed. by rewrite <- (assoc_L (++)).
Qed.

Lemma token2_lists :
  events (snd (token2_Devices Address present (inl <$> infos) (lister Address) (quiet ans 0 [])))
  = listed (Address <$> base.filter present infos) ans 0.
Proof using.
  unfold token2_Devices, pcsc_Devices. rewrite quiet_ctx_Err.
  rewrite (native_delivers Address present _ _ _ _ _ _ _ step_listed); [done|].
  intros i ans' d evs. rewrite quiet_ctx_Err.
  destruct (present i); [|done]. cbn [token2_Devices_item negb].
  rewrite (M_bind_Ok _ _ _ _ _ (quiet_Open (Address i) ans' d evs)).
  unfold mbind, M_bind, native_Close, lister, log, quiet, listing. cbn. by rewrite <- !(assoc_L (++)).
Qed.

Lemma ble_open_delivers devices ans' d evs :
  events (snd (ble_open devices consumer (quiet ans' d evs))) = evs ++ delivered devices ans' d.
Proof using.
  revert ans' d evs. induction devices as [|a devices IH]; intros ans' d evs; [by rewrite app_nil_r|].
  cbn [ble_open delivered]. rewrite quiet_ctx_Err, (M_bind_Ok _ _ _ _ _ (quiet_ble_Open a ans' d evs)).
  rewrite (M_bind_Ok _ _ _ _ _ (quiet_handed _ _ _ _)).
  destruct (next true ans'); [rewrite IH|cbn]; by rewrite <- !(assoc_L (++)).
Qed.
End Deliveries.

(** *** The scan *)

(** Each address where it was first seen. *)
Fixpoint first_seen (l : list address) : list address :=
  match l with
  | [] => []
  | a :: l' => a :: base.filter (fun b => b <> a) (first_seen l')
  end.

(** The scan with [cs] found so far, up to where it ends. *)
Lemma ble_scan_candidates {Info} (Address : Info -> address) (infos : list Info) rest cs w :
  ble_scan Address ((inl <$> infos) ++ rest) cs consumer w =
  ble_scan Address rest (cs ++ base.filter (fun a => a ∉ cs) (first_seen (Address <$> infos))) consumer w.
Proof.
  revert cs. induction infos as [|i infos IH]; intros cs; [by rewrite app_nil_r|].
  rewrite !fmap_cons. cbn [app ble_scan first_seen]. rewrite filter_cons.
  destruct (contains cs (Address i)) eqn:Hc.
  - apply contains_true in Hc. rewrite decide_False by naive_solver. rewrite IH, list_filter_filter. do 2 f_equal.
    apply list_filter_iff. intros a. split; [|naive_solver]. intros Ha. split; [done|]. by intros ->.
  - assert (Hn : Address i ∉ cs) by (intros Hi%contains_true; congruence).
    rewrite decide_True by done. rewrite IH, list_filter_filter, <- (assoc_L (++)). do 3 f_equal.
    apply list_filter_iff. set_solver.
Qed.

(** Whatever the scan runs into, it starts under a live context. *)
Definition scanning (ctx_errs scan_errs : list (option error)) (ans : list bool) : platform :=
  Platform (None :: ctx_errs) scan_errs [] [] [] ans 0 [].

Section Scan.
Context {Info : Type} (Address : Info -> address) (infos : list Info) (ans : list bool).
#[local] Abbreviation found := (first_seen (Address <$> infos)).
#[local] Abbreviation scan rest ctx_errs scan_errs :=
  (events (snd (ble_enumerator Address ((inl <$> infos) ++ rest) consumer (scanning ctx_errs scan_errs ans)))).

Lemma ble_enumerator_scan rest ctx_errs scan_errs :
  ble_enumerator Address ((inl <$> infos) ++ rest) consumer (scanning ctx_errs scan_errs ans) =
  (candidates ← ble_scan Address rest found consumer;
   match candidates with None => mret tt | Some candidates => ble_open candidates consumer end)
    (Platform ctx_errs scan_errs [] [] [] ans 0 []).
Proof using.
  unfold ble_enumerator.
  etrans; [by apply (M_bind_Ok ctx_Err _ _ None (Platform ctx_errs scan_errs [] [] [] ans 0 []))|].
  unfold mbind, M_bind. rewrite (ble_scan_candidates Address infos rest [] _). cbn [app].
  replace (base.filter _ found) with found; [done|].
  induction found as [|a l IH]; [done|]. rewrite filter_cons_True by set_solver. by f_equal.
Qed.

Lemma ble_delivers : scan [] [] [] = delivered found ans 0.
Proof using. rewrite ble_enumerator_scan. exact (ble_open_delivers found ans 0 []). Qed.

(** The scan's own deadline ends it; the devices found are opened. *)
Lemma ble_deadline err rest e :
  errors_Is err context_DeadlineExceeded = true -> errors_Is e context_DeadlineExceeded = true ->
  scan (inr err :: rest) [] [Some e] = delivered found ans 0.
Proof using.
  intros Herr He. rewrite ble_enumerator_scan. cbn [ble_scan].
  change (delivered found ans 0) with ([] ++ delivered found ans 0). rewrite <- ble_open_delivers.
  unfold mbind, M_bind, ctx_Err, scanCtx_Err, mret, M_ret.
  cbn. rewrite Herr. cbn. by rewrite He.
Qed.

(** Any other error is handed over and ends the sequence with no device
    opened, the context's in place of the scan's. *)
Lemma ble_scan_error err rest e :
  errors_Is err context_DeadlineExceeded = false \/
    (match e with Some e => errors_Is e context_DeadlineExceeded | None => false end) = false ->
  scan (inr err :: rest) [] [e] = [EYielded (inr err) (next true ans)].
Proof using.
  intros Herr. rewrite ble_enumerator_scan. cbn [ble_scan].
  unfold mbind, M_bind, ctx_Err, scanCtx_Err, mret, M_ret. cbn.
  destruct (errors_Is err context_DeadlineExceeded); [|done]. cbn.
  destruct Herr as [|He]; [done|]. by rewrite He.
Qed.

Lemma ble_scan_cancelled err rest c :
  scan (inr err :: rest) [Some c] [] = [EYielded (inr c) (next true ans)].
Proof using. by rewrite ble_enumerator_scan. Qed.
End Scan.

Lemma runs_ble {Info} (Address : Info -> address) (scan : list (Info + error)) :
  runs (ble_enumerator Address scan consumer) (fun _ => fair any).
Proof.
  apply runs_after_ctx_Err. intros [e|].
  - eapply runs_bind; [apply runs_consumer|]. intros b evs ->. apply runs_ret.
    rewrite app_nil_r. split_and!; [constructor|apply ended_one|apply any_all].
  - eapply runs_bind; [apply runs_ble_scan|]. intros [cs|] evs [Hf He].
    + rewrite He by done. apply runs_ble_open.
    + apply runs_ret. by rewrite app_nil_r.
Qed.

(** The devices are numbered as they are opened; those opened are, in some
    order, those closed and those the consumer has; and the consumer is not
    called, nor a device opened, after it has said no. *)
Definition accounted {A} (m : M platform A) : Prop :=
  runs m (fun _ evs => balanced evs /\ ended evs).
Definition closes_all {A} (m : M platform A) : Prop :=
  runs m (fun _ evs => opened evs ≡ₚ closed evs /\ handed evs = [] /\ ended evs).

Lemma fair_accounted {A} (m : M platform A) : runs m (fun _ => fair any) -> accounted m.
Proof. intros Hm. eapply runs_weaken; [exact Hm|]. by intros a evs (? & ? & _). Qed.

Lemma fair_closes_all {A} (m : M platform A) : runs m (fun _ => fair no_handover) -> closes_all m.
Proof.
  intros Hm. eapply runs_weaken; [exact Hm|]. intros a evs (Hb & He & Ha%no_handover_handed).
  unfold balanced in Hb. rewrite Ha, app_nil_r in Hb. by split_and!.
Qed.

(** C24. Whatever the platform reports, and whatever fails - the context, the
    native calls, the constructors of the transports, the closings - and
    whenever the consumer says no, the enumerations of hid, pcsc, token2, ble
    and hidproxy return, account for every device they opened - it was closed,
    or the consumer has it - and do nothing after the no; the list of token2,
    which opens cards to look at them, leaves none open. Each [Open] opens the
    device it is given and leaves it open exactly when it returns a transport.
    When nothing fails they open by path or name and hand over, in the order
    listed and as far as the consumer goes on, every device or present card.
    The deadline of the scan of ble ends it without an error, and the
    peripherals advertised are opened once each, in the order first seen; any
    other error is handed over and nothing opened. *)
Theorem backends_account_devices {Info : Type} (Address : Info -> address) (present : Info -> bool)
    (items : list (Info + error)) (infos : list Info) (ans : list bool) (a : address) :
  (accounted (hid_Enumerate Address items consumer) /\
   accounted (pcsc_Enumerate Address present items consumer) /\
   accounted (token2_Enumerate Address present items consumer) /\
   accounted (ble_enumerator Address items consumer) /\
   accounted (hidproxy_Enumerate Address consumer) /\
   closes_all (token2_Devices Address present items (lister Address))) /\
  (runs (try_ (hid_Open a)) (attempted a) /\ runs (try_ (pcsc_Open a)) (attempted a) /\
   runs (try_ (token2_Open a)) (attempted a) /\ runs (try_ (ble_Open a)) (attempted a) /\
   runs (try_ (tcp_Open a)) (attempted a)) /\
  (let run enumerate := events (snd (enumerate (inl <$> infos) (quiet ans 0 []))) in
   run (fun l => hid_Enumerate Address l consumer) = delivered (Address <$> infos) ans 0 /\
   let cards := Address <$> base.filter present infos in
   run (fun l => pcsc_Enumerate Address present l consumer) = delivered cards ans 0 /\
   run (fun l => token2_Enumerate Address present l consumer) = delivered cards ans 0 /\
   run (fun l => token2_Devices Address present l (lister Address)) = listed cards ans 0) /\
  let found := first_seen (Address <$> infos) in
  let scan rest ctx_errs scan_errs := events (snd
    (ble_enumerator Address ((inl <$> infos) ++ rest) consumer (scanning ctx_errs scan_errs ans))) in
  scan [] [] [] = delivered found ans 0 /\
  (forall err rest e,
     errors_Is err context_DeadlineExceeded = true -> errors_Is e context_DeadlineExceeded = true ->
     scan (inr err :: rest) [] [Some e] = delivered found ans 0) /\
  (forall err rest e,
     errors_Is err context_DeadlineExceeded = false \/
       match e with Some e => errors_Is e context_DeadlineExceeded | None => false end = false ->
     scan (inr err :: rest) [] [e] = [EYielded (inr err) (next true ans)]) /\
  (forall err rest c, scan (inr err :: rest) [Some c] [] = [EYielded (inr c) (next true ans)]).
Proof.
  split; [|split; [split_and!|split; [cbn zeta; split_and!|cbn zeta; split_and!]]].
  - split_and!; (apply fair_accounted || apply fair_closes_all).
    + apply runs_Enumerate; [intros; by apply runs_hid_Devices|intros; apply runs_Open].
    + apply runs_Enumerate; [intros; by apply runs_pcsc_Devices|intros; apply runs_Open].
    + apply runs_pcsc_Devices, kind_token2_Enumerate_item.
    + apply runs_ble.
    + apply runs_Enumerate; [intros; by apply runs_hidproxy_Devices|intros; apply runs_hidproxy_Open].
    + apply runs_pcsc_Devices, kind_token2_Devices_item.
  - apply runs_Open.
  - apply runs_Open.
  - apply runs_Open.
  - apply runs_ble_Open.
  - apply runs_ble_Open.
  - apply hid_delivers.
  - apply pcsc_delivers.
  - apply token2_delivers.
  - apply token2_lists.
  - apply ble_delivers.
  - apply ble_deadline.
  - apply ble_scan_error.
  - apply ble_scan_cancelled.
Qed.

(** Two peripherals, one of them seen twice, and the end of the scan. *)
Lemma backends_account_devices_witness :
  events (snd (ble_enumerator (fun id : address => id)
    ([inl "first"; inl "second"; inl "first"] ++ [inr context_DeadlineExceeded]) consumer
    (scanning [] [Some context_DeadlineExceeded] []))) =
  [EOpened "first" 0%nat; EYielded (inl 0%nat) true; EOpened "second" 1%nat; EYielded (inl 1%nat) true].
Proof.
  destruct (backends_account_devices (fun id : address => id) (fun _ => true) []
    ["first"; "second"; "first"] [] "first") as (_ & _ & _ & _ & H & _).
  exact (H context_DeadlineExceeded [] context_DeadlineExceeded eq_refl eq_refl).
Defined.
