(* ===== verification/HidProxy.v ===== *)
(** * The hidproxy backend on Windows (src/backend/hidproxy)

    Every call is a connection to the proxy's named pipe, dialled, used and
    closed: [Devices] asks for the list and closes it, [openPath] starts a
    session and hands the connection over, [Events] leaves it to a goroutine.
    [withContextIO] ([context.go]) makes the end of the context close the
    connection, so that a connection may be closed a second time; a pipe that
    is closed refuses that with an error nobody looks at. The pipe's path and the
    messages of the proxy are another module's and are parameters here. *)
From S2P Require Import Prelude GoError Client Token2 Backend.

(** The goroutine of [context.AfterFunc] closes [conn] while the operation
    runs; its second look at the context says whether it did. [unset] is what
    the operation would assign. *)
Definition withContextIO {A} (unset : A) (conn : handle) (operation : M platform (A * option error))
    : M platform (A * option error) :=
  err ← ctx_Err;
  match err with
  | Some e => mret (unset, Some e)
  | None =>
      '(a, err) ← operation;
      ended ← ctx_Err;
      match ended with
      | None => mret (a, err)
      | Some e => native_Close conn;; mret (a, Some e)
      end
  end.

Section Proxy.
Context {Info ProxyMessage : Type} (Address : Info -> address) (NamedPipePath : address).
Context (CommandEnumerate CommandDevicesChanged CommandStart : Z).
Context (NewMessage : Z -> option address -> ProxyMessage + error).
Context (message_Command : ProxyMessage -> Z).
Context (Unmarshal : ProxyMessage -> list Info + error).

(** What the pipe answers a write - an error - and a read of a message. *)
Definition write_only (write : option error) : M platform (unit * option error) := mret (tt, write).
Definition write_and_parse (message : ProxyMessage) (write : option error) (reply : ProxyMessage + error)
    : M platform (ProxyMessage * option error) :=
  match write, reply with
  | Some writeErr, _ => mret (message, Some writeErr)
  | None, inl message => mret (message, None)
  | None, inr err => mret (message, Some err)
  end.

(** The list, handed over device by device while the context lasts. *)
Fixpoint yield_devices (devices : list Info) (yield : Info + error -> M platform bool) : M platform unit :=
  match devices with
  | [] => mret tt
  | device :: devices' =>
      err ← ctx_Err;
      match err with
      | Some e => yield (inr e);; mret tt
      | None =>
          go_on ← yield (inl device);
          if (go_on : bool) then yield_devices devices' yield else mret tt
      end
  end.

(** [Devices] on an open pipe, and whole, with its deferred close. *)
Definition Devices_on (pipe : handle) (write : option error) (reply : ProxyMessage + error)
    (yield : Info + error -> M platform bool) : M platform unit :=
  match NewMessage CommandEnumerate None with
  | inr err => yield (inr err);; mret tt
  | inl message =>
      '(message, err) ← withContextIO message pipe (write_and_parse message write reply);
      match err with
      | Some err => yield (inr err);; mret tt
      | None =>
          match Unmarshal message with
          | inr err => yield (inr err);; mret tt
          | inl devices => yield_devices devices yield
          end
      end
  end.

Definition Devices (write : option error) (reply : ProxyMessage + error)
    (yield : Info + error -> M platform bool) : M platform unit :=
  r ← try_ (native_open NamedPipePath);
  match r with
  | inr err => yield (inr err);; mret tt
  | inl pipe => Devices_on pipe write reply yield;; native_Close pipe;; mret tt
  end.

(** A session started on a new pipe: the whole of [openPath], and the first
    part of [Events]. *)
Definition start (command : Z) (path : option address) (write : option error) : M platform handle :=
  pipe ← native_open NamedPipePath;
  match NewMessage command path with
  | inr err => native_Close pipe;; fail err
  | inl _ =>
      '(_, err) ← withContextIO tt pipe (write_only write);
      match err with
      | Some err => native_Close pipe;; fail err
      | None => mret pipe
      end
  end.
Definition openPath (write : option error) (path : address) : M platform handle :=
  start CommandStart (Some path) write.
Definition Open (write : option error) (path : address) : M platform handle :=
  d ← openPath write path; new_or_close d.
Definition Enumerate (write : option error) (reply : ProxyMessage + error) (start_write : address -> option error)
    : (handle + error -> M platform bool) -> M platform unit :=
  Backend.Enumerate Address (Devices write reply) (fun path => Open (start_write path) path).

(** [contextDevice.Read] and [Write], on what the pipe's call returns. *)
Definition contextDevice_io {A} (zero : A) (d : handle) (outcome : A * option error)
    : M platform (A * option error) :=
  withContextIO zero d (mret outcome).

(** The goroutine of [Events]. What [ParseMessage] returns next, and whether
    the [select] that sends an event has it taken - or the context's end. *)
Inductive proxy_input :=
  | Parsed (message : ProxyMessage) (taken : bool)
  | ParseFailed (err : error) (taken : bool).

(** The events sent: [Some err] is a [DeviceEvent] with an error. *)
Fixpoint Events_loop (inputs : list proxy_input) : M platform (list (option error)) :=
  match inputs with
  | [] => blocked
  | ParseFailed err taken :: _ =>
      ctxErr ← ctx_Err;
      mret (if bool_decide (ctxErr = None) && taken then [Some err] else [])
  | Parsed event taken :: inputs' =>
      if negb (message_Command event =? CommandDevicesChanged) then Events_loop inputs'
      else if (taken : bool) then events ← Events_loop inputs'; mret (None :: events)
      else mret []
  end.
(** The pipe is closed on the way out, and before that, by the goroutine of
    [AfterFunc], when the context has ended. *)
Definition Events_goroutine (pipe : handle) (inputs : list proxy_input) : M platform (list (option error)) :=
  events ← Events_loop inputs;
  ended ← ctx_Err;
  (match ended with Some _ => native_Close pipe;; mret tt | None => mret tt end);;
  native_Close pipe;; mret events.
Definition Events (write : option error) : M platform handle := start CommandDevicesChanged None write.
End Proxy.

(** ** Ownership, when closing again is harmless *)

(** The devices opened are those closed at least once and those handed over;
    [extra] are the further closings. *)
Definition settled (evs : list event) : Prop :=
  exists once extra, closed evs ≡ₚ once ++ extra /\ (forall d, d ∈ extra -> d ∈ once) /\
    opened evs ≡ₚ once ++ handed evs.

Definition is_close (ev : event) : Prop := exists d, ev = EClosed d.

(** After the consumer's no there are only closings. *)
Definition winds_down (evs : list event) : Prop :=
  forall evs1 ev evs2, evs = evs1 ++ ev :: evs2 -> stops ev = true -> Forall is_close evs2.

Lemma balanced_settled evs : balanced evs -> settled evs.
Proof. intros Hb. exists (closed evs), []. rewrite app_nil_r. split_and!; [done|set_solver|done]. Qed.

Lemma ended_winds_down evs : ended evs -> winds_down evs.
Proof. intros He evs1 ev evs2 Heq Hs. by rewrite (He _ _ _ Heq Hs). Qed.

Lemma settled_app evs evs' : settled evs -> settled evs' -> settled (evs ++ evs').
Proof.
  intros (once & extra & Hc & He & Ho) (once' & extra' & Hc' & He' & Ho').
  exists (once ++ once'), (extra ++ extra'). unfold closed, opened, handed in *. rewrite !omap_app.
  split_and!; [rewrite Hc, Hc'; solve_Permutation|set_solver|rewrite Ho, Ho'; solve_Permutation].
Qed.

Ltac by_balanced := apply balanced_settled; unfold balanced; reflexivity.

(** A connection opened before and closed after, once or twice. *)
Lemma settled_wrap a d evs n :
  settled evs -> settled (EOpened a d :: replicate n (EClosed d) ++ evs ++ [EClosed d]).
Proof.
  intros (once & extra & Hc & He & Ho). exists (d :: once), (replicate n d ++ extra).
  assert (Hn : closed (replicate n (EClosed d)) = replicate n d) by (induction n as [|n IH]; cbn; f_equal; done).
  assert (Hn' : opened (replicate n (EClosed d)) = []) by (clear; induction n; done).
  assert (Hn'' : handed (replicate n (EClosed d)) = []) by (clear; induction n; done).
  unfold closed, opened, handed in *. cbn. rewrite !omap_app, Hn, Hn', Hn''. cbn. rewrite !app_nil_r.
  split_and!.
  - rewrite Hc. solve_Permutation.
  - intros x Hx. apply elem_of_app in Hx as [Hx|Hx]; [|set_solver].
    apply elem_of_replicate in Hx as [-> _]. set_solver.
  - by rewrite Ho.
Qed.

Lemma winds_down_app evs evs' : going_on evs -> winds_down evs' -> winds_down (evs ++ evs').
Proof.
  induction evs as [|ev evs IH]; intros Hg He; [done|].
  apply Forall_cons in Hg as [Hev Hg]. intros [|ev1 evs1] ev' evs2 [= -> Heq] Hs; [congruence|].
  by apply (IH Hg He _ _ _ Heq).
Qed.

Lemma winds_down_close evs d : winds_down evs -> winds_down (evs ++ [EClosed d]).
Proof.
  intros He evs1 ev evs2 Heq Hs. destruct evs2 as [|ev2 evs2] using rev_ind; [constructor|].
  rewrite app_comm_cons, (assoc_L (++)) in Heq. apply app_inj_tail in Heq as [Heq <-].
  apply Forall_app. split; [by eapply He|]. constructor; [by exists d|constructor].
Qed.

Definition orderly (evs : list event) : Prop := settled evs /\ winds_down evs.
Definition orderly_body (go_on : bool) (evs : list event) : Prop :=
  orderly evs /\ (go_on = true -> going_on evs).

Lemma fair_orderly evs : fair any evs -> orderly evs.
Proof. intros (Hb & He & _). split; [by apply balanced_settled|by apply ended_winds_down]. Qed.

Lemma orderly_nil : orderly [].
Proof. apply fair_orderly, fair_nil. Qed.

Lemma orderly_app evs evs' : orderly evs -> going_on evs -> orderly evs' -> orderly (evs ++ evs').
Proof. intros [Hs _] Hg [Hs' Hw]. split; [by apply settled_app|by apply winds_down_app]. Qed.

Lemma going_on_closes n d : going_on (replicate n (EClosed d)).
Proof. induction n as [|n IH]; by constructor. Qed.

Lemma orderly_wrap a d n evs :
  orderly evs -> orderly (EOpened a d :: replicate n (EClosed d) ++ evs ++ [EClosed d]).
Proof.
  intros [Hs Hw]. split; [by apply settled_wrap|].
  apply (winds_down_app [EOpened a d]); [by repeat constructor|].
  apply winds_down_app; [apply going_on_closes|by apply winds_down_close].
Qed.

(** ** The connections *)

Lemma runs_native_open a :
  runs (try_ (native_open a)) (fun r evs => match r with inl d => evs = [EOpened a d] | inr _ => evs = [] end).
Proof.
  intros w. unfold native_open, try_. destruct (next None (open_results w)) as [e|].
  - eexists _, _, []. split_and!; [done| |done]. unfold ran. cbn. rewrite app_nil_r, Nat.sub_diag. by split_and!.
  - eexists _, _, [EOpened a (opened_count w)]. split_and!; [done| |done]. unfold ran. cbn.
    split_and!; [done| |lia]. by replace (S (opened_count w) - opened_count w)%nat with 1%nat by lia.
Qed.

(** An operation under a context closes its connection at most once, and then
    reports the context's error. *)
Lemma runs_withContextIO {A} (unset : A) conn operation :
  runs operation (fun _ evs => evs = []) ->
  runs (withContextIO unset conn operation) (fun r evs =>
    evs = [] \/ evs = [EClosed conn] /\ r.2 <> None).
Proof.
  intros Hop. apply runs_after_ctx_Err. intros [e|]; [apply runs_ret; by left|].
  eapply runs_bind; [exact Hop|]. intros [a err] evs ->. apply runs_after_ctx_Err. intros [e|].
  - eapply runs_bind; [apply runs_native_Close|]. intros c evs ->. apply runs_ret. by right.
  - apply runs_ret. by left.
Qed.

Lemma runs_try_bind {A B} (m : M platform A) (f : A -> M platform B) P :
  runs (r ← try_ m; match r with inl a => try_ (f a) | inr e => mret (inr e) end) P -> runs (try_ (m ≫= f)) P.
Proof. intros Hr. by rewrite try_bind. Qed.

Lemma runs_try_quiet {A} (m : M platform A) P :
  runs m P -> runs (try_ m) (fun r evs => exists a, r = inl a /\ P a evs).
Proof.
  intros Hm w. destruct (Hm w) as (a & w' & evs & Heq & Hr & HP). exists (inl a), w', evs.
  unfold try_. rewrite Heq. eauto.
Qed.

(** An attempt to open the pipe: as [attempted], with closings to spare. *)
Definition proxy_attempt (pipe : address) (r : handle + error) (evs : list event) : Prop :=
  match r with
  | inl d => evs = [EOpened pipe d]
  | inr _ => evs = [] \/ exists d n, evs = EOpened pipe d :: replicate n (EClosed d) ++ [EClosed d]
  end.

Lemma attempt_proxy a r evs : attempted a r evs -> proxy_attempt a r evs.
Proof.
  destruct r as [d|e]; [done|]. intros [->|[d ->]]; [by left|]. right. by exists d, 0%nat.
Qed.

Section Runs.
Context {Info ProxyMessage : Type} (Address : Info -> address) (NamedPipePath : address).
Context (CommandEnumerate CommandDevicesChanged CommandStart : Z).
Context (NewMessage : Z -> option address -> ProxyMessage + error).
Context (message_Command : ProxyMessage -> Z).
Context (Unmarshal : ProxyMessage -> list Info + error).

Lemma runs_start command path write : runs (try_ (start NamedPipePath NewMessage command path write)) (proxy_attempt NamedPipePath).
Proof using.
  apply runs_try_bind. eapply runs_bind; [apply runs_native_open|]. intros [d|e] evs ->; [|apply runs_ret; by left].
  destruct (NewMessage command path) as [message|e].
  - apply runs_try_bind. eapply runs_bind.
    { apply runs_try_quiet, (runs_withContextIO tt d (write_only write)). by apply runs_ret. }
    intros r evs ([[] [err|]] & -> & He); cbn in He.
    + apply runs_try_bind. eapply runs_bind; [apply runs_try_quiet, runs_native_Close|].
      intros r evs' (c & -> & ->). intros w. eexists (inr err), w, []. split_and!; [done|apply ran_refl|].
      right. destruct He as [->|[-> _]]; [by exists d, 0%nat|by exists d, 1%nat].
    + destruct He as [->|[_ ?]]; [|done]. by intros w; eexists (inl d), w, []; split_and!; [|apply ran_refl|].
  - apply runs_try_bind. eapply runs_bind; [apply runs_try_quiet, runs_native_Close|].
    intros r evs' (c & -> & ->). intros w. eexists (inr e), w, []. split_and!; [done|apply ran_refl|].
    right. by exists d, 0%nat.
Qed.
End Runs.

Lemma runs_new_or_close d :
  runs (try_ (new_or_close d)) (fun r evs => match r with
    | inl d' => d' = d /\ evs = [] | inr _ => evs = [EClosed d] end).
Proof.
  intros w. unfold new_or_close, transport_New, try_, mbind, M_bind, native_Close. cbn.
  destruct (next None (new_results w)) as [e|]; cbn.
  - destruct (next None (close_results w)) as [e'|]; cbn; eexists _, _, [EClosed d];
      (split_and!; [done| |done]); unfold ran; cbn; rewrite Nat.sub_diag; by split_and!.
  - eexists (inl d), _, []. split; [done|]. split; [|done]. unfold ran. cbn.
    rewrite app_nil_r, Nat.sub_diag. by split_and!.
Qed.

Section Sequences.
Context {Info ProxyMessage : Type} (Address : Info -> address) (NamedPipePath : address).
Context (CommandEnumerate CommandDevicesChanged CommandStart : Z).
Context (NewMessage : Z -> option address -> ProxyMessage + error).
Context (message_Command : ProxyMessage -> Z).
Context (Unmarshal : ProxyMessage -> list Info + error).

Lemma runs_proxy_Open write path :
  runs (try_ (Open NamedPipePath CommandStart NewMessage write path)) (proxy_attempt NamedPipePath).
Proof using.
  apply runs_try_bind. eapply runs_bind; [apply runs_start|]. intros [d|e] evs Ha.
  - eapply runs_weaken; [apply runs_new_or_close|]. simpl in Ha. subst evs. intros [d'|e] evs'.
    + by intros [-> ->].
    + intros ->. right. by exists d, 0%nat.
  - apply runs_ret. by rewrite app_nil_r.
Qed.

Lemma orderly_yielded a r evs b : proxy_attempt a r evs -> orderly_body b (evs ++ [EYielded r b]).
Proof using.
  intros Ha. assert (Hg : going_on evs).
  { destruct r as [d|e]; simpl in Ha; [subst; by repeat constructor|].
    destruct Ha as [->|(d & n & ->)]; [constructor|]. constructor; [done|].
    apply Forall_app. split; [apply going_on_closes|by repeat constructor]. }
  split; [|intros ->; apply Forall_app; split; [done|by repeat constructor]].
  split; [|apply winds_down_app; [done|apply ended_winds_down, ended_one]].
  destruct r as [d|e]; simpl in Ha; [subst; by_balanced|].
  apply settled_app; [|by_balanced]. destruct Ha as [->|(d & n & ->)]; [by_balanced|].
  apply (settled_wrap a d [] n). by_balanced.
Qed.

Lemma kind_proxy_item write (item : Info + error) :
  runs (Enumerate_item Address (fun path => Open NamedPipePath CommandStart NewMessage (write path) path) consumer item) orderly_body.
Proof using.
  destruct item as [info|err].
  - eapply runs_bind; [apply runs_proxy_Open|]. intros r evs Ha.
    eapply runs_weaken; [apply runs_consumer|]. intros b evs' ->. by eapply orderly_yielded.
  - eapply runs_weaken; [apply runs_yield_error|]. intros b evs [Hf Hg]. split; [by apply fair_orderly|done].
Qed.

Context (yield : Info + error -> M platform bool) (Hyield : forall item, runs (yield item) orderly_body).

Lemma runs_yield_last err : runs (yield (inr err);; mret tt) (fun _ => orderly).
Proof using Hyield.
  eapply runs_bind; [apply Hyield|]. intros b evs [Hf _]. apply runs_ret. by rewrite app_nil_r.
Qed.

Lemma runs_yield_devices devices : runs (yield_devices devices yield) (fun _ => orderly).
Proof using Hyield.
  induction devices as [|device devices IH]; [apply runs_ret, orderly_nil|]. cbn [yield_devices].
  apply runs_after_ctx_Err. intros [e|]; [apply runs_yield_last|].
  eapply runs_bind; [apply Hyield|]. intros [] evs [Ho Hg].
  - eapply runs_weaken; [exact IH|]. intros [] evs' Ho'. apply orderly_app; auto.
  - apply runs_ret. by rewrite app_nil_r.
Qed.

Lemma runs_Devices_on pipe write reply :
  runs (Devices_on CommandEnumerate NewMessage Unmarshal pipe write reply yield) (fun _ evs =>
    exists n mid, evs = replicate n (EClosed pipe) ++ mid /\ orderly mid).
Proof using Hyield.
  assert (Hlast : forall err, runs (yield (inr err);; mret tt) (fun _ evs =>
      exists n mid, evs = replicate n (EClosed pipe) ++ mid /\ orderly mid)).
  { intros err. eapply runs_weaken; [apply runs_yield_last|]. intros [] evs Ho. by exists 0%nat, evs. }
  unfold Devices_on. destruct (NewMessage CommandEnumerate None) as [message|err]; [|apply Hlast].
  eapply runs_bind.
  { apply runs_withContextIO. unfold write_and_parse.
    destruct write as [e|]; [by apply runs_ret|]. destruct reply as [m|e]; by apply runs_ret. }
  intros [message' err] evs Hevs.
  assert (Hk : exists k, evs = replicate k (EClosed pipe)) by (destruct Hevs as [->|[-> _]]; [by exists 0%nat|by exists 1%nat]).
  destruct Hk as [k ->]. clear Hevs.
  assert (Hrest : forall (m : M platform unit), runs m (fun _ => orderly) ->
    runs m (fun _ evs' => exists n mid, replicate k (EClosed pipe) ++ evs' = replicate n (EClosed pipe) ++ mid /\ orderly mid)).
  { intros m Hm. eapply runs_weaken; [exact Hm|]. intros [] mid Ho. by exists k, mid. }
  apply Hrest. destruct err as [err|]; [apply runs_yield_last|].
  destruct (Unmarshal message') as [devices|err]; [apply runs_yield_devices|apply runs_yield_last].
Qed.

Lemma runs_Devices write reply :
  runs (Devices NamedPipePath CommandEnumerate NewMessage Unmarshal write reply yield) (fun _ => orderly).
Proof using Hyield.
  eapply runs_bind; [apply runs_native_open|]. intros [pipe|err] evs ->; [|apply runs_yield_last].
  eapply runs_bind; [apply runs_Devices_on|]. intros [] evs (n & mid & -> & Ho).
  eapply runs_bind; [apply runs_native_Close|]. intros c evs ->. apply runs_ret.
  rewrite app_nil_r, <- (assoc_L (++)). by apply orderly_wrap.
Qed.
End Sequences.

(** ** The events *)

Section EventsTheory.
Context {ProxyMessage : Type} (CommandDevicesChanged : Z) (message_Command : ProxyMessage -> Z).
#[local] Abbreviation loop := (Events_loop CommandDevicesChanged message_Command).

(** A change of the devices whose event the receiver took, or another
    message. *)
Definition is_changed (i : proxy_input) : bool :=
  match i with Parsed m _ => message_Command m =? CommandDevicesChanged | ParseFailed _ _ => false end.
Definition goes_on (i : proxy_input) : Prop :=
  match i with
  | Parsed m taken => taken = true \/ message_Command m <> CommandDevicesChanged
  | ParseFailed _ _ => False
  end.
Definition changes (inputs : list proxy_input) : nat := length (List.filter is_changed inputs).

Lemma Events_loop_app inputs rest w :
  Forall goes_on inputs ->
  loop (inputs ++ rest) w = (events ← loop rest; mret (replicate (changes inputs) None ++ events)) w.
Proof using.
  intros Hall. revert w. induction Hall as [|[m taken|err taken] inputs Hi _ IH]; intros w; [|cbn [app Events_loop]|done].
  - cbn. unfold mbind, M_bind. by destruct (loop rest w) as [[] ?].
  - unfold changes. cbn [List.filter is_changed]. destruct (Z.eqb_spec (message_Command m) CommandDevicesChanged) as [E|E].
    + destruct Hi as [->|?]; [|done]. cbn [negb length replicate]. unfold mbind, M_bind. rewrite IH.
      unfold mbind, M_bind. by destruct (loop rest w) as [[] ?].
    + cbn [negb]. apply IH.
Qed.

(** The goroutine closes its pipe and ends. *)
Lemma goroutine_events pipe inputs w r w' :
  loop inputs w = (Ok r, w') ->
  exists w'', Events_goroutine CommandDevicesChanged message_Command pipe inputs w = (Ok r, w'') /\
    events w'' = events w' ++ (if next None (ctx_looks w') is Some _ then [EClosed pipe; EClosed pipe] else [EClosed pipe]).
Proof using.
  intros Hl. unfold Events_goroutine. rewrite (M_bind_Ok _ _ _ _ _ Hl).
  unfold mbind, M_bind, ctx_Err. destruct (next None (ctx_looks w')); eexists; split; try reflexivity; cbn.
  by rewrite <- (assoc_L (++)).
Qed.
End EventsTheory.

(** C35. The proxy's connections are all closed or handed over. Whatever the pipe,
    the proxy and the consumer do, the enumeration returns; every device it
    opened - the connection of the list and those of the sessions - was
    closed or is the consumer's, never both; after the consumer's no there
    are only closings; an [openPath] or [Open] leaves its connection open
    exactly when it returns it. An operation of the device under a context
    that ends closes it and reports that context's error with the bytes of
    the operation, and otherwise is the operation. The goroutine of the events
    reports each change of the devices once, in order, and the error that
    ends them unless the context had ended, stops when the receiver is gone,
    and closes its pipe. *)
Theorem proxy_connections_settled {Info ProxyMessage : Type} (Address : Info -> address) (NamedPipePath : address)
    (CommandEnumerate CommandDevicesChanged CommandStart : Z)
    (NewMessage : Z -> option address -> ProxyMessage + error) (message_Command : ProxyMessage -> Z)
    (Unmarshal : ProxyMessage -> list Info + error) :
  (forall write reply start_write,
     runs (Enumerate Address NamedPipePath CommandEnumerate CommandStart NewMessage Unmarshal write reply start_write consumer)
       (fun _ evs => settled evs /\ winds_down evs)) /\
  (forall write path, 
     runs (try_ (openPath NamedPipePath CommandStart NewMessage write path)) (proxy_attempt NamedPipePath) /\
     runs (try_ (Open NamedPipePath CommandStart NewMessage write path)) (proxy_attempt NamedPipePath) /\
     runs (try_ (Events NamedPipePath CommandDevicesChanged NewMessage write)) (proxy_attempt NamedPipePath)) /\
  (forall A (zero : A) d outcome w, exists w',
     contextDevice_io zero d outcome w =
       (Ok (match next None (ctx_looks w), next None (tl (ctx_looks w)) with
            | Some e, _ => (zero, Some e)
            | None, Some e => (outcome.1, Some e)
            | None, None => outcome
            end), w') /\
     events w' = events w ++
       match next None (ctx_looks w), next None (tl (ctx_looks w)) with
       | None, Some _ => [EClosed d]
       | _, _ => []
       end) /\
  (forall pipe inputs stop rest w, Forall (goes_on CommandDevicesChanged message_Command) inputs ->
     ~ goes_on CommandDevicesChanged message_Command stop ->
     exists w', Events_goroutine CommandDevicesChanged message_Command pipe (inputs ++ stop :: rest) w =
       (Ok (replicate (changes CommandDevicesChanged message_Command inputs) None ++
            match stop, next None (ctx_looks w) with ParseFailed err true, None => [Some err] | _, _ => [] end), w') /\
       exists n, events w' = events w ++ replicate n (EClosed pipe) ++ [EClosed pipe]).
Proof.
  split_and!.
  - intros. apply runs_Devices. intros item. apply kind_proxy_item.
  - intros. split_and!; [apply runs_start|apply runs_proxy_Open|apply runs_start].
  - intros A zero d [a err] w. unfold contextDevice_io, withContextIO, mbind, M_bind, ctx_Err. cbn.
    destruct (next None (ctx_looks w)); [|cbn; destruct (next None (tl (ctx_looks w)))];
      eexists; (split; [reflexivity|]); cbn; by rewrite ?app_nil_r.
  - intros pipe inputs stop rest w Hin Hstop.
    pose proof (Events_loop_app CommandDevicesChanged message_Command inputs (stop :: rest) w Hin) as Hl.
    destruct stop as [m [|]|err taken].
    + destruct Hstop. by left.
    + destruct (Z.eq_dec (message_Command m) CommandDevicesChanged) as [E|E]; [|destruct Hstop; by right].
      cbn [Events_loop] in Hl. rewrite E, Z.eqb_refl in Hl. cbn [negb] in Hl.
      apply (goroutine_events _ _ pipe) in Hl as (w' & Hg & He). exists w'. split; [done|].
      rewrite He. destruct (next None (ctx_looks w)); [by exists 1%nat|by exists 0%nat].
    + cbn [Events_loop] in Hl.
      assert (Hl' : Events_loop CommandDevicesChanged message_Command (inputs ++ ParseFailed err taken :: rest) w =
        (Ok (replicate (changes CommandDevicesChanged message_Command inputs) None ++
             (if bool_decide (next None (ctx_looks w) = None) && taken then [Some err] else [])), snd (ctx_Err w)))
        by exact Hl.
      apply (goroutine_events _ _ pipe) in Hl' as (w' & Hg & He). exists w'. rewrite Hg. split.
      * do 3 f_equal. destruct (next None (ctx_looks w)), taken; reflexivity.
      * rewrite He. by destruct (next None (ctx_looks (snd (ctx_Err w)))); [exists 1%nat|exists 0%nat].
Qed.

(** Two changes, with another message between them, then the end of the pipe. *)
Lemma proxy_connections_settled_witness :
  let inputs := [Parsed 3 true; Parsed 9 false; Parsed 3 true] in
  exists w', Events_goroutine 3 (fun m : Z => m) 0%nat (inputs ++ [ParseFailed io_EOF true])
               (Platform [] [] [] [] [] [] 0 []) =
    (Ok [None; None; Some io_EOF], w') /\
  exists n, events w' = replicate n (EClosed 0%nat) ++ [EClosed 0%nat].
Proof.
  destruct (proxy_connections_settled (Info := Z) (ProxyMessage := Z) (fun _ => EmptyString) EmptyString 1 3 2 (fun _ _ => inr io_EOF) (fun m => m)
    (fun _ => inr io_EOF)) as (_ & _ & _ & H).
  apply (H 0%nat [Parsed 3 true; Parsed 9 false; Parsed 3 true] (ParseFailed io_EOF true) []
    (Platform [] [] [] [] [] [] 0 [])).
  - constructor; [left; reflexivity|]. constructor; [right; discriminate|]. constructor; [left; reflexivity|constructor].
  - exact (fun h => h).
Defined.
