(* ===== verification/TestHid.v ===== *)
(** * The scripted authenticator of the tests (src/internal/testhid/device.go)

    A device whose reads are scripted responses and whose writes are recorded,
    with a parser of the requests it was sent that is written apart from the
    decoder of ctaphid. The theorem makes it a reference for the framing: what
    NewMessage writes is parsed back as sent, what the script says is what
    ReadFrom decodes, and the parser returns on any bytes. *)
From S2P Require Import Prelude GoError HidFraming.

(** [hidPacketSize] to [continuationPacketDataSize] have the values of
    HidFraming. *)
Definition initPacketBit : Z := 0x80.

Record Response := MkResponse { r_CID : ChannelID; r_Command : Z; r_Data : list Z }.

(** [Message] and the responses built with it. *)
Definition scripted (cid : ChannelID) (command : Z) (data : list Z) : Response := MkResponse cid command data.
Definition CBOROK (cid : ChannelID) (data : list Z) : Response := scripted cid CTAPHID_CBOR ([0] ++ data).
Definition CBORStatus (cid : ChannelID) (status : Z) : Response := scripted cid CTAPHID_CBOR [status].
Definition CTAPHIDError (cid : ChannelID) (err : Z) : Response := scripted cid CTAPHID_ERROR [err].
Definition Keepalive (cid : ChannelID) (status : Z) : Response := scripted cid CTAPHID_KEEPALIVE [status].

(** A [Device]: the bytes its reader has left, those it was sent. *)
Record Device := MkDevice { d_reads : list Z; d_writes : list Z; d_closed : bool }.

(** [t.Fatalf] ends the test: an error. *)
Definition Fatalf {A} (text : string) : result A := Err (EText text).

(** Go's [s[lo:hi]] and [s[i]], which panic out of range. *)
Definition subslice (l : list Z) (lo hi : Z) : result (list Z) :=
  if (0 <=? lo) && (lo <=? hi) && (hi <=? len l)
  then Ok (take (Z.to_nat (hi - lo)) (drop (Z.to_nat lo) l)) else Panic.
Definition at_index (l : list Z) (i : Z) : result Z :=
  if (0 <=? i) && (i <? len l) then Ok (nth (Z.to_nat i) l 0) else Panic.

(** Every round takes a report; the fuel is the length. *)
Fixpoint stripReportIDs_loop (fuel : nat) (packets stripped : list Z) : result (list Z) :=
  if len packets <? hidReportPacketSize then Ok stripped
  else match fuel with
       | O => Blocked
       | S fuel' =>
           subslice packets 1 hidReportPacketSize ≫= fun packet =>
           subslice packets hidReportPacketSize (len packets) ≫= fun rest =>
           stripReportIDs_loop fuel' rest (stripped ++ packet)
       end.
Definition stripReportIDs (packets : list Z) : result (list Z) :=
  stripReportIDs_loop (length packets) packets [].

(** [New]: the messages of the script, encoded into a buffer, which takes
    every write, without their report IDs. *)
Fixpoint New_reads (responses : list Response) (reads : list Z) : result (list Z) :=
  match responses with
  | [] => Ok reads
  | response :: responses' =>
      match NewMessage (r_CID response) (r_Command response) (r_Data response) with
      | Ok msg =>
          stripReportIDs (concat (OutputReports msg)) ≫= fun packets =>
          New_reads responses' (reads ++ packets)
      | Err _ => Fatalf "new CTAPHID response message"
      | Panic => Panic
      | Blocked => Blocked
      end
  end.
Definition New (responses : list Response) : result Device :=
  New_reads responses [] ≫= fun reads => Ok (MkDevice reads [] false).
Definition NewCBORDevice (cid : ChannelID) (responses : list (list Z)) : result Device :=
  New (CBOROK cid <$> responses).

(** The methods of a [ctaphid.Device]: a [bytes.Reader] is read, the bytes
    written are kept. *)
Definition Read (size : nat) : M Device (list Z * option error) := fun d =>
  if bool_decide (d_reads d = []) then (Ok ([], Some io_EOF), d)
  else (Ok (take size (d_reads d), None), MkDevice (drop size (d_reads d)) (d_writes d) (d_closed d)).
Definition Write (p : list Z) : M Device (Z * option error) := fun d =>
  (Ok (len p, None), MkDevice (d_reads d) (d_writes d ++ p) (d_closed d)).
Definition Close : M Device (option error) := fun d =>
  (Ok None, MkDevice (d_reads d) (d_writes d) true).
Definition Closed (d : Device) : bool := d_closed d.
Definition Writes (d : Device) : list Z := d_writes d.

(** ** Requests *)

Record Request := MkRequest { q_CID : ChannelID; q_Command : Z; q_Data : list Z }.

(** The loop over the continuation packets, each with a byte of data at least
    - the fuel is what remains. *)
Fixpoint parse_continuations (fuel : nat) (written : list Z) (cid : ChannelID)
    (data : list Z) (remaining consumed expectedSequence : Z) : result (list Z * Z) :=
  if remaining <=? 0 then Ok (data, consumed)
  else match fuel with
       | O => Blocked
       | S fuel' =>
           if len written <? consumed + hidReportPacketSize then Err io_ErrUnexpectedEOF
           else
             at_index written consumed ≫= fun reportID =>
             if negb (reportID =? 0) then Err (EText "unexpected report ID")
             else
               subslice written (consumed + 1) (consumed + 5) ≫= fun raw =>
               if negb (bool_decide (raw = cid_bytes cid)) then Err (EText "unexpected continuation CID")
               else
                 at_index written (consumed + 5) ≫= fun sequence =>
                 if negb (sequence =? expectedSequence) then Err (EText "unexpected continuation sequence")
                 else
                   let dataLen := Z.min remaining continuationPacketDataSize in
                   let start := consumed + 1 + continuationPacketHeaderSize in
                   subslice written start (start + dataLen) ≫= fun chunk =>
                   parse_continuations fuel' written cid (data ++ chunk) (remaining - dataLen)
                     (consumed + hidReportPacketSize) (u8 (expectedSequence + 1))
       end.

Definition parseRequest (written : list Z) : result (Request * Z) :=
  if len written <? hidReportPacketSize then Err io_ErrUnexpectedEOF
  else
    at_index written 0 ≫= fun reportID =>
    if negb (reportID =? 0) then Err (EText "unexpected report ID")
    else
      subslice written 1 5 ≫= fun raw =>
      let cid := cid_of raw in
      at_index written 5 ≫= fun cmd =>
      if negb (has_bit cmd initPacketBit) then Err (EText "continuation packet before init packet")
      else
        let command := Z.land cmd (255 - initPacketBit) in
        at_index written 6 ≫= fun b0 =>
        at_index written 7 ≫= fun b1 =>
        let length := get_be16 b0 b1 in
        let firstPacketDataLen := Z.min length initPacketDataSize in
        subslice written 8 (8 + firstPacketDataLen) ≫= fun data =>
        let remaining := length - firstPacketDataLen in
        parse_continuations (Z.to_nat remaining) written cid data remaining hidReportPacketSize 0
          ≫= fun '(data, consumed) => Ok (MkRequest cid command data, consumed).

(** Every request consumes a report at least; the fuel is the length. *)
Fixpoint ParseRequests_loop (fuel : nat) (written : list Z) (requests : list Request)
    : result (list Request) :=
  if len written <=? 0 then Ok requests
  else match fuel with
       | O => Blocked
       | S fuel' =>
           parseRequest written ≫= fun '(request, consumed) =>
           subslice written consumed (len written) ≫= fun rest =>
           ParseRequests_loop fuel' rest (requests ++ [request])
       end.
Definition ParseRequests (written : list Z) : result (list Request) :=
  ParseRequests_loop (length written) written [].

Definition Requests (d : Device) : result (list Request) :=
  match ParseRequests (d_writes d) with
  | Err _ => Fatalf "parse CTAPHID requests"
  | r => r
  end.
Definition FirstRequest (d : Device) : result Request :=
  Requests d ≫= fun requests =>
  match requests with [] => Fatalf "expected at least one CTAPHID request" | q :: _ => Ok q end.

Definition CTAPPayload (r : Request) : result (Z * list Z) :=
  if negb (q_Command r =? CTAPHID_CBOR) then Fatalf "expected CTAPHID_CBOR request"
  else match q_Data r with
       | [] => Fatalf "expected CTAP command byte in CTAPHID_CBOR request"
       | command :: requestCBOR => Ok (command, requestCBOR)
       end.
Definition FirstCTAPPayload (d : Device) : result (Z * list Z) := FirstRequest d ≫= CTAPPayload.

Section RequestMap.
Context {RequestMap : Type} (Unmarshal : list Z -> result RequestMap).

Definition CTAPRequestMap (r : Request) : result (Z * RequestMap) :=
  CTAPPayload r ≫= fun '(command, requestCBOR) =>
  match Unmarshal requestCBOR with
  | Err _ => Fatalf "decode CTAP request CBOR"
  | Ok request => Ok (command, request)
  | Panic => Panic
  | Blocked => Blocked
  end.
Definition FirstCTAPRequestMap (d : Device) : result (Z * RequestMap) := FirstRequest d ≫= CTAPRequestMap.
End RequestMap.

(** ** Slices *)

Lemma subslice_at l pre mid post lo hi :
  l = pre ++ mid ++ post -> lo = len pre -> hi = len pre + len mid -> subslice l lo hi = Ok mid.
Proof.
  intros -> -> ->. unfold subslice. rewrite !len_app. len_nonneg_all.
  destruct (Z.leb_spec 0 (len pre)), (Z.leb_spec (len pre) (len pre + len mid)),
    (Z.leb_spec (len pre + len mid) (len pre + (len mid + len post))); try lia. cbn [andb].
  replace (len pre + len mid - len pre) with (len mid) by lia. unfold len.
  by rewrite !Nat2Z.id, drop_app_length, take_app_length.
Qed.

Lemma at_index_at l pre x post i : l = pre ++ x :: post -> i = len pre -> at_index l i = Ok x.
Proof.
  intros -> ->. unfold at_index. rewrite len_app, len_cons. len_nonneg_all.
  destruct (Z.leb_spec 0 (len pre)), (Z.ltb_spec (len pre) (len pre + (1 + len post))); try lia.
  cbn [andb]. unfold len. by rewrite Nat2Z.id, nth_middle.
Qed.

(** The bytes of a message with its report IDs, and the report of a packet. *)
Definition sent (m : Message) : list Z := concat (OutputReports m).

Lemma sent_report p m : sent (p :: m) = 0 :: packet_WriteTo p ++ sent m.
Proof. done. Qed.

Lemma len_sent m : Forall packet_fits m -> len (sent m) = hidReportPacketSize * len m.
Proof.
  induction 1 as [|p m Hp _ IH]; [done|]. rewrite sent_report, len_cons, len_app, IH, len_packet_WriteTo, len_cons by done.
  hid_lia.
Qed.

Lemma stripReportIDs_sent m : Forall packet_fits m -> stripReportIDs (sent m) = Ok (concat (packet_WriteTo <$> m)).
Proof.
  assert (Hloop : forall fuel stripped, Forall packet_fits m -> (length m <= fuel)%nat ->
      stripReportIDs_loop fuel (sent m) stripped = Ok (stripped ++ concat (packet_WriteTo <$> m))).
  { induction m as [|p m IH]; intros fuel stripped Hall Hf.
    - destruct fuel; cbn; by rewrite app_nil_r.
    - apply Forall_cons in Hall as [Hp Hall]. destruct fuel as [|fuel]; [simpl in Hf; lia|].
      pose proof (len_packet_WriteTo _ Hp) as Hlen. cbn [stripReportIDs_loop].
      pose proof (len_sent (p :: m) ltac:(by constructor)) as Hs. rewrite len_cons in Hs.
      destruct (Z.ltb_spec (len (sent (p :: m))) hidReportPacketSize); [hid_lia|].
      rewrite (subslice_at (sent (p :: m)) [0] (packet_WriteTo p) (sent m) 1 hidReportPacketSize)
        by (done || rewrite ?Hlen; done).
      cbn [mbind result_bind]. rewrite (subslice_at (sent (p :: m)) (0 :: packet_WriteTo p) (sent m) []
        hidReportPacketSize (len (sent (p :: m))))
        by (rewrite ?app_nil_r, ?sent_report, ?len_cons, ?len_app, ?Hlen; done || hid_lia).
      cbn [mbind result_bind]. rewrite IH by (done || simpl in Hf; lia).
      by rewrite <- (assoc_L (++)). }
  intros Hall. unfold stripReportIDs. apply Hloop; [done|].
  pose proof (len_sent m Hall). unfold len in *. hid_lia.
Qed.

(** ** Parsing what was sent *)

Lemma continuation_report cid seq c :
  exists pad, 0 :: packet_WriteTo (Packet cid 0 seq 0 c true) =
    0 :: cid_bytes cid ++ [seq] ++ c ++ pad.
Proof. destruct (packet_WriteTo_prefix (Packet cid 0 seq 0 c true)) as [pad ->]. by exists pad. Qed.

Lemma len_cid_bytes cid : len (cid_bytes cid) = 4.
Proof. done. Qed.

Lemma chunk_fits n d : Forall (fun c => len c <= continuationPacketDataSize) (cont_chunks d) ->
  forall cid, Forall packet_fits (continuation_packets cid n (cont_chunks d)).
Proof. intros H cid. by apply (packet_fits_continuation _ 58). Qed.

Lemma cont_chunks_fit d cid s : Forall packet_fits (continuation_packets cid s (cont_chunks d)).
Proof.
  apply chunk_fits. eapply Forall_impl; [apply chunk_bounds, continuation_size_pos|].
  intros c [_ Hc]. unfold len. hid_lia.
Qed.

Ltac by_len := rewrite ?len_app, ?len_cons, ?len_app, ?len_cid_bytes, ?len_nil; hid_lia.

Ltac by_app :=
  unfold cid_bytes; cbn [app]; rewrite <- ?(assoc_L (++)); cbn [app]; rewrite <- ?(assoc_L (++)); reflexivity.

(** One continuation report, found at an offset. *)
Lemma parse_continuation_step fuel pre post cid c data remaining seq :
  0 < remaining -> len c = Z.min remaining continuationPacketDataSize ->
  let p := Packet cid 0 seq 0 c true in
  let written := pre ++ (0 :: packet_WriteTo p) ++ post in
  parse_continuations (S fuel) written cid data remaining (len pre) seq =
  parse_continuations fuel written cid (data ++ c) (remaining - len c)
    (len pre + hidReportPacketSize) (u8 (seq + 1)).
Proof.
  intros Hr Hc p written.
  assert (Hfits : packet_fits p) by (unfold packet_fits; simpl; lia).
  pose proof (len_packet_WriteTo _ Hfits) as Hlen.
  destruct (continuation_report cid seq c) as [pad Hpad]. fold p in Hpad.
  assert (Hw : len written = len pre + hidReportPacketSize + len post).
  { unfold written. rewrite !len_app, len_cons, Hlen. hid_lia. }
  cbn [parse_continuations]. destruct (Z.leb_spec remaining 0); [lia|]. rewrite Hw. len_nonneg_all.
  destruct (Z.ltb_spec (len pre + hidReportPacketSize + len post) (len pre + hidReportPacketSize)); [lia|].
  assert (Heq : written = pre ++ 0 :: (cid_bytes cid ++ seq :: (c ++ pad)) ++ post).
  { unfold written. by rewrite Hpad. }
  assert (A1 : at_index written (len pre) = Ok 0) by (eapply at_index_at; [exact Heq|done]).
  assert (A2 : subslice written (len pre + 1) (len pre + 5) = Ok (cid_bytes cid)).
  { apply (subslice_at _ (pre ++ [0]) _ ((seq :: c ++ pad) ++ post)); [|by_len..].
    rewrite Heq. by_app. }
  assert (A3 : at_index written (len pre + 5) = Ok seq).
  { apply (at_index_at _ (pre ++ 0 :: cid_bytes cid) _ ((c ++ pad) ++ post)); [|by_len].
    rewrite Heq. by_app. }
  assert (A4 : subslice written (len pre + 1 + continuationPacketHeaderSize)
                 (len pre + 1 + continuationPacketHeaderSize + len c) = Ok c).
  { apply (subslice_at _ (pre ++ 0 :: cid_bytes cid ++ [seq]) _ (pad ++ post)); [|by_len..].
    rewrite Heq. by_app. }
  clear Heq. clearbody written. rewrite A1. cbn [mbind result_bind negb Z.eqb].
  rewrite A2. cbn [mbind result_bind]. rewrite bool_decide_true by done. cbn [negb].
  rewrite A3. cbn [mbind result_bind]. rewrite Z.eqb_refl. cbn [negb]. by rewrite <- Hc, A4.
Qed.

Lemma parse_continuations_sent d : forall fuel pre post cid data seq,
  (length d <= fuel)%nat ->
  parse_continuations fuel (pre ++ sent (continuation_packets cid seq (cont_chunks d)) ++ post) cid data
    (len d) (len pre) seq =
  Ok (data ++ d, len pre + hidReportPacketSize * len (cont_chunks d)).
Proof.
  induction d as [|d Hd IH] using (chunk_ind _ continuation_size_pos); intros fuel pre post cid data seq Hf.
  - rewrite chunk_nil, app_nil_r, len_nil, Z.mul_0_r, Z.add_0_r. by destruct fuel.
  - pose proof (len_pos d Hd). destruct fuel as [|fuel]; [unfold len in *; lia|].
    rewrite chunk_step by (done || apply continuation_size_pos). cbn [continuation_packets]. set (c := take _ d) in *.
    assert (Hc : len c = Z.min (len d) continuationPacketDataSize).
    { unfold c. rewrite len_take. change (Z.of_nat (Z.to_nat continuationPacketDataSize)) with continuationPacketDataSize. lia. }
    assert (Hfits : packet_fits (Packet cid 0 seq 0 c true)) by (unfold packet_fits; simpl; lia).
    rewrite sent_report, app_comm_cons, <- (assoc_L (++)), (parse_continuation_step fuel) by done.
    specialize (IH fuel (pre ++ 0 :: packet_WriteTo (Packet cid 0 seq 0 c true)) post cid (data ++ c) (u8 (seq + 1))).
    rewrite <- !(assoc_L (++)) in IH. cbn [app] in IH |- *.
    rewrite len_app, len_cons, len_packet_WriteTo in IH by done.
    rewrite len_drop in IH. change (Z.of_nat (Z.to_nat continuationPacketDataSize)) with continuationPacketDataSize in IH.
    replace (len d - len c) with (Z.max 0 (len d - continuationPacketDataSize)) by lia.
    replace (len pre + hidReportPacketSize) with (len pre + (1 + hidPacketSize)) by hid_lia.
    rewrite IH.
    + rewrite len_cons. unfold c. rewrite take_drop. f_equal. f_equal. hid_lia.
    + rewrite length_drop. unfold len in *. hid_lia.
Qed.

Lemma NewMessage_split cid cmd data m :
  NewMessage cid cmd data = Ok m ->
  len data <= 7609 /\
  m = Packet cid cmd 0 (len data) (take (Z.to_nat (Z.min (len data) initPacketDataSize)) data) false
      :: continuation_packets cid 0 (cont_chunks (drop (Z.to_nat initPacketDataSize) data)).
Proof.
  unfold NewMessage. intros HN. destruct (Z.ltb_spec 7609 (len data)) as [|Hmax]; [done|].
  pose proof (len_nonneg data). rewrite u16_id in HN by lia. split; [done|].
  destruct (Z.ltb_spec initPacketDataSize (len data)) as [Hl|Hs]; injection HN as <-; [done|].
  rewrite (drop_ge data) by (unfold len in Hs; hid_lia). by rewrite chunk_nil.
Qed.

(** The header and the data of an initialisation report. *)
Lemma initialization_report cid cmd n data :
  exists pad, 0 :: packet_WriteTo (Packet cid cmd 0 n data false) =
    0 :: cid_bytes cid ++ [Z.lor cmd INIT_PACKET_BIT; u8 (Z.shiftr n 8); u8 n] ++ data ++ pad.
Proof. destruct (packet_WriteTo_prefix (Packet cid cmd 0 n data false)) as [pad ->]. by exists pad. Qed.

Lemma first_and_rest (data : list Z) :
  let d0 := take (Z.to_nat (Z.min (len data) initPacketDataSize)) data in
  let d := drop (Z.to_nat initPacketDataSize) data in
  len d0 = Z.min (len data) initPacketDataSize /\ len d = len data - len d0 /\ d0 ++ d = data.
Proof.
  intros d0 d. unfold d0, d. len_nonneg_all.
  assert (Hd0 : len (take (Z.to_nat (Z.min (len data) initPacketDataSize)) data)
                = Z.min (len data) initPacketDataSize) by (rewrite len_take; hid_lia).
  split; [done|]. split; [rewrite Hd0, len_drop; hid_lia|].
  destruct (Z.le_gt_cases (len data) initPacketDataSize) as [Hs|Hl].
  - rewrite Z.min_l, (drop_ge data) by (unfold len in *; hid_lia). unfold len.
    by rewrite Nat2Z.id, firstn_all, app_nil_r.
  - rewrite Z.min_r by lia. apply take_drop.
Qed.

Lemma parseRequest_sent cid cmd data m post :
  0 <= cmd < 128 -> NewMessage cid cmd data = Ok m ->
  parseRequest (sent m ++ post) = Ok (MkRequest cid cmd data, hidReportPacketSize * len m).
Proof.
  intros Hcmd HN. pose proof (NewMessage_fits _ _ _ _ HN) as Hall.
  apply NewMessage_split in HN as [Hmax Hm]. set (d0 := take _ data) in Hm.
  set (p0 := Packet cid cmd 0 (len data) d0 false) in Hm.
  set (d := drop (Z.to_nat initPacketDataSize) data) in Hm.
  destruct (first_and_rest data) as (Hd0 & Hd & Hdata). fold d0 d in Hd0, Hd, Hdata.
  assert (Hfits : packet_fits p0) by (subst m; by apply Forall_cons in Hall as [? _]).
  pose proof (len_packet_WriteTo _ Hfits) as Hlen.
  destruct (initialization_report cid cmd (len data) d0) as [pad Hpad]. fold p0 in Hpad.
  set (rest := sent (continuation_packets cid 0 (cont_chunks d)) ++ post).
  set (written := sent m ++ post).
  assert (Hsplit : written = (0 :: packet_WriteTo p0) ++ rest).
  { unfold written, rest. rewrite Hm, sent_report. by_app. }
  assert (Hw : len written = hidReportPacketSize + len rest).
  { rewrite Hsplit, len_app, len_cons, Hlen. hid_lia. }
  assert (Heq : written = 0 :: cid_bytes cid ++
      [Z.lor cmd INIT_PACKET_BIT; u8 (Z.shiftr (len data) 8); u8 (len data)] ++ d0 ++ pad ++ rest).
  { rewrite Hsplit, Hpad. by_app. }
  assert (A0 : at_index written 0 = Ok 0) by (rewrite Heq; by eapply (at_index_at _ [])).
  assert (A1 : subslice written 1 5 = Ok (cid_bytes cid)) by (rewrite Heq; by eapply (subslice_at _ [0])).
  assert (A5 : at_index written 5 = Ok (Z.lor cmd INIT_PACKET_BIT)).
  { rewrite Heq. by eapply (at_index_at _ (0 :: cid_bytes cid)). }
  assert (A6 : at_index written 6 = Ok (u8 (Z.shiftr (len data) 8))).
  { rewrite Heq. by eapply (at_index_at _ (0 :: cid_bytes cid ++ [_])). }
  assert (A7 : at_index written 7 = Ok (u8 (len data))).
  { rewrite Heq. by eapply (at_index_at _ (0 :: cid_bytes cid ++ [_; _])). }
  assert (A8 : subslice written 8 (8 + len d0) = Ok d0).
  { rewrite Heq. by eapply (subslice_at _ (0 :: cid_bytes cid ++ [_; _; _])). }
  unfold parseRequest. rewrite Hw. len_nonneg_all.
  destruct (Z.ltb_spec (hidReportPacketSize + len rest) hidReportPacketSize); [lia|].
  rewrite A0. cbn [mbind result_bind negb Z.eqb]. rewrite A1. cbn [mbind result_bind].
  rewrite A5. cbn [mbind result_bind]. rewrite has_bit_init_command by done. cbn [negb].
  rewrite A6. cbn [mbind result_bind]. rewrite A7. cbn [mbind result_bind].
  rewrite get_put_be16. unfold u16. rewrite Z.mod_small, <- Hd0, A8 by lia. cbn [mbind result_bind].
  rewrite <- Hd, Hsplit.
  pose proof (parse_continuations_sent d (Z.to_nat (len d)) (0 :: packet_WriteTo p0) post cid d0 0) as HP.
  rewrite len_cons, Hlen in HP. change (1 + hidPacketSize) with hidReportPacketSize in HP.
  change (cid_of (cid_bytes cid)) with (cid_of (take 4 (cid_bytes cid ++ []))). rewrite cid_of_bytes.
  unfold rest. rewrite HP by (unfold len; lia). cbn [mbind result_bind].
  rewrite Hdata. change (255 - initPacketBit) with 0x7f. rewrite command_of_init by done.
  do 2 f_equal. rewrite Hm, len_cons, len_continuation_packets. lia.
Qed.

(** ** Any bytes *)

(** Neither a panic nor waiting for more. *)
Definition settles {A} (r : result A) : Prop := r <> Panic /\ r <> Blocked.

Lemma subslice_in_range l lo hi :
  0 <= lo <= hi -> hi <= len l -> exists s, subslice l lo hi = Ok s /\ len s = hi - lo.
Proof.
  intros Hlo Hhi. unfold subslice. eexists.
  destruct (Z.leb_spec 0 lo), (Z.leb_spec lo hi), (Z.leb_spec hi (len l)); try lia. split; [done|].
  rewrite len_take, len_drop. lia.
Qed.

Lemma at_index_in_range l i : 0 <= i < len l -> exists x, at_index l i = Ok x.
Proof.
  intros Hi. unfold at_index. eexists. destruct (Z.leb_spec 0 i), (Z.ltb_spec i (len l)); try lia. done.
Qed.

Lemma parse_continuations_settles fuel : forall written cid data remaining consumed seq,
  remaining <= Z.of_nat fuel -> 0 <= consumed <= len written ->
  let r := parse_continuations fuel written cid data remaining consumed seq in
  settles r /\ (forall data' consumed', r = Ok (data', consumed') -> consumed <= consumed' <= len written).
Proof.
  induction fuel as [|fuel IH]; intros written cid data remaining consumed seq Hf Hc; cbn [parse_continuations].
  { destruct (Z.leb_spec remaining 0); [|lia]. split; [by split|]. intros ?? [= <- <-]. lia. }
  destruct (Z.leb_spec remaining 0).
  { split; [by split|]. intros ?? [= <- <-]. lia. }
  destruct (Z.ltb_spec (len written) (consumed + hidReportPacketSize)); [by split; [split|]|].
  destruct (at_index_in_range written consumed) as [id ->]; [hid_lia|]. cbn [mbind result_bind].
  destruct (negb (id =? 0)); [by split; [split|]|].
  destruct (subslice_in_range written (consumed + 1) (consumed + 5)) as (raw & -> & _); [lia|hid_lia|].
  cbn [mbind result_bind]. destruct (negb (bool_decide _)); [by split; [split|]|].
  destruct (at_index_in_range written (consumed + 5)) as [s ->]; [hid_lia|]. cbn [mbind result_bind].
  destruct (negb (s =? seq)); [by split; [split|]|].
  set (n := Z.min remaining continuationPacketDataSize).
  assert (Hn : 0 < n <= 59) by (unfold n; hid_lia).
  destruct (subslice_in_range written (consumed + 1 + continuationPacketHeaderSize)
    (consumed + 1 + continuationPacketHeaderSize + n)) as (chunk & -> & _); [hid_lia..|].
  cbn [mbind result_bind].
  destruct (IH written cid (data ++ chunk) (remaining - n) (consumed + hidReportPacketSize) (u8 (seq + 1)))
    as [Hs Hr]; [hid_lia..|]. split; [done|]. intros data' consumed' Heq. specialize (Hr _ _ Heq). hid_lia.
Qed.

Lemma at_index_byte l i x : Forall is_byte l -> at_index l i = Ok x -> is_byte x.
Proof. unfold at_index. intros Hl H. case_all H. by apply report_byte. Qed.

Lemma parseRequest_settles written :
  Forall is_byte written ->
  settles (parseRequest written) /\
  (forall q consumed, parseRequest written = Ok (q, consumed) -> hidReportPacketSize <= consumed <= len written).
Proof.
  intros Hbytes. unfold parseRequest.
  destruct (Z.ltb_spec (len written) hidReportPacketSize) as [|Hlen]; [by split; [split|]|].
  destruct (at_index_in_range written 0) as [id ->]; [hid_lia|]. cbn [mbind result_bind].
  destruct (negb (id =? 0)); [by split; [split|]|].
  destruct (subslice_in_range written 1 5) as (raw & -> & _); [hid_lia..|]. cbn [mbind result_bind].
  destruct (at_index_in_range written 5) as [cmd ->]; [hid_lia|]. cbn [mbind result_bind].
  destruct (negb (has_bit cmd initPacketBit)); [by split; [split|]|].
  destruct (at_index_in_range written 6) as [b0 H0]; [hid_lia|]. rewrite H0. cbn [mbind result_bind].
  destruct (at_index_in_range written 7) as [b1 H1]; [hid_lia|]. rewrite H1. cbn [mbind result_bind].
  assert (0 <= get_be16 b0 b1 < 65536) by (apply get_be16_range; by eapply at_index_byte).
  set (n := Z.min (get_be16 b0 b1) initPacketDataSize).
  destruct (subslice_in_range written 8 (8 + n)) as (data & -> & _); [unfold n; hid_lia..|].
  cbn [mbind result_bind].
  destruct (parse_continuations_settles (Z.to_nat (get_be16 b0 b1 - n)) written (cid_of raw) data
    (get_be16 b0 b1 - n) hidReportPacketSize 0) as [[Hp Hb] Hr]; [lia|hid_lia|].
  destruct (parse_continuations _ _ _ _ _ _ _) as [[data' consumed]|e| |]; try done.
  split; [by split|]. intros q c [= <- <-]. by eapply Hr.
Qed.

Lemma ParseRequests_settles written : Forall is_byte written -> settles (ParseRequests written).
Proof.
  assert (Hloop : forall fuel written requests, Forall is_byte written -> (length written <= fuel)%nat ->
      settles (ParseRequests_loop fuel written requests)).
  { induction fuel as [|fuel IH]; intros written' requests Hb Hf; cbn [ParseRequests_loop];
      destruct (Z.leb_spec (len written') 0); try (by split); [unfold len in *; lia|].
    destruct (parseRequest_settles written' Hb) as [[Hp Hbl] Hr].
    destruct (parseRequest written') as [[q consumed]|e| |]; try done. cbn [mbind result_bind].
    specialize (Hr _ _ eq_refl).
    destruct (subslice_in_range written' consumed (len written')) as (rest & Hs & Hlen); [hid_lia..|].
    rewrite Hs. cbn [mbind result_bind]. apply IH.
    - unfold subslice in Hs. case_all Hs. by apply Forall_take, Forall_drop.
    - unfold len in *. hid_lia. }
  intros Hb. by apply Hloop.
Qed.

(** ** Scripts *)

(** What a program sends: messages of a command, with the requests they are. *)
Definition sends (q : Request) (m : Message) : Prop :=
  0 <= q_Command q < 128 /\ NewMessage (q_CID q) (q_Command q) (q_Data q) = Ok m.

Lemma ParseRequests_sent qs ms : Forall2 sends qs ms -> ParseRequests (concat (sent <$> ms)) = Ok qs.
Proof.
  assert (Hloop : forall fuel requests, Forall2 sends qs ms -> (length ms <= fuel)%nat ->
      ParseRequests_loop fuel (concat (sent <$> ms)) requests = Ok (requests ++ qs)).
  { intros fuel requests Hall. revert fuel requests.
    induction Hall as [|[cid cmd data] m qs ms [Hcmd HN] _ IH]; intros fuel requests Hf.
    - destruct fuel; cbn; by rewrite app_nil_r.
    - destruct fuel as [|fuel]; [simpl in Hf; lia|]. cbn [ParseRequests_loop fmap list_fmap concat].
      pose proof (len_sent m (NewMessage_fits _ _ _ _ HN)) as Hs.
      assert (0 < len m) as Hm by (apply NewMessage_split in HN as [_ ->]; rewrite len_cons; len_nonneg_all; lia).
      rewrite len_app, Hs. len_nonneg_all.
      destruct (Z.leb_spec (hidReportPacketSize * len m + len (concat (sent <$> ms))) 0); [hid_lia|].
      rewrite (parseRequest_sent cid cmd data m) by done. cbn [mbind result_bind].
      rewrite (subslice_at _ (sent m) (concat (sent <$> ms)) []) by (rewrite ?app_nil_r; done || lia).
      cbn [mbind result_bind]. rewrite IH by (simpl in Hf; lia). by rewrite <- (assoc_L (++)). }
  intros Hall. unfold ParseRequests. apply Hloop; [done|].
  rewrite <- (length_fmap sent). clear Hloop.
  induction Hall as [|q m qs ms [_ HN] _ IH]; [done|]. cbn. rewrite length_app.
  pose proof (len_sent m (NewMessage_fits _ _ _ _ HN)) as Hs.
  apply NewMessage_split in HN as [_ Hm]. assert (0 < len m) by (rewrite Hm, len_cons; len_nonneg_all; lia).
  unfold len in *. hid_lia.
Qed.

(** A response and the message that carries it. *)
Definition carries (r : Response) (m : Message) : Prop :=
  0 <= r_Command r < 128 /\ NewMessage (r_CID r) (r_Command r) (r_Data r) = Ok m.

Definition stream (m : Message) : list Z := concat (packet_WriteTo <$> m).

Lemma New_reads_carried rs ms reads :
  Forall2 carries rs ms -> New_reads rs reads = Ok (reads ++ concat (stream <$> ms)).
Proof.
  intros Hall. revert reads. induction Hall as [|[cid cmd data] m rs ms [_ HN] _ IH]; intros reads.
  - cbn. by rewrite app_nil_r.
  - cbn [New_reads]. rewrite HN. fold (sent m).
    rewrite stripReportIDs_sent by (by eapply NewMessage_fits). cbn [mbind result_bind].
    rewrite IH. by rewrite <- (assoc_L (++)).
Qed.

Lemma script_carried rs :
  Forall (fun r => 0 <= r_Command r < 128 /\ len (r_Data r) <= 7609) rs -> exists ms, Forall2 carries rs ms.
Proof.
  induction 1 as [|r rs [Hcmd Hlen] _ [ms IH]]; [by exists []|].
  assert (exists m, NewMessage (r_CID r) (r_Command r) (r_Data r) = Ok m) as [m HN].
  { unfold NewMessage. destruct (Z.ltb_spec 7609 (len (r_Data r))); [lia|].
    destruct (initPacketDataSize <? len (r_Data r)); eauto. }
  exists (m :: ms). constructor; [done|exact IH].
Qed.

(** What reading the device report by report gives, until an error. *)
Fixpoint drain (fuel : nat) : M Device (list read_event) :=
  '(raw, err) ← Read (Z.to_nat hidPacketSize);
  match err, fuel with
  | Some e, _ => mret [ReadError e]
  | None, O => blocked
  | None, S fuel' => rest ← drain fuel'; mret (Report raw :: rest)
  end.

Lemma drain_packets ps fuel writes closed :
  Forall packet_fits ps -> (length ps <= fuel)%nat ->
  drain fuel (MkDevice (concat (packet_WriteTo <$> ps)) writes closed)
  = (Ok (wire ps ++ [ReadError io_EOF]), MkDevice [] writes closed).
Proof.
  intros Hall. revert fuel. induction Hall as [|p ps Hp Hall IH]; intros fuel Hf.
  - by destruct fuel.
  - destruct fuel as [|fuel]; [simpl in Hf; lia|]. apply len_packet_WriteTo in Hp.
    cbn [fmap list_fmap concat]. cbn [drain].
    assert (Hread : Read (Z.to_nat hidPacketSize)
        (MkDevice (packet_WriteTo p ++ concat (packet_WriteTo <$> ps)) writes closed)
      = (Ok (packet_WriteTo p, None), MkDevice (concat (packet_WriteTo <$> ps)) writes closed)).
    { unfold Read. cbn [d_reads d_writes d_closed]. rewrite bool_decide_false.
      - rewrite <- Hp. unfold len. by rewrite Nat2Z.id, take_app_length, drop_app_length.
      - intros Hnil%app_nil. destruct Hnil as [Hnil _]. by rewrite Hnil in Hp. }
    rewrite (M_bind_Ok _ _ _ _ _ Hread). cbn.
    by rewrite (M_bind_Ok _ _ _ _ _ (IH fuel ltac:(simpl in Hf; lia))).
Qed.

(** A client that takes that many messages off a connection. *)
Fixpoint receive (count : nat) : M hid (list Message) :=
  match count with
  | O => mret []
  | S count' => '(m, _) ← ReadFrom; ms ← receive count'; mret (m :: ms)
  end.

Lemma receive_carried rs ms : forall w rest,
  Forall2 carries rs ms -> rx w = wire (concat ms) ++ rest ->
  receive (length rs) w = (Ok ms, set_rx rest w).
Proof.
  intros w rest Hall. revert w. induction Hall as [|[cid cmd data] m rs ms [Hcmd HN] _ IH]; intros w Hrx.
  - cbn in *. unfold mret, M_ret, set_rx. rewrite <- Hrx. by destruct w.
  - cbn [length receive]. cbn [concat] in Hrx. unfold wire in Hrx. rewrite fmap_app, <- (assoc_L (++)) in Hrx.
    rewrite (M_bind_Ok _ _ _ _ _ (ReadFrom_wire cid cmd data m w _ Hcmd HN Hrx)). cbn.
    by erewrite M_bind_Ok; [|apply IH; reflexivity].
Qed.

Lemma carried_fields r m :
  carries r m -> Message_CID m = Ok (r_CID r) /\ Message_Command m = Ok (r_Command r) /\ Payload m = Ok (r_Data r).
Proof.
  destruct r as [cid cmd data]. intros [_ HN]. pose proof (payload_NewMessage _ _ _ _ HN) as Hp.
  apply NewMessage_split in HN as [_ Hm]. cbn in Hp |- *. split_and!; [by rewrite Hm|by rewrite Hm|].
  destruct m; [done|]. cbn [Payload]. by rewrite Hp.
Qed.

(** The writes of a client, one per report. *)
Fixpoint write_all (reports : list (list Z)) : M Device unit :=
  match reports with [] => mret tt | report :: reports' => Write report;; write_all reports' end.

Lemma write_all_spec reports : forall d,
  write_all reports d = (Ok tt, MkDevice (d_reads d) (d_writes d ++ concat reports) (d_closed d)).
Proof.
  induction reports as [|report reports IH]; intros d; cbn.
  - rewrite app_nil_r. by destruct d.
  - unfold mbind, M_bind. cbn. rewrite IH. cbn. by rewrite <- (assoc_L (++)).
Qed.

Lemma concat_sent ms : concat (concat (OutputReports <$> ms)) = concat (sent <$> ms).
Proof. induction ms as [|m ms IH]; [done|]. cbn. by rewrite concat_app, IH. Qed.

Lemma concat_stream ms : concat (stream <$> ms) = concat (packet_WriteTo <$> concat ms).
Proof. induction ms as [|m ms IH]; [done|]. cbn. by rewrite fmap_app, concat_app, IH. Qed.

(** The scripted device is an independent reference for the framing.
    What a client writes to it report by report, message after message, is
    parsed back as the requests that were sent - channel, command and data.
    Every script of commands below 128 and data of at most 7609 bytes makes a
    device, whose reads, report by report until the end of the file, decode
    to one message per response with its channel, command and data. And the
    parser settles, with requests or an error, on every sequence of bytes. *)
Theorem scripted_device_agrees :
  (forall qs ms d, Forall2 sends qs ms -> d_writes d = [] ->
     exists d', write_all (concat (OutputReports <$> ms)) d = (Ok tt, d') /\ Requests d' = Ok qs) /\
  (forall rs, Forall (fun r => 0 <= r_Command r < 128 /\ len (r_Data r) <= 7609) rs ->
     exists d d' events ms w', New rs = Ok d /\ drain (length (d_reads d)) d = (Ok events, d') /\
       receive (length rs) (Hid events [] [] [] 0) = (Ok ms, w') /\ rx w' = [ReadError io_EOF] /\
       Forall2 (fun r m => Message_CID m = Ok (r_CID r) /\ Message_Command m = Ok (r_Command r) /\
                           Payload m = Ok (r_Data r)) rs ms) /\
  (forall written, Forall is_byte written -> settles (ParseRequests written)).
Proof.
  split_and!; [| |apply ParseRequests_settles].
  - intros qs ms d Hall Hd. eexists. split; [apply write_all_spec|].
    unfold Requests. cbn [d_writes]. rewrite Hd, concat_sent, app_nil_l. by rewrite (ParseRequests_sent qs ms).
  - intros rs Hrs. destruct (script_carried rs Hrs) as [ms Hall].
    assert (Hfits : Forall packet_fits (concat ms)).
    { clear Hrs. induction Hall as [|r m rs ms [_ HN] _ IH]; [constructor|].
      apply Forall_app. split; [by eapply NewMessage_fits|done]. }
    set (d := MkDevice (concat (packet_WriteTo <$> concat ms)) [] false).
    exists d, (MkDevice [] [] false), (wire (concat ms) ++ [ReadError io_EOF]), ms.
    eexists. split_and!.
    + unfold New. rewrite (New_reads_carried rs ms) by done. cbn. by rewrite concat_stream.
    + apply drain_packets; [done|]. cbn [d d_reads]. clear -Hfits.
      induction Hfits as [|p ps Hp _ IH]; [done|]. cbn. rewrite length_app. apply len_packet_WriteTo in Hp.
      unfold len in Hp. hid_lia.
    + by eapply receive_carried.
    + done.
    + eapply Forall2_impl; [exact Hall|]. intros r m. apply carried_fields.
Qed.

(** A PING and a request of 100 bytes sent to a device with two answers. *)
Lemma scripted_device_agrees_witness :
  let cid := CID 1 2 3 4 in
  let data := 0x01 :: replicate 99 7 in
  let qs := [MkRequest cid CTAPHID_PING [1; 2; 3]; MkRequest cid CTAPHID_CBOR data] in
  let rs := [Keepalive cid 1; CBOROK cid (replicate 200 9)] in
  (exists ms d d', New rs = Ok d /\ Forall2 sends qs ms /\
     write_all (concat (OutputReports <$> ms)) d = (Ok tt, d') /\ Requests d' = Ok qs) /\
  (exists d, New rs = Ok d) /\
  settles (ParseRequests [0; 1; 2]).
Proof.
  intros cid data qs rs. split_and!.
  - assert (exists m, NewMessage cid CTAPHID_PING [1; 2; 3] = Ok m) as [m1 H1] by (eexists; vm_compute; reflexivity).
    assert (exists m, NewMessage cid CTAPHID_CBOR data = Ok m) as [m2 H2] by (eexists; vm_compute; reflexivity).
    assert (exists d, New rs = Ok d /\ d_writes d = []) as (d & Hd & Hw0)
      by (eexists; split; vm_compute; reflexivity).
    assert (Hs : Forall2 sends qs [m1; m2]).
    { constructor; [split; [vm_compute; split; [discriminate|reflexivity]|exact H1]|]. constructor; [split; [vm_compute; split; [discriminate|reflexivity]|exact H2]|constructor]. }
    destruct (proj1 scripted_device_agrees qs [m1; m2] d Hs Hw0) as (d' & Hw & Hq).
    exists [m1; m2], d, d'. split; [exact Hd|]. split; [exact Hs|]. split; [exact Hw|exact Hq].
  - destruct (proj1 (proj2 scripted_device_agrees) rs) as (d & _ & _ & _ & _ & Hd & _); [|by exists d].
    unfold rs. repeat constructor; vm_compute; done.
  - apply (proj2 (proj2 scripted_device_agrees)). repeat constructor; vm_compute; done.
Defined.
